(** * QA Companion: the session orchestration core of the background worker

    A shallow embedding of [entrypoints/background.ts] and [lib/storage.ts]:
    the session map, the request/response correlation table, the telemetry
    buffers with their single-flight flush, and the batch store.

    Conventions of the embedding.
    - JavaScript numbers that hold integers (epoch milliseconds, counters,
      batch indices, HTTP status codes) are [Z] or [N]; numbers that hold
      fractional seconds (CDP [timestamp] and [wallTime]) are rationals
      [Q], and the arithmetic of the TTL sweep rounds them as doubles
      ([JS.toDouble]).
    - A string is the sequence of its bytes in UTF-8.
    - A [Map] whose iteration order the code never depends on is a [gmap];
      [sessions], which the code scans with [Array.from(...).find], keeps
      its insertion order as an association list.
    - An [async] handler is cut at the [await]s that separate two of its
      state mutations: each piece is a function on [State], and the event
      loop is the list of pieces it runs ([Event], [step], [run]). *)

From Stdlib Require Import ZArith NArith QArith Qround Qabs Ascii String Decimal
  DecimalString DecimalN DecimalPos Lqa.
From stdpp Require Import base gmap strings list sorting.

#[local] Open Scope Z_scope.

(** ** JavaScript strings and numbers *)

Module JS.

(** [s.startsWith(p)] *)
Fixpoint startsWith (p s : string) : bool :=
  match p, s with
  | EmptyString, _ => true
  | String a p', String b s' => if Ascii.eqb a b then startsWith p' s' else false
  | String _ _, EmptyString => false
  end.

(** [s.split(sep)] for a one-character separator: never empty. *)
Fixpoint split (sep : ascii) (s : string) : list string :=
  match s with
  | EmptyString => [EmptyString]
  | String c s' =>
      if Ascii.eqb c sep then EmptyString :: split sep s'
      else match split sep s' with
           | [] => [String c EmptyString]
           | w :: ws => String c w :: ws
           end
  end.

(** [arr.pop()]: the last element, [undefined] on the empty array. *)
Definition pop (l : list string) : option string := last l.

(** [x || d] on an optional string: [undefined] and [""] are falsy. *)
Definition orString (x : option string) (d : string) : string :=
  match x with
  | Some EmptyString | None => d
  | Some s => s
  end.

Definition isDigit (c : ascii) : bool :=
  match Ascii.is_nat c with Some _ => true | None => false end.

Definition digitValue (c : ascii) : Z :=
  match Ascii.is_nat c with Some d => Z.of_nat d | None => 0 end.

(** The value of the longest prefix of decimal digits, and whether that
    prefix is non-empty. *)
Fixpoint parseDigits (s : string) (seen : bool) (acc : Z) : option Z :=
  match s with
  | String c s' =>
      if isDigit c then parseDigits s' true (10 * acc + digitValue c)
      else if seen then Some acc else None
  | EmptyString => if seen then Some acc else None
  end.

Fixpoint skipSpaces (s : string) : string :=
  match s with
  | String c s' => if Ascii.is_space c then skipSpaces s' else s
  | EmptyString => s
  end.

(** [parseInt(s, 10)]; [None] is [NaN]. *)
Definition parseInt (s : string) : option Z :=
  match skipSpaces s with
  | String "-" s' => Z.opp <$> parseDigits s' false 0
  | String "+" s' => parseDigits s' false 0
  | s' => parseDigits s' false 0
  end.

(** A non-negative integer inside a template literal. *)
Definition numToString (n : N) : string :=
  NilEmpty.string_of_uint (N.to_uint n).

(** An integer inside a template literal. *)
Definition intToString (z : Z) : string :=
  match z with
  | Zneg p => String "-" (numToString (Npos p))
  | _ => numToString (Z.to_N z)
  end.

(** The comparator [(a, b) => indexA - indexB]; a [NaN] difference is
    read as [+0] by [Array.prototype.sort]. *)
Definition compareIndex (a b : option Z) : Z :=
  match a, b with
  | Some x, Some y => x - y
  | _, _ => 0
  end.

(** [Array.prototype.sort(cmp)] is stable; insertion sort is. *)
Fixpoint insertBy {A} (cmp : A → A → Z) (x : A) (l : list A) : list A :=
  match l with
  | [] => [x]
  | y :: l' => if cmp x y <=? 0 then x :: y :: l' else y :: insertBy cmp x l'
  end.

Fixpoint sortBy {A} (cmp : A → A → Z) (l : list A) : list A :=
  match l with
  | [] => []
  | x :: l' => insertBy cmp x (sortBy cmp l')
  end.

(** [Math.round]: the nearest integer, halves towards plus infinity. *)
Definition mathRound (x : Q) : Z := Qfloor (x + (1 # 2)).

Definition Qgtb (x y : Q) : bool := negb (Qle_bool x y).

(** [2 ^ e] for an integer exponent *)
Definition pow2 (e : Z) : Q :=
  match e with
  | Z0 => 1
  | Zpos p => inject_Z (2 ^ Zpos p)
  | Zneg p => 1 # (2 ^ p)
  end.

(** The integer part of the binary logarithm of [|x|], for [x] not zero *)
Definition floorLog2 (x : Q) : Z :=
  let k := Z.log2 (Z.abs (Qnum x)) - Z.log2 (Zpos (Qden x)) in
  if Qle_bool (pow2 k) (Qabs x) then k else k - 1.

Definition roundTiesToEven (x : Q) : Z :=
  let f := Qfloor x in
  match (x - inject_Z f ?= 1 # 2)%Q with
  | Lt => f
  | Gt => f + 1
  | Eq => if Z.even f then f else f + 1
  end.

(** The double nearest to [x], ties to even: what a number is when it is
    read from JSON and what [*] and [-] return for the exact product and
    difference of two doubles. A double has 53 significant bits and its
    last place is [2 ^ -1074] or more. Numbers beyond the largest double
    are not turned into infinities: they keep their sign, which is all
    the comparison of the sweep looks at. *)
Definition toDouble (x : Q) : Q :=
  if Qeq_bool x 0 then 0%Q
  else
    let e := Z.max (floorLog2 x - 52) (-1074) in
    (inject_Z (roundTiesToEven (x / pow2 e)) * pow2 e)%Q.

(** [x || d] on an optional number: [undefined] and [0] are falsy. *)
Definition orQ (x : option Q) (d : Q) : Q :=
  match x with
  | Some q => if Qeq_bool q 0 then d else q
  | None => d
  end.

Definition orZ (x : option Z) (d : Z) : Z :=
  match x with
  | Some 0 | None => d
  | Some z => z
  end.

(** A string in a condition: [undefined] and [""] are falsy. *)
Definition truthy (x : option string) : option string :=
  match x with
  | Some EmptyString | None => None
  | Some s => Some s
  end.

Definition lowerAscii (c : ascii) : ascii :=
  let n := nat_of_ascii c in
  if ((65 <=? n) && (n <=? 90))%nat then ascii_of_nat (n + 32) else c.

(** [s.toLowerCase()]. The ASCII capitals are lowered, and so is the
    Kelvin sign U+212A (the bytes [E2 84 AA]), whose lower case is [k]:
    it is the one character outside ASCII whose lower case is made of
    ASCII characters only. Any other character outside ASCII is left as
    it is; JavaScript gives for it characters outside ASCII too, so the
    result is equal to a string of ASCII characters exactly when the
    result of JavaScript is. *)
Fixpoint toLowerCase (s : string) : string :=
  match s with
  | EmptyString => EmptyString
  | String c s' =>
      match c, s' with
      | "226"%char, String "132"%char (String "170"%char s'') =>
          String "k" (toLowerCase s'')
      | _, _ => String (lowerAscii c) (toLowerCase s')
      end
  end.

(** [arr.join(' ')] *)
Fixpoint join (sep : string) (l : list string) : string :=
  match l with
  | [] => EmptyString
  | [x] => x
  | x :: l' => x +:+ sep +:+ join sep l'
  end.

End JS.

(** ** Telemetry and session records ([types/telemetry], [types/session.ts]) *)

Abbreviation Headers := (list (string * string)).

(** The fields [handleNetworkResponse] and [handleNetworkLoadingFailed]
    assign when they build a [NetworkEvent]. *)
Record NetworkEvent := {
  requestId : string;
  url : string;
  method : string;
  headers : Headers;
  postData : option string;
  timestamp : Q;
  wallTime : Q;
  videoTimestamp : Z;
  status : Z;
  statusText : string;
  responseHeaders : option Headers;
  mimeType : option string;
}.

(** [Partial<NetworkEvent>], as [handleNetworkRequestWillBeSent] fills it. *)
Record PartialNetworkEvent := {
  p_requestId : option string;
  p_url : option string;
  p_method : option string;
  p_headers : option Headers;
  p_postData : option string;
  p_timestamp : option Q;
  p_wallTime : option Q;
  p_videoTimestamp : option Z;
}.

Inductive ConsoleLevel := LevelLog | LevelWarn | LevelError | LevelInfo | LevelDebug.

Record ConsoleEvent := {
  c_level : ConsoleLevel;
  c_text : string;
  c_args : list (option string);
  c_stackTrace : option string;
  c_timestamp : Q;
  c_wallTime : Z;
  c_videoTimestamp : Z;
  c_url : option string;
  c_lineNumber : option Z;
}.

Record DOMEvent := {
  d_eventType : string;
  d_selector : string;
  d_timestamp : Z;
  d_videoTimestamp : Z;
  d_metadata : option string;
}.

Inductive Status := Idle | Recording | Stopping | Completed | Error.

#[global] Instance Status_eq_dec : EqDecision Status.
Proof. solve_decision. Defined.

Record SessionState := {
  sessionId : string;
  tabId : Z;
  sstatus : Status;
  sessionStartTime : Z;
  sessionStopTime : option Z;
  includeAudio : bool;
  includeMicrophone : bool;
  recordingChunkCount : N;
  screenshotCount : N;
  networkEventCount : N;
  consoleEventCount : N;
  domEventCount : N;
  debuggerAttached : bool;
  offscreenDocumentActive : bool;
  lastError : option string;
  errorRecoverable : option bool;
}.

Record SessionMetadata := {
  m_sessionId : string;
  m_tabId : Z;
  m_url : string;
  m_title : string;
  m_startTime : Z;
  m_endTime : option Z;
  m_duration : option Z;
}.

(** ** Timestamp synchronisation ([lib/sync]) *)

Module Sync.

(** Modelled from the spec: [lib/sync.ts] is imported by
    [background.ts] but is not among the sources; section 4.4 gives
    [videoOffset(eventWallClockMs) = eventWallClockMs - T0]. The
    argument order is the one of the call sites,
    [calculateVideoTimestamp(session.sessionStartTime, wallTime)]. *)
Definition calculateVideoTimestamp (sessionStartTime eventWallClockMs : Z) : Z :=
  eventWallClockMs - sessionStartTime.

(** Modelled from the spec: [lib/sync.ts] is not among the sources;
    section 4.4 gives, for a wall clock in fractional seconds,
    [videoOffset = round(eventWallClockSeconds * 1000) - T0]. The
    argument order is the one of the call site,
    [cdpWallTimeToVideoOffset(params.wallTime, session.sessionStartTime)]. *)
Definition cdpWallTimeToVideoOffset (wallTimeSeconds : Q) (sessionStartTime : Z) : Z :=
  JS.mathRound (wallTimeSeconds * 1000) - sessionStartTime.

End Sync.

(** ** The batch store ([lib/storage.ts] over idb-keyval) *)

Module Storage.

(** What a key of the store holds. *)
Inductive value :=
| NetworkBatch (events : list NetworkEvent)
| ConsoleBatch (events : list ConsoleEvent)
| DOMBatch (events : list DOMEvent)
| Metadata (m : SessionMetadata)
| Opaque.

Abbreviation db := (gmap string value).

Inductive StorageKeyType :=
| KChunk | KScreenshot | KNetwork | KConsole | KDom | KRrweb | KMetadata | KState.

Definition typeName (t : StorageKeyType) : string :=
  match t with
  | KChunk => "chunk" | KScreenshot => "screenshot" | KNetwork => "network"
  | KConsole => "console" | KDom => "dom" | KRrweb => "rrweb"
  | KMetadata => "metadata" | KState => "state"
  end.

Definition createStorageKey (sessionId : string) (type : StorageKeyType)
    (index : option N) : string :=
  match index with
  | Some i => sessionId +:+ ":" +:+ typeName type +:+ ":" +:+ JS.numToString i
  | None => sessionId +:+ ":" +:+ typeName type
  end.

Definition networkBatchPrefix (sessionId : string) : string :=
  sessionId +:+ ":network:batch:".
Definition consoleBatchPrefix (sessionId : string) : string :=
  sessionId +:+ ":console:batch:".
Definition domBatchPrefix (sessionId : string) : string :=
  sessionId +:+ ":dom:batch:".

Definition networkBatchKey (sessionId : string) (batchIndex : N) : string :=
  networkBatchPrefix sessionId +:+ JS.numToString batchIndex.
Definition consoleBatchKey (sessionId : string) (batchIndex : N) : string :=
  consoleBatchPrefix sessionId +:+ JS.numToString batchIndex.
Definition domBatchKey (sessionId : string) (batchIndex : N) : string :=
  domBatchPrefix sessionId +:+ JS.numToString batchIndex.

Definition storeNetworkEventBatch (d : db) (sessionId : string) (batchIndex : N)
    (events : list NetworkEvent) : db :=
  <[networkBatchKey sessionId batchIndex := NetworkBatch events]> d.

Definition storeConsoleEventBatch (d : db) (sessionId : string) (batchIndex : N)
    (events : list ConsoleEvent) : db :=
  <[consoleBatchKey sessionId batchIndex := ConsoleBatch events]> d.

Definition storeDOMEventBatch (d : db) (sessionId : string) (batchIndex : N)
    (events : list DOMEvent) : db :=
  <[domBatchKey sessionId batchIndex := DOMBatch events]> d.

Definition storeSessionMetadata (d : db) (sessionId : string) (m : SessionMetadata) : db :=
  <[createStorageKey sessionId KMetadata None := Metadata m]> d.

Definition updateScreenshotMetadata (d : db) (sessionId : string) (screenshotIndex : N)
    : db :=
  let imageKey := createStorageKey sessionId KScreenshot (Some screenshotIndex) in
  <[imageKey +:+ ":metadata" := Opaque]> d.

Definition storeSerializedState (d : db) (sessionId : string) : db :=
  <[createStorageKey sessionId KState None := Opaque]> d.

(** [keys()]: every key of the store, in the order the store lists them. *)
Definition keys (d : db) : list string := (map_to_list d).*1.

(** [parseInt(String(key).split(':').pop() || '0', 10)] *)
Definition batchIndexOf (key : string) : option Z :=
  JS.parseInt (JS.orString (JS.pop (JS.split ":" key)) "0").

Definition compareKeys (a b : string) : Z :=
  JS.compareIndex (batchIndexOf a) (batchIndexOf b).

(** The body of [getNetworkEvents] after [const allKeys = await keys()].
    A key under the network prefix holds a network batch; any other
    value is passed over. *)
Definition getNetworkEventsFrom (allKeys : list string) (d : db) (sessionId : string)
    : list NetworkEvent :=
  let batchKeys := List.filter (JS.startsWith (networkBatchPrefix sessionId)) allKeys in
  let sorted := JS.sortBy compareKeys batchKeys in
  foldl (λ allEvents key,
           match d !! key with
           | Some (NetworkBatch batch) => allEvents ++ batch
           | _ => allEvents
           end) [] sorted.

Definition getNetworkEvents (d : db) (sessionId : string) : list NetworkEvent :=
  getNetworkEventsFrom (keys d) d sessionId.

End Storage.

(** ** The background worker ([entrypoints/background.ts]) *)

(** *** Session records are mutated field by field *)

Definition set_sstatus (v : Status) (s : SessionState) : SessionState :=
  {| sessionId := sessionId s; tabId := tabId s; sstatus := v;
     sessionStartTime := sessionStartTime s; sessionStopTime := sessionStopTime s;
     includeAudio := includeAudio s; includeMicrophone := includeMicrophone s;
     recordingChunkCount := recordingChunkCount s;
     screenshotCount := screenshotCount s; networkEventCount := networkEventCount s;
     consoleEventCount := consoleEventCount s; domEventCount := domEventCount s;
     debuggerAttached := debuggerAttached s;
     offscreenDocumentActive := offscreenDocumentActive s; lastError := lastError s;
     errorRecoverable := errorRecoverable s |}.

Definition set_sessionStopTime (v : option Z) (s : SessionState) : SessionState :=
  {| sessionId := sessionId s; tabId := tabId s; sstatus := sstatus s;
     sessionStartTime := sessionStartTime s; sessionStopTime := v;
     includeAudio := includeAudio s; includeMicrophone := includeMicrophone s;
     recordingChunkCount := recordingChunkCount s;
     screenshotCount := screenshotCount s; networkEventCount := networkEventCount s;
     consoleEventCount := consoleEventCount s; domEventCount := domEventCount s;
     debuggerAttached := debuggerAttached s;
     offscreenDocumentActive := offscreenDocumentActive s; lastError := lastError s;
     errorRecoverable := errorRecoverable s |}.

Definition set_recordingChunkCount (v : N) (s : SessionState) : SessionState :=
  {| sessionId := sessionId s; tabId := tabId s; sstatus := sstatus s;
     sessionStartTime := sessionStartTime s; sessionStopTime := sessionStopTime s;
     includeAudio := includeAudio s; includeMicrophone := includeMicrophone s;
     recordingChunkCount := v; screenshotCount := screenshotCount s;
     networkEventCount := networkEventCount s;
     consoleEventCount := consoleEventCount s; domEventCount := domEventCount s;
     debuggerAttached := debuggerAttached s;
     offscreenDocumentActive := offscreenDocumentActive s; lastError := lastError s;
     errorRecoverable := errorRecoverable s |}.

Definition set_screenshotCount (v : N) (s : SessionState) : SessionState :=
  {| sessionId := sessionId s; tabId := tabId s; sstatus := sstatus s;
     sessionStartTime := sessionStartTime s; sessionStopTime := sessionStopTime s;
     includeAudio := includeAudio s; includeMicrophone := includeMicrophone s;
     recordingChunkCount := recordingChunkCount s; screenshotCount := v;
     networkEventCount := networkEventCount s;
     consoleEventCount := consoleEventCount s; domEventCount := domEventCount s;
     debuggerAttached := debuggerAttached s;
     offscreenDocumentActive := offscreenDocumentActive s; lastError := lastError s;
     errorRecoverable := errorRecoverable s |}.

Definition set_networkEventCount (v : N) (s : SessionState) : SessionState :=
  {| sessionId := sessionId s; tabId := tabId s; sstatus := sstatus s;
     sessionStartTime := sessionStartTime s; sessionStopTime := sessionStopTime s;
     includeAudio := includeAudio s; includeMicrophone := includeMicrophone s;
     recordingChunkCount := recordingChunkCount s;
     screenshotCount := screenshotCount s; networkEventCount := v;
     consoleEventCount := consoleEventCount s; domEventCount := domEventCount s;
     debuggerAttached := debuggerAttached s;
     offscreenDocumentActive := offscreenDocumentActive s; lastError := lastError s;
     errorRecoverable := errorRecoverable s |}.

Definition set_consoleEventCount (v : N) (s : SessionState) : SessionState :=
  {| sessionId := sessionId s; tabId := tabId s; sstatus := sstatus s;
     sessionStartTime := sessionStartTime s; sessionStopTime := sessionStopTime s;
     includeAudio := includeAudio s; includeMicrophone := includeMicrophone s;
     recordingChunkCount := recordingChunkCount s;
     screenshotCount := screenshotCount s; networkEventCount := networkEventCount s;
     consoleEventCount := v; domEventCount := domEventCount s;
     debuggerAttached := debuggerAttached s;
     offscreenDocumentActive := offscreenDocumentActive s; lastError := lastError s;
     errorRecoverable := errorRecoverable s |}.

Definition set_domEventCount (v : N) (s : SessionState) : SessionState :=
  {| sessionId := sessionId s; tabId := tabId s; sstatus := sstatus s;
     sessionStartTime := sessionStartTime s; sessionStopTime := sessionStopTime s;
     includeAudio := includeAudio s; includeMicrophone := includeMicrophone s;
     recordingChunkCount := recordingChunkCount s;
     screenshotCount := screenshotCount s; networkEventCount := networkEventCount s;
     consoleEventCount := consoleEventCount s; domEventCount := v;
     debuggerAttached := debuggerAttached s;
     offscreenDocumentActive := offscreenDocumentActive s; lastError := lastError s;
     errorRecoverable := errorRecoverable s |}.

Definition set_debuggerAttached (v : bool) (s : SessionState) : SessionState :=
  {| sessionId := sessionId s; tabId := tabId s; sstatus := sstatus s;
     sessionStartTime := sessionStartTime s; sessionStopTime := sessionStopTime s;
     includeAudio := includeAudio s; includeMicrophone := includeMicrophone s;
     recordingChunkCount := recordingChunkCount s;
     screenshotCount := screenshotCount s; networkEventCount := networkEventCount s;
     consoleEventCount := consoleEventCount s; domEventCount := domEventCount s;
     debuggerAttached := v; offscreenDocumentActive := offscreenDocumentActive s;
     lastError := lastError s; errorRecoverable := errorRecoverable s |}.

Definition set_offscreenDocumentActive (v : bool) (s : SessionState) : SessionState :=
  {| sessionId := sessionId s; tabId := tabId s; sstatus := sstatus s;
     sessionStartTime := sessionStartTime s; sessionStopTime := sessionStopTime s;
     includeAudio := includeAudio s; includeMicrophone := includeMicrophone s;
     recordingChunkCount := recordingChunkCount s;
     screenshotCount := screenshotCount s; networkEventCount := networkEventCount s;
     consoleEventCount := consoleEventCount s; domEventCount := domEventCount s;
     debuggerAttached := debuggerAttached s; offscreenDocumentActive := v;
     lastError := lastError s; errorRecoverable := errorRecoverable s |}.

Definition set_lastError (v : option string) (s : SessionState) : SessionState :=
  {| sessionId := sessionId s; tabId := tabId s; sstatus := sstatus s;
     sessionStartTime := sessionStartTime s; sessionStopTime := sessionStopTime s;
     includeAudio := includeAudio s; includeMicrophone := includeMicrophone s;
     recordingChunkCount := recordingChunkCount s;
     screenshotCount := screenshotCount s; networkEventCount := networkEventCount s;
     consoleEventCount := consoleEventCount s; domEventCount := domEventCount s;
     debuggerAttached := debuggerAttached s;
     offscreenDocumentActive := offscreenDocumentActive s; lastError := v;
     errorRecoverable := errorRecoverable s |}.

Definition set_errorRecoverable (v : option bool) (s : SessionState) : SessionState :=
  {| sessionId := sessionId s; tabId := tabId s; sstatus := sstatus s;
     sessionStartTime := sessionStartTime s; sessionStopTime := sessionStopTime s;
     includeAudio := includeAudio s; includeMicrophone := includeMicrophone s;
     recordingChunkCount := recordingChunkCount s;
     screenshotCount := screenshotCount s; networkEventCount := networkEventCount s;
     consoleEventCount := consoleEventCount s; domEventCount := domEventCount s;
     debuggerAttached := debuggerAttached s;
     offscreenDocumentActive := offscreenDocumentActive s; lastError := lastError s;
     errorRecoverable := v |}.

(** *** An insertion-ordered [Map<string, V>] *)

Section InsertionOrderedMap.
Context {V : Type}.

Fixpoint smap_get (m : list (string * V)) (k : string) : option V :=
  match m with
  | [] => None
  | (k', v) :: m' => if decide (k = k') then Some v else smap_get m' k
  end.

(** [m.set(k, v)]: a present key keeps its place, a new key goes last. *)
Fixpoint smap_set (m : list (string * V)) (k : string) (v : V) : list (string * V) :=
  match m with
  | [] => [(k, v)]
  | (k', v') :: m' =>
      if decide (k = k') then (k, v) :: m' else (k', v') :: smap_set m' k v
  end.

(** A mutation of the object stored under [k]. *)
Fixpoint smap_alter (f : V → V) (k : string) (m : list (string * V))
    : list (string * V) :=
  match m with
  | [] => []
  | (k', v) :: m' =>
      if decide (k = k') then (k', f v) :: m' else (k', v) :: smap_alter f k m'
  end.

(** [Array.from(m.values()).find(p)] *)
Definition smap_find (p : V → bool) (m : list (string * V)) : option V :=
  snd <$> List.find (λ kv, p kv.2) m.

(** A mutation of the object that [find(p)] returns. *)
Fixpoint smap_mutate_found (p : V → bool) (f : V → V) (m : list (string * V))
    : list (string * V) :=
  match m with
  | [] => []
  | (k, v) :: m' =>
      if p v then (k, f v) :: m' else (k, v) :: smap_mutate_found p f m'
  end.

End InsertionOrderedMap.

(** *** The flush in flight

    [flushInProgress] maps a session to the promise of
    [doFlushTelemetryBuffers]. The promise is the suspended body: the
    [await] it stopped at, the [batchIndex] read before that [await],
    and the three batches taken out of the buffers. *)

Inductive FlushStage := AwaitNetworkStore | AwaitConsoleStore | AwaitDOMStore.

Record FlushTask := {
  stage : FlushStage;
  batchIndex : N;
  networkEventsToFlush : list NetworkEvent;
  consoleEventsToFlush : list ConsoleEvent;
  domEventsToFlush : list DOMEvent;
}.

(** *** The module-level state of the worker

    [intervals] and [nextInterval] are the timers of the platform:
    [setInterval] hands out the next handle and [clearInterval] removes
    one. [idb] is the IndexedDB store behind [lib/storage.ts]. *)

Record State := {
  sessions : list (string * SessionState);
  networkEventBuffers : gmap string (list NetworkEvent);
  consoleEventBuffers : gmap string (list ConsoleEvent);
  domEventBuffers : gmap string (list DOMEvent);
  pendingNetworkRequests : gmap string (gmap string PartialNetworkEvent);
  flushTimers : gmap string nat;
  intervals : gmap nat string;
  nextInterval : nat;
  networkBatchIndices : gmap string N;
  consoleBatchIndices : gmap string N;
  domBatchIndices : gmap string N;
  flushInProgress : gmap string FlushTask;
  tabIdToSessionId : gmap Z string;
  idb : gmap string Storage.value;
}.

Definition upd_sessions
    (f : list (string * SessionState) →
         list (string * SessionState))
    (st : State) : State :=
  {| sessions := f (sessions st); networkEventBuffers := networkEventBuffers st;
     consoleEventBuffers := consoleEventBuffers st;
     domEventBuffers := domEventBuffers st;
     pendingNetworkRequests := pendingNetworkRequests st;
     flushTimers := flushTimers st; intervals := intervals st;
     nextInterval := nextInterval st; networkBatchIndices := networkBatchIndices st;
     consoleBatchIndices := consoleBatchIndices st;
     domBatchIndices := domBatchIndices st; flushInProgress := flushInProgress st;
     tabIdToSessionId := tabIdToSessionId st; idb := idb st |}.

Definition upd_networkEventBuffers
    (f : gmap string (list NetworkEvent) →
         gmap string (list NetworkEvent))
    (st : State) : State :=
  {| sessions := sessions st; networkEventBuffers := f (networkEventBuffers st);
     consoleEventBuffers := consoleEventBuffers st;
     domEventBuffers := domEventBuffers st;
     pendingNetworkRequests := pendingNetworkRequests st;
     flushTimers := flushTimers st; intervals := intervals st;
     nextInterval := nextInterval st; networkBatchIndices := networkBatchIndices st;
     consoleBatchIndices := consoleBatchIndices st;
     domBatchIndices := domBatchIndices st; flushInProgress := flushInProgress st;
     tabIdToSessionId := tabIdToSessionId st; idb := idb st |}.

Definition upd_consoleEventBuffers
    (f : gmap string (list ConsoleEvent) →
         gmap string (list ConsoleEvent))
    (st : State) : State :=
  {| sessions := sessions st; networkEventBuffers := networkEventBuffers st;
     consoleEventBuffers := f (consoleEventBuffers st);
     domEventBuffers := domEventBuffers st;
     pendingNetworkRequests := pendingNetworkRequests st;
     flushTimers := flushTimers st; intervals := intervals st;
     nextInterval := nextInterval st; networkBatchIndices := networkBatchIndices st;
     consoleBatchIndices := consoleBatchIndices st;
     domBatchIndices := domBatchIndices st; flushInProgress := flushInProgress st;
     tabIdToSessionId := tabIdToSessionId st; idb := idb st |}.

Definition upd_domEventBuffers (f : gmap string (list DOMEvent) → gmap string (list DOMEvent))
    (st : State) : State :=
  {| sessions := sessions st; networkEventBuffers := networkEventBuffers st;
     consoleEventBuffers := consoleEventBuffers st;
     domEventBuffers := f (domEventBuffers st);
     pendingNetworkRequests := pendingNetworkRequests st;
     flushTimers := flushTimers st; intervals := intervals st;
     nextInterval := nextInterval st; networkBatchIndices := networkBatchIndices st;
     consoleBatchIndices := consoleBatchIndices st;
     domBatchIndices := domBatchIndices st; flushInProgress := flushInProgress st;
     tabIdToSessionId := tabIdToSessionId st; idb := idb st |}.

Definition upd_pendingNetworkRequests
    (f : gmap string (gmap string PartialNetworkEvent) →
         gmap string (gmap string PartialNetworkEvent))
    (st : State) : State :=
  {| sessions := sessions st; networkEventBuffers := networkEventBuffers st;
     consoleEventBuffers := consoleEventBuffers st;
     domEventBuffers := domEventBuffers st;
     pendingNetworkRequests := f (pendingNetworkRequests st);
     flushTimers := flushTimers st; intervals := intervals st;
     nextInterval := nextInterval st; networkBatchIndices := networkBatchIndices st;
     consoleBatchIndices := consoleBatchIndices st;
     domBatchIndices := domBatchIndices st; flushInProgress := flushInProgress st;
     tabIdToSessionId := tabIdToSessionId st; idb := idb st |}.

Definition upd_flushTimers (f : gmap string nat → gmap string nat)
    (st : State) : State :=
  {| sessions := sessions st; networkEventBuffers := networkEventBuffers st;
     consoleEventBuffers := consoleEventBuffers st;
     domEventBuffers := domEventBuffers st;
     pendingNetworkRequests := pendingNetworkRequests st;
     flushTimers := f (flushTimers st); intervals := intervals st;
     nextInterval := nextInterval st; networkBatchIndices := networkBatchIndices st;
     consoleBatchIndices := consoleBatchIndices st;
     domBatchIndices := domBatchIndices st; flushInProgress := flushInProgress st;
     tabIdToSessionId := tabIdToSessionId st; idb := idb st |}.

Definition upd_intervals (f : gmap nat string → gmap nat string)
    (st : State) : State :=
  {| sessions := sessions st; networkEventBuffers := networkEventBuffers st;
     consoleEventBuffers := consoleEventBuffers st;
     domEventBuffers := domEventBuffers st;
     pendingNetworkRequests := pendingNetworkRequests st;
     flushTimers := flushTimers st; intervals := f (intervals st);
     nextInterval := nextInterval st; networkBatchIndices := networkBatchIndices st;
     consoleBatchIndices := consoleBatchIndices st;
     domBatchIndices := domBatchIndices st; flushInProgress := flushInProgress st;
     tabIdToSessionId := tabIdToSessionId st; idb := idb st |}.

Definition upd_nextInterval (f : nat → nat)
    (st : State) : State :=
  {| sessions := sessions st; networkEventBuffers := networkEventBuffers st;
     consoleEventBuffers := consoleEventBuffers st;
     domEventBuffers := domEventBuffers st;
     pendingNetworkRequests := pendingNetworkRequests st;
     flushTimers := flushTimers st; intervals := intervals st;
     nextInterval := f (nextInterval st);
     networkBatchIndices := networkBatchIndices st;
     consoleBatchIndices := consoleBatchIndices st;
     domBatchIndices := domBatchIndices st; flushInProgress := flushInProgress st;
     tabIdToSessionId := tabIdToSessionId st; idb := idb st |}.

Definition upd_networkBatchIndices (f : gmap string N → gmap string N)
    (st : State) : State :=
  {| sessions := sessions st; networkEventBuffers := networkEventBuffers st;
     consoleEventBuffers := consoleEventBuffers st;
     domEventBuffers := domEventBuffers st;
     pendingNetworkRequests := pendingNetworkRequests st;
     flushTimers := flushTimers st; intervals := intervals st;
     nextInterval := nextInterval st;
     networkBatchIndices := f (networkBatchIndices st);
     consoleBatchIndices := consoleBatchIndices st;
     domBatchIndices := domBatchIndices st; flushInProgress := flushInProgress st;
     tabIdToSessionId := tabIdToSessionId st; idb := idb st |}.

Definition upd_consoleBatchIndices (f : gmap string N → gmap string N)
    (st : State) : State :=
  {| sessions := sessions st; networkEventBuffers := networkEventBuffers st;
     consoleEventBuffers := consoleEventBuffers st;
     domEventBuffers := domEventBuffers st;
     pendingNetworkRequests := pendingNetworkRequests st;
     flushTimers := flushTimers st; intervals := intervals st;
     nextInterval := nextInterval st; networkBatchIndices := networkBatchIndices st;
     consoleBatchIndices := f (consoleBatchIndices st);
     domBatchIndices := domBatchIndices st; flushInProgress := flushInProgress st;
     tabIdToSessionId := tabIdToSessionId st; idb := idb st |}.

Definition upd_domBatchIndices (f : gmap string N → gmap string N)
    (st : State) : State :=
  {| sessions := sessions st; networkEventBuffers := networkEventBuffers st;
     consoleEventBuffers := consoleEventBuffers st;
     domEventBuffers := domEventBuffers st;
     pendingNetworkRequests := pendingNetworkRequests st;
     flushTimers := flushTimers st; intervals := intervals st;
     nextInterval := nextInterval st; networkBatchIndices := networkBatchIndices st;
     consoleBatchIndices := consoleBatchIndices st;
     domBatchIndices := f (domBatchIndices st);
     flushInProgress := flushInProgress st; tabIdToSessionId := tabIdToSessionId st;
     idb := idb st |}.

Definition upd_flushInProgress (f : gmap string FlushTask → gmap string FlushTask)
    (st : State) : State :=
  {| sessions := sessions st; networkEventBuffers := networkEventBuffers st;
     consoleEventBuffers := consoleEventBuffers st;
     domEventBuffers := domEventBuffers st;
     pendingNetworkRequests := pendingNetworkRequests st;
     flushTimers := flushTimers st; intervals := intervals st;
     nextInterval := nextInterval st; networkBatchIndices := networkBatchIndices st;
     consoleBatchIndices := consoleBatchIndices st;
     domBatchIndices := domBatchIndices st;
     flushInProgress := f (flushInProgress st);
     tabIdToSessionId := tabIdToSessionId st; idb := idb st |}.

Definition upd_tabIdToSessionId (f : gmap Z string → gmap Z string)
    (st : State) : State :=
  {| sessions := sessions st; networkEventBuffers := networkEventBuffers st;
     consoleEventBuffers := consoleEventBuffers st;
     domEventBuffers := domEventBuffers st;
     pendingNetworkRequests := pendingNetworkRequests st;
     flushTimers := flushTimers st; intervals := intervals st;
     nextInterval := nextInterval st; networkBatchIndices := networkBatchIndices st;
     consoleBatchIndices := consoleBatchIndices st;
     domBatchIndices := domBatchIndices st; flushInProgress := flushInProgress st;
     tabIdToSessionId := f (tabIdToSessionId st); idb := idb st |}.

Definition upd_idb (f : gmap string Storage.value → gmap string Storage.value)
    (st : State) : State :=
  {| sessions := sessions st; networkEventBuffers := networkEventBuffers st;
     consoleEventBuffers := consoleEventBuffers st;
     domEventBuffers := domEventBuffers st;
     pendingNetworkRequests := pendingNetworkRequests st;
     flushTimers := flushTimers st; intervals := intervals st;
     nextInterval := nextInterval st; networkBatchIndices := networkBatchIndices st;
     consoleBatchIndices := consoleBatchIndices st;
     domBatchIndices := domBatchIndices st; flushInProgress := flushInProgress st;
     tabIdToSessionId := tabIdToSessionId st; idb := f (idb st) |}.

Definition initialState : State :=
  {| sessions := []; networkEventBuffers := ∅; consoleEventBuffers := ∅;
     domEventBuffers := ∅; pendingNetworkRequests := ∅; flushTimers := ∅;
     intervals := ∅; nextInterval := 1; networkBatchIndices := ∅;
     consoleBatchIndices := ∅; domBatchIndices := ∅; flushInProgress := ∅;
     tabIdToSessionId := ∅; idb := ∅ |}.

Definition BUFFER_FLUSH_SIZE : nat := 50.
Definition PENDING_TTL_MS : Q := 120000.
Definition REDACTED : string := "[REDACTED]".

Definition SENSITIVE_HEADERS : list string :=
  ["authorization"; "cookie"; "set-cookie"; "proxy-authorization"; "x-api-key";
   "x-auth-token"].

(** *** Payloads of the CDP events and of the messages *)

Record RequestWillBeSentParams := {
  rq_requestId : string;
  rq_url : string;
  rq_method : string;
  rq_headers : Headers;
  rq_postData : option string;
  rq_timestamp : Q;
  rq_wallTime : Q;
}.

Record ResponseReceivedParams := {
  rs_requestId : string;
  rs_timestamp : Q;
  rs_type : string;
  rs_status : Z;
  rs_statusText : string;
  rs_headers : Headers;
  rs_mimeType : string;
}.

Record LoadingFailedParams := {
  lf_requestId : string;
  lf_timestamp : Q;
  lf_errorText : string;
}.

Record RemoteObject := {
  ro_type : string;
  ro_value : option string;
  ro_description : option string;
}.

Record ConsoleAPICalledParams := {
  ca_type : string;
  ca_args : list RemoteObject;
  ca_stackTrace : option string;
  ca_timestamp : Q;
}.

Record ExceptionThrownParams := {
  ex_text : string;
  ex_stackTrace : option string;
  ex_url : option string;
  ex_lineNumber : option Z;
  ex_timestamp : Q;
}.

Record DOMEventPayload := {
  dp_sessionId : string;
  dp_eventType : string;
  dp_selector : string;
  dp_timestamp : Z;
  dp_metadata : option string;
}.

Inductive ErrorStage := StageInit | StageRecording | StageStopping.

(** What the platform answers to the calls [handleStartRecording] awaits:
    [Date.now()], and whether each call resolves or throws. *)
Record StartEnv := {
  se_now : Z;
  se_streamId : bool;
  se_offscreen : bool;
  se_cdpAttach : bool;
  se_initSent : bool;
}.

Record Response := {
  success : bool;
  r_sessionId : option string;
}.

Definition ok : Response := {| success := true; r_sessionId := None |}.
Definition failed : Response := {| success := false; r_sessionId := None |}.

(** *** Header redaction *)

(** [sanitized[key] = value] on an object made by [{}], for a string
    [value]: a key the object has keeps its place and takes the value, a
    new key goes last, and the key [__proto__] is the inherited setter,
    which ignores a string and adds nothing. *)
Definition assignHeader (sanitized : Headers) (key value : string) : Headers :=
  if decide (key = "__proto__") then sanitized else smap_set sanitized key value.

(** [hs] is [Object.entries(headers)]. *)
Definition sanitizeHeaders (hs : Headers) : Headers :=
  foldl (λ sanitized kv,
           if bool_decide (JS.toLowerCase kv.1 ∈ SENSITIVE_HEADERS)
           then assignHeader sanitized kv.1 REDACTED
           else assignHeader sanitized kv.1 kv.2) [] hs.

(** *** Flushing the telemetry buffers *)

(** [(partialEvent.wallTime || 0) * 1000] and [now - eventTimeMs > 120_000],
    in the arithmetic of doubles. [now] is [Date.now()], a whole number
    of milliseconds. *)
Definition pendingExpired (now : Z) (partialEvent : PartialNetworkEvent) : bool :=
  let wallTime := JS.toDouble (JS.orQ (p_wallTime partialEvent) 0) in
  let eventTimeMs := JS.toDouble (wallTime * 1000) in
  JS.Qgtb (JS.toDouble (inject_Z now - eventTimeMs)) PENDING_TTL_MS.

(** The TTL cleanup that ends [doFlushTelemetryBuffers]. Its promise then
    resolves, and the [finally] of [flushTelemetryBuffers] clears the
    guard before any other handler runs. *)
Definition flushSweep (st : State) (sid : string) (now : Z) : State :=
  let st1 :=
    match pendingNetworkRequests st !! sid with
    | Some pendingMap =>
        upd_pendingNetworkRequests
          (<[sid := filter (λ kv, pendingExpired now kv.2 = false) pendingMap]>) st
    | None => st
    end in
  upd_flushInProgress (delete sid) st1.

Definition suspendFlush (st : State) (sid : string) (t : FlushTask) : State :=
  upd_flushInProgress (<[sid := t]>) st.

(** [doFlushTelemetryBuffers] from [if (domEventsToFlush.length > 0)] on *)
Definition flushDOM (st : State) (sid : string) (net : list NetworkEvent)
    (con : list ConsoleEvent) (dom : list DOMEvent) (now : Z) : State :=
  match dom with
  | [] => flushSweep st sid now
  | _ :: _ =>
      suspendFlush st sid
        {| stage := AwaitDOMStore; batchIndex := default 0%N (domBatchIndices st !! sid);
           networkEventsToFlush := net; consoleEventsToFlush := con;
           domEventsToFlush := dom |}
  end.

(** ... from [if (consoleEventsToFlush.length > 0)] on *)
Definition flushConsole (st : State) (sid : string) (net : list NetworkEvent)
    (con : list ConsoleEvent) (dom : list DOMEvent) (now : Z) : State :=
  match con with
  | [] => flushDOM st sid net con dom now
  | _ :: _ =>
      suspendFlush st sid
        {| stage := AwaitConsoleStore;
           batchIndex := default 0%N (consoleBatchIndices st !! sid);
           networkEventsToFlush := net; consoleEventsToFlush := con;
           domEventsToFlush := dom |}
  end.

(** ... from [if (networkEventsToFlush.length > 0)] on *)
Definition flushNetwork (st : State) (sid : string) (net : list NetworkEvent)
    (con : list ConsoleEvent) (dom : list DOMEvent) (now : Z) : State :=
  match net with
  | [] => flushConsole st sid net con dom now
  | _ :: _ =>
      suspendFlush st sid
        {| stage := AwaitNetworkStore;
           batchIndex := default 0%N (networkBatchIndices st !! sid);
           networkEventsToFlush := net; consoleEventsToFlush := con;
           domEventsToFlush := dom |}
  end.

(** [doFlushTelemetryBuffers] up to its first [await]: each buffer that
    exists is emptied in place by [splice]. *)
Definition doFlushTelemetryBuffers (st : State) (sid : string) (now : Z) : State :=
  let networkEventsToFlush := default [] (networkEventBuffers st !! sid) in
  let consoleEventsToFlush := default [] (consoleEventBuffers st !! sid) in
  let domEventsToFlush := default [] (domEventBuffers st !! sid) in
  let st1 := upd_networkEventBuffers (alter (λ _, []) sid) st in
  let st2 := upd_consoleEventBuffers (alter (λ _, []) sid) st1 in
  let st3 := upd_domEventBuffers (alter (λ _, []) sid) st2 in
  flushNetwork st3 sid networkEventsToFlush consoleEventsToFlush domEventsToFlush now.

(** [flushTelemetryBuffers] up to its [await promise]. Under the guard the
    caller is handed the promise already in [flushInProgress]. *)
Definition flushTelemetryBuffers (st : State) (sid : string) (now : Z) : State :=
  match flushInProgress st !! sid with
  | Some _ => st
  | None => doFlushTelemetryBuffers st sid now
  end.

(** The promise the caller of [flushTelemetryBuffers] awaits: the flush
    in flight once the call has returned, if any. *)
Definition awaitedFlush (st : State) (sid : string) (now : Z) : option FlushTask :=
  flushInProgress (flushTelemetryBuffers st sid now) !! sid.

(** The store promise that [doFlushTelemetryBuffers] awaits settles. When
    it resolves the batch is in the store and the body runs on to the next
    [await]; when it rejects the error is rethrown, nothing more is
    written, and the [finally] clears the guard. *)
Definition flushStoreSettled (st : State) (sid : string) (resolved : bool) (now : Z)
    : State :=
  match flushInProgress st !! sid with
  | None => st
  | Some t =>
      if resolved then
        let net := networkEventsToFlush t in
        let con := consoleEventsToFlush t in
        let dom := domEventsToFlush t in
        match stage t with
        | AwaitNetworkStore =>
            let st1 :=
              upd_idb (λ d, Storage.storeNetworkEventBatch d sid (batchIndex t) net) st in
            let st2 := upd_networkBatchIndices (<[sid := (batchIndex t + 1)%N]>) st1 in
            flushConsole st2 sid net con dom now
        | AwaitConsoleStore =>
            let st1 :=
              upd_idb (λ d, Storage.storeConsoleEventBatch d sid (batchIndex t) con) st in
            let st2 := upd_consoleBatchIndices (<[sid := (batchIndex t + 1)%N]>) st1 in
            flushDOM st2 sid net con dom now
        | AwaitDOMStore =>
            let st1 :=
              upd_idb (λ d, Storage.storeDOMEventBatch d sid (batchIndex t) dom) st in
            let st2 := upd_domBatchIndices (<[sid := (batchIndex t + 1)%N]>) st1 in
            flushSweep st2 sid now
        end
      else upd_flushInProgress (delete sid) st
  end.

(** *** Message handlers *)

Definition mkSessionId (tab : Z) (sessionStartTime : Z) : string :=
  JS.intToString tab +:+ "-" +:+ JS.intToString sessionStartTime.

(** [handleStartRecording]. The session is created between the awaited
    platform calls: a call that throws before it leaves the state as it
    was, one that throws after it returns the failure with the session
    already registered. *)
Definition handleStartRecording (st : State) (tab : Z) (audio mic : bool)
    (env : StartEnv) : State * Response :=
  let sessionStartTime := se_now env in
  let sid := mkSessionId tab sessionStartTime in
  if negb (se_streamId env) then (st, failed)
  else if negb (se_offscreen env) then (st, failed)
  else
    let sessionState :=
      {| sessionId := sid; tabId := tab; sstatus := Idle;
         sessionStartTime := sessionStartTime; sessionStopTime := None;
         includeAudio := audio; includeMicrophone := mic;
         recordingChunkCount := 0; screenshotCount := 0; networkEventCount := 0;
         consoleEventCount := 0; domEventCount := 0;
         debuggerAttached := se_cdpAttach env; offscreenDocumentActive := true;
         lastError := None; errorRecoverable := None |} in
    let st1 := upd_sessions (λ m, smap_set m sid sessionState) st in
    let st2 := upd_tabIdToSessionId (<[tab := sid]>) st1 in
    if se_initSent env then (st2, {| success := true; r_sessionId := Some sid |})
    else (st2, failed).

Definition isRecordingOn (tab : Z) (s : SessionState) : bool :=
  bool_decide (tabId s = tab) && bool_decide (sstatus s = Recording).

(** [handleStopRecording]: [stopSent] tells whether the
    [STOP_MEDIA_CAPTURE] message could be sent. *)
Definition handleStopRecording (st : State) (tab : Z) (now : Z) (stopSent : bool)
    : State * Response :=
  match smap_find (isRecordingOn tab) (sessions st) with
  | None => (st, failed)
  | Some _ =>
      let st1 :=
        upd_sessions
          (smap_mutate_found (isRecordingOn tab)
             (λ s, set_sessionStopTime (Some now) (set_sstatus Stopping s))) st in
      (st1, if stopSent then ok else failed)
  end.

(** [handleTakeScreenshot] only forwards a message. *)
Definition handleTakeScreenshot (st : State) (tab : Z) (sent : bool) : State * Response :=
  match smap_find (isRecordingOn tab) (sessions st) with
  | None => (st, failed)
  | Some _ => (st, if sent then ok else failed)
  end.

(** [handleMediaReady] *)
Definition handleMediaReady (st : State) (sid : string) : State * Response :=
  match smap_get (sessions st) sid with
  | None => (st, ok)
  | Some session =>
      let st1 := upd_sessions (smap_alter (set_sstatus Recording) sid) st in
      if debuggerAttached session then
        let st2 := upd_networkEventBuffers (<[sid := []]>) st1 in
        let st3 := upd_consoleEventBuffers (<[sid := []]>) st2 in
        let st4 := upd_domEventBuffers (<[sid := []]>) st3 in
        let st5 := upd_pendingNetworkRequests (<[sid := ∅]>) st4 in
        let st6 := upd_networkBatchIndices (<[sid := 0%N]>) st5 in
        let st7 := upd_consoleBatchIndices (<[sid := 0%N]>) st6 in
        let st8 := upd_domBatchIndices (<[sid := 0%N]>) st7 in
        let flushTimer := nextInterval st8 in
        let st9 := upd_intervals (<[flushTimer := sid]>) st8 in
        let st10 := upd_nextInterval S st9 in
        (upd_flushTimers (<[sid := flushTimer]>) st10, ok)
      else (st1, ok)
  end.

(** [handleRecordingChunk] *)
Definition handleRecordingChunk (st : State) (sid : string) : State * Response :=
  (upd_sessions
     (smap_alter (λ s, set_recordingChunkCount (recordingChunkCount s + 1)%N s) sid) st,
   ok).

(** [handleScreenshotCaptured]: [stored] tells whether
    [updateScreenshotMetadata] resolved. *)
Definition handleScreenshotCaptured (st : State) (sid : string) (screenshotIndex : N)
    (stored : bool) : State * Response :=
  match smap_get (sessions st) sid with
  | None => (st, failed)
  | Some _ =>
      if stored then
        let st1 := upd_idb (λ d, Storage.updateScreenshotMetadata d sid screenshotIndex) st in
        (upd_sessions
           (smap_alter (λ s, set_screenshotCount (screenshotCount s + 1)%N s) sid) st1,
         ok)
      else (st, failed)
  end.

(** The teardown shared by [handleMediaStopped] and [handleMediaError] *)
Definition cleanupTelemetry (st : State) (sid : string) (tab : Z) : State :=
  let st1 := upd_networkEventBuffers (delete sid) st in
  let st2 := upd_consoleEventBuffers (delete sid) st1 in
  let st3 := upd_domEventBuffers (delete sid) st2 in
  let st4 := upd_pendingNetworkRequests (delete sid) st3 in
  let st5 := upd_networkBatchIndices (delete sid) st4 in
  let st6 := upd_consoleBatchIndices (delete sid) st5 in
  let st7 := upd_domBatchIndices (delete sid) st6 in
  upd_tabIdToSessionId (delete tab) st7.

(** [clearInterval(flushTimer); flushTimers.delete(sessionId)] *)
Definition stopFlushTimer (st : State) (sid : string) : State :=
  match flushTimers st !! sid with
  | Some flushTimer =>
      upd_flushTimers (delete sid) (upd_intervals (delete flushTimer) st)
  | None => st
  end.

(** [handleMediaStopped], first piece: the periodic timer is stopped, then
    the handler awaits the [SERIALIZE_STATE] message. *)
Definition handleMediaStopped_stopTimer (st : State) (sid : string) : State :=
  match smap_get (sessions st) sid with
  | None => st
  | Some _ => stopFlushTimer st sid
  end.

(** Second piece: [await flushTelemetryBuffers(payload.sessionId)], up to
    the [await]. *)
Definition handleMediaStopped_finalFlush (st : State) (sid : string) (now : Z) : State :=
  match smap_get (sessions st) sid with
  | None => st
  | Some _ => flushTelemetryBuffers st sid now
  end.

(** Third piece, after the awaited flush and [await cdpClient.detach]:
    [detached] tells whether the detach resolved. Buffers and indices
    are deleted, the session is completed and its metadata stored ([tab]
    is the answer of [chrome.tabs.get], with the defaults of the handler
    applied). *)
Definition handleMediaStopped_teardown (st : State) (sid : string) (detached : bool)
    (tab : option (string * string)) : State * Response :=
  match smap_get (sessions st) sid with
  | None => (st, ok)
  | Some session =>
      let st1 :=
        if debuggerAttached session && detached
        then upd_sessions (smap_alter (set_debuggerAttached false) sid) st
        else st in
      let st2 := cleanupTelemetry st1 sid (tabId session) in
      let st3 :=
        upd_sessions
          (smap_alter (λ s, set_offscreenDocumentActive false (set_sstatus Completed s)) sid)
          st2 in
      let st4 :=
        match tab with
        | Some (tabUrl, tabTitle) =>
            upd_idb
              (λ d, Storage.storeSessionMetadata d sid
                      {| m_sessionId := sessionId session; m_tabId := tabId session;
                         m_url := tabUrl; m_title := tabTitle;
                         m_startTime := sessionStartTime session;
                         m_endTime := sessionStopTime session;
                         m_duration :=
                           match sessionStopTime session with
                           | Some 0 | None => None
                           | Some stop => Some (stop - sessionStartTime session)
                           end |}) st3
        | None => st3
        end in
      (st4, ok)
  end.

Definition needsCdpCleanup (session : SessionState) (errStage : ErrorStage) : bool :=
  debuggerAttached session &&
  match errStage with StageInit => false | _ => true end.

(** [handleMediaError], first piece: the session is put in error; when the
    debugger is attached and the failure is not one of initialisation the
    timer is stopped and the final flush is called. [closed] tells whether
    [chrome.offscreen.closeDocument] resolved. *)
Definition handleMediaError_begin (st : State) (sid : string) (error : string)
    (errStage : ErrorStage) (now : Z) (closed : bool) : State * Response :=
  match smap_get (sessions st) sid with
  | None => (st, ok)
  | Some session =>
      let recoverable := match errStage with StageInit => false | _ => true end in
      let st1 :=
        upd_sessions
          (smap_alter
             (λ s, set_errorRecoverable (Some recoverable)
                     (set_lastError (Some error) (set_sstatus Error s))) sid) st in
      if needsCdpCleanup session errStage then
        (flushTelemetryBuffers (stopFlushTimer st1 sid) sid now, ok)
      else
        match errStage with
        | StageInit =>
            if closed
            then (upd_sessions (smap_alter (set_offscreenDocumentActive false) sid) st1, ok)
            else (st1, ok)
        | _ => (st1, ok)
        end
  end.

(** Second piece, after the awaited flush and [await cdpClient.detach]:
    [detached] tells whether both resolved. *)
Definition handleMediaError_cleanup (st : State) (sid : string) (detached : bool) : State :=
  match smap_get (sessions st) sid with
  | None => st
  | Some session =>
      let st1 :=
        if detached
        then upd_sessions (smap_alter (set_debuggerAttached false) sid) st
        else st in
      cleanupTelemetry st1 sid (tabId session)
  end.

(** [handleStateSerialized]: the snapshot replaces the one stored. *)
Definition handleStateSerialized (st : State) (sid : string) (stored : bool)
    : State * Response :=
  match smap_get (sessions st) sid with
  | None => (st, failed)
  | Some _ =>
      if stored then (upd_idb (λ d, Storage.storeSerializedState d sid) st, ok)
      else (st, failed)
  end.

(** *** CDP event handlers *)

(** The guard that opens every CDP handler: the tab has a session in the
    reverse index, the session exists and is recording. *)
Definition activeSession (st : State) (tab : Z) : option (string * SessionState) :=
  match JS.truthy (tabIdToSessionId st !! tab) with
  | None => None
  | Some sid =>
      match smap_get (sessions st) sid with
      | Some session =>
          if decide (sstatus session = Recording) then Some (sid, session) else None
      | None => None
      end
  end.

(** [handleNetworkRequestWillBeSent] *)
Definition handleNetworkRequestWillBeSent (st : State) (tab : Z)
    (params : RequestWillBeSentParams) : State :=
  match activeSession st tab with
  | None => st
  | Some (sid, session) =>
      match pendingNetworkRequests st !! sid with
      | None => st
      | Some pendingRequests =>
          let partialEvent :=
            {| p_requestId := Some (rq_requestId params);
               p_url := Some (rq_url params);
               p_method := Some (rq_method params);
               p_headers := Some (sanitizeHeaders (rq_headers params));
               p_postData := rq_postData params;
               p_timestamp := Some (rq_timestamp params);
               p_wallTime := Some (rq_wallTime params);
               p_videoTimestamp :=
                 Some (Sync.cdpWallTimeToVideoOffset (rq_wallTime params)
                         (sessionStartTime session)) |} in
          upd_pendingNetworkRequests
            (<[sid := <[rq_requestId params := partialEvent]> pendingRequests]>) st
      end
  end.

(** [pendingRequests.delete(requestId)], on the table of the session *)
Definition deletePending (st : State) (sid rid : string) : State :=
  upd_pendingNetworkRequests (alter (delete rid) sid) st.

(** [buffer.push(event); session.networkEventCount++] and the flush of a
    full buffer, when the session has a network buffer *)
Definition pushNetworkEvent (st : State) (sid : string) (ev : NetworkEvent) (now : Z)
    : State :=
  match networkEventBuffers st !! sid with
  | None => st
  | Some buffer =>
      let st1 := upd_networkEventBuffers (<[sid := buffer ++ [ev]]>) st in
      let st2 :=
        upd_sessions
          (smap_alter (λ s, set_networkEventCount (networkEventCount s + 1)%N s) sid) st1 in
      if (BUFFER_FLUSH_SIZE <=? length (buffer ++ [ev]))%nat
      then flushTelemetryBuffers st2 sid now
      else st2
  end.

(** The filter of [handleNetworkResponse] *)
Definition shouldInclude (resourceType : string) (status : Z) : bool :=
  String.eqb resourceType "XHR" || String.eqb resourceType "Fetch" ||
  String.eqb resourceType "WebSocket" || String.eqb resourceType "Document" ||
  (negb (status =? 0) && (400 <=? status)).

Definition completeEvent (rid u m : string) (partialEvent : PartialNetworkEvent)
    (params : ResponseReceivedParams) : NetworkEvent :=
  {| requestId := rid; url := u; method := m;
     headers := default [] (p_headers partialEvent);
     postData := p_postData partialEvent;
     timestamp := JS.orQ (p_timestamp partialEvent) (rs_timestamp params);
     wallTime := JS.orQ (p_wallTime partialEvent) 0;
     videoTimestamp := JS.orZ (p_videoTimestamp partialEvent) 0;
     status := rs_status params;
     statusText := rs_statusText params;
     responseHeaders := Some (sanitizeHeaders (rs_headers params));
     mimeType := Some (rs_mimeType params) |}.

Definition failedEvent (rid u m : string) (partialEvent : PartialNetworkEvent)
    (params : LoadingFailedParams) : NetworkEvent :=
  {| requestId := rid; url := u; method := m;
     headers := default [] (p_headers partialEvent);
     postData := p_postData partialEvent;
     timestamp := JS.orQ (p_timestamp partialEvent) (lf_timestamp params);
     wallTime := JS.orQ (p_wallTime partialEvent) 0;
     videoTimestamp := JS.orZ (p_videoTimestamp partialEvent) 0;
     status := 0;
     statusText := lf_errorText params;
     responseHeaders := None;
     mimeType := None |}.

(** The three fields a pending entry must have to be completed *)
Definition requiredFields (partialEvent : PartialNetworkEvent)
    : option (string * string * string) :=
  match JS.truthy (p_requestId partialEvent), JS.truthy (p_url partialEvent),
        JS.truthy (p_method partialEvent) with
  | Some rid, Some u, Some m => Some (rid, u, m)
  | _, _, _ => None
  end.

(** [handleNetworkResponse] *)
Definition handleNetworkResponse (st : State) (tab : Z) (params : ResponseReceivedParams)
    (now : Z) : State :=
  match activeSession st tab with
  | None => st
  | Some (sid, session) =>
      match pendingNetworkRequests st !! sid with
      | None => st
      | Some pendingRequests =>
          match pendingRequests !! rs_requestId params with
          | None => st
          | Some partialEvent =>
              match requiredFields partialEvent with
              | None => deletePending st sid (rs_requestId params)
              | Some (rid, u, m) =>
                  let completedEvent := completeEvent rid u m partialEvent params in
                  if shouldInclude (rs_type params) (status completedEvent) then
                    deletePending (pushNetworkEvent st sid completedEvent now) sid
                      (rs_requestId params)
                  else deletePending st sid (rs_requestId params)
              end
          end
      end
  end.

(** [handleNetworkLoadingFailed] *)
Definition handleNetworkLoadingFailed (st : State) (tab : Z) (params : LoadingFailedParams)
    (now : Z) : State :=
  match activeSession st tab with
  | None => st
  | Some (sid, session) =>
      match pendingNetworkRequests st !! sid with
      | None => st
      | Some pendingRequests =>
          match pendingRequests !! lf_requestId params with
          | None => st
          | Some partialEvent =>
              match requiredFields partialEvent with
              | None => deletePending st sid (lf_requestId params)
              | Some (rid, u, m) =>
                  deletePending
                    (pushNetworkEvent st sid (failedEvent rid u m partialEvent params) now)
                    sid (lf_requestId params)
              end
          end
      end
  end.

(** [buffer.push(consoleEvent); session.consoleEventCount++] and the
    flush of a full buffer *)
Definition pushConsoleEvent (st : State) (sid : string) (ev : ConsoleEvent) (now : Z)
    : State :=
  match consoleEventBuffers st !! sid with
  | None => st
  | Some buffer =>
      let st1 := upd_consoleEventBuffers (<[sid := buffer ++ [ev]]>) st in
      let st2 :=
        upd_sessions
          (smap_alter (λ s, set_consoleEventCount (consoleEventCount s + 1)%N s) sid) st1 in
      if (BUFFER_FLUSH_SIZE <=? length (buffer ++ [ev]))%nat
      then flushTelemetryBuffers st2 sid now
      else st2
  end.

Definition consoleLevel (type : string) : ConsoleLevel :=
  if String.eqb type "warning" then LevelWarn
  else if String.eqb type "error" then LevelError
  else if String.eqb type "info" then LevelInfo
  else if String.eqb type "debug" then LevelDebug
  else LevelLog.

Definition argText (arg : RemoteObject) : string :=
  match ro_value arg, ro_description arg with
  | Some v, _ => v
  | None, Some d => d
  | None, None => "[" +:+ ro_type arg +:+ "]"
  end.

(** [handleConsoleAPICalled]: [now] is the [Date.now()] the handler reads. *)
Definition handleConsoleAPICalled (st : State) (tab : Z) (params : ConsoleAPICalledParams)
    (now : Z) : State :=
  match activeSession st tab with
  | None => st
  | Some (sid, session) =>
      let wallTime := now in
      let consoleEvent :=
        {| c_level := consoleLevel (ca_type params);
           c_text := JS.join " " (argText <$> ca_args params);
           c_args := ro_value <$> ca_args params;
           c_stackTrace := ca_stackTrace params;
           c_timestamp := ca_timestamp params;
           c_wallTime := wallTime;
           c_videoTimestamp :=
             Sync.calculateVideoTimestamp (sessionStartTime session) wallTime;
           c_url := None; c_lineNumber := None |} in
      pushConsoleEvent st sid consoleEvent now
  end.

(** [handleExceptionThrown] *)
Definition handleExceptionThrown (st : State) (tab : Z) (params : ExceptionThrownParams)
    (now : Z) : State :=
  match activeSession st tab with
  | None => st
  | Some (sid, session) =>
      let wallTime := now in
      let consoleEvent :=
        {| c_level := LevelError;
           c_text := ex_text params;
           c_args := [];
           c_stackTrace := ex_stackTrace params;
           c_timestamp := ex_timestamp params;
           c_wallTime := wallTime;
           c_videoTimestamp :=
             Sync.calculateVideoTimestamp (sessionStartTime session) wallTime;
           c_url := ex_url params; c_lineNumber := ex_lineNumber params |} in
      pushConsoleEvent st sid consoleEvent now
  end.

(** [handleDOMEventCaptured], up to its [await flushTelemetryBuffers] *)
Definition handleDOMEventCaptured (st : State) (payload : DOMEventPayload) (now : Z)
    : State * Response :=
  let sid := dp_sessionId payload in
  match smap_get (sessions st) sid with
  | None => (st, failed)
  | Some session =>
      if decide (sstatus session = Recording) then
        let domEvent :=
          {| d_eventType := dp_eventType payload;
             d_selector := dp_selector payload;
             d_timestamp := dp_timestamp payload;
             d_videoTimestamp :=
               Sync.calculateVideoTimestamp (sessionStartTime session)
                 (dp_timestamp payload);
             d_metadata := dp_metadata payload |} in
        match domEventBuffers st !! sid with
        | None => (st, ok)
        | Some buffer =>
            let st1 := upd_domEventBuffers (<[sid := buffer ++ [domEvent]]>) st in
            let st2 :=
              upd_sessions
                (smap_alter (λ s, set_domEventCount (domEventCount s + 1)%N s) sid) st1 in
            if (BUFFER_FLUSH_SIZE <=? length (buffer ++ [domEvent]))%nat
            then (flushTelemetryBuffers st2 sid now, ok)
            else (st2, ok)
        end
      else (st, failed)
  end.

(** [handleCDPDetach] *)
Definition handleCDPDetach (st : State) (tab : Z) : State :=
  match activeSession st tab with
  | None => st
  | Some (sid, _) => upd_sessions (smap_alter (set_debuggerAttached false) sid) st
  end.

(** *** The event loop

    One [Event] is one piece of a handler run to its next [await], with
    what the platform answered. A store settles only for a flush in
    flight, and a timer fires only while its interval is live. The loop
    orders the pieces of one handler no further: the last piece of
    [handleMediaStopped] and of [handleMediaError] follows
    [await cdpClient.detach], and by then a full buffer may have started
    another flush, so it may run while a flush is in flight. Every run
    of the worker is a run of this loop. *)

Inductive Event :=
| StartRecording (tab : Z) (audio mic : bool) (env : StartEnv)
| StopRecording (tab : Z) (now : Z) (stopSent : bool)
| TakeScreenshot (tab : Z) (sent : bool)
| GetSessionStatus (tab : Z)
| MediaReady (sid : string)
| RecordingChunk (sid : string)
| ScreenshotCaptured (sid : string) (screenshotIndex : N) (stored : bool)
| MediaStopped (sid : string)
| MediaStoppedFinalFlush (sid : string) (now : Z)
| MediaStoppedTeardown (sid : string) (detached : bool) (tab : option (string * string))
| MediaError (sid : string) (error : string) (errStage : ErrorStage) (now : Z)
    (closed : bool)
| MediaErrorCleanup (sid : string) (detached : bool)
| DOMEventCaptured (payload : DOMEventPayload) (now : Z)
| StateSerialized (sid : string) (stored : bool)
| NetworkRequestWillBeSent (tab : Z) (params : RequestWillBeSentParams)
| NetworkResponse (tab : Z) (params : ResponseReceivedParams) (now : Z)
| NetworkLoadingFailed (tab : Z) (params : LoadingFailedParams) (now : Z)
| ConsoleAPICalled (tab : Z) (params : ConsoleAPICalledParams) (now : Z)
| ExceptionThrown (tab : Z) (params : ExceptionThrownParams) (now : Z)
| CDPDetach (tab : Z)
| FlushTimerFired (flushTimer : nat) (now : Z)
| FlushStoreSettled (sid : string) (resolved : bool) (now : Z).

Definition flushIdle (st : State) (sid : string) : bool :=
  bool_decide (flushInProgress st !! sid = None).

Definition step (st : State) (e : Event) : option State :=
  match e with
  | StartRecording tab audio mic env => Some (handleStartRecording st tab audio mic env).1
  | StopRecording tab now stopSent => Some (handleStopRecording st tab now stopSent).1
  | TakeScreenshot tab sent => Some (handleTakeScreenshot st tab sent).1
  | GetSessionStatus _ => Some st
  | MediaReady sid => Some (handleMediaReady st sid).1
  | RecordingChunk sid => Some (handleRecordingChunk st sid).1
  | ScreenshotCaptured sid i stored => Some (handleScreenshotCaptured st sid i stored).1
  | MediaStopped sid => Some (handleMediaStopped_stopTimer st sid)
  | MediaStoppedFinalFlush sid now => Some (handleMediaStopped_finalFlush st sid now)
  | MediaStoppedTeardown sid detached tab =>
      Some (handleMediaStopped_teardown st sid detached tab).1
  | MediaError sid error errStage now closed =>
      Some (handleMediaError_begin st sid error errStage now closed).1
  | MediaErrorCleanup sid detached => Some (handleMediaError_cleanup st sid detached)
  | DOMEventCaptured payload now => Some (handleDOMEventCaptured st payload now).1
  | StateSerialized sid stored => Some (handleStateSerialized st sid stored).1
  | NetworkRequestWillBeSent tab params => Some (handleNetworkRequestWillBeSent st tab params)
  | NetworkResponse tab params now => Some (handleNetworkResponse st tab params now)
  | NetworkLoadingFailed tab params now =>
      Some (handleNetworkLoadingFailed st tab params now)
  | ConsoleAPICalled tab params now => Some (handleConsoleAPICalled st tab params now)
  | ExceptionThrown tab params now => Some (handleExceptionThrown st tab params now)
  | CDPDetach tab => Some (handleCDPDetach st tab)
  | FlushTimerFired flushTimer now =>
      match intervals st !! flushTimer with
      | Some sid => Some (flushTelemetryBuffers st sid now)
      | None => None
      end
  | FlushStoreSettled sid resolved now =>
      if flushIdle st sid then None else Some (flushStoreSettled st sid resolved now)
  end.

Fixpoint run (st : State) (es : list Event) : option State :=
  match es with
  | [] => Some st
  | e :: es' =>
      match step st e with
      | Some st' => run st' es'
      | None => None
      end
  end.

(** ** Notions used to state the properties *)

(** [storeNetworkEventBatch] called for the batches [bs] with the indices
    [i], [i+1], ... *)
Fixpoint storeBatches (d : gmap string Storage.value) (sid : string) (i : N)
    (bs : list (list NetworkEvent)) : gmap string Storage.value :=
  match bs with
  | [] => d
  | b :: bs' => storeBatches (Storage.storeNetworkEventBatch d sid i b) sid (N.succ i) bs'
  end.

(** The keys of the batches [i], [i+1], ..., [i+n-1] *)
Fixpoint keysFrom (sid : string) (i : N) (n : nat) : list string :=
  match n with
  | O => []
  | S n' => Storage.networkBatchKey sid i :: keysFrom sid (N.succ i) n'
  end.

(** Every character of a string satisfies [P]. *)
Fixpoint allChars (P : ascii → bool) (s : string) : bool :=
  match s with
  | EmptyString => true
  | String c s' => P c && allChars P s'
  end.

(** The value of a numeral read from its most significant digit. *)
Fixpoint uintValue (d : uint) (acc : Z) : Z :=
  match d with
  | Nil => acc
  | D0 d => uintValue d (10 * acc + 0)
  | D1 d => uintValue d (10 * acc + 1)
  | D2 d => uintValue d (10 * acc + 2)
  | D3 d => uintValue d (10 * acc + 3)
  | D4 d => uintValue d (10 * acc + 4)
  | D5 d => uintValue d (10 * acc + 5)
  | D6 d => uintValue d (10 * acc + 6)
  | D7 d => uintValue d (10 * acc + 7)
  | D8 d => uintValue d (10 * acc + 8)
  | D9 d => uintValue d (10 * acc + 9)
  end.

(** The comparator and the order of a numeric index [g] *)
Definition byIndex {A} (g : A → Z) : A → A → Z := λ a b, g a - g b.
Definition indexLe {A} (g : A → Z) : relation A := λ a b, g a ≤ g b.

(** The index a key is sorted by *)
Definition keyIndex (k : string) : Z := default 0 (Storage.batchIndexOf k).

Definition sampleEvent (rid : string) : NetworkEvent :=
  {| requestId := rid; url := "https://example.test/api"; method := "GET";
     headers := []; postData := None; timestamp := 1; wallTime := 1;
     videoTimestamp := 0; status := 200; statusText := "OK";
     responseHeaders := None; mimeType := None |}.


(** The status a session has in a state, if the session exists *)
Definition statusOf (st : State) (sid : string) : option Status :=
  sstatus <$> smap_get (sessions st) sid.

(** The status of session [sid] after event [e], read off the
    assignments to [session.status] in the handlers: [handleStartRecording]
    registers the session of the tab and the clock as idle once the stream
    id and the offscreen document are there, [handleMediaReady] assigns
    recording, [handleStopRecording] assigns stopping to the session it
    finds recording on the tab, the last piece of [handleMediaStopped]
    assigns completed and [handleMediaError] assigns error, each to the
    session named in the message when it is registered. *)
Definition statusAfter (st : State) (e : Event) (sid : string) : option Status :=
  let status := statusOf st sid in
  match e with
  | StartRecording tab _ _ env =>
      if se_streamId env && se_offscreen env
         && bool_decide (sid = mkSessionId tab (se_now env))
      then Some Idle else status
  | StopRecording tab _ _ =>
      match smap_find (isRecordingOn tab) (sessions st) with
      | Some session => if decide (sessionId session = sid) then Some Stopping else status
      | None => status
      end
  | MediaReady s => if decide (s = sid) then (λ _, Recording) <$> status else status
  | MediaStoppedTeardown s _ _ =>
      if decide (s = sid) then (λ _, Completed) <$> status else status
  | MediaError s _ _ _ _ => if decide (s = sid) then (λ _, Error) <$> status else status
  | _ => status
  end.

(** The legal edges of the spec: idle, recording, stopping, completed in
    that order, and any status to error. *)
Definition legalEdge (a b : Status) : bool :=
  match a, b with
  | Idle, Recording | Recording, Stopping | Stopping, Completed => true
  | _, Error => true
  | _, _ => false
  end.

Definition startEnv (now : Z) : StartEnv :=
  {| se_now := now; se_streamId := true; se_offscreen := true; se_cdpAttach := true;
     se_initSent := true |}.

(** A session of tab 7 started at [T0 = 1000], recorded, stopped and
    completed, with no telemetry. *)
Definition completedTrace : list Event :=
  [StartRecording 7 true false (startEnv 1000); MediaReady "7-1000";
   StopRecording 7 5000 true; MediaStopped "7-1000";
   MediaStoppedFinalFlush "7-1000" 5100;
   MediaStoppedTeardown "7-1000" true (Some ("https://example.test/", "Example"))].

Definition completedState : State :=
  default initialState (run initialState completedTrace).

(** A session of tab 7 started at [T0 = 1000] and recording *)
Definition recordingState : State :=
  default initialState
    (run initialState [StartRecording 7 true false (startEnv 1000); MediaReady "7-1000"]).

(** The entry of the correlation table of a session for a request *)
Definition pendingEntry (st : State) (sid rid : string) : option PartialNetworkEvent :=
  pendingNetworkRequests st !! sid ≫= (.!! rid).

(** The network events of a session that were accepted and are not yet
    in the store: the batch of the flush in flight, while its store is
    awaited, followed by the buffer. *)
Definition inFlightNetwork (st : State) (sid : string) : list NetworkEvent :=
  match flushInProgress st !! sid with
  | Some t =>
      match stage t with
      | AwaitNetworkStore => networkEventsToFlush t
      | _ => []
      end
  | None => []
  end.

Definition unstoredNetwork (st : State) (sid : string) : list NetworkEvent :=
  inFlightNetwork st sid ++ default [] (networkEventBuffers st !! sid).

Definition networkCount (st : State) (sid : string) : option N :=
  networkEventCount <$> smap_get (sessions st) sid.

(** The three buffers of a session emptied in place *)
Definition spliceBuffers (st : State) (sid : string) : State :=
  upd_domEventBuffers (alter (λ _, []) sid)
    (upd_consoleEventBuffers (alter (λ _, []) sid)
       (upd_networkEventBuffers (alter (λ _, []) sid) st)).

(** The filter of [handleNetworkResponse], as the spec words it *)
Definition retainedKind (resourceType : string) (statusCode : Z) : Prop :=
  resourceType = "XHR" ∨ resourceType = "Fetch" ∨ resourceType = "WebSocket" ∨
  resourceType = "Document" ∨ 400 ≤ statusCode.

(** A step that ends a flush of [sid] at time [now]: a call that finds
    nothing to store, or the last store of the flush in flight resolving. *)
Inductive FlushEnds (st : State) (sid : string) (now : Z) : State → Prop :=
| ends_at_call :
    flushInProgress st !! sid = None →
    flushInProgress (flushTelemetryBuffers st sid now) !! sid = None →
    FlushEnds st sid now (flushTelemetryBuffers st sid now)
| ends_at_settle :
    is_Some (flushInProgress st !! sid) →
    flushInProgress (flushStoreSettled st sid true now) !! sid = None →
    FlushEnds st sid now (flushStoreSettled st sid true now).

(** The second half of a request: its response or its failure *)
Inductive Delivery :=
| Responded (params : ResponseReceivedParams) (now : Z)
| LoadFailed (params : LoadingFailedParams) (now : Z).

Definition deliveryId (d : Delivery) : string :=
  match d with
  | Responded params _ => rs_requestId params
  | LoadFailed params _ => lf_requestId params
  end.

Definition deliver (st : State) (tab : Z) (d : Delivery) : State :=
  match d with
  | Responded params now => handleNetworkResponse st tab params now
  | LoadFailed params now => handleNetworkLoadingFailed st tab params now
  end.

(** Every event but a request-sent for [rid] *)
Definition notRequestSent (rid : string) (e : Event) : Prop :=
  match e with
  | NetworkRequestWillBeSent _ params => rq_requestId params ≠ rid
  | _ => True
  end.

Definition imageRequest : RequestWillBeSentParams :=
  {| rq_requestId := "r1"; rq_url := "https://example.test/logo.png"; rq_method := "GET";
     rq_headers := []; rq_postData := None; rq_timestamp := 5; rq_wallTime := 1050 # 1000 |}.

Definition imageResponse (statusCode : Z) : ResponseReceivedParams :=
  {| rs_requestId := "r1"; rs_timestamp := 6; rs_type := "Image"; rs_status := statusCode;
     rs_statusText := ""; rs_headers := []; rs_mimeType := "image/png" |}.

(** The recording session of tab 7 with the image request pending *)
Definition imagePendingState : State :=
  handleNetworkRequestWillBeSent recordingState 7 imageRequest.

Definition sampleSession : SessionState :=
  {| sessionId := ""; tabId := 0; sstatus := Idle; sessionStartTime := 0;
     sessionStopTime := None; includeAudio := false; includeMicrophone := false;
     recordingChunkCount := 0; screenshotCount := 0; networkEventCount := 0;
     consoleEventCount := 0; domEventCount := 0; debuggerAttached := false;
     offscreenDocumentActive := false; lastError := None; errorRecoverable := None |}.

Definition samplePartial : PartialNetworkEvent :=
  {| p_requestId := None; p_url := None; p_method := None; p_headers := None;
     p_postData := None; p_timestamp := None; p_wallTime := None;
     p_videoTimestamp := None |}.

Definition imageSession : SessionState :=
  default sampleSession (smap_get (sessions imagePendingState) "7-1000").
Definition imagePending : gmap string PartialNetworkEvent :=
  default ∅ (pendingNetworkRequests imagePendingState !! "7-1000").
Definition imageEntry : PartialNetworkEvent :=
  default samplePartial (imagePending !! "r1").

(** No entry enters the correlation tables between two states. *)
Definition pendingShrinks (st st' : State) : Prop :=
  ∀ sid rid, pendingEntry st sid rid = None → pendingEntry st' sid rid = None.

(** The recording session of tab 7, its image request pending, flushed
    at time [200000] with nothing buffered *)
Definition sweptState : State := flushTelemetryBuffers imagePendingState "7-1000" 200000.

(** The age of a pending entry at the clock [now] of the sweep, as the
    sweep computes it: the reading [w], in seconds, is a double, and so
    are the product and the difference. *)
Definition sweepAge (now : Z) (w : Q) : Q :=
  JS.toDouble (inject_Z now - JS.toDouble (JS.toDouble w * 1000)).

(** A request whose wall-clock reading CDP sends as [1700000000.123],
    pending at a flush that reads the clock 120000 ms later. *)
Definition boundaryReading : Q := 1700000000123 # 1000.
Definition boundaryNow : Z := 1700000120123.

Definition boundaryRequest : RequestWillBeSentParams :=
  {| rq_requestId := "r9"; rq_url := "https://example.test/slow"; rq_method := "GET";
     rq_headers := []; rq_postData := None; rq_timestamp := 5;
     rq_wallTime := boundaryReading |}.

Definition boundaryPendingState : State :=
  handleNetworkRequestWillBeSent recordingState 7 boundaryRequest.

Definition boundarySweptState : State :=
  flushTelemetryBuffers boundaryPendingState "7-1000" boundaryNow.

(** *** What a flush sees of a session

    The batch index, the flush in flight, the network buffer and the
    network batches of the store. *)

Definition v_index (st : State) (sid : string) : option N :=
  networkBatchIndices st !! sid.
Definition v_task (st : State) (sid : string) : option FlushTask :=
  flushInProgress st !! sid.
Definition v_buffer (st : State) (sid : string) : option (list NetworkEvent) :=
  networkEventBuffers st !! sid.
Definition v_store (st : State) (sid : string) (j : N) : option Storage.value :=
  idb st !! Storage.networkBatchKey sid j.

Definition sameIndexAndStore (sid : string) (st st' : State) : Prop :=
  v_index st' sid = v_index st sid ∧ ∀ j, v_store st' sid j = v_store st sid j.


(** A session whose telemetry was just initialised on a store that holds
    none of its network batches *)
Definition freshTelemetry (st : State) (sid : string) : Prop :=
  v_index st sid = Some 0%N ∧ v_task st sid = None ∧ ∀ j, v_store st sid j = None.

Definition xhrRequest (rid : string) (wallTimeSeconds : Q) : RequestWillBeSentParams :=
  {| rq_requestId := rid; rq_url := "https://example.test/api"; rq_method := "GET";
     rq_headers := []; rq_postData := None; rq_timestamp := 5;
     rq_wallTime := wallTimeSeconds |}.

Definition xhrResponse (rid : string) : ResponseReceivedParams :=
  {| rs_requestId := rid; rs_timestamp := 6; rs_type := "XHR"; rs_status := 200;
     rs_statusText := "OK"; rs_headers := []; rs_mimeType := "application/json" |}.

(** A session in which a periodic flush is in flight when the session is
    stopped: request r1 is answered and the timer starts a flush; request
    r2 is answered while the store is awaited; the stop request and
    media-stopped arrive, the final flush is called, the store resolves
    and the teardown runs. *)
Definition stopDuringFlush : list Event :=
  [StartRecording 7 true false (startEnv 1000); MediaReady "7-1000";
   NetworkRequestWillBeSent 7 (xhrRequest "r1" (1050 # 1000));
   NetworkResponse 7 (xhrResponse "r1") 1100;
   FlushTimerFired 1 11000;
   NetworkRequestWillBeSent 7 (xhrRequest "r2" (11 # 1));
   NetworkResponse 7 (xhrResponse "r2") 11050;
   StopRecording 7 11100 true;
   MediaStopped "7-1000";
   MediaStoppedFinalFlush "7-1000" 11200;
   FlushStoreSettled "7-1000" true 11300;
   MediaStoppedTeardown "7-1000" true (Some ("https://example.test/", "Example"))].

Definition stoppedDuringFlush : State :=
  default initialState (run initialState stopDuringFlush).

(** The same session when no flush is in flight at the stop *)
Definition stopAfterFlush : list Event :=
  [StartRecording 7 true false (startEnv 1000); MediaReady "7-1000";
   NetworkRequestWillBeSent 7 (xhrRequest "r1" (1050 # 1000));
   NetworkResponse 7 (xhrResponse "r1") 1100;
   FlushTimerFired 1 11000;
   FlushStoreSettled "7-1000" true 11010;
   NetworkRequestWillBeSent 7 (xhrRequest "r2" (11 # 1));
   NetworkResponse 7 (xhrResponse "r2") 11050;
   StopRecording 7 11100 true;
   MediaStopped "7-1000";
   MediaStoppedFinalFlush "7-1000" 11200;
   FlushStoreSettled "7-1000" true 11300;
   MediaStoppedTeardown "7-1000" true (Some ("https://example.test/", "Example"))].

Definition stoppedAfterFlush : State :=
  default initialState (run initialState stopAfterFlush).

(** ** The other readers and writers of the store ([lib/storage.ts]) *)

Module StorageExt.
Import Storage.

(** The body of [getConsoleEvents] after [const allKeys = await keys()] *)
Definition getConsoleEventsFrom (allKeys : list string) (d : db) (sessionId : string)
    : list ConsoleEvent :=
  let batchKeys := List.filter (JS.startsWith (consoleBatchPrefix sessionId)) allKeys in
  let sorted := JS.sortBy compareKeys batchKeys in
  foldl (λ allEvents key,
           match d !! key with
           | Some (ConsoleBatch batch) => allEvents ++ batch
           | _ => allEvents
           end) [] sorted.

Definition getConsoleEvents (d : db) (sessionId : string) : list ConsoleEvent :=
  getConsoleEventsFrom (keys d) d sessionId.

(** [storeDOMEvents], the single-key layout that [getDOMEvents] still
    reads when no batch holds an event *)
Definition storeDOMEvents (d : db) (sessionId : string) (events : list DOMEvent) : db :=
  <[createStorageKey sessionId KDom None := DOMBatch events]> d.

(** The batches of [getDOMEvents], before its fallback *)
Definition getDOMBatchesFrom (allKeys : list string) (d : db) (sessionId : string)
    : list DOMEvent :=
  let batchKeys := List.filter (JS.startsWith (domBatchPrefix sessionId)) allKeys in
  let sorted := JS.sortBy compareKeys batchKeys in
  foldl (λ allEvents key,
           match d !! key with
           | Some (DOMBatch batch) => allEvents ++ batch
           | _ => allEvents
           end) [] sorted.

(** The body of [getDOMEvents] after [const allKeys = await keys()]: the
    legacy key is read only when the batches gave no event. *)
Definition getDOMEventsFrom (allKeys : list string) (d : db) (sessionId : string)
    : list DOMEvent :=
  let allEvents := getDOMBatchesFrom allKeys d sessionId in
  if (length allEvents =? 0)%nat then
    match d !! createStorageKey sessionId KDom None with
    | Some (DOMBatch legacyEvents) => legacyEvents
    | _ => allEvents
    end
  else allEvents.

Definition getDOMEvents (d : db) (sessionId : string) : list DOMEvent :=
  getDOMEventsFrom (keys d) d sessionId.

(** [getSessionMetadata]: [null] is [None]. *)
Definition getSessionMetadata (d : db) (sessionId : string) : option SessionMetadata :=
  match d !! createStorageKey sessionId KMetadata None with
  | Some (Metadata m) => Some m
  | _ => None
  end.

(** [deleteSessionData]: every key that starts with [sessionId:] is
    deleted, one after the other. *)
Definition deleteSessionData (d : db) (sessionId : string) : db :=
  let allKeys := keys d in
  let sessionKeys := List.filter (JS.startsWith (sessionId +:+ ":")) allKeys in
  foldl (λ d' key, delete key d') d sessionKeys.

Definition clearAllStorage (d : db) : db := ∅.

End StorageExt.

(** ** Notions used to state the further properties *)

(** [store] called for the batches [bs] with the indices [i], [i+1], ... *)
Fixpoint storeEach {A} (store : gmap string Storage.value → N → list A →
                                gmap string Storage.value)
    (d : gmap string Storage.value) (i : N) (bs : list (list A))
    : gmap string Storage.value :=
  match bs with
  | [] => d
  | b :: bs' => storeEach store (store d i b) (N.succ i) bs'
  end.

(** A session id without a colon, as every id built by [mkSessionId] is *)
Definition colonFree (s : string) : bool :=
  allChars (λ c, negb (Ascii.eqb c ":")) s.

(** The keys [key i], [key (i+1)], ..., [key (i+n-1)] *)
Fixpoint keysWith (key : N → string) (i : N) (n : nat) : list string :=
  match n with
  | O => []
  | S n' => key i :: keysWith key (N.succ i) n'
  end.

(** The batch a stored value holds for each channel *)
Definition consoleBatchOf (v : Storage.value) : option (list ConsoleEvent) :=
  match v with Storage.ConsoleBatch b => Some b | _ => None end.
Definition domBatchOf (v : Storage.value) : option (list DOMEvent) :=
  match v with Storage.DOMBatch b => Some b | _ => None end.
Definition networkBatchOf (v : Storage.value) : option (list NetworkEvent) :=
  match v with Storage.NetworkBatch b => Some b | _ => None end.

Definition sampleConsoleEvent (text : string) : ConsoleEvent :=
  {| c_level := LevelLog; c_text := text; c_args := []; c_stackTrace := None;
     c_timestamp := 1; c_wallTime := 1500; c_videoTimestamp := 500; c_url := None;
     c_lineNumber := None |}.

Definition sampleDOMEvent (selector : string) : DOMEvent :=
  {| d_eventType := "click"; d_selector := selector; d_timestamp := 1500;
     d_videoTimestamp := 500; d_metadata := None |}.

(** *** Redaction *)

(** A header name is sensitive, whatever its letter case *)
Definition sensitive (name : string) : bool :=
  bool_decide (JS.toLowerCase name ∈ SENSITIVE_HEADERS).

(** No sensitive header carries a value other than the placeholder. *)
Definition redacted (hs : Headers) : Prop :=
  ∀ k v, (k, v) ∈ hs → sensitive k = true → v = REDACTED.

Definition eventRedacted (ev : NetworkEvent) : Prop :=
  redacted (headers ev) ∧ ∀ hs, responseHeaders ev = Some hs → redacted hs.

Definition partialRedacted (pe : PartialNetworkEvent) : Prop :=
  ∀ hs, p_headers pe = Some hs → redacted hs.

Definition secretHeaders : Headers :=
  [("Authorization", "Bearer abc"); ("accept", "*/*"); ("COOKIE", "sid=1");
   ("X-Api-Key", "k")].

(** The value [sanitizeHeaders] gives a header *)
Definition sanitizedValue (k v : string) : string :=
  if sensitive k then REDACTED else v.

(** U+212A, the Kelvin sign *)
Definition kelvinSign : string := String "226" (String "132" (String "170" "")).

(** Headers with a cookie spelled with the Kelvin sign and a header
    named [__proto__] *)
Definition oddHeaders : Headers :=
  [("Authorization", "Bearer abc"); ("__proto__", "x");
   ("coo" +:+ kelvinSign +:+ "ie", "sid=1"); ("accept", "*/*")].

(** *** Flushes *)

(** A batch is stored only when it holds an event. *)
Definition storeNonEmpty {A}
    (store : gmap string Storage.value → string → N → list A → gmap string Storage.value)
    (d : gmap string Storage.value) (sid : string) (i : N) (b : list A)
    : gmap string Storage.value :=
  match b with
  | [] => d
  | _ :: _ => store d sid i b
  end.

(** The next index of a channel after a flush of the batch [b] *)
Definition indexAfter {A} (i : N) (b : list A) : N :=
  match b with
  | [] => i
  | _ :: _ => (i + 1)%N
  end.

Definition warnCall : ConsoleAPICalledParams :=
  {| ca_type := "warning";
     ca_args := [{| ro_type := "string"; ro_value := Some "slow"; ro_description := None |};
                 {| ro_type := "object"; ro_value := None; ro_description := None |}];
     ca_stackTrace := None; ca_timestamp := 7 |}.

Definition clickPayload : DOMEventPayload :=
  {| dp_sessionId := "7-1000"; dp_eventType := "click"; dp_selector := "#save";
     dp_timestamp := 1700; dp_metadata := None |}.

(** The recording session of tab 7 with one event in each buffer *)
Definition threeChannelTrace : list Event :=
  [NetworkRequestWillBeSent 7 (xhrRequest "r1" (1050 # 1000));
   NetworkResponse 7 (xhrResponse "r1") 1100;
   ConsoleAPICalled 7 warnCall 1600;
   DOMEventCaptured clickPayload 1700].

Definition threeChannelState : State :=
  default initialState (run recordingState threeChannelTrace).

(** *** Requests and their completion *)

(** The pending entry [handleNetworkRequestWillBeSent] stores for a request *)
Definition requestEntry (session : SessionState) (params : RequestWillBeSentParams)
    : PartialNetworkEvent :=
  {| p_requestId := Some (rq_requestId params);
     p_url := Some (rq_url params);
     p_method := Some (rq_method params);
     p_headers := Some (sanitizeHeaders (rq_headers params));
     p_postData := rq_postData params;
     p_timestamp := Some (rq_timestamp params);
     p_wallTime := Some (rq_wallTime params);
     p_videoTimestamp :=
       Some (Sync.cdpWallTimeToVideoOffset (rq_wallTime params)
               (sessionStartTime session)) |}.

Definition failedLoad (rid : string) : LoadingFailedParams :=
  {| lf_requestId := rid; lf_timestamp := 6; lf_errorText := "net::ERR_FAILED" |}.

Definition secretRequest : RequestWillBeSentParams :=
  {| rq_requestId := "r9"; rq_url := "https://example.test/login"; rq_method := "POST";
     rq_headers := secretHeaders; rq_postData := Some "user=a"; rq_timestamp := 5;
     rq_wallTime := 1250 # 1000 |}.

Definition secretResponse : ResponseReceivedParams :=
  {| rs_requestId := "r9"; rs_timestamp := 6; rs_type := "Fetch"; rs_status := 200;
     rs_statusText := "OK"; rs_headers := [("Set-Cookie", "sid=2"); ("content-type", "a/b")];
     rs_mimeType := "a/b" |}.

Definition blankRequest : RequestWillBeSentParams :=
  {| rq_requestId := "r3"; rq_url := ""; rq_method := "GET"; rq_headers := [];
     rq_postData := None; rq_timestamp := 5; rq_wallTime := 1250 # 1000 |}.

(** *** The elementary state changes of the handlers

    Every piece of a handler is a sequence of the changes below. Each
    constructor gives the new state in full, with what the handler has
    checked before it makes the change. *)

(** A mutation of a session record that keeps its identity *)
Definition sameIdentity (f : SessionState → SessionState) : Prop :=
  ∀ s, sessionId (f s) = sessionId s ∧ tabId (f s) = tabId s ∧
       sessionStartTime (f s) = sessionStartTime s.

(** ... and its telemetry counters *)
Definition sameCounters (f : SessionState → SessionState) : Prop :=
  ∀ s, networkEventCount (f s) = networkEventCount s ∧
       consoleEventCount (f s) = consoleEventCount s ∧
       domEventCount (f s) = domEventCount s.

(** The record [handleStartRecording] registers *)
Definition newSession (tab now : Z) (audio mic attached : bool) : SessionState :=
  {| sessionId := mkSessionId tab now; tabId := tab; sstatus := Idle;
     sessionStartTime := now; sessionStopTime := None;
     includeAudio := audio; includeMicrophone := mic;
     recordingChunkCount := 0; screenshotCount := 0; networkEventCount := 0;
     consoleEventCount := 0; domEventCount := 0;
     debuggerAttached := attached; offscreenDocumentActive := true;
     lastError := None; errorRecoverable := None |}.

(** The telemetry of a session as [handleMediaReady] sets it up *)
Definition initTelemetry (st : State) (sid : string) : State :=
  let st2 := upd_networkEventBuffers (<[sid := []]>) st in
  let st3 := upd_consoleEventBuffers (<[sid := []]>) st2 in
  let st4 := upd_domEventBuffers (<[sid := []]>) st3 in
  let st5 := upd_pendingNetworkRequests (<[sid := ∅]>) st4 in
  let st6 := upd_networkBatchIndices (<[sid := 0%N]>) st5 in
  let st7 := upd_consoleBatchIndices (<[sid := 0%N]>) st6 in
  let st8 := upd_domBatchIndices (<[sid := 0%N]>) st7 in
  let flushTimer := nextInterval st8 in
  let st9 := upd_intervals (<[flushTimer := sid]>) st8 in
  let st10 := upd_nextInterval S st9 in
  upd_flushTimers (<[sid := flushTimer]>) st10.

(** The batch a flush was waiting for is in the store and the index of
    its channel is advanced. *)
Definition storedStage (st : State) (sid : string) (t : FlushTask) : State :=
  match stage t with
  | AwaitNetworkStore =>
      upd_networkBatchIndices (<[sid := (batchIndex t + 1)%N]>)
        (upd_idb (λ d, Storage.storeNetworkEventBatch d sid (batchIndex t)
                         (networkEventsToFlush t)) st)
  | AwaitConsoleStore =>
      upd_consoleBatchIndices (<[sid := (batchIndex t + 1)%N]>)
        (upd_idb (λ d, Storage.storeConsoleEventBatch d sid (batchIndex t)
                         (consoleEventsToFlush t)) st)
  | AwaitDOMStore =>
      upd_domBatchIndices (<[sid := (batchIndex t + 1)%N]>)
        (upd_idb (λ d, Storage.storeDOMEventBatch d sid (batchIndex t)
                         (domEventsToFlush t)) st)
  end.

Definition sameBatches (t t' : FlushTask) : Prop :=
  networkEventsToFlush t' = networkEventsToFlush t ∧
  consoleEventsToFlush t' = consoleEventsToFlush t ∧
  domEventsToFlush t' = domEventsToFlush t.

(** The flush a call starts: the batches are the buffers, and the body
    waits for the store of the first batch that holds an event. *)
Definition startsFlush (st : State) (sid : string) (t : FlushTask) : Prop :=
  networkEventsToFlush t = default [] (networkEventBuffers st !! sid) ∧
  consoleEventsToFlush t = default [] (consoleEventBuffers st !! sid) ∧
  domEventsToFlush t = default [] (domEventBuffers st !! sid) ∧
  match stage t with
  | AwaitNetworkStore =>
      networkEventsToFlush t ≠ [] ∧
      batchIndex t = default 0%N (networkBatchIndices st !! sid)
  | AwaitConsoleStore =>
      networkEventsToFlush t = [] ∧ consoleEventsToFlush t ≠ [] ∧
      batchIndex t = default 0%N (consoleBatchIndices st !! sid)
  | AwaitDOMStore =>
      networkEventsToFlush t = [] ∧ consoleEventsToFlush t = [] ∧
      domEventsToFlush t ≠ [] ∧
      batchIndex t = default 0%N (domBatchIndices st !! sid)
  end.

(** The flush goes on from [t] to the store of a later batch, [t']. *)
Definition nextTask (st : State) (sid : string) (t t' : FlushTask) : Prop :=
  sameBatches t t' ∧
  match stage t, stage t' with
  | AwaitNetworkStore, AwaitConsoleStore =>
      consoleEventsToFlush t ≠ [] ∧
      batchIndex t' = default 0%N (consoleBatchIndices st !! sid)
  | AwaitNetworkStore, AwaitDOMStore =>
      consoleEventsToFlush t = [] ∧ domEventsToFlush t ≠ [] ∧
      batchIndex t' = default 0%N (domBatchIndices st !! sid)
  | AwaitConsoleStore, AwaitDOMStore =>
      domEventsToFlush t ≠ [] ∧
      batchIndex t' = default 0%N (domBatchIndices st !! sid)
  | _, _ => False
  end.

(** No later batch holds an event. *)
Definition lastTask (t : FlushTask) : Prop :=
  match stage t with
  | AwaitNetworkStore => consoleEventsToFlush t = [] ∧ domEventsToFlush t = []
  | AwaitConsoleStore => domEventsToFlush t = []
  | AwaitDOMStore => True
  end.

(** The keys of a session that hold no batch *)
Inductive otherKey (sid : string) : string → Prop :=
| key_metadata : otherKey sid (Storage.createStorageKey sid Storage.KMetadata None)
| key_state : otherKey sid (Storage.createStorageKey sid Storage.KState None)
| key_screenshot i :
    otherKey sid (Storage.createStorageKey sid Storage.KScreenshot (Some i) +:+ ":metadata").

Definition otherValue (v : Storage.value) : Prop :=
  networkBatchOf v = None ∧ consoleBatchOf v = None ∧ domBatchOf v = None.

(** The event is the completion of the pending entry. *)
Definition completes (pe : PartialNetworkEvent) (ev : NetworkEvent) : Prop :=
  ∃ rid u m, requiredFields pe = Some (rid, u, m) ∧
    ((∃ params, ev = completeEvent rid u m pe params) ∨
     (∃ params, ev = failedEvent rid u m pe params)).

(** What a change does to the telemetry of a session as a whole *)
Inductive MoveKind :=
| SetsUp (sid : string)
| TearsDown (sid : string)
| Registers (sid : string)
| Settles (sid : string)
| Rejects (sid : string)
| Plain.

Inductive Move (st : State) : MoveKind → State → Prop :=
| mv_alter f sid :
    sameIdentity f → sameCounters f →
    Move st Plain (upd_sessions (smap_alter f sid) st)
| mv_mutate p f :
    sameIdentity f → sameCounters f →
    Move st Plain (upd_sessions (smap_mutate_found p f) st)
| mv_start tab now audio mic attached :
    Move st (Registers (mkSessionId tab now))
      (upd_tabIdToSessionId (<[tab := mkSessionId tab now]>)
         (upd_sessions
            (λ m, smap_set m (mkSessionId tab now) (newSession tab now audio mic attached))
            st))
| mv_ready sid s :
    smap_get (sessions st) sid = Some s →
    Move st (SetsUp sid) (initTelemetry st sid)
| mv_cleanup sid s :
    smap_get (sessions st) sid = Some s →
    Move st (TearsDown sid) (cleanupTelemetry st sid (tabId s))
| mv_stop_timer sid : Move st Plain (stopFlushTimer st sid)
| mv_store_other sid s k v :
    smap_get (sessions st) sid = Some s → otherKey sid k → otherValue v →
    Move st Plain (upd_idb (<[k := v]>) st)
| mv_request tab sid session pend params :
    activeSession st tab = Some (sid, session) →
    pendingNetworkRequests st !! sid = Some pend →
    Move st Plain
      (upd_pendingNetworkRequests
         (<[sid := <[rq_requestId params := requestEntry session params]> pend]>) st)
| mv_delete_pending sid rid : Move st Plain (deletePending st sid rid)
| mv_push_network tab sid session buf key pe ev :
    activeSession st tab = Some (sid, session) →
    networkEventBuffers st !! sid = Some buf →
    pendingEntry st sid key = Some pe → completes pe ev →
    Move st Plain
      (upd_sessions
         (smap_alter (λ s, set_networkEventCount (networkEventCount s + 1)%N s) sid)
         (upd_networkEventBuffers (<[sid := buf ++ [ev]]>) st))
| mv_push_console tab sid session buf ev :
    activeSession st tab = Some (sid, session) →
    consoleEventBuffers st !! sid = Some buf →
    Move st Plain
      (upd_sessions
         (smap_alter (λ s, set_consoleEventCount (consoleEventCount s + 1)%N s) sid)
         (upd_consoleEventBuffers (<[sid := buf ++ [ev]]>) st))
| mv_push_dom sid session buf ev :
    smap_get (sessions st) sid = Some session → sstatus session = Recording →
    domEventBuffers st !! sid = Some buf →
    Move st Plain
      (upd_sessions
         (smap_alter (λ s, set_domEventCount (domEventCount s + 1)%N s) sid)
         (upd_domEventBuffers (<[sid := buf ++ [ev]]>) st))
| mv_flush_start sid t :
    flushInProgress st !! sid = None → startsFlush st sid t →
    Move st Plain (suspendFlush (spliceBuffers st sid) sid t)
| mv_flush_empty sid now :
    flushInProgress st !! sid = None →
    default [] (networkEventBuffers st !! sid) = [] →
    default [] (consoleEventBuffers st !! sid) = [] →
    default [] (domEventBuffers st !! sid) = [] →
    Move st Plain (flushSweep st sid now)
| mv_settle_next sid t t' :
    flushInProgress st !! sid = Some t → nextTask (storedStage st sid t) sid t t' →
    Move st (Settles sid) (suspendFlush (storedStage st sid t) sid t')
| mv_settle_end sid t now :
    flushInProgress st !! sid = Some t → lastTask t →
    Move st (Settles sid) (flushSweep (storedStage st sid t) sid now)
| mv_settle_rejected sid t :
    flushInProgress st !! sid = Some t →
    Move st (Rejects sid) (upd_flushInProgress (delete sid) st).

(** The kinds of change an event may make *)
Definition mayMake (e : Event) (k : MoveKind) : Prop :=
  match k with
  | SetsUp sid => e = MediaReady sid
  | TearsDown sid =>
      (∃ detached tab, e = MediaStoppedTeardown sid detached tab) ∨
      (∃ detached, e = MediaErrorCleanup sid detached)
  | Registers sid =>
      ∃ tab audio mic env,
        e = StartRecording tab audio mic env ∧ sid = mkSessionId tab (se_now env)
  | Settles sid => ∃ now, e = FlushStoreSettled sid true now
  | Rejects sid => ∃ now, e = FlushStoreSettled sid false now
  | Plain => True
  end.

(** One change of a kind that [P] admits *)
Definition MoveOf (P : MoveKind → Prop) (st st' : State) : Prop :=
  ∃ k, P k ∧ Move st k st'.

(** *** Properties of every reachable state *)

(** Every session is registered under its own id, and the id is the one
    [handleStartRecording] builds from the tab and the start time. *)
Definition sessionsWellFormed (st : State) : Prop :=
  ∀ sid s, smap_get (sessions st) sid = Some s →
           sessionId s = sid ∧ sid = mkSessionId (tabId s) (sessionStartTime s).

(** Every entry of the reverse index names a registered session of its tab. *)
Definition indexSound (st : State) : Prop :=
  ∀ tab sid, tabIdToSessionId st !! tab = Some sid →
             ∃ s, smap_get (sessions st) sid = Some s ∧ tabId s = tab.

(** The three buffers and the pending table of a session exist
    together, and only a registered session has buffers, a batch index
    or a flush in flight. *)
Definition telemetryKnown (st : State) : Prop :=
  ∀ sid,
    (is_Some (consoleEventBuffers st !! sid) ↔ is_Some (networkEventBuffers st !! sid)) ∧
    (is_Some (domEventBuffers st !! sid) ↔ is_Some (networkEventBuffers st !! sid)) ∧
    (is_Some (pendingNetworkRequests st !! sid) ↔
     is_Some (networkEventBuffers st !! sid)) ∧
    (is_Some (networkEventBuffers st !! sid) → is_Some (smap_get (sessions st) sid)) ∧
    (is_Some (networkBatchIndices st !! sid) → is_Some (smap_get (sessions st) sid)) ∧
    (is_Some (consoleBatchIndices st !! sid) → is_Some (smap_get (sessions st) sid)) ∧
    (is_Some (domBatchIndices st !! sid) → is_Some (smap_get (sessions st) sid)) ∧
    (is_Some (flushInProgress st !! sid) → is_Some (smap_get (sessions st) sid)).

(** No network event or pending entry, wherever the worker keeps it,
    carries the value of a sensitive header. *)
Definition noSecretKept (st : State) : Prop :=
  (∀ sid buf, networkEventBuffers st !! sid = Some buf → Forall eventRedacted buf) ∧
  (∀ sid t, flushInProgress st !! sid = Some t →
            Forall eventRedacted (networkEventsToFlush t)) ∧
  (∀ sid rid pe, pendingEntry st sid rid = Some pe → partialRedacted pe) ∧
  (∀ k b, idb st !! k = Some (Storage.NetworkBatch b) → Forall eventRedacted b).

(** A session in which a request with credentials is answered and the
    event is flushed to the store *)
Definition secretTrace : list Event :=
  [StartRecording 7 true false (startEnv 1000); MediaReady "7-1000";
   NetworkRequestWillBeSent 7 secretRequest;
   NetworkResponse 7 secretResponse 1300;
   FlushTimerFired 1 11000;
   FlushStoreSettled "7-1000" true 11010].

Definition secretStored : State := default initialState (run initialState secretTrace).

(** *** Accounting for the accepted network events *)

#[global] Instance FlushStage_eq_dec : EqDecision FlushStage.
Proof. solve_decision. Defined.

(** Events that leave the telemetry and the counters of a session in
    place: no set-up or teardown of its telemetry, no start request that
    registers its id again, no store of a flush of it that rejects. *)
Definition keepsEvents (sid : string) (e : Event) : Prop :=
  match e with
  | MediaReady s | MediaStoppedTeardown s _ _ | MediaErrorCleanup s _ => s ≠ sid
  | StartRecording tab _ _ env => mkSessionId tab (se_now env) ≠ sid
  | FlushStoreSettled s resolved _ => s = sid → resolved = true
  | _ => True
  end.

Definition keepsKind (sid : string) (k : MoveKind) : Prop :=
  match k with
  | SetsUp s | TearsDown s | Registers s | Rejects s => s ≠ sid
  | Settles _ | Plain => True
  end.

(** What a change does to the network events of a session and their count *)
Inductive ViewStep (sid : string) (st st' : State) : Prop :=
| view_same :
    sameIndexAndStore sid st st' → v_task st' sid = v_task st sid →
    v_buffer st' sid = v_buffer st sid → networkCount st' sid = networkCount st sid →
    ViewStep sid st st'
| view_push ev buf c :
    sameIndexAndStore sid st st' → v_task st' sid = v_task st sid →
    v_buffer st sid = Some buf → v_buffer st' sid = Some (buf ++ [ev]) →
    networkCount st sid = Some c → networkCount st' sid = Some (c + 1)%N →
    ViewStep sid st st'
| view_start t :
    sameIndexAndStore sid st st' → networkCount st' sid = networkCount st sid →
    v_task st sid = None → v_task st' sid = Some t →
    v_buffer st' sid = (λ _, []) <$> v_buffer st sid →
    networkEventsToFlush t = default [] (v_buffer st sid) →
    (stage t = AwaitNetworkStore → batchIndex t = default 0%N (v_index st sid)) →
    (stage t ≠ AwaitNetworkStore → default [] (v_buffer st sid) = []) →
    ViewStep sid st st'
| view_stored t :
    networkCount st' sid = networkCount st sid → v_buffer st' sid = v_buffer st sid →
    v_task st sid = Some t → stage t = AwaitNetworkStore →
    (∀ j, v_store st' sid j =
          if decide (j = batchIndex t)
          then Some (Storage.NetworkBatch (networkEventsToFlush t))
          else v_store st sid j) →
    v_index st' sid = Some (batchIndex t + 1)%N →
    (∀ t', v_task st' sid = Some t' → stage t' ≠ AwaitNetworkStore) →
    ViewStep sid st st'
| view_settled t :
    sameIndexAndStore sid st st' → networkCount st' sid = networkCount st sid →
    v_buffer st' sid = v_buffer st sid →
    v_task st sid = Some t → stage t ≠ AwaitNetworkStore →
    (∀ t', v_task st' sid = Some t' → stage t' ≠ AwaitNetworkStore) →
    ViewStep sid st st'.

(** The network batches [bs] are the stored batches of the session, in
    index order, and the next batch goes after them. *)
Definition batchesOf (st : State) (sid : string) (bs : list (list NetworkEvent)) : Prop :=
  v_index st sid = Some (N.of_nat (length bs)) ∧
  (∀ j b, bs !! j = Some b →
          v_store st sid (N.of_nat j) = Some (Storage.NetworkBatch b)) ∧
  (∀ j, (N.of_nat (length bs) ≤ j)%N → v_store st sid j = None) ∧
  (∀ t, v_task st sid = Some t → stage t = AwaitNetworkStore →
        batchIndex t = N.of_nat (length bs)).

(** Every key of the store was written for a registered session and is
    one of its batch keys or of its other keys. *)
Definition storeKeysKnown (st : State) : Prop :=
  ∀ k, is_Some (idb st !! k) →
       ∃ s, is_Some (smap_get (sessions st) s) ∧
            ((∃ j, k = Storage.networkBatchKey s j) ∨
             (∃ j, k = Storage.consoleBatchKey s j) ∨
             (∃ j, k = Storage.domBatchKey s j) ∨ otherKey s k).

(** The events [log] that were awaiting storage at the start, followed by
    those accepted since, are the stored batches followed by the events
    awaiting storage now, and the counter has grown by the number of
    events accepted since. *)
Definition accounted (sid : string) (log : list NetworkEvent) (c0 : N) (st : State)
    : Prop :=
  ∃ bs more,
    batchesOf st sid bs ∧
    concat bs ++ unstoredNetwork st sid = log ++ more ∧
    networkCount st sid = Some (c0 + N.of_nat (length more))%N.

(** The recording session of tab 7: a request is answered and flushed, a
    second one is answered and still buffered. *)
Definition accountTrace : list Event :=
  [NetworkRequestWillBeSent 7 (xhrRequest "r1" (1050 # 1000));
   NetworkResponse 7 (xhrResponse "r1") 1100;
   FlushTimerFired 1 11000;
   FlushStoreSettled "7-1000" true 11010;
   NetworkRequestWillBeSent 7 (xhrRequest "r2" (11 # 1));
   NetworkResponse 7 (xhrResponse "r2") 11050].

Definition accountState : State := default initialState (run recordingState accountTrace).

(** *** The end of a session *)

(** A CDP event of a tab *)
Definition cdpEventOn (tab : Z) (e : Event) : Prop :=
  match e with
  | NetworkRequestWillBeSent t _ | NetworkResponse t _ _ | NetworkLoadingFailed t _ _
  | ConsoleAPICalled t _ _ | ExceptionThrown t _ _ | CDPDetach t => t = tab
  | _ => False
  end.

(** The metadata [handleMediaStopped] stores for a session and a tab:
    the duration is there when the stop time is truthy. *)
Definition completedMetadata (s : SessionState) (tabUrl tabTitle : string)
    : SessionMetadata :=
  {| m_sessionId := sessionId s; m_tabId := tabId s; m_url := tabUrl; m_title := tabTitle;
     m_startTime := sessionStartTime s; m_endTime := sessionStopTime s;
     m_duration :=
       match sessionStopTime s with
       | Some 0 | None => None
       | Some stop => Some (stop - sessionStartTime s)
       end |}.

(** The session of tab 7 stopped at 5000 and its media stopped, before
    the teardown *)
Definition stoppedState : State :=
  default initialState
    (run recordingState
       [StopRecording 7 5000 true; MediaStopped "7-1000";
        MediaStoppedFinalFlush "7-1000" 5100]).

Definition stoppedSession : SessionState :=
  default sampleSession (smap_get (sessions stoppedState) "7-1000").

(** *** The size trigger of the flush *)

(** The recording session of tab 7 after [n] requests were answered *)
Definition answered (n : nat) : list Event :=
  flat_map (λ i, [NetworkRequestWillBeSent 7 (xhrRequest (JS.numToString (N.of_nat i)) 2);
                  NetworkResponse 7 (xhrResponse (JS.numToString (N.of_nat i))) 2100])
    (seq 0 n).

Definition almostFullState : State :=
  default initialState (run recordingState (answered 49)).

Definition almostFullBuffer : list NetworkEvent :=
  default [] (networkEventBuffers almostFullState !! "7-1000").

Definition lastRequestState : State :=
  handleNetworkRequestWillBeSent almostFullState 7 (xhrRequest "last" 3).

(** *** The status query *)

(** The record [handleMediaStopped] leaves in [chrome.storage.local] *)
Record LastSession := {
  ls_sessionId : string;
  ls_tabId : Z;
  ls_startTime : Z;
}.

(** The [session] field of the answer to [GET_SESSION_STATUS] *)
Record SessionInfo := {
  si_sessionId : option string;
  si_tabId : Z;
  si_status : Status;
  si_sessionStartTime : option Z;
  si_recordingChunkCount : option N;
  si_screenshotCount : option N;
  si_networkEventCount : option N;
  si_consoleEventCount : option N;
}.

Definition isOnTab (tab : Z) (s : SessionState) : bool := bool_decide (tabId s = tab).

(** [handleGetSessionStatus]: [stored] is what [chrome.storage.local.get]
    gave for the tab, [None] when the call threw. The answer is always a
    success. *)
Definition handleGetSessionStatus (st : State) (tab : Z)
    (stored : option (option LastSession)) : SessionInfo :=
  match smap_find (isOnTab tab) (sessions st) with
  | Some session =>
      {| si_sessionId := Some (sessionId session); si_tabId := tabId session;
         si_status := sstatus session;
         si_sessionStartTime := Some (sessionStartTime session);
         si_recordingChunkCount := Some (recordingChunkCount session);
         si_screenshotCount := Some (screenshotCount session);
         si_networkEventCount := Some (networkEventCount session);
         si_consoleEventCount := Some (consoleEventCount session) |}
  | None =>
      match stored with
      | Some (Some lastSession) =>
          {| si_sessionId := Some (ls_sessionId lastSession);
             si_tabId := ls_tabId lastSession; si_status := Completed;
             si_sessionStartTime := Some (ls_startTime lastSession);
             si_recordingChunkCount := None; si_screenshotCount := None;
             si_networkEventCount := None; si_consoleEventCount := None |}
      | _ =>
          {| si_sessionId := None; si_tabId := tab; si_status := Idle;
             si_sessionStartTime := None; si_recordingChunkCount := None;
             si_screenshotCount := None; si_networkEventCount := None;
             si_consoleEventCount := None |}
      end
  end.

(** Every entry of the session map holds a record with the id it is
    registered under, built from the record's tab and start time. *)
Definition entriesWellFormed (m : list (string * SessionState)) : Prop :=
  ∀ k s, (k, s) ∈ m → sessionId s = k ∧ k = mkSessionId (tabId s) (sessionStartTime s).

(** The ids and tabs of the sessions, in registration order *)
Definition keyTabs (m : list (string * SessionState)) : list (string * Z) :=
  (λ kv, (kv.1, tabId kv.2)) <$> m.

(** A second session of tab 7, started after the first one completed *)
Definition secondSessionState : State :=
  default initialState
    (run completedState [StartRecording 7 true false (startEnv 9000); MediaReady "7-9000"]).

(** *** The three telemetry channels

    A channel is what the flush handles alike for network, console and
    DOM events: a buffer and a next batch index per session, the key and
    the value of a batch in the store, the [await] of the flush body at
    which its batch is being stored, the batch the flush in flight took
    out of the buffer, and the counter of the session record. *)

Record Channel (E : Type) := {
  ch_buffers : State → gmap string (list E);
  ch_indices : State → gmap string N;
  ch_key : string → N → string;
  ch_value : list E → Storage.value;
  ch_stage : FlushStage;
  ch_taken : FlushTask → list E;
  ch_count : SessionState → N;
}.
Arguments ch_buffers {E}.
Arguments ch_indices {E}.
Arguments ch_key {E}.
Arguments ch_value {E}.
Arguments ch_stage {E}.
Arguments ch_taken {E}.
Arguments ch_count {E}.

Definition networkChannel : Channel NetworkEvent :=
  {| ch_buffers := networkEventBuffers; ch_indices := networkBatchIndices;
     ch_key := Storage.networkBatchKey; ch_value := Storage.NetworkBatch;
     ch_stage := AwaitNetworkStore; ch_taken := networkEventsToFlush;
     ch_count := networkEventCount |}.

Definition consoleChannel : Channel ConsoleEvent :=
  {| ch_buffers := consoleEventBuffers; ch_indices := consoleBatchIndices;
     ch_key := Storage.consoleBatchKey; ch_value := Storage.ConsoleBatch;
     ch_stage := AwaitConsoleStore; ch_taken := consoleEventsToFlush;
     ch_count := consoleEventCount |}.

Definition domChannel : Channel DOMEvent :=
  {| ch_buffers := domEventBuffers; ch_indices := domBatchIndices;
     ch_key := Storage.domBatchKey; ch_value := Storage.DOMBatch;
     ch_stage := AwaitDOMStore; ch_taken := domEventsToFlush;
     ch_count := domEventCount |}.

(** The order of the three stores in the flush body *)
Definition stageRank (s : FlushStage) : nat :=
  match s with
  | AwaitNetworkStore => 0
  | AwaitConsoleStore => 1
  | AwaitDOMStore => 2
  end.

Section ChannelView.
Context {E : Type} (C : Channel E) (sid : string).

(** What a session has of a channel *)
Definition buffered (st : State) : list E := default [] (ch_buffers C st !! sid).
Definition nextIndex (st : State) : N := default 0%N (ch_indices C st !! sid).
Definition batchAt (st : State) (j : N) : option Storage.value :=
  idb st !! ch_key C sid j.
Definition counted (st : State) : option N :=
  ch_count C <$> smap_get (sessions st) sid.

(** A change that leaves the channel of the session as it is *)
Definition ChanFrame (st st' : State) : Prop :=
  ch_indices C st' !! sid = ch_indices C st !! sid ∧
  (∀ j, batchAt st' j = batchAt st j) ∧
  flushInProgress st' !! sid = flushInProgress st !! sid ∧
  ch_buffers C st' !! sid = ch_buffers C st !! sid ∧
  counted st' = counted st.

(** What a change made outside the stores of a flush does to the
    channel: nothing, one event accepted, or a flush started. *)
Inductive ChanQuiet (st st' : State) : Prop :=
| chan_frame : ChanFrame st st' → ChanQuiet st st'
| chan_push ev buf c :
    ch_indices C st' !! sid = ch_indices C st !! sid →
    (∀ j, batchAt st' j = batchAt st j) →
    flushInProgress st' !! sid = flushInProgress st !! sid →
    ch_buffers C st !! sid = Some buf →
    ch_buffers C st' !! sid = Some (buf ++ [ev]) →
    counted st = Some c → counted st' = Some (c + 1)%N →
    ChanQuiet st st'
| chan_start t :
    ch_indices C st' !! sid = ch_indices C st !! sid →
    (∀ j, batchAt st' j = batchAt st j) →
    counted st' = counted st →
    flushInProgress st !! sid = None →
    flushInProgress st' !! sid = Some t →
    ch_buffers C st' !! sid = (λ _, []) <$> ch_buffers C st !! sid →
    ch_taken C t = buffered st →
    (stage t = ch_stage C → batchIndex t = nextIndex st) →
    (stageRank (ch_stage C) < stageRank (stage t) → buffered st = [])%nat →
    ChanQuiet st st'.

(** What a store of the flush in flight does to the channel when it
    resolves: the batch of the channel is stored and its index advanced,
    or the store was the one of another channel. The flush then waits
    for a later store or is over. *)
Inductive ChanSettle (st st' : State) : Prop :=
| chan_stored t :
    flushInProgress st !! sid = Some t → stage t = ch_stage C →
    (∀ j, batchAt st' j =
          if decide (j = batchIndex t) then Some (ch_value C (ch_taken C t))
          else batchAt st j) →
    ch_indices C st' !! sid = Some (batchIndex t + 1)%N →
    ch_buffers C st' !! sid = ch_buffers C st !! sid →
    counted st' = counted st →
    (∀ t', flushInProgress st' !! sid = Some t' →
           (stageRank (stage t) < stageRank (stage t'))%nat) →
    ChanSettle st st'
| chan_settled t :
    flushInProgress st !! sid = Some t → stage t ≠ ch_stage C →
    ch_indices C st' !! sid = ch_indices C st !! sid →
    (∀ j, batchAt st' j = batchAt st j) →
    ch_buffers C st' !! sid = ch_buffers C st !! sid →
    counted st' = counted st →
    (∀ t', flushInProgress st' !! sid = Some t' →
           (stageRank (stage t) < stageRank (stage t'))%nat ∧
           (stage t' = ch_stage C → batchIndex t' = nextIndex st')) →
    ChanSettle st st'.

(** ... and when it rejects: the flush is over. *)
Definition ChanReject (st st' : State) : Prop :=
  is_Some (flushInProgress st !! sid) ∧ flushInProgress st' !! sid = None ∧
  ch_indices C st' !! sid = ch_indices C st !! sid ∧
  (∀ j, batchAt st' j = batchAt st j) ∧
  ch_buffers C st' !! sid = ch_buffers C st !! sid ∧
  counted st' = counted st.

(** A start request that registers the id again resets the counter. *)
Definition ChanReset (st st' : State) : Prop :=
  ch_indices C st' !! sid = ch_indices C st !! sid ∧
  (∀ j, batchAt st' j = batchAt st j) ∧
  flushInProgress st' !! sid = flushInProgress st !! sid ∧
  ch_buffers C st' !! sid = ch_buffers C st !! sid.

(** What a change of kind [k] does to the channel of the session, when
    it is not the set-up or the teardown of its telemetry *)
Definition ChanStep (k : MoveKind) (st st' : State) : Prop :=
  match k with
  | Plain => ChanQuiet st st'
  | Settles s => if decide (s = sid) then ChanSettle st st' else ChanFrame st st'
  | Rejects s => if decide (s = sid) then ChanReject st st' else ChanFrame st st'
  | Registers s => if decide (s = sid) then ChanReset st st' else ChanFrame st st'
  | SetsUp s | TearsDown s => s ≠ sid → ChanFrame st st'
  end.



End ChannelView.


(** ... nor a registration of its id, nor a store of a flush of it
    settling *)
Definition quietKind (sid : string) (k : MoveKind) : Prop :=
  match k with
  | SetsUp s | TearsDown s | Registers s | Settles s | Rejects s => s ≠ sid
  | Plain => True
  end.

(** *** A flush from its call to its end *)

(** The event loop for the time a flush of [sid] is in flight: every
    event of the run finds the flush in flight and the last one ends it. *)
Fixpoint runFlush (sid : string) (st : State) (es : list Event) : option State :=
  match es with
  | [] => if flushIdle st sid then Some st else None
  | e :: es' =>
      if flushIdle st sid then None
      else match step st e with
           | Some st' => runFlush sid st' es'
           | None => None
           end
  end.

(** Events that neither set up nor tear down the telemetry of [sid], do
    not register its id again, and are not a store of its flush
    rejecting *)
Definition duringFlush (sid : string) (e : Event) : Prop :=
  match e with
  | MediaReady s | MediaStoppedTeardown s _ _ | MediaErrorCleanup s _ => s ≠ sid
  | StartRecording tab _ _ env => mkSessionId tab (se_now env) ≠ sid
  | FlushStoreSettled s resolved _ => s = sid → resolved = true
  | _ => True
  end.

Section FlushLedger.
Context {E : Type} (C : Channel E) (sid : string) (st0 : State).

(** Since [st0] the channel has no new batch and its index has not moved. *)
Definition unwrittenOn (st : State) : Prop :=
  ch_indices C st !! sid = ch_indices C st0 !! sid ∧
  ∀ j, batchAt C sid st j = batchAt C sid st0 j.

(** Since [st0] the events then in the buffer were stored as one batch
    under the index the channel then had, the index is one more, and no
    other batch of the channel was written or changed; nothing at all
    when the buffer was empty. *)
Definition storedOn (st : State) : Prop :=
  nextIndex C sid st = indexAfter (nextIndex C sid st0) (buffered C sid st0) ∧
  ∀ j, batchAt C sid st j =
       if decide (j = nextIndex C sid st0 ∧ buffered C sid st0 ≠ [])
       then Some (ch_value C (buffered C sid st0))
       else batchAt C sid st0 j.

(** Every event counted since the flush of [st0] emptied the buffer is in
    the buffer. *)
Definition keptOn (st : State) : Prop :=
  counted C sid st =
    (λ c, (c + N.of_nat (length (buffered C sid st)))%N) <$> counted C sid st0.

(** The channel while the flush called in [st0] is in flight and once it
    is over: the flush holds the events it took out of the buffer until
    their store resolves. *)
Definition ledger (st : State) : Prop :=
  keptOn st ∧
  match flushInProgress st !! sid with
  | Some t =>
      ch_taken C t = buffered C sid st0 ∧
      if decide (stageRank (ch_stage C) < stageRank (stage t))%nat then storedOn st
      else unwrittenOn st ∧
           (stage t = ch_stage C →
            batchIndex t = nextIndex C sid st0 ∧ buffered C sid st0 ≠ [])
  | None => storedOn st
  end.

End FlushLedger.

(** What the flush body does with a channel: the changes of the worker
    act on it as [ChanStep] says, the flush goes on to the store of the
    channel exactly when it took events of it, and a call that finds no
    flush in flight takes the buffer of the channel. *)
Definition flushChannel {E : Type} (C : Channel E) (sid : string) : Prop :=
  (∀ st k st', Move st k st' → ChanStep C sid k st st') ∧
  (∀ st t t', nextTask st sid t t' →
     ch_taken C t' = ch_taken C t ∧
     (stage t' = ch_stage C → ch_taken C t ≠ []) ∧
     ((stageRank (stage t) < stageRank (ch_stage C))%nat →
      (stageRank (ch_stage C) < stageRank (stage t'))%nat → ch_taken C t = [])) ∧
  (∀ t, lastTask t → (stageRank (stage t) < stageRank (ch_stage C))%nat →
        ch_taken C t = []) ∧
  (∀ st now, flushInProgress st !! sid = None →
             ledger C sid st (flushTelemetryBuffers st sid now)).

(** The session with one event in each buffer: while its flush is in
    flight the flush timer fires, a console call arrives and the final
    flush of a stop is requested; the three stores resolve. *)
Definition joinedFlushTrace : list Event :=
  [FlushTimerFired 1 11001;
   FlushStoreSettled "7-1000" true 11010;
   ConsoleAPICalled 7 warnCall 11015;
   MediaStoppedFinalFlush "7-1000" 11016;
   FlushStoreSettled "7-1000" true 11020;
   FlushStoreSettled "7-1000" true 11030].

Definition joinedFlushState : State :=
  default initialState
    (runFlush "7-1000" (flushTelemetryBuffers threeChannelState "7-1000" 11000)
       joinedFlushTrace).

(** ... and the same flush when its first store rejects after the timer
    fired. *)
Definition rejectedFlushTrace : list Event :=
  [FlushTimerFired 1 11001; FlushStoreSettled "7-1000" false 11010].

Definition rejectedFlushState : State :=
  default initialState
    (runFlush "7-1000" (flushTelemetryBuffers threeChannelState "7-1000" 11000)
       rejectedFlushTrace).

(** * Facts about the embedding *)

(** ** Strings, decimal numerals and storage keys *)

Module JSFacts.
Import JS.

Lemma append_cons (x : ascii) (a b : string) : String x a +:+ b = String x (a +:+ b).
Proof. reflexivity. Qed.

Lemma append_nil_l (a : string) : EmptyString +:+ a = a.
Proof. reflexivity. Qed.

Lemma append_assoc (a b c : string) : (a +:+ b) +:+ c = a +:+ (b +:+ c).
Proof. induction a as [|x a IH]; [done|]. by rewrite !append_cons, IH. Qed.

Lemma chars_append (a b : string) :
  list_ascii_of_string (a +:+ b) = list_ascii_of_string a ++ list_ascii_of_string b.
Proof. induction a as [|x a IH]; [done|]. rewrite append_cons. simpl. by rewrite IH. Qed.

Lemma chars_inj (a b : string) : list_ascii_of_string a = list_ascii_of_string b → a = b.
Proof.
  intros H. rewrite <- (string_of_list_ascii_of_string a), H.
  apply string_of_list_ascii_of_string.
Qed.

Lemma append_inv_tail (a b c : string) : a +:+ c = b +:+ c → a = b.
Proof.
  intros H. apply chars_inj. apply (f_equal list_ascii_of_string) in H.
  rewrite !chars_append in H. by apply app_inv_tail in H.
Qed.

Lemma append_inv_head (a b c : string) : a +:+ b = a +:+ c → b = c.
Proof. apply String.app_inj. Qed.

(** Two strings with suffixes of equal length split at the same place. *)
Lemma append_inj_suffix (a b c d : string) :
  String.length c = String.length d → a +:+ c = b +:+ d → a = b ∧ c = d.
Proof.
  intros Hlen H. apply (f_equal list_ascii_of_string) in H.
  rewrite !chars_append in H.
  assert (length (list_ascii_of_string c) = length (list_ascii_of_string d)) as Hl.
  { clear H. revert d Hlen. induction c as [|x c IH]; intros [|y d]; simpl; try done.
    intros [= ?]. f_equal. by apply IH. }
  apply app_inj_2 in H as [H1 H2]; [|done].
  split; by apply chars_inj.
Qed.

Lemma startsWith_append (p s : string) : startsWith p (p +:+ s) = true.
Proof.
  induction p as [|a p IH]; [done|]. rewrite append_cons. simpl.
  by rewrite Ascii.eqb_refl.
Qed.

Lemma startsWith_inv (p s : string) : startsWith p s = true → ∃ r, s = p +:+ r.
Proof.
  revert s. induction p as [|a p IH]; intros s H; simpl in *.
  - by exists s.
  - destruct s as [|b s]; [done|].
    destruct (Ascii.eqb a b) eqn:E; [|done].
    apply Ascii.eqb_eq in E as ->. destruct (IH _ H) as [r ->]. by exists r.
Qed.

(** *** Decimal numerals *)

Lemma uintValue_of_lu (d : uint) (acc : Z) :
  uintValue d acc =
  acc * 10 ^ Z.of_N (Unsigned.usize d) + Z.of_N (Unsigned.of_lu (Decimal.rev d)).
Proof.
  revert acc. induction d; intros acc; simpl uintValue; [simpl; lia | ..];
    rewrite IHd;
    match goal with
    | |- context [Decimal.rev (?D d)] =>
        change (Decimal.rev (D d)) with (revapp d (D Nil))
    end;
    rewrite (Unsigned.of_lu_revapp d); simpl Unsigned.of_lu; simpl Unsigned.usize;
    rewrite N2Z.inj_succ, Z.pow_succ_r by lia;
    rewrite ?N2Z.inj_add, ?N2Z.inj_mul, ?N2Z.inj_pow; simpl Z.of_N; ring.
Qed.

Lemma uintValue_of_uint (d : uint) : uintValue d 0 = Z.of_N (N.of_uint d).
Proof.
  rewrite uintValue_of_lu. unfold N.of_uint. rewrite Unsigned.of_uint_alt. lia.
Qed.

Lemma parseDigits_numeral (d : uint) (acc : Z) :
  parseDigits (NilEmpty.string_of_uint d) true acc = Some (uintValue d acc).
Proof.
  revert acc. induction d; intros acc; [done | ..];
    cbn [NilEmpty.string_of_uint parseDigits uintValue]; apply IHd.
Qed.

Lemma allChars_numeral (d : uint) : allChars isDigit (NilEmpty.string_of_uint d) = true.
Proof. induction d; simpl; done. Qed.

Lemma to_uint_nonnil (n : N) : N.to_uint n ≠ Nil.
Proof. destruct n; simpl; [done|]. apply Unsigned.to_uint_nonnil. Qed.

Lemma numeral_inj (d d' : uint) :
  NilEmpty.string_of_uint d = NilEmpty.string_of_uint d' → d = d'.
Proof.
  intros H. apply (f_equal NilEmpty.uint_of_string) in H.
  rewrite !NilEmpty.usu in H. congruence.
Qed.

Lemma numToString_inj (i j : N) : numToString i = numToString j → i = j.
Proof. intros H%numeral_inj. by apply DecimalN.Unsigned.to_uint_inj. Qed.

Lemma numToString_digits (n : N) : allChars isDigit (numToString n) = true.
Proof. apply allChars_numeral. Qed.

Lemma numToString_nonempty (n : N) : numToString n ≠ EmptyString.
Proof.
  unfold numToString. pose proof (to_uint_nonnil n) as H.
  destruct (N.to_uint n); simpl; done.
Qed.

Lemma digit_not_space (c : ascii) : isDigit c = true → Ascii.is_space c = false.
Proof.
  destruct c as [[] [] [] [] [] [] [] []]; simpl; try done.
Qed.

Lemma parseInt_numToString (n : N) : parseInt (numToString n) = Some (Z.of_N n).
Proof.
  unfold parseInt, numToString.
  pose proof (to_uint_nonnil n) as Hnil.
  rewrite <- (DecimalN.Unsigned.of_to n) at 2. rewrite <- uintValue_of_uint.
  destruct (N.to_uint n) as [|d|d|d|d|d|d|d|d|d|d]; [done | ..];
    simpl; by rewrite parseDigits_numeral.
Qed.


(** *** [split] and the last segment of a key *)

Lemma split_nonempty (sep : ascii) (s : string) : split sep s ≠ [].
Proof.
  induction s as [|c s IH]; simpl; [done|].
  destruct (Ascii.eqb c sep); [done|]. destruct (split sep s); done.
Qed.

Lemma split_no_separator (sep : ascii) (s : string) :
  allChars (λ c, negb (Ascii.eqb c sep)) s = true → split sep s = [s].
Proof.
  induction s as [|c s IH]; simpl; [done|].
  intros [Hc Hs]%andb_prop. apply negb_true_iff in Hc. rewrite Hc.
  by rewrite (IH Hs).
Qed.

Lemma split_append_separator (sep : ascii) (p s : string) :
  ∃ l, l ≠ [] ∧ split sep (p +:+ String sep s) = l ++ split sep s.
Proof.
  induction p as [|c p (l & Hl & IH)].
  - exists [EmptyString]. split; [done|]. rewrite append_nil_l. simpl.
    by rewrite Ascii.eqb_refl.
  - rewrite append_cons. simpl. rewrite IH. destruct (Ascii.eqb c sep).
    + by exists (EmptyString :: l).
    + destruct l as [|w l]; [done|]. by exists (String c w :: l).
Qed.

Lemma last_app_nonempty {A} (l k : list A) : k ≠ [] → last (l ++ k) = last k.
Proof.
  intros Hk. destruct k as [|x k _] using rev_ind; [done|].
  by rewrite app_assoc, !last_snoc.
Qed.

Lemma pop_split_append (sep : ascii) (p s : string) :
  allChars (λ c, negb (Ascii.eqb c sep)) s = true →
  pop (split sep (p +:+ String sep s)) = Some s.
Proof.
  intros Hs. destruct (split_append_separator sep p s) as (l & _ & ->).
  unfold pop. rewrite last_app_nonempty by apply split_nonempty.
  by rewrite split_no_separator.
Qed.

Lemma digits_no_colon (s : string) :
  allChars isDigit s = true → allChars (λ c, negb (Ascii.eqb c ":")) s = true.
Proof.
  induction s as [|c s IH]; simpl; [done|].
  intros [Hc Hs]%andb_prop. rewrite (IH Hs), andb_true_r.
  destruct c as [[] [] [] [] [] [] [] []]; done.
Qed.

End JSFacts.

Module StorageFacts.
Import JS JSFacts Storage.

(** A batch key ends in the numeral of its index. *)
Lemma batchIndexOf_append (p : string) (i : N) :
  batchIndexOf ((p +:+ ":") +:+ numToString i) = Some (Z.of_N i).
Proof.
  unfold batchIndexOf. rewrite append_assoc.
  change (":" +:+ numToString i) with (String ":" (numToString i)).
  rewrite pop_split_append by (apply digits_no_colon, numToString_digits).
  pose proof (numToString_nonempty i) as Hne.
  destruct (numToString i) eqn:E; [done|]. simpl orString. rewrite <- E.
  apply parseInt_numToString.
Qed.

Lemma networkBatchPrefix_split (sid : string) :
  networkBatchPrefix sid = (sid +:+ ":network:batch") +:+ ":".
Proof. unfold networkBatchPrefix. by rewrite append_assoc. Qed.

Lemma batchIndexOf_networkBatchKey (sid : string) (i : N) :
  batchIndexOf (networkBatchKey sid i) = Some (Z.of_N i).
Proof.
  unfold networkBatchKey. rewrite networkBatchPrefix_split. apply batchIndexOf_append.
Qed.

Lemma batchIndexOf_consoleBatchKey (sid : string) (i : N) :
  batchIndexOf (consoleBatchKey sid i) = Some (Z.of_N i).
Proof.
  unfold consoleBatchKey, consoleBatchPrefix.
  replace (sid +:+ ":console:batch:") with ((sid +:+ ":console:batch") +:+ ":")
    by (by rewrite append_assoc).
  apply batchIndexOf_append.
Qed.

Lemma batchIndexOf_domBatchKey (sid : string) (i : N) :
  batchIndexOf (domBatchKey sid i) = Some (Z.of_N i).
Proof.
  unfold domBatchKey, domBatchPrefix.
  replace (sid +:+ ":dom:batch:") with ((sid +:+ ":dom:batch") +:+ ":")
    by (by rewrite append_assoc).
  apply batchIndexOf_append.
Qed.

Lemma networkBatchKey_prefix (sid : string) (i : N) :
  startsWith (networkBatchPrefix sid) (networkBatchKey sid i) = true.
Proof. apply startsWith_append. Qed.

Lemma networkBatchKey_index_inj (sid : string) (i j : N) :
  networkBatchKey sid i = networkBatchKey sid j → i = j.
Proof. intros H%append_inv_head. by apply numToString_inj. Qed.

(** Keys of different sessions or channels never collide. *)
Lemma networkBatchKey_inj (sid sid' : string) (i j : N) :
  networkBatchKey sid i = networkBatchKey sid' j → sid = sid' ∧ i = j.
Proof.
  intros H.
  assert (i = j) as ->.
  { apply (f_equal batchIndexOf) in H. rewrite !batchIndexOf_networkBatchKey in H.
    injection H. lia. }
  split; [|done]. unfold networkBatchKey, networkBatchPrefix in H.
  apply append_inv_tail in H. by apply append_inv_tail in H.
Qed.

Lemma networkBatchKey_not_console (sid sid' : string) (i j : N) :
  networkBatchKey sid i ≠ consoleBatchKey sid' j.
Proof.
  intros H.
  assert (i = j) as ->.
  { apply (f_equal batchIndexOf) in H.
    rewrite batchIndexOf_networkBatchKey, batchIndexOf_consoleBatchKey in H.
    injection H. lia. }
  unfold networkBatchKey, consoleBatchKey, networkBatchPrefix, consoleBatchPrefix in H.
  apply append_inv_tail in H.
  apply append_inj_suffix in H as [_ H]; [done | done].
Qed.

Lemma networkBatchKey_not_dom (sid sid' : string) (i j : N) :
  networkBatchKey sid i ≠ domBatchKey sid' j.
Proof.
  intros H.
  assert (i = j) as ->.
  { apply (f_equal batchIndexOf) in H.
    rewrite batchIndexOf_networkBatchKey, batchIndexOf_domBatchKey in H.
    injection H. lia. }
  unfold networkBatchKey, domBatchKey, networkBatchPrefix, domBatchPrefix in H.
  apply append_inv_tail in H.
  change ":network:batch:" with (":network" +:+ ":batch:") in H.
  change ":dom:batch:" with (":dom" +:+ ":batch:") in H.
  rewrite <- !append_assoc in H. apply append_inv_tail in H.
  change ":network" with (":net" +:+ "work") in H.
  rewrite <- append_assoc in H.
  apply append_inj_suffix in H as [_ H]; [done | done].
Qed.

End StorageFacts.

(** ** Sorting by a numeric index *)

Section SortFacts.
Context {A : Type}.
Implicit Types (cmp : A → A → Z) (g : A → Z).

Lemma insertBy_perm cmp (x : A) (l : list A) : JS.insertBy cmp x l ≡ₚ x :: l.
Proof.
  induction l as [|y l IH]; simpl; [done|].
  destruct (cmp x y <=? 0); [done|]. rewrite IH. apply Permutation_swap.
Qed.

Lemma sortBy_perm cmp (l : list A) : JS.sortBy cmp l ≡ₚ l.
Proof.
  induction l as [|x l IH]; simpl; [done|]. by rewrite insertBy_perm, IH.
Qed.

Lemma insertBy_ext cmp cmp' (x : A) (l : list A) :
  (∀ y, y ∈ l → cmp x y = cmp' x y) → JS.insertBy cmp x l = JS.insertBy cmp' x l.
Proof.
  induction l as [|y l IH]; intros H; simpl; [done|].
  rewrite <- (H y) by left. destruct (cmp x y <=? 0); [done|].
  f_equal. apply IH. intros z Hz. apply H. by right.
Qed.

Lemma sortBy_ext cmp cmp' (l : list A) :
  (∀ x y, x ∈ l → y ∈ l → cmp x y = cmp' x y) → JS.sortBy cmp l = JS.sortBy cmp' l.
Proof.
  induction l as [|x l IH]; intros H; simpl; [done|].
  rewrite IH by (intros; apply H; by right).
  apply insertBy_ext. intros y Hy. apply H; [by left|].
  right. by rewrite <- (sortBy_perm cmp' l).
Qed.

Lemma insertBy_sorted g (x : A) (l : list A) :
  StronglySorted (indexLe g) l → StronglySorted (indexLe g) (JS.insertBy (byIndex g) x l).
Proof.
  induction 1 as [|y l Hl IH Hy]; simpl.
  - repeat constructor.
  - unfold byIndex at 1. destruct (Z.leb_spec (g x - g y) 0) as [Hle|Hgt].
    + constructor; [by constructor|]. constructor; [unfold indexLe; lia|].
      eapply Forall_impl; [exact Hy|]. unfold indexLe. intros; simpl in *; lia.
    + constructor; [done|]. rewrite insertBy_perm. constructor; [|done].
      unfold indexLe; lia.
Qed.

Lemma sortBy_sorted g (l : list A) :
  StronglySorted (indexLe g) (JS.sortBy (byIndex g) l).
Proof.
  induction l as [|x l IH]; simpl; [constructor|]. by apply insertBy_sorted.
Qed.

(** Sorting a rearrangement of a list that is already in increasing
    order of distinct indices gives that list. *)
Lemma sortBy_unique g (l sorted : list A) :
  l ≡ₚ sorted → StronglySorted (indexLe g) sorted →
  (∀ x y, x ∈ sorted → y ∈ sorted → g x = g y → x = y) →
  JS.sortBy (byIndex g) l = sorted.
Proof.
  intros Hperm Hsorted Hinj.
  apply (StronglySorted_unique_strong (indexLe g)).
  - intros x y Hx Hy Hxy Hyx.
    rewrite (sortBy_perm (byIndex g) l), Hperm in Hx.
    apply Hinj; [done | done |]. unfold indexLe in *. lia.
  - apply sortBy_sorted.
  - done.
  - by rewrite sortBy_perm.
Qed.

End SortFacts.

(** ** Reading the batches back *)

Module RoundTrip.
Import JS JSFacts Storage StorageFacts.

Lemma elem_of_keysFrom (sid : string) (n : nat) (i : N) (k : string) :
  k ∈ keysFrom sid i n ↔ ∃ j, (i ≤ j < i + N.of_nat n)%N ∧ k = networkBatchKey sid j.
Proof.
  revert i. induction n as [|n IH]; intros i; simpl.
  - split; [by intros ?%elem_of_nil | intros (j & ? & _); lia].
  - rewrite elem_of_cons, IH. split.
    + intros [->|(j & ? & ->)]; [exists i | exists j]; split; (lia || done).
    + intros (j & Hj & ->). destruct (decide (j = i)) as [->|]; [by left|].
      right. exists j. split; [lia | done].
Qed.

Lemma keysFrom_sorted (sid : string) (n : nat) (i : N) :
  StronglySorted (indexLe keyIndex) (keysFrom sid i n).
Proof.
  revert i. induction n as [|n IH]; intros i; simpl; constructor; [apply IH|].
  apply Forall_forall. intros k (j & Hj & ->)%elem_of_keysFrom.
  unfold indexLe, keyIndex. rewrite !batchIndexOf_networkBatchKey. simpl. lia.
Qed.

Lemma keysFrom_NoDup (sid : string) (n : nat) (i : N) : NoDup (keysFrom sid i n).
Proof.
  revert i. induction n as [|n IH]; intros i; simpl; constructor; [|apply IH].
  intros (j & Hj & Heq)%elem_of_keysFrom.
  apply networkBatchKey_index_inj in Heq. lia.
Qed.

Lemma keysFrom_compareKeys (sid : string) (n : nat) (i : N) (a b : string) :
  a ∈ keysFrom sid i n → b ∈ keysFrom sid i n →
  compareKeys a b = byIndex keyIndex a b.
Proof.
  intros (ja & _ & ->)%elem_of_keysFrom (jb & _ & ->)%elem_of_keysFrom.
  unfold compareKeys, byIndex, keyIndex.
  by rewrite !batchIndexOf_networkBatchKey.
Qed.

Lemma storeBatches_lookup_other (sid : string) (bs : list (list NetworkEvent))
    (i : N) (d : db) (k : string) :
  k ∉ keysFrom sid i (length bs) → storeBatches d sid i bs !! k = d !! k.
Proof.
  revert i d. induction bs as [|b bs IH]; intros i d Hk; simpl in *; [done|].
  apply not_elem_of_cons in Hk as [Hne Hk].
  rewrite IH by done. unfold storeNetworkEventBatch. by rewrite lookup_insert_ne.
Qed.

Lemma storeBatches_lookup (sid : string) (bs : list (list NetworkEvent))
    (i : N) (d : db) (m : nat) (b : list NetworkEvent) :
  bs !! m = Some b →
  storeBatches d sid i bs !! networkBatchKey sid (i + N.of_nat m) = Some (NetworkBatch b).
Proof.
  revert i d m. induction bs as [|b0 bs IH]; intros i d m Hm; [done|].
  change (storeBatches d sid i (b0 :: bs))
    with (storeBatches (storeNetworkEventBatch d sid i b0) sid (N.succ i) bs).
  destruct m as [|m].
  - injection Hm as ->. rewrite N.add_0_r, storeBatches_lookup_other.
    + unfold storeNetworkEventBatch. by rewrite lookup_insert_eq.
    + intros (j & Hj & Heq)%elem_of_keysFrom.
      apply networkBatchKey_index_inj in Heq. lia.
  - replace (i + N.of_nat (S m))%N with (N.succ i + N.of_nat m)%N by lia.
    apply IH. exact Hm.
Qed.

Lemma storeBatches_dom (sid : string) (bs : list (list NetworkEvent))
    (i : N) (d : db) (k : string) :
  is_Some (storeBatches d sid i bs !! k) ↔
  k ∈ keysFrom sid i (length bs) ∨ is_Some (d !! k).
Proof.
  destruct (decide (k ∈ keysFrom sid i (length bs))) as [Hin|Hout].
  - split; [by left|]. intros _.
    apply elem_of_keysFrom in Hin as (j & Hj & ->).
    assert (is_Some (bs !! N.to_nat (j - i))) as [b Hb].
    { apply lookup_lt_is_Some_2. lia. }
    replace j with (i + N.of_nat (N.to_nat (j - i)))%N by lia.
    rewrite (storeBatches_lookup _ _ _ _ _ _ Hb). by eexists.
  - rewrite storeBatches_lookup_other by done. split; [by right|]. by intros [?|?].
Qed.

(** The read loop of [getNetworkEvents] over the keys in index order *)
Lemma read_batches (sid : string) (d : db) (bs : list (list NetworkEvent))
    (i : N) (acc : list NetworkEvent) :
  (∀ m b, bs !! m = Some b →
          d !! networkBatchKey sid (i + N.of_nat m) = Some (NetworkBatch b)) →
  foldl (λ allEvents key,
           match d !! key with
           | Some (NetworkBatch batch) => allEvents ++ batch
           | _ => allEvents
           end) acc (keysFrom sid i (length bs)) = acc ++ concat bs.
Proof.
  revert i acc. induction bs as [|b bs IH]; intros i acc H; simpl.
  - by rewrite app_nil_r.
  - pose proof (H 0%nat b eq_refl) as H0. rewrite N.add_0_r in H0. rewrite H0.
    rewrite IH; [by rewrite app_assoc|].
    intros m b' Hm. specialize (H (S m) b' Hm).
    by replace (N.succ i + N.of_nat m)%N with (i + N.of_nat (S m))%N by lia.
Qed.

(** Whatever order the store lists its keys in, the batches of a session
    whose keys are exactly those of [bs] are read back in index order. *)
Lemma getNetworkEventsFrom_batches (allKeys : list string) (d : db) (sid : string)
    (bs : list (list NetworkEvent)) :
  NoDup allKeys →
  (∀ k, startsWith (networkBatchPrefix sid) k = true →
        (k ∈ allKeys ↔ k ∈ keysFrom sid 0 (length bs))) →
  (∀ m b, bs !! m = Some b →
          d !! networkBatchKey sid (N.of_nat m) = Some (NetworkBatch b)) →
  getNetworkEventsFrom allKeys d sid = concat bs.
Proof.
  intros Hnodup Hkeys Hlookup. unfold getNetworkEventsFrom.
  set (batchKeys := List.filter _ allKeys).
  assert (batchKeys ≡ₚ keysFrom sid 0 (length bs)) as Hperm.
  { apply NoDup_Permutation.
    - apply NoDup_ListNoDup, List.NoDup_filter. by apply NoDup_ListNoDup.
    - apply keysFrom_NoDup.
    - intros k. unfold batchKeys.
      rewrite list_elem_of_In, filter_In, <- list_elem_of_In. split.
      + intros [Hin Hpre]. by apply Hkeys.
      + intros Hin.
        assert (startsWith (networkBatchPrefix sid) k = true) as Hpre.
        { apply elem_of_keysFrom in Hin as (j & _ & ->).
          apply networkBatchKey_prefix. }
        split; [by apply Hkeys | done]. }
  rewrite (sortBy_ext compareKeys (byIndex keyIndex)).
  - rewrite (sortBy_unique keyIndex batchKeys (keysFrom sid 0 (length bs)) Hperm).
    + by rewrite (read_batches sid d bs 0 []).
    + apply keysFrom_sorted.
    + intros x y (jx & _ & ->)%elem_of_keysFrom (jy & _ & ->)%elem_of_keysFrom.
      unfold keyIndex. rewrite !batchIndexOf_networkBatchKey. simpl.
      intros ?. f_equal. lia.
  - intros x y Hx Hy. rewrite Hperm in Hx, Hy.
    by apply (keysFrom_compareKeys sid (length bs) 0).
Qed.

Lemma keys_NoDup (d : db) : NoDup (keys d).
Proof. apply NoDup_fst_map_to_list. Qed.

Lemma elem_of_keys (d : db) (k : string) : k ∈ keys d ↔ is_Some (d !! k).
Proof.
  unfold keys. rewrite list_elem_of_fmap. split.
  - intros ([k' v] & -> & Hin). apply elem_of_map_to_list in Hin. by eexists.
  - intros [v Hv]. exists (k, v). split; [done|]. by apply elem_of_map_to_list.
Qed.

End RoundTrip.

(** C10. Reading the network events of a session back, after its batches
    were stored under the indices [0 .. n-1] in a store that held no
    network batch of that session, returns the concatenation of the
    batches in increasing numeric index order, for every [n] (more than
    ten batches included): the keys are ordered by the integer parsed
    from their last segment, not as strings. *)
Theorem getNetworkEvents_roundtrip (d : gmap string Storage.value) (sid : string)
    (bs : list (list NetworkEvent)) :
  (∀ k, JS.startsWith (Storage.networkBatchPrefix sid) k = true → d !! k = None) →
  Storage.getNetworkEvents (storeBatches d sid 0 bs) sid = concat bs.
Proof.
  intros Hfresh. unfold Storage.getNetworkEvents.
  apply RoundTrip.getNetworkEventsFrom_batches.
  - apply RoundTrip.keys_NoDup.
  - intros k Hpre. rewrite RoundTrip.elem_of_keys, RoundTrip.storeBatches_dom.
    rewrite (Hfresh k Hpre). split; [|by left].
    intros [?|[? ?]]; done.
  - intros m b Hm. by apply (RoundTrip.storeBatches_lookup sid bs 0 d m b).
Qed.

(** Twelve batches: the key of batch 10 sorts before the key of batch 2 as
    a string, and after it by index. *)
Lemma getNetworkEvents_roundtrip_witness :
  let bs := (λ i, [sampleEvent (JS.numToString i)]) <$>
              [0; 1; 2; 3; 4; 5; 6; 7; 8; 9; 10; 11]%N in
  (∀ k, JS.startsWith (Storage.networkBatchPrefix "7-1000") k = true →
        (∅ : gmap string Storage.value) !! k = None) ∧
  Storage.getNetworkEvents (storeBatches ∅ "7-1000" 0 bs) "7-1000" = concat bs.
Proof.
  split; [done|]. apply (getNetworkEvents_roundtrip ∅ "7-1000"). done.
Defined.

(** ** The session map *)

Section SessionMapFacts.
Context {V : Type}.
Implicit Types (m : list (string * V)) (k : string).

Lemma smap_get_set m k k' (v : V) :
  smap_get (smap_set m k v) k' = if decide (k' = k) then Some v else smap_get m k'.
Proof.
  induction m as [|[k0 v0] m IH]; simpl.
  - by destruct (decide (k' = k)).
  - destruct (decide (k = k0)) as [->|Hk]; simpl.
    + by destruct (decide (k' = k0)).
    + destruct (decide (k' = k0)) as [->|Hk'].
      * by rewrite decide_False by done.
      * apply IH.
Qed.

Lemma smap_get_alter (f : V → V) m k k' :
  smap_get (smap_alter f k m) k' =
  if decide (k' = k) then f <$> smap_get m k' else smap_get m k'.
Proof.
  induction m as [|[k0 v0] m IH]; simpl.
  - by destruct (decide (k' = k)).
  - destruct (decide (k = k0)) as [->|Hk]; simpl.
    + by destruct (decide (k' = k0)).
    + destruct (decide (k' = k0)) as [->|Hk'].
      * by rewrite decide_False by done.
      * apply IH.
Qed.

(** The object found is either the one [get] returns, now mutated, or
    [get] returns what it did. *)
Lemma smap_get_mutate_found (p : V → bool) (f : V → V) m k :
  smap_get (smap_mutate_found p f m) k = smap_get m k ∨
  ∃ v, smap_get m k = Some v ∧ p v = true ∧
       smap_get (smap_mutate_found p f m) k = Some (f v).
Proof.
  induction m as [|[k0 v0] m IH]; simpl; [by left|].
  destruct (p v0) eqn:Hp; simpl.
  - destruct (decide (k = k0)); [|by left]. right. by exists v0.
  - destruct (decide (k = k0)); [by left | apply IH].
Qed.

End SessionMapFacts.


(** Projections of an updated state, without unfolding anything else *)
Ltac state_proj :=
  cbn [sessions networkEventBuffers consoleEventBuffers domEventBuffers
       pendingNetworkRequests flushTimers intervals nextInterval networkBatchIndices
       consoleBatchIndices domBatchIndices flushInProgress tabIdToSessionId idb
       upd_sessions upd_networkEventBuffers upd_consoleEventBuffers
       upd_domEventBuffers upd_pendingNetworkRequests upd_flushTimers upd_intervals
       upd_nextInterval upd_networkBatchIndices upd_consoleBatchIndices
       upd_domBatchIndices upd_flushInProgress upd_tabIdToSessionId upd_idb
       fst snd] in *.

Ltac session_proj :=
  cbn [sessionId tabId sstatus sessionStartTime sessionStopTime includeAudio
       includeMicrophone recordingChunkCount screenshotCount networkEventCount
       consoleEventCount domEventCount debuggerAttached offscreenDocumentActive
       lastError errorRecoverable set_sstatus set_sessionStopTime
       set_recordingChunkCount set_screenshotCount set_networkEventCount
       set_consoleEventCount set_domEventCount set_debuggerAttached
       set_offscreenDocumentActive set_lastError set_errorRecoverable] in *.

(** ** What the flush leaves alone *)

Ltac unfold_flush :=
  unfold flushTelemetryBuffers, doFlushTelemetryBuffers, flushStoreSettled,
    flushNetwork, flushConsole, flushDOM, flushSweep, suspendFlush in *.

Lemma flushTelemetryBuffers_sessions st sid now :
  sessions (flushTelemetryBuffers st sid now) = sessions st.
Proof. unfold_flush. repeat case_match; reflexivity. Qed.

Lemma flushStoreSettled_sessions st sid resolved now :
  sessions (flushStoreSettled st sid resolved now) = sessions st.
Proof. unfold_flush. repeat case_match; reflexivity. Qed.

Lemma flushTelemetryBuffers_tabs st sid now :
  tabIdToSessionId (flushTelemetryBuffers st sid now) = tabIdToSessionId st.
Proof. unfold_flush. repeat case_match; reflexivity. Qed.

Lemma flushStoreSettled_tabs st sid resolved now :
  tabIdToSessionId (flushStoreSettled st sid resolved now) = tabIdToSessionId st.
Proof. unfold_flush. repeat case_match; reflexivity. Qed.

Lemma flushTelemetryBuffers_idb st sid now :
  idb (flushTelemetryBuffers st sid now) = idb st.
Proof. unfold_flush. repeat case_match; reflexivity. Qed.

Lemma flushTelemetryBuffers_networkBatchIndices st sid now :
  networkBatchIndices (flushTelemetryBuffers st sid now) = networkBatchIndices st.
Proof. unfold_flush. repeat case_match; reflexivity. Qed.

Lemma activeSession_Some st tab sid session :
  activeSession st tab = Some (sid, session) →
  tabIdToSessionId st !! tab = Some sid ∧ smap_get (sessions st) sid = Some session ∧
  sstatus session = Recording.
Proof.
  unfold activeSession. intros H.
  destruct (tabIdToSessionId st !! tab) as [s|] eqn:Htab; simpl in H; [|done].
  destruct s as [|c s]; simpl in H; [done|].
  destruct (smap_get (sessions st) (String c s)) as [sess|] eqn:Hs; [|done].
  case_decide; [|done]. by simplify_eq.
Qed.

(** ** Session status *)

Lemma statusOf_sessions st st' sid :
  sessions st' = sessions st → statusOf st' sid = statusOf st sid.
Proof. unfold statusOf. by intros ->. Qed.

Lemma statusOf_alter (f : SessionState → SessionState) st st' key sid :
  sessions st' = smap_alter f key (sessions st) →
  statusOf st' sid =
  if decide (sid = key) then (λ s, sstatus (f s)) <$> smap_get (sessions st) sid
  else statusOf st sid.
Proof.
  intros Hs. unfold statusOf. rewrite Hs, smap_get_alter.
  case_decide; [|done]. by destruct (smap_get (sessions st) sid).
Qed.

(** A mutation that keeps the status keeps every status. *)
Lemma statusOf_alter_same (f : SessionState → SessionState) st st' key sid :
  sessions st' = smap_alter f key (sessions st) →
  (∀ s, sstatus (f s) = sstatus s) →
  statusOf st' sid = statusOf st sid.
Proof.
  intros Hs Hf. rewrite (statusOf_alter f st st' key sid Hs).
  case_decide; [|done]. unfold statusOf.
  destruct (smap_get (sessions st) sid); simpl; [|done]. by rewrite Hf.
Qed.

Lemma pushNetworkEvent_sessions st sid ev now :
  sessions (pushNetworkEvent st sid ev now) = sessions st ∨
  sessions (pushNetworkEvent st sid ev now) =
    smap_alter (λ s, set_networkEventCount (networkEventCount s + 1)%N s) sid (sessions st).
Proof.
  unfold pushNetworkEvent. destruct (networkEventBuffers st !! sid); [|by left].
  right. case_match; by rewrite ?flushTelemetryBuffers_sessions.
Qed.

Lemma pushConsoleEvent_sessions st sid ev now :
  sessions (pushConsoleEvent st sid ev now) = sessions st ∨
  sessions (pushConsoleEvent st sid ev now) =
    smap_alter (λ s, set_consoleEventCount (consoleEventCount s + 1)%N s) sid (sessions st).
Proof.
  unfold pushConsoleEvent. destruct (consoleEventBuffers st !! sid); [|by left].
  right. case_match; by rewrite ?flushTelemetryBuffers_sessions.
Qed.

Lemma pushNetworkEvent_status st sid ev now sid' :
  statusOf (pushNetworkEvent st sid ev now) sid' = statusOf st sid'.
Proof.
  destruct (pushNetworkEvent_sessions st sid ev now) as [H|H].
  - by apply statusOf_sessions.
  - by eapply statusOf_alter_same.
Qed.

Lemma pushConsoleEvent_status st sid ev now sid' :
  statusOf (pushConsoleEvent st sid ev now) sid' = statusOf st sid'.
Proof.
  destruct (pushConsoleEvent_sessions st sid ev now) as [H|H].
  - by apply statusOf_sessions.
  - by eapply statusOf_alter_same.
Qed.

Lemma deletePending_status st sid rid sid' :
  statusOf (deletePending st sid rid) sid' = statusOf st sid'.
Proof. reflexivity. Qed.

Lemma handleNetworkResponse_status st tab params now sid :
  statusOf (handleNetworkResponse st tab params now) sid = statusOf st sid.
Proof.
  unfold handleNetworkResponse. repeat case_match; try done;
    by rewrite ?deletePending_status, ?pushNetworkEvent_status.
Qed.

Lemma handleNetworkLoadingFailed_status st tab params now sid :
  statusOf (handleNetworkLoadingFailed st tab params now) sid = statusOf st sid.
Proof.
  unfold handleNetworkLoadingFailed. repeat case_match; try done;
    by rewrite ?deletePending_status, ?pushNetworkEvent_status.
Qed.

Lemma handleNetworkRequestWillBeSent_status st tab params sid :
  statusOf (handleNetworkRequestWillBeSent st tab params) sid = statusOf st sid.
Proof. unfold handleNetworkRequestWillBeSent. by repeat case_match. Qed.

Lemma handleConsoleAPICalled_status st tab params now sid :
  statusOf (handleConsoleAPICalled st tab params now) sid = statusOf st sid.
Proof.
  unfold handleConsoleAPICalled. repeat case_match; try done.
  apply pushConsoleEvent_status.
Qed.

Lemma handleExceptionThrown_status st tab params now sid :
  statusOf (handleExceptionThrown st tab params now) sid = statusOf st sid.
Proof.
  unfold handleExceptionThrown. repeat case_match; try done.
  apply pushConsoleEvent_status.
Qed.

Lemma handleCDPDetach_status st tab sid :
  statusOf (handleCDPDetach st tab) sid = statusOf st sid.
Proof.
  unfold handleCDPDetach. repeat case_match; try done.
  by eapply statusOf_alter_same.
Qed.

Lemma handleDOMEventCaptured_status st payload now sid :
  statusOf (handleDOMEventCaptured st payload now).1 sid = statusOf st sid.
Proof.
  unfold handleDOMEventCaptured. repeat case_match; simpl; try done.
  - rewrite (statusOf_sessions _ _ _ (flushTelemetryBuffers_sessions _ _ _)).
    by eapply statusOf_alter_same.
  - by eapply statusOf_alter_same.
Qed.

Lemma handleTakeScreenshot_state st tab sent :
  (handleTakeScreenshot st tab sent).1 = st.
Proof. unfold handleTakeScreenshot. by repeat case_match. Qed.

Lemma handleMediaReady_sessions st sid :
  sessions (handleMediaReady st sid).1 = smap_alter (set_sstatus Recording) sid (sessions st).
Proof.
  unfold handleMediaReady. destruct (smap_get (sessions st) sid) as [s|] eqn:Hs; simpl.
  - by destruct (debuggerAttached s).
  - clear -Hs. induction (sessions st) as [|[k v] m IH]; simpl in *; [done|].
    destruct (decide (sid = k)); [done|]. by rewrite <- IH.
Qed.

Lemma handleMediaReady_status st sid sid' :
  statusOf (handleMediaReady st sid).1 sid' =
  if decide (sid' = sid) then (λ _, Recording) <$> statusOf st sid' else statusOf st sid'.
Proof.
  rewrite (statusOf_alter _ _ _ _ _ (handleMediaReady_sessions st sid)).
  case_decide; [|done]. unfold statusOf. by destruct (smap_get _ _).
Qed.

Lemma handleRecordingChunk_status st sid sid' :
  statusOf (handleRecordingChunk st sid).1 sid' = statusOf st sid'.
Proof. by eapply statusOf_alter_same. Qed.

Lemma handleScreenshotCaptured_status st sid i stored sid' :
  statusOf (handleScreenshotCaptured st sid i stored).1 sid' = statusOf st sid'.
Proof.
  unfold handleScreenshotCaptured. repeat case_match; simpl; try done.
  by eapply statusOf_alter_same.
Qed.

Lemma handleStateSerialized_status st sid stored sid' :
  statusOf (handleStateSerialized st sid stored).1 sid' = statusOf st sid'.
Proof. unfold handleStateSerialized. by repeat case_match. Qed.

Lemma stopFlushTimer_sessions st sid : sessions (stopFlushTimer st sid) = sessions st.
Proof. unfold stopFlushTimer. by case_match. Qed.

Lemma cleanupTelemetry_sessions st sid tab :
  sessions (cleanupTelemetry st sid tab) = sessions st.
Proof. reflexivity. Qed.

Lemma handleMediaStopped_stopTimer_status st sid sid' :
  statusOf (handleMediaStopped_stopTimer st sid) sid' = statusOf st sid'.
Proof.
  unfold handleMediaStopped_stopTimer. case_match; [|done].
  apply statusOf_sessions, stopFlushTimer_sessions.
Qed.

Lemma handleMediaStopped_finalFlush_status st sid now sid' :
  statusOf (handleMediaStopped_finalFlush st sid now) sid' = statusOf st sid'.
Proof.
  unfold handleMediaStopped_finalFlush. case_match; [|done].
  apply statusOf_sessions, flushTelemetryBuffers_sessions.
Qed.

Lemma statusOf_upd_idb f st sid : statusOf (upd_idb f st) sid = statusOf st sid.
Proof. reflexivity. Qed.

Lemma statusOf_cleanupTelemetry st sid tab sid' :
  statusOf (cleanupTelemetry st sid tab) sid' = statusOf st sid'.
Proof. reflexivity. Qed.

Lemma statusOf_set_status (f : SessionState → SessionState) (x : Status) st sid sid' :
  (∀ s, sstatus (f s) = x) →
  statusOf (upd_sessions (smap_alter f sid) st) sid' =
  if decide (sid' = sid) then (λ _, x) <$> statusOf st sid' else statusOf st sid'.
Proof.
  intros Hf. erewrite statusOf_alter by reflexivity. case_decide; [|done].
  unfold statusOf. destruct (smap_get (sessions st) sid'); simpl; [|done].
  by rewrite Hf.
Qed.

Lemma statusOf_keep_status (f : SessionState → SessionState) st sid sid' :
  (∀ s, sstatus (f s) = sstatus s) →
  statusOf (upd_sessions (smap_alter f sid) st) sid' = statusOf st sid'.
Proof. intros Hf. by eapply statusOf_alter_same. Qed.

Lemma statusOf_absent st sid (x : Status) :
  smap_get (sessions st) sid = None → statusOf st sid = (λ _, x) <$> statusOf st sid.
Proof. unfold statusOf. by intros ->. Qed.

Lemma handleMediaStopped_teardown_status st sid detached tab sid' :
  statusOf (handleMediaStopped_teardown st sid detached tab).1 sid' =
  if decide (sid' = sid) then (λ _, Completed) <$> statusOf st sid' else statusOf st sid'.
Proof.
  unfold handleMediaStopped_teardown.
  destruct (smap_get (sessions st) sid) as [s|] eqn:Hs; cbn [fst].
  - assert (statusOf (if debuggerAttached s && detached
                      then upd_sessions (smap_alter (set_debuggerAttached false) sid) st
                      else st) sid' = statusOf st sid') as H1.
    { destruct (debuggerAttached s && detached); [|done]. by apply statusOf_keep_status. }
    destruct tab as [[u t]|]; rewrite ?statusOf_upd_idb;
      rewrite (statusOf_set_status _ Completed) by done;
      by rewrite statusOf_cleanupTelemetry, H1.
  - case_decide; [|done]. subst. by apply statusOf_absent.
Qed.

Lemma handleMediaError_begin_status st sid error errStage now closed sid' :
  statusOf (handleMediaError_begin st sid error errStage now closed).1 sid' =
  if decide (sid' = sid) then (λ _, Error) <$> statusOf st sid' else statusOf st sid'.
Proof.
  unfold handleMediaError_begin.
  destruct (smap_get (sessions st) sid) as [s|] eqn:Hs; cbn [fst].
  - rewrite <- (statusOf_set_status
                 (λ s0, set_errorRecoverable
                          (Some match errStage with StageInit => false | _ => true end)
                          (set_lastError (Some error) (set_sstatus Error s0)))
                 Error st sid sid') by done.
    destruct (needsCdpCleanup s errStage); cbn [fst].
    + apply statusOf_sessions.
      by rewrite flushTelemetryBuffers_sessions, stopFlushTimer_sessions.
    + destruct errStage; [destruct closed|..]; cbn [fst]; try done.
      by apply statusOf_keep_status.
  - case_decide; [|done]. subst. by apply statusOf_absent.
Qed.

Lemma handleMediaError_cleanup_status st sid detached sid' :
  statusOf (handleMediaError_cleanup st sid detached) sid' = statusOf st sid'.
Proof.
  unfold handleMediaError_cleanup. repeat case_match; try done.
  - erewrite statusOf_sessions by apply cleanupTelemetry_sessions.
    by eapply statusOf_alter_same.
Qed.

(** ** Starting a session *)

(** C3, as the code has it. Start-recording never looks for a session the
    tab already has. It fails exactly when a platform call fails: when the
    stream id or the offscreen document cannot be obtained nothing is
    registered; otherwise a new idle session [<tab>-<start time>] is
    registered, the reverse index of the tab points to it and every other
    session is kept, and the answer is a failure only if the
    [INIT_MEDIA_CAPTURE] message could not be sent. *)
Theorem start_registers_unconditionally (st : State) (tab : Z) (audio mic : bool)
    (env : StartEnv) :
  let r := handleStartRecording st tab audio mic env in
  let sid := mkSessionId tab (se_now env) in
  success r.2 = se_streamId env && se_offscreen env && se_initSent env ∧
  (se_streamId env && se_offscreen env = false → r.1 = st) ∧
  (se_streamId env && se_offscreen env = true →
   statusOf r.1 sid = Some Idle ∧
   tabIdToSessionId r.1 !! tab = Some sid ∧
   (∀ sid', sid' ≠ sid → smap_get (sessions r.1) sid' = smap_get (sessions st) sid') ∧
   (success r.2 = true → r_sessionId r.2 = Some sid)).
Proof.
  unfold handleStartRecording.
  destruct (se_streamId env), (se_offscreen env); cbn [negb andb fst snd];
    try (by repeat split).
  split; [by destruct (se_initSent env)|]. split; [done|]. intros _.
  assert (∀ (x y : State * Response) (b : bool),
            x.1 = y.1 → (if b then x else y).1 = x.1) as Hif by (by intros ?? []).
  rewrite Hif by done. cbn [fst]. repeat split.
  - unfold statusOf. state_proj. rewrite smap_get_set. by rewrite decide_True.
  - state_proj. by rewrite lookup_insert_eq.
  - intros sid' Hne. state_proj. rewrite smap_get_set. by rewrite decide_False.
  - by destruct (se_initSent env).
Qed.

Lemma start_registers_unconditionally_witness :
  let r := handleStartRecording recordingState 7 true false (startEnv 2000) in
  success r.2 = true ∧ statusOf r.1 "7-2000" = Some Idle ∧
  tabIdToSessionId r.1 !! 7 = Some "7-2000".
Proof.
  pose proof (start_registers_unconditionally recordingState 7 true false (startEnv 2000))
    as (Hok & _ & Hreg).
  destruct (Hreg eq_refl) as (Hidle & Htab & _ & _).
  split; [exact Hok|]. split; [exact Hidle | exact Htab].
Defined.

(** C3 as stated fails: tab 7 has a recording session, and a second start
    request for tab 7 succeeds and registers a second session. *)
Lemma second_start_creates_second_session :
  let r := handleStartRecording recordingState 7 true false (startEnv 2000) in
  (∃ s, smap_get (sessions recordingState) "7-1000" = Some s ∧
        tabId s = 7 ∧ sstatus s = Recording) ∧
  success r.2 = true ∧
  r_sessionId r.2 = Some "7-2000" ∧
  (λ kv, (kv.1, tabId kv.2, sstatus kv.2)) <$> sessions r.1 =
    [("7-1000", 7, Recording); ("7-2000", 7, Idle)].
Proof.
  cbv zeta. split; [|by vm_compute].
  eexists. split; [by vm_compute|]. by vm_compute.
Qed.

(** ** Video offsets *)

Lemma mathRound_nearest (x : Q) :
  (x - (1 # 2) < inject_Z (JS.mathRound x))%Q ∧ (inject_Z (JS.mathRound x) <= x + (1 # 2))%Q.
Proof.
  unfold JS.mathRound. split.
  - pose proof (Qlt_floor (x + (1 # 2))) as H.
    rewrite inject_Z_plus in H. simpl inject_Z in H.
    apply (Qplus_lt_l _ _ 1). ring_simplify.
    eapply Qle_lt_trans; [|exact H]. ring_simplify. apply Qle_refl.
  - apply Qfloor_le.
Qed.

(** C5. The offset of a wall-clock reading in milliseconds is the signed
    difference to the start time, negative exactly when the reading is
    before it; for a reading in seconds it is the rounded milliseconds
    minus the start time; no bound of the form [0 .. duration] is applied:
    the offset exceeds any duration that the difference exceeds, and the
    completion of a request keeps it. *)
Theorem video_offset_signed (T0 w : Z) (secs : Q) (duration : Z) :
  Sync.calculateVideoTimestamp T0 w = w - T0 ∧
  (Sync.calculateVideoTimestamp T0 w <? 0) = (w <? T0) ∧
  Sync.cdpWallTimeToVideoOffset secs T0 = JS.mathRound (secs * 1000) - T0 ∧
  (duration <? Sync.calculateVideoTimestamp T0 w) = (T0 + duration <? w) ∧
  (duration <? Sync.cdpWallTimeToVideoOffset secs T0) =
    (T0 + duration <? JS.mathRound (secs * 1000)) ∧
  JS.orZ (Some (Sync.cdpWallTimeToVideoOffset secs T0)) 0 =
    Sync.cdpWallTimeToVideoOffset secs T0.
Proof.
  unfold Sync.calculateVideoTimestamp, Sync.cdpWallTimeToVideoOffset.
  repeat split;
    try match goal with
        | |- (?a <? ?b) = (?c <? ?d) =>
            destruct (Z.ltb_spec a b), (Z.ltb_spec c d); (done || lia)
        end.
  by destruct (JS.mathRound (secs * 1000) - T0).
Qed.

(** ** The pieces of a flush *)

Lemma doFlush_splice st sid now :
  doFlushTelemetryBuffers st sid now =
  flushNetwork (spliceBuffers st sid) sid
    (default [] (networkEventBuffers st !! sid))
    (default [] (consoleEventBuffers st !! sid))
    (default [] (domEventBuffers st !! sid)) now.
Proof. reflexivity. Qed.

Lemma spliceBuffers_network st sid :
  networkEventBuffers (spliceBuffers st sid) = alter (λ _, []) sid (networkEventBuffers st).
Proof. reflexivity. Qed.

(** A flush called with network events buffered stops at their store. *)
Lemma flush_suspends_on_network st sid now net :
  flushInProgress st !! sid = None →
  networkEventBuffers st !! sid = Some net → net ≠ [] →
  flushTelemetryBuffers st sid now =
  suspendFlush (spliceBuffers st sid) sid
    {| stage := AwaitNetworkStore;
       batchIndex := default 0%N (networkBatchIndices st !! sid);
       networkEventsToFlush := net;
       consoleEventsToFlush := default [] (consoleEventBuffers st !! sid);
       domEventsToFlush := default [] (domEventBuffers st !! sid) |}.
Proof.
  intros Hidle Hbuf Hne. unfold flushTelemetryBuffers. rewrite Hidle, doFlush_splice, Hbuf.
  by destruct net.
Qed.

Lemma flush_joins st sid now t :
  flushInProgress st !! sid = Some t → flushTelemetryBuffers st sid now = st.
Proof. unfold flushTelemetryBuffers. by intros ->. Qed.

(** ** Accepting a network event *)

Lemma pushNetworkEvent_accepts st sid ev now buf s :
  networkEventBuffers st !! sid = Some buf →
  smap_get (sessions st) sid = Some s →
  unstoredNetwork (pushNetworkEvent st sid ev now) sid = unstoredNetwork st sid ++ [ev] ∧
  networkCount (pushNetworkEvent st sid ev now) sid = Some (networkEventCount s + 1)%N.
Proof.
  intros Hbuf Hs. unfold pushNetworkEvent. rewrite Hbuf.
  set (st2 := upd_sessions _ (upd_networkEventBuffers _ st)).
  assert (unstoredNetwork st2 sid = unstoredNetwork st sid ++ [ev]) as Hun.
  { unfold unstoredNetwork, inFlightNetwork. subst st2. state_proj.
    rewrite lookup_insert_eq, Hbuf. simpl. by rewrite app_assoc. }
  assert (networkCount st2 sid = Some (networkEventCount s + 1)%N) as Hcount.
  { unfold networkCount. subst st2. state_proj.
    rewrite smap_get_alter, decide_True by done. by rewrite Hs. }
  destruct (BUFFER_FLUSH_SIZE <=? length (buf ++ [ev]))%nat; [|done].
  split.
  - rewrite <- Hun.
    destruct (flushInProgress st2 !! sid) as [t|] eqn:Hfl.
    + by rewrite (flush_joins _ _ _ _ Hfl).
    + rewrite (flush_suspends_on_network st2 sid now (buf ++ [ev]) Hfl).
      * unfold unstoredNetwork, inFlightNetwork, suspendFlush. state_proj.
        rewrite lookup_insert_eq, Hfl. cbn [stage networkEventsToFlush].
        rewrite spliceBuffers_network, lookup_alter_eq.
        subst st2. state_proj. rewrite lookup_insert_eq. simpl.
        by rewrite app_nil_r.
      * subst st2. state_proj. by rewrite lookup_insert_eq.
      * by destruct buf.
  - unfold networkCount. by rewrite flushTelemetryBuffers_sessions.
Qed.

Lemma pendingEntry_deletePending st sid rid :
  pendingEntry (deletePending st sid rid) sid rid = None.
Proof.
  unfold pendingEntry, deletePending. state_proj. rewrite lookup_alter_eq.
  destruct (pendingNetworkRequests st !! sid); simpl; [|done].
  apply lookup_delete_eq.
Qed.

Lemma shouldInclude_retainedKind (resourceType : string) (statusCode : Z) :
  shouldInclude resourceType statusCode = true ↔ retainedKind resourceType statusCode.
Proof.
  unfold shouldInclude, retainedKind.
  rewrite !orb_true_iff, andb_true_iff, negb_true_iff, !String.eqb_eq,
    Z.eqb_neq, Z.leb_le.
  split; [|intuition lia]. intros [[[[?|?]|?]|?]|[? ?]]; auto 10.
Qed.




(** An image answered 200 is dropped after correlation and leaves the
    pending table; answered 404 it is retained. *)
Lemma image_200_dropped_404_retained :
  let dropped := handleNetworkResponse imagePendingState 7 (imageResponse 200) 1100 in
  let kept := handleNetworkResponse imagePendingState 7 (imageResponse 404) 1100 in
  is_Some (pendingEntry imagePendingState "7-1000" "r1") ∧
  unstoredNetwork dropped "7-1000" = [] ∧ networkCount dropped "7-1000" = Some 0%N ∧
  pendingEntry dropped "7-1000" "r1" = None ∧
  (status <$> unstoredNetwork kept "7-1000") = [404] ∧
  networkCount kept "7-1000" = Some 1%N ∧
  pendingEntry kept "7-1000" "r1" = None.
Proof. cbv zeta. repeat split; try (vm_compute; reflexivity). vm_compute. eauto. Qed.

(** ** The correlation table only grows by request-sent *)

Lemma pendingShrinks_refl st : pendingShrinks st st.
Proof. by intros ??. Qed.

Lemma pendingShrinks_trans st1 st2 st3 :
  pendingShrinks st1 st2 → pendingShrinks st2 st3 → pendingShrinks st1 st3.
Proof. intros H12 H23 sid rid H. by apply H23, H12. Qed.

Lemma pendingShrinks_eq st st' :
  pendingNetworkRequests st' = pendingNetworkRequests st → pendingShrinks st st'.
Proof. intros H sid rid. unfold pendingEntry. by rewrite H. Qed.

Lemma pendingEntry_sweep st sid now sid' rid :
  pendingEntry (flushSweep st sid now) sid' rid =
  if decide (sid' = sid)
  then pendingEntry st sid' rid ≫= (λ e, if pendingExpired now e then None else Some e)
  else pendingEntry st sid' rid.
Proof.
  unfold flushSweep, pendingEntry.
  destruct (pendingNetworkRequests st !! sid) as [m|] eqn:Hm; state_proj.
  - destruct (decide (sid' = sid)) as [->|Hne].
    + rewrite lookup_insert_eq, Hm. simpl. rewrite map_lookup_filter.
      destruct (m !! rid) as [e|]; simpl; [|done].
      destruct (pendingExpired now e) eqn:E; case_guard; simpl in *; congruence.
    + by rewrite lookup_insert_ne.
  - destruct (decide (sid' = sid)) as [->|Hne]; [|done]. by rewrite Hm.
Qed.

Lemma flushSweep_shrinks st sid now : pendingShrinks st (flushSweep st sid now).
Proof.
  intros sid' rid H. rewrite pendingEntry_sweep, H. by case_decide.
Qed.

Lemma suspendFlush_shrinks st sid t : pendingShrinks st (suspendFlush st sid t).
Proof. by apply pendingShrinks_eq. Qed.

Lemma flushDOM_shrinks st sid net con dom now :
  pendingShrinks st (flushDOM st sid net con dom now).
Proof.
  unfold flushDOM. destruct dom; [apply flushSweep_shrinks | apply suspendFlush_shrinks].
Qed.

Lemma flushConsole_shrinks st sid net con dom now :
  pendingShrinks st (flushConsole st sid net con dom now).
Proof.
  unfold flushConsole. destruct con; [apply flushDOM_shrinks | apply suspendFlush_shrinks].
Qed.

Lemma flushNetwork_shrinks st sid net con dom now :
  pendingShrinks st (flushNetwork st sid net con dom now).
Proof.
  unfold flushNetwork. destruct net; [apply flushConsole_shrinks | apply suspendFlush_shrinks].
Qed.

Lemma flushTelemetryBuffers_shrinks st sid now :
  pendingShrinks st (flushTelemetryBuffers st sid now).
Proof.
  unfold flushTelemetryBuffers. destruct (flushInProgress st !! sid);
    [apply pendingShrinks_refl|].
  rewrite doFlush_splice. eapply pendingShrinks_trans; [|apply flushNetwork_shrinks].
  by apply pendingShrinks_eq.
Qed.

Lemma flushStoreSettled_shrinks st sid resolved now :
  pendingShrinks st (flushStoreSettled st sid resolved now).
Proof.
  unfold flushStoreSettled. destruct (flushInProgress st !! sid) as [t|];
    [|apply pendingShrinks_refl].
  destruct resolved; [|by apply pendingShrinks_eq].
  destruct (stage t);
    (eapply pendingShrinks_trans;
     [|first [apply flushConsole_shrinks | apply flushDOM_shrinks | apply flushSweep_shrinks]]);
    by apply pendingShrinks_eq.
Qed.

Lemma pushNetworkEvent_shrinks st sid ev now :
  pendingShrinks st (pushNetworkEvent st sid ev now).
Proof.
  unfold pushNetworkEvent. destruct (networkEventBuffers st !! sid);
    [|apply pendingShrinks_refl].
  case_match; [|by apply pendingShrinks_eq].
  eapply pendingShrinks_trans; [|apply flushTelemetryBuffers_shrinks].
  by apply pendingShrinks_eq.
Qed.

Lemma pushConsoleEvent_shrinks st sid ev now :
  pendingShrinks st (pushConsoleEvent st sid ev now).
Proof.
  unfold pushConsoleEvent. destruct (consoleEventBuffers st !! sid);
    [|apply pendingShrinks_refl].
  case_match; [|by apply pendingShrinks_eq].
  eapply pendingShrinks_trans; [|apply flushTelemetryBuffers_shrinks].
  by apply pendingShrinks_eq.
Qed.

Lemma deletePending_shrinks st sid rid : pendingShrinks st (deletePending st sid rid).
Proof.
  intros sid' rid' H. unfold pendingEntry, deletePending in *. state_proj.
  destruct (decide (sid' = sid)) as [->|Hne].
  - rewrite lookup_alter_eq. destruct (pendingNetworkRequests st !! sid) as [m|];
      simpl in *; [|done].
    destruct (decide (rid' = rid)) as [->|]; [apply lookup_delete_eq|].
    by rewrite lookup_delete_ne.
  - by rewrite lookup_alter_ne.
Qed.

Lemma cleanupTelemetry_shrinks st sid tab : pendingShrinks st (cleanupTelemetry st sid tab).
Proof.
  intros sid' rid H. unfold pendingEntry, cleanupTelemetry in *. state_proj.
  destruct (decide (sid' = sid)) as [->|Hne].
  - by rewrite lookup_delete_eq.
  - by rewrite lookup_delete_ne.
Qed.

Lemma handleMediaReady_shrinks st sid : pendingShrinks st (handleMediaReady st sid).1.
Proof.
  unfold handleMediaReady. destruct (smap_get (sessions st) sid) as [s|];
    [|apply pendingShrinks_refl].
  destruct (debuggerAttached s); [|by apply pendingShrinks_eq].
  intros sid' rid H. unfold pendingEntry in *. state_proj.
  destruct (decide (sid' = sid)) as [->|Hne].
  - by rewrite lookup_insert_eq.
  - by rewrite lookup_insert_ne.
Qed.

Lemma handleNetworkRequestWillBeSent_shrinks st tab params sid rid :
  rq_requestId params ≠ rid →
  pendingEntry st sid rid = None →
  pendingEntry (handleNetworkRequestWillBeSent st tab params) sid rid = None.
Proof.
  intros Hne H. unfold handleNetworkRequestWillBeSent.
  destruct (activeSession st tab) as [[sid' session]|]; [|done].
  destruct (pendingNetworkRequests st !! sid') as [m|] eqn:Hm; [|done].
  unfold pendingEntry in *. state_proj.
  destruct (decide (sid = sid')) as [->|Hs].
  - rewrite lookup_insert_eq. simpl. rewrite lookup_insert_ne by done.
    by rewrite Hm in H.
  - by rewrite lookup_insert_ne.
Qed.

Lemma handleNetworkResponse_shrinks st tab params now :
  pendingShrinks st (handleNetworkResponse st tab params now).
Proof.
  unfold handleNetworkResponse. repeat case_match;
    try apply pendingShrinks_refl; try apply deletePending_shrinks.
  eapply pendingShrinks_trans; [apply pushNetworkEvent_shrinks|].
  apply deletePending_shrinks.
Qed.

Lemma handleNetworkLoadingFailed_shrinks st tab params now :
  pendingShrinks st (handleNetworkLoadingFailed st tab params now).
Proof.
  unfold handleNetworkLoadingFailed. repeat case_match;
    try apply pendingShrinks_refl; try apply deletePending_shrinks.
  eapply pendingShrinks_trans; [apply pushNetworkEvent_shrinks|].
  apply deletePending_shrinks.
Qed.

Lemma handleMediaStopped_teardown_pending st sid detached tab :
  pendingNetworkRequests (handleMediaStopped_teardown st sid detached tab).1 =
  match smap_get (sessions st) sid with
  | Some _ => delete sid (pendingNetworkRequests st)
  | None => pendingNetworkRequests st
  end.
Proof.
  unfold handleMediaStopped_teardown.
  destruct (smap_get (sessions st) sid) as [s|]; [|reflexivity].
  destruct tab as [[tabUrl tabTitle]|], (debuggerAttached s && detached); reflexivity.
Qed.

Lemma pendingShrinks_delete st st' sid :
  pendingNetworkRequests st' = delete sid (pendingNetworkRequests st) →
  pendingShrinks st st'.
Proof.
  intros Heq sid' rid H. unfold pendingEntry in *. rewrite Heq.
  destruct (decide (sid' = sid)) as [->|Hne].
  - by rewrite lookup_delete_eq.
  - by rewrite lookup_delete_ne.
Qed.

Lemma handleMediaStopped_teardown_shrinks st sid detached tab :
  pendingShrinks st (handleMediaStopped_teardown st sid detached tab).1.
Proof.
  pose proof (handleMediaStopped_teardown_pending st sid detached tab) as H.
  destruct (smap_get (sessions st) sid).
  - by eapply pendingShrinks_delete.
  - by apply pendingShrinks_eq.
Qed.

Lemma step_pending_shrinks st e st' sid rid :
  step st e = Some st' → notRequestSent rid e →
  pendingEntry st sid rid = None → pendingEntry st' sid rid = None.
Proof.
  intros Hstep Hnot. revert sid rid Hnot.
  destruct e; cbn [step] in Hstep; repeat case_match; simplify_eq;
    intros sid0 rid0 Hnot; cbn [notRequestSent] in Hnot.
  - apply pendingShrinks_eq. unfold handleStartRecording. by repeat case_match.
  - apply pendingShrinks_eq. unfold handleStopRecording. by repeat case_match.
  - by rewrite handleTakeScreenshot_state.
  - done.
  - apply handleMediaReady_shrinks.
  - by apply pendingShrinks_eq.
  - apply pendingShrinks_eq. unfold handleScreenshotCaptured. by repeat case_match.
  - apply pendingShrinks_eq. unfold handleMediaStopped_stopTimer, stopFlushTimer.
    by repeat case_match.
  - unfold handleMediaStopped_finalFlush. case_match; [|done].
    apply flushTelemetryBuffers_shrinks.
  - apply handleMediaStopped_teardown_shrinks.
  - unfold handleMediaError_begin. case_match; [|done]. case_match.
    + eapply pendingShrinks_trans; [|apply flushTelemetryBuffers_shrinks].
      apply pendingShrinks_eq. unfold stopFlushTimer. by case_match.
    + apply pendingShrinks_eq. by repeat case_match.
  - unfold handleMediaError_cleanup. case_match; [|done].
    eapply pendingShrinks_trans; [|apply cleanupTelemetry_shrinks].
    apply pendingShrinks_eq. by case_match.
  - unfold handleDOMEventCaptured. repeat case_match; cbn [fst]; try done.
    eapply pendingShrinks_trans; [|apply flushTelemetryBuffers_shrinks].
    by apply pendingShrinks_eq.
  - apply pendingShrinks_eq. unfold handleStateSerialized. by repeat case_match.
  - by apply handleNetworkRequestWillBeSent_shrinks.
  - apply handleNetworkResponse_shrinks.
  - apply handleNetworkLoadingFailed_shrinks.
  - unfold handleConsoleAPICalled. repeat case_match; try done.
    apply pushConsoleEvent_shrinks.
  - unfold handleExceptionThrown. repeat case_match; try done.
    apply pushConsoleEvent_shrinks.
  - apply pendingShrinks_eq. unfold handleCDPDetach. by repeat case_match.
  - apply flushTelemetryBuffers_shrinks.
  - apply flushStoreSettled_shrinks.
Qed.

Lemma run_pending_shrinks es st st' sid rid :
  run st es = Some st' → Forall (notRequestSent rid) es →
  pendingEntry st sid rid = None → pendingEntry st' sid rid = None.
Proof.
  revert st. induction es as [|e es IH]; intros st Hrun Hall Hnone; simpl in Hrun.
  - by simplify_eq.
  - destruct (step st e) as [st1|] eqn:Hstep; [|done].
    apply Forall_cons in Hall as [He Hes].
    eapply IH; [done | done |]. by eapply step_pending_shrinks.
Qed.

(** A response or a failure for a request that is not pending changes
    nothing. *)
Lemma deliver_unknown st tab d sid :
  tabIdToSessionId st !! tab = Some sid →
  pendingEntry st sid (deliveryId d) = None →
  deliver st tab d = st.
Proof.
  intros Htab Hnone.
  destruct (activeSession st tab) as [[sid' session]|] eqn:Hact.
  - apply activeSession_Some in Hact as Hact'. destruct Hact' as (Htab' & _ & _).
    assert (sid' = sid) as -> by congruence.
    unfold pendingEntry in Hnone.
    destruct d; simpl in *; unfold handleNetworkResponse, handleNetworkLoadingFailed;
      rewrite Hact; destruct (pendingNetworkRequests st !! sid); simpl in Hnone; try done;
      by rewrite Hnone.
  - destruct d; simpl; unfold handleNetworkResponse, handleNetworkLoadingFailed;
      by rewrite Hact.
Qed.

(** ** The TTL sweep *)

(** *** Rounding to a double *)

Module DoubleFacts.
Import JS.

Lemma pow2_pos (e : Z) : (0 < pow2 e)%Q.
Proof.
  destruct e as [|p|p]; cbn [pow2]; [reflexivity| |reflexivity].
  unfold Qlt. cbn [Qnum Qden inject_Z].
  pose proof (Z.pow_pos_nonneg 2 (Z.pos p)). lia.
Qed.

Lemma pow2_le_1 (e : Z) : e ≤ 0 → (pow2 e <= 1)%Q.
Proof.
  destruct e as [|p|p]; cbn [pow2]; intros He; [apply Qle_refl | lia |].
  unfold Qle. cbn. pose proof (Pos2Z.is_pos (2 ^ p)). lia.
Qed.

Lemma roundTiesToEven_near (y : Q) :
  (Qabs (inject_Z (roundTiesToEven y) - y) <= 1 # 2)%Q.
Proof.
  unfold roundTiesToEven.
  pose proof (Qfloor_le y) as Hlo. pose proof (Qlt_floor y) as Hhi.
  rewrite inject_Z_plus in Hhi. change (inject_Z 1) with 1%Q in Hhi.
  apply Qabs_Qle_condition.
  destruct (y - inject_Z (Qfloor y) ?= 1 # 2)%Q eqn:E.
  - apply Qeq_alt in E. destruct (Z.even (Qfloor y));
      rewrite ?inject_Z_plus; change (inject_Z 1) with 1%Q; split; lra.
  - apply Qlt_alt in E. split; lra.
  - apply Qgt_alt in E. rewrite inject_Z_plus. change (inject_Z 1) with 1%Q. split; lra.
Qed.

Lemma floorLog2_le (x : Q) : (Qabs x < inject_Z (2 ^ 53))%Q → floorLog2 x ≤ 52.
Proof.
  intros Hx. unfold floorLog2.
  set (k := Z.log2 (Z.abs (Qnum x)) - Z.log2 (Z.pos (Qden x))).
  destruct (Qle_bool (pow2 k) (Qabs x)) eqn:E.
  - apply Qle_bool_iff in E. destruct (Z.le_gt_cases k 52) as [|Hk]; [done|exfalso].
    assert (inject_Z (2 ^ 53) <= pow2 k)%Q as Hp.
    { destruct k as [|p|p]; try lia. cbn [pow2]. rewrite <- Zle_Qle.
      apply Z.pow_le_mono_r; lia. }
    lra.
  - assert (k ≤ 53); [|lia]. subst k.
    destruct x as [n d]. cbn [Qnum Qden] in *.
    unfold Qabs, Qlt in Hx. cbn in Hx.
    assert (Z.log2 (Z.abs n) ≤ Z.log2 (Z.pos d * 2 ^ 53)) as Hl.
    { apply Z.log2_le_mono. lia. }
    rewrite Z.log2_mul_pow2 in Hl by lia. lia.
Qed.

Lemma toDouble_near (x : Q) :
  (Qabs x < inject_Z (2 ^ 53))%Q → (Qabs (toDouble x - x) <= 1 # 2)%Q.
Proof.
  intros Hx. unfold toDouble. destruct (Qeq_bool x 0) eqn:E.
  - apply Qeq_bool_eq in E. apply Qabs_Qle_condition. split; lra.
  - set (e := Z.max (floorLog2 x - 52) (-1074)).
    assert (e ≤ 0) as He by (pose proof (floorLog2_le x Hx); lia).
    pose proof (pow2_pos e) as Hpos. pose proof (pow2_le_1 e He) as Hle.
    pose proof (roundTiesToEven_near (x / pow2 e)) as Hr.
    set (m := inject_Z (roundTiesToEven (x / pow2 e))) in *.
    assert (m * pow2 e - x == (m - x / pow2 e) * pow2 e)%Q as ->.
    { field. lra. }
    rewrite Qabs_Qmult, (Qabs_pos (pow2 e)) by lra.
    apply Qle_trans with ((1 # 2) * pow2 e)%Q.
    + apply Qmult_le_compat_r; [done | lra].
    + lra.
Qed.

End DoubleFacts.

Lemma orQ_eq (w : Q) : (JS.orQ (Some w) 0 == w)%Q.
Proof.
  unfold JS.orQ. destruct (Qeq_bool w 0) eqn:E; [|reflexivity].
  apply Qeq_bool_eq in E. by symmetry.
Qed.

Lemma toDouble_orQ (w : Q) : JS.toDouble (JS.orQ (Some w) 0) = JS.toDouble w.
Proof.
  unfold JS.orQ. destruct (Qeq_bool w 0) eqn:E; [|reflexivity].
  unfold JS.toDouble. by rewrite E.
Qed.

Lemma pendingExpired_iff (now : Z) (pe : PartialNetworkEvent) (w : Q) :
  p_wallTime pe = Some w →
  pendingExpired now pe = true ↔ (PENDING_TTL_MS < sweepAge now w)%Q.
Proof.
  intros Hw. unfold pendingExpired, sweepAge, JS.Qgtb. rewrite Hw, negb_true_iff.
  rewrite <- not_true_iff_false, Qle_bool_iff, toDouble_orQ.
  split; [apply Qnot_le_lt | apply Qlt_not_le].
Qed.

(** The age the sweep computes is within a millisecond of the exact one. *)
Lemma sweepAge_near (now : Z) (w : Q) :
  0 ≤ now < 2 ^ 52 →
  (0 <= JS.toDouble w * 1000)%Q → (JS.toDouble w * 1000 < inject_Z (2 ^ 52))%Q →
  (Qabs (sweepAge now w - (inject_Z now - JS.toDouble w * 1000)) <= 1)%Q.
Proof.
  intros [Hn0 Hn1] Hw0 Hw1. unfold sweepAge.
  set (x := (JS.toDouble w * 1000)%Q) in *.
  assert (0 <= inject_Z now)%Q as Hq0.
  { change 0%Q with (inject_Z 0). by rewrite <- Zle_Qle. }
  assert (inject_Z now < inject_Z (2 ^ 52))%Q as Hq1 by (by rewrite <- Zlt_Qlt).
  assert (inject_Z (2 ^ 53) == 2 * inject_Z (2 ^ 52))%Q as H53 by reflexivity.
  assert (Qabs x < inject_Z (2 ^ 53))%Q as Hx.
  { rewrite Qabs_pos by done. lra. }
  pose proof (DoubleFacts.toDouble_near x Hx) as Hp.
  apply Qabs_Qle_condition in Hp as [Hp0 Hp1].
  set (p := JS.toDouble x) in *.
  assert (Qabs (inject_Z now - p) < inject_Z (2 ^ 53))%Q as Hd.
  { assert (1 <= inject_Z (2 ^ 52))%Q by done. apply Qabs_case; intros _; lra. }
  pose proof (DoubleFacts.toDouble_near _ Hd) as Ha.
  apply Qabs_Qle_condition in Ha as [Ha0 Ha1].
  apply Qabs_Qle_condition. split; lra.
Qed.

Lemma flushDOM_cases st sid net con dom now :
  is_Some (flushInProgress (flushDOM st sid net con dom now) !! sid) ∨
  flushDOM st sid net con dom now = flushSweep st sid now.
Proof.
  unfold flushDOM, suspendFlush. destruct dom; [by right | left].
  state_proj. rewrite lookup_insert_eq. by eexists.
Qed.

Lemma flushConsole_cases st sid net con dom now :
  is_Some (flushInProgress (flushConsole st sid net con dom now) !! sid) ∨
  flushConsole st sid net con dom now = flushSweep st sid now.
Proof.
  unfold flushConsole, suspendFlush. destruct con; [apply flushDOM_cases | left].
  state_proj. rewrite lookup_insert_eq. by eexists.
Qed.

Lemma flushNetwork_cases st sid net con dom now :
  is_Some (flushInProgress (flushNetwork st sid net con dom now) !! sid) ∨
  flushNetwork st sid net con dom now = flushSweep st sid now.
Proof.
  unfold flushNetwork, suspendFlush. destruct net; [apply flushConsole_cases | left].
  state_proj. rewrite lookup_insert_eq. by eexists.
Qed.

Lemma not_Some_None {A} (o : option A) : is_Some o → o = None → False.
Proof. intros [x ->]. done. Qed.

(** The step that ends a flush sweeps the correlation table of the
    session with the clock of that step. *)
Lemma flush_end_sweeps st sid now st' rid :
  FlushEnds st sid now st' →
  pendingEntry st' sid rid =
  pendingEntry st sid rid ≫= (λ e, if pendingExpired now e then None else Some e).
Proof.
  assert (∀ st0 st1 st2, pendingNetworkRequests st1 = pendingNetworkRequests st0 →
            st2 = flushSweep st1 sid now →
            pendingEntry st2 sid rid =
            pendingEntry st0 sid rid ≫=
              (λ e, if pendingExpired now e then None else Some e)) as Hsweep.
  { intros st0 st1 st2 Hp ->. rewrite pendingEntry_sweep, decide_True by done.
    unfold pendingEntry. by rewrite Hp. }
  intros [Hidle Hend | [t Ht] Hend].
  - apply (Hsweep st (spliceBuffers st sid)); [reflexivity|].
    revert Hend. unfold flushTelemetryBuffers. rewrite Hidle, doFlush_splice.
    intros Hend.
    destruct (flushNetwork_cases (spliceBuffers st sid) sid
                (default [] (networkEventBuffers st !! sid))
                (default [] (consoleEventBuffers st !! sid))
                (default [] (domEventBuffers st !! sid)) now) as [Hsome|Heq]; [|done].
    destruct (not_Some_None _ Hsome Hend).
  - revert Hend. unfold flushStoreSettled. rewrite Ht. destruct (stage t); intros Hend.
    + match type of Hend with
      | flushInProgress (flushConsole ?st2 _ ?net ?con ?dom _) !! _ = None =>
          apply (Hsweep st st2); [reflexivity|];
          destruct (flushConsole_cases st2 sid net con dom now) as [Hsome|Heq]; [|done];
          destruct (not_Some_None _ Hsome Hend)
      end.
    + match type of Hend with
      | flushInProgress (flushDOM ?st2 _ ?net ?con ?dom _) !! _ = None =>
          apply (Hsweep st st2); [reflexivity|];
          destruct (flushDOM_cases st2 sid net con dom now) as [Hsome|Heq]; [|done];
          destruct (not_Some_None _ Hsome Hend)
      end.
    + match type of Hend with
      | flushInProgress (flushSweep ?st2 _ _) !! _ = None =>
          by apply (Hsweep st st2)
      end.
Qed.

(** C8, as the code has it. The step that ends a flush whose stores
    have all resolved sweeps the correlation table of the session: a
    pending request is removed exactly when its age at the clock of that
    step, computed as the code computes it in doubles, is more than
    120000 ms, whether or not the request was ever answered; a response
    or a failure that arrives for it afterwards changes nothing, so it
    yields no completed event; an entry that is not older than that stays
    as it was. For clocks below [2 ^ 52] ms the computed age is within a
    millisecond of the exact one: an entry more than 120001 ms old is
    removed and one that is 119999 ms old or less stays. Had the store
    awaited at that step rejected instead, the flush would be over
    without a sweep and the entry still there, whatever its age. *)
Theorem ttl_sweep (st st' : State) (sid : string) (now : Z)
    (pend : gmap string PartialNetworkEvent) (rid : string) (pe : PartialNetworkEvent)
    (w : Q) :
  FlushEnds st sid now st' →
  pendingNetworkRequests st !! sid = Some pend →
  pend !! rid = Some pe →
  p_wallTime pe = Some w →
  let exactAge := (inject_Z now - JS.toDouble w * 1000)%Q in
  ((PENDING_TTL_MS < sweepAge now w)%Q →
   pendingEntry st' sid rid = None ∧
   ∀ tab d, tabIdToSessionId st' !! tab = Some sid → deliveryId d = rid →
            deliver st' tab d = st') ∧
  ((sweepAge now w <= PENDING_TTL_MS)%Q → pendingEntry st' sid rid = Some pe) ∧
  (0 ≤ now < 2 ^ 52 →
   (0 <= JS.toDouble w * 1000)%Q → (JS.toDouble w * 1000 < inject_Z (2 ^ 52))%Q →
   ((120001 < exactAge)%Q → (PENDING_TTL_MS < sweepAge now w)%Q) ∧
   ((exactAge <= 119999)%Q → (sweepAge now w <= PENDING_TTL_MS)%Q)) ∧
  (is_Some (flushInProgress st !! sid) →
   let rejected := flushStoreSettled st sid false now in
   flushInProgress rejected !! sid = None ∧ pendingEntry rejected sid rid = Some pe).
Proof.
  intros Hend Hpend Hpe Hw exactAge.
  pose proof (flush_end_sweeps st sid now st' rid Hend) as Hsweep.
  assert (pendingEntry st sid rid = Some pe) as Hentry.
  { unfold pendingEntry. by rewrite Hpend. }
  rewrite Hentry in Hsweep. simpl in Hsweep.
  pose proof (pendingExpired_iff now pe w Hw) as Hexp.
  split; [|split; [|split]].
  - intros Hold. apply Hexp in Hold. rewrite Hold in Hsweep.
    split; [done|]. intros tab d Htab <-. by apply (deliver_unknown st' tab d sid).
  - intros Hyoung. destruct (pendingExpired now pe); [|done].
    exfalso. apply (Qlt_not_le _ _ (proj1 Hexp eq_refl) Hyoung).
  - intros Hnow Hw0 Hw1. pose proof (sweepAge_near now w Hnow Hw0 Hw1) as Hnear.
    apply Qabs_Qle_condition in Hnear as [Hlo Hhi]. fold exactAge in Hlo, Hhi.
    unfold PENDING_TTL_MS. split; intros Hage; lra.
  - intros [t Ht]. cbv zeta. unfold flushStoreSettled. rewrite Ht.
    unfold pendingEntry in *. state_proj. by rewrite lookup_delete_eq.
Qed.

Lemma ttl_sweep_witness :
  FlushEnds imagePendingState "7-1000" 200000 sweptState ∧
  imagePending !! "r1" = Some imageEntry ∧
  pendingEntry sweptState "7-1000" "r1" = None ∧
  handleNetworkResponse sweptState 7 (imageResponse 404) 200100 = sweptState.
Proof.
  assert (FlushEnds imagePendingState "7-1000" 200000 sweptState) as Hend.
  { apply ends_at_call; vm_compute; reflexivity. }
  assert (pendingNetworkRequests imagePendingState !! "7-1000" = Some imagePending)
    as Hpend by (vm_compute; reflexivity).
  assert (imagePending !! "r1" = Some imageEntry) as Hpe by (vm_compute; reflexivity).
  assert (p_wallTime imageEntry = Some (1050 # 1000)) as Hw by (vm_compute; reflexivity).
  destruct (ttl_sweep _ _ _ _ _ _ _ _ Hend Hpend Hpe Hw) as (Hold & _ & _ & _).
  destruct Hold as [Hgone Hnone]; [by vm_compute|].
  split; [exact Hend|]. split; [exact Hpe|]. split; [exact Hgone|].
  apply (Hnone 7 (Responded (imageResponse 404) 200100)); [vm_compute|]; reflexivity.
Defined.

(** C8 as stated fails at the boundary: the reading [1700000000.123] is
    held as the double just below it, so at the clock [1700000120123]
    the entry is more than 120000 ms old; the product rounds up to
    [1700000000123], the computed age is 120000 and the sweep keeps the
    entry. *)
Lemma ttl_boundary_entry_kept :
  FlushEnds boundaryPendingState "7-1000" boundaryNow boundarySweptState ∧
  (p_wallTime <$> pendingEntry boundaryPendingState "7-1000" "r9") =
    Some (Some boundaryReading) ∧
  (PENDING_TTL_MS < inject_Z boundaryNow - JS.toDouble boundaryReading * 1000)%Q ∧
  (sweepAge boundaryNow boundaryReading == PENDING_TTL_MS)%Q ∧
  pendingEntry boundarySweptState "7-1000" "r9" =
    pendingEntry boundaryPendingState "7-1000" "r9".
Proof.
  split; [apply ends_at_call; vm_compute; reflexivity|].
  split; [vm_compute; reflexivity|]. split; [by vm_compute|].
  split; vm_compute; reflexivity.
Qed.

(** ** One completed event per pending entry *)

Lemma deliver_found st tab d sid session pend pe :
  activeSession st tab = Some (sid, session) →
  pendingNetworkRequests st !! sid = Some pend →
  pend !! deliveryId d = Some pe →
  ∃ st1, deliver st tab d = deletePending st1 sid (deliveryId d) ∧
         (st1 = st ∨ ∃ ev, st1 = pushNetworkEvent st sid ev (match d with
                                                            | Responded _ now => now
                                                            | LoadFailed _ now => now
                                                            end)).
Proof.
  intros Hact Hpend Hpe.
  destruct d as [params now|params now]; simpl in *;
    unfold handleNetworkResponse, handleNetworkLoadingFailed;
    rewrite Hact, Hpend, Hpe; repeat case_match; eauto.
Qed.

Lemma networkCount_deletePending st sid rid sid' :
  networkCount (deletePending st sid rid) sid' = networkCount st sid'.
Proof. reflexivity. Qed.

Lemma networkCount_push st sid ev now session :
  smap_get (sessions st) sid = Some session →
  networkCount (pushNetworkEvent st sid ev now) sid = Some (networkEventCount session) ∨
  networkCount (pushNetworkEvent st sid ev now) sid =
    Some (networkEventCount session + 1)%N.
Proof.
  intros Hs. unfold networkCount.
  destruct (pushNetworkEvent_sessions st sid ev now) as [-> | ->].
  - left. by rewrite Hs.
  - right. rewrite smap_get_alter, decide_True by done. by rewrite Hs.
Qed.

(** C9. When the response or the failure of a request finds its pending
    entry, the entry is gone from the table afterwards whatever branch
    the handler takes, and the network counter of the session has grown
    by at most one. From then on, as long as no request-sent for that
    requestId occurs, the entry stays absent and any further response or
    failure for it changes nothing. *)
Theorem pending_entry_consumed_once (st : State) (tab : Z) (d : Delivery) (sid : string)
    (session : SessionState) (pend : gmap string PartialNetworkEvent)
    (pe : PartialNetworkEvent) :
  activeSession st tab = Some (sid, session) →
  pendingNetworkRequests st !! sid = Some pend →
  pend !! deliveryId d = Some pe →
  let st' := deliver st tab d in
  pendingEntry st' sid (deliveryId d) = None ∧
  (networkCount st' sid = Some (networkEventCount session) ∨
   networkCount st' sid = Some (networkEventCount session + 1)%N) ∧
  ∀ es st'',
    Forall (notRequestSent (deliveryId d)) es → run st' es = Some st'' →
    pendingEntry st'' sid (deliveryId d) = None ∧
    ∀ tab' d', tabIdToSessionId st'' !! tab' = Some sid → deliveryId d' = deliveryId d →
               deliver st'' tab' d' = st''.
Proof.
  intros Hact Hpend Hpe st'.
  destruct (deliver_found st tab d sid session pend pe Hact Hpend Hpe)
    as (st1 & Hst' & Hst1).
  apply activeSession_Some in Hact as (_ & Hs & _).
  assert (pendingEntry st' sid (deliveryId d) = None) as Hgone.
  { subst st'. rewrite Hst'. apply pendingEntry_deletePending. }
  split; [exact Hgone|]. split.
  - subst st'. rewrite Hst', networkCount_deletePending.
    destruct Hst1 as [->|[ev ->]].
    + left. unfold networkCount. by rewrite Hs.
    + by apply networkCount_push.
  - intros es st'' Hall Hrun.
    assert (pendingEntry st'' sid (deliveryId d) = None) as Hgone''.
    { by apply (run_pending_shrinks es st' st''). }
    split; [exact Hgone''|]. intros tab' d' Htab Hid.
    apply (deliver_unknown st'' tab' d' sid Htab). by rewrite Hid.
Qed.

Lemma pending_entry_consumed_once_witness :
  let st' := handleNetworkResponse imagePendingState 7 (imageResponse 404) 1100 in
  activeSession imagePendingState 7 = Some ("7-1000", imageSession) ∧
  imagePending !! "r1" = Some imageEntry ∧
  pendingEntry st' "7-1000" "r1" = None ∧
  handleNetworkResponse st' 7 (imageResponse 404) 1200 = st'.
Proof.
  assert (activeSession imagePendingState 7 = Some ("7-1000", imageSession)) as Hact
    by (vm_compute; reflexivity).
  assert (pendingNetworkRequests imagePendingState !! "7-1000" = Some imagePending)
    as Hpend by (vm_compute; reflexivity).
  assert (imagePending !! "r1" = Some imageEntry) as Hpe by (vm_compute; reflexivity).
  destruct (pending_entry_consumed_once imagePendingState 7
              (Responded (imageResponse 404) 1100) "7-1000" imageSession imagePending
              imageEntry Hact Hpend Hpe) as (Hgone & _ & Hlater).
  destruct (Hlater [] _ (Forall_nil_2 _) eq_refl) as [_ Hnoop].
  split; [exact Hact|]. split; [exact Hpe|]. split; [exact Hgone|].
  apply (Hnoop 7 (Responded (imageResponse 404) 1200)); [vm_compute|]; reflexivity.
Defined.

(** ** Keys that are not network batches *)

Lemma batchIndexOf_not_numeric (p seg : string) :
  allChars (λ c, negb (Ascii.eqb c ":")) seg = true →
  seg ≠ EmptyString →
  JS.parseInt seg = None →
  Storage.batchIndexOf (p +:+ String ":" seg) = None.
Proof.
  intros Hseg Hne Hparse. unfold Storage.batchIndexOf.
  rewrite JSFacts.pop_split_append by done. by destruct seg.
Qed.

Lemma networkBatchKey_not (sid : string) (j : N) (k : string) :
  Storage.batchIndexOf k = None → k ≠ Storage.networkBatchKey sid j.
Proof.
  intros Hk ->. by rewrite StorageFacts.batchIndexOf_networkBatchKey in Hk.
Qed.

Lemma networkBatchKey_not_metadata (sid s : string) (j : N) :
  Storage.createStorageKey s Storage.KMetadata None ≠ Storage.networkBatchKey sid j.
Proof. apply networkBatchKey_not. by apply (batchIndexOf_not_numeric s "metadata"). Qed.

Lemma networkBatchKey_not_state (sid s : string) (j : N) :
  Storage.createStorageKey s Storage.KState None ≠ Storage.networkBatchKey sid j.
Proof. apply networkBatchKey_not. by apply (batchIndexOf_not_numeric s "state"). Qed.

Lemma networkBatchKey_not_screenshot (sid s : string) (i j : N) :
  Storage.createStorageKey s Storage.KScreenshot (Some i) +:+ ":metadata" ≠
  Storage.networkBatchKey sid j.
Proof.
  apply networkBatchKey_not.
  by apply (batchIndexOf_not_numeric
              (Storage.createStorageKey s Storage.KScreenshot (Some i)) "metadata").
Qed.

(** ** The view of a session under the pieces of a flush *)

Lemma sameIndexAndStore_fields sid st st' :
  networkBatchIndices st' = networkBatchIndices st → idb st' = idb st →
  sameIndexAndStore sid st st'.
Proof. intros Hi Hd. unfold sameIndexAndStore, v_index, v_store. by rewrite Hi, Hd. Qed.


(** C6 at a failing schedule. A periodic flush is in flight when the
    session stops: the final flush called by media-stopped joins it, so
    the event accepted after that flush took its batch is still in the
    buffer when the teardown deletes the buffer. Two events were
    accepted and counted; one is stored. *)
Lemma final_flush_joins_flush_in_flight :
  run initialState stopDuringFlush = Some stoppedDuringFlush ∧
  statusOf stoppedDuringFlush "7-1000" = Some Completed ∧
  networkCount stoppedDuringFlush "7-1000" = Some 2%N ∧
  (requestId <$> Storage.getNetworkEvents (idb stoppedDuringFlush) "7-1000") = ["r1"] ∧
  networkEventBuffers stoppedDuringFlush !! "7-1000" = None ∧
  flushInProgress stoppedDuringFlush !! "7-1000" = None.
Proof.
  split; [vm_compute; reflexivity|]. split; [vm_compute; reflexivity|].
  split; [vm_compute; reflexivity|]. split; [vm_compute; reflexivity|].
  split; vm_compute; reflexivity.
Qed.

(** With no flush in flight at the stop, the same events are all stored. *)
Lemma final_flush_when_idle :
  run initialState stopAfterFlush = Some stoppedAfterFlush ∧
  networkCount stoppedAfterFlush "7-1000" = Some 2%N ∧
  (requestId <$> Storage.getNetworkEvents (idb stoppedAfterFlush) "7-1000") = ["r1"; "r2"].
Proof.
  split; [vm_compute; reflexivity|]. split; vm_compute; reflexivity.
Qed.

(** ** Reading console and DOM batches back *)

Module ReadBack.
Import JS JSFacts Storage StorageFacts StorageExt.

Lemma foldl_fun_ext {A B} (f g : A → B → A) (l : list B) (a : A) :
  (∀ x y, f x y = g x y) → foldl f a l = foldl g a l.
Proof.
  intros H. revert a. induction l as [|y l IH]; intros a; simpl; [done|].
  by rewrite H, IH.
Qed.

Section Channel.
Context {A : Type}.
Variables (key : N → string) (pre : string) (rd : value → option (list A)).
Variables (store : db → N → list A → db) (wrap : list A → value).
Hypothesis key_index : ∀ i, batchIndexOf (key i) = Some (Z.of_N i).
Hypothesis key_prefix : ∀ i, startsWith pre (key i) = true.
Hypothesis store_insert : ∀ d i b, store d i b = <[key i := wrap b]> d.
Hypothesis rd_wrap : ∀ b, rd (wrap b) = Some b.

Lemma key_inj (i j : N) : key i = key j → i = j.
Proof.
  intros H. pose proof (key_index i) as Hi. rewrite H, key_index in Hi.
  injection Hi. lia.
Qed.

Lemma elem_of_keysWith (n : nat) (i : N) (k : string) :
  k ∈ keysWith key i n ↔ ∃ j, (i ≤ j < i + N.of_nat n)%N ∧ k = key j.
Proof.
  revert i. induction n as [|n IH]; intros i; simpl.
  - split; [by intros ?%elem_of_nil | intros (j & ? & _); lia].
  - rewrite elem_of_cons, IH. split.
    + intros [->|(j & ? & ->)]; [exists i | exists j]; split; (lia || done).
    + intros (j & Hj & ->). destruct (decide (j = i)) as [->|]; [by left|].
      right. exists j. split; [lia | done].
Qed.

Lemma keysWith_sorted (n : nat) (i : N) :
  StronglySorted (indexLe keyIndex) (keysWith key i n).
Proof.
  revert i. induction n as [|n IH]; intros i; simpl; constructor; [apply IH|].
  apply Forall_forall. intros k (j & Hj & ->)%elem_of_keysWith.
  unfold indexLe, keyIndex. rewrite !key_index. simpl. lia.
Qed.

Lemma keysWith_NoDup (n : nat) (i : N) : NoDup (keysWith key i n).
Proof.
  revert i. induction n as [|n IH]; intros i; simpl; constructor; [|apply IH].
  intros (j & Hj & Heq)%elem_of_keysWith. apply key_inj in Heq. lia.
Qed.

Lemma storeEach_lookup_other (bs : list (list A)) (i : N) (d : db) (k : string) :
  k ∉ keysWith key i (length bs) → storeEach store d i bs !! k = d !! k.
Proof.
  revert i d. induction bs as [|b bs IH]; intros i d Hk; simpl in *; [done|].
  apply not_elem_of_cons in Hk as [Hne Hk].
  rewrite IH by done. rewrite store_insert. by rewrite lookup_insert_ne.
Qed.

Lemma storeEach_lookup (bs : list (list A)) (i : N) (d : db) (m : nat) (b : list A) :
  bs !! m = Some b →
  storeEach store d i bs !! key (i + N.of_nat m) = Some (wrap b).
Proof.
  revert i d m. induction bs as [|b0 bs IH]; intros i d m Hm; [done|].
  change (storeEach store d i (b0 :: bs))
    with (storeEach store (store d i b0) (N.succ i) bs).
  destruct m as [|m].
  - injection Hm as ->. rewrite N.add_0_r, storeEach_lookup_other.
    + rewrite store_insert. by rewrite lookup_insert_eq.
    + intros (j & Hj & Heq)%elem_of_keysWith. apply key_inj in Heq. lia.
  - replace (i + N.of_nat (S m))%N with (N.succ i + N.of_nat m)%N by lia.
    apply IH. exact Hm.
Qed.

Lemma storeEach_dom (bs : list (list A)) (i : N) (d : db) (k : string) :
  is_Some (storeEach store d i bs !! k) ↔
  k ∈ keysWith key i (length bs) ∨ is_Some (d !! k).
Proof.
  destruct (decide (k ∈ keysWith key i (length bs))) as [Hin|Hout].
  - split; [by left|]. intros _.
    apply elem_of_keysWith in Hin as (j & Hj & ->).
    assert (is_Some (bs !! N.to_nat (j - i))) as [b Hb].
    { apply lookup_lt_is_Some_2. lia. }
    replace j with (i + N.of_nat (N.to_nat (j - i)))%N by lia.
    rewrite (storeEach_lookup _ _ _ _ _ Hb). by eexists.
  - rewrite storeEach_lookup_other by done. split; [by right|]. by intros [?|?].
Qed.

Lemma read_keysWith (d : db) (bs : list (list A)) (i : N) (acc : list A) :
  (∀ m b, bs !! m = Some b → d !! key (i + N.of_nat m) ≫= rd = Some b) →
  foldl (λ allEvents k,
           match d !! k ≫= rd with
           | Some batch => allEvents ++ batch
           | None => allEvents
           end) acc (keysWith key i (length bs)) = acc ++ concat bs.
Proof.
  revert i acc. induction bs as [|b bs IH]; intros i acc H; simpl.
  - by rewrite app_nil_r.
  - pose proof (H 0%nat b eq_refl) as H0. rewrite N.add_0_r in H0. rewrite H0.
    rewrite IH; [by rewrite app_assoc|].
    intros m b' Hm. specialize (H (S m) b' Hm).
    by replace (N.succ i + N.of_nat m)%N with (i + N.of_nat (S m))%N by lia.
Qed.

(** Whatever order the store lists its keys in, the batches of a channel
    whose keys are exactly those of [bs] are read back in index order. *)
Lemma read_sorted (allKeys : list string) (d : db) (bs : list (list A)) :
  NoDup allKeys →
  (∀ k, startsWith pre k = true → (k ∈ allKeys ↔ k ∈ keysWith key 0 (length bs))) →
  (∀ m b, bs !! m = Some b → d !! key (N.of_nat m) ≫= rd = Some b) →
  foldl (λ allEvents k,
           match d !! k ≫= rd with
           | Some batch => allEvents ++ batch
           | None => allEvents
           end) []
    (sortBy compareKeys (List.filter (startsWith pre) allKeys)) = concat bs.
Proof.
  intros Hnodup Hkeys Hlookup.
  set (batchKeys := List.filter _ allKeys).
  assert (batchKeys ≡ₚ keysWith key 0 (length bs)) as Hperm.
  { apply NoDup_Permutation.
    - apply NoDup_ListNoDup, List.NoDup_filter. by apply NoDup_ListNoDup.
    - apply keysWith_NoDup.
    - intros k. unfold batchKeys.
      rewrite list_elem_of_In, filter_In, <- list_elem_of_In. split.
      + intros [Hin Hpre]. by apply Hkeys.
      + intros Hin.
        assert (startsWith pre k = true) as Hpre.
        { apply elem_of_keysWith in Hin as (j & _ & ->). apply key_prefix. }
        split; [by apply Hkeys | done]. }
  rewrite (sortBy_ext compareKeys (byIndex keyIndex)).
  - rewrite (sortBy_unique keyIndex batchKeys (keysWith key 0 (length bs)) Hperm).
    + by rewrite (read_keysWith d bs 0 []).
    + apply keysWith_sorted.
    + intros x y (jx & _ & ->)%elem_of_keysWith (jy & _ & ->)%elem_of_keysWith.
      unfold keyIndex. rewrite !key_index. simpl.
      intros ?. f_equal. lia.
  - intros x y Hx Hy. rewrite Hperm in Hx, Hy.
    apply elem_of_keysWith in Hx as (jx & _ & ->).
    apply elem_of_keysWith in Hy as (jy & _ & ->).
    unfold compareKeys, byIndex, keyIndex. by rewrite !key_index.
Qed.

(** The batches stored on a store without keys of the channel *)
Lemma read_stored (d : db) (bs : list (list A)) :
  (∀ k, startsWith pre k = true → d !! k = None) →
  foldl (λ allEvents k,
           match storeEach store d 0 bs !! k ≫= rd with
           | Some batch => allEvents ++ batch
           | None => allEvents
           end) []
    (sortBy compareKeys (List.filter (startsWith pre) (keys (storeEach store d 0 bs))))
  = concat bs.
Proof.
  intros Hfresh. apply read_sorted.
  - apply RoundTrip.keys_NoDup.
  - intros k Hpre. rewrite RoundTrip.elem_of_keys, storeEach_dom.
    rewrite (Hfresh k Hpre). split; [|by left].
    intros [?|[? ?]]; done.
  - intros m b Hm. pose proof (storeEach_lookup bs 0 d m b Hm) as H.
    rewrite N.add_0_l in H. rewrite H. simpl. apply rd_wrap.
Qed.

End Channel.

End ReadBack.

Module ReadBackFacts.
Import JS JSFacts Storage StorageFacts StorageExt.

Lemma consoleBatchKey_prefix (sid : string) (i : N) :
  startsWith (consoleBatchPrefix sid) (consoleBatchKey sid i) = true.
Proof. apply startsWith_append. Qed.

Lemma domBatchKey_prefix (sid : string) (i : N) :
  startsWith (domBatchPrefix sid) (domBatchKey sid i) = true.
Proof. apply startsWith_append. Qed.

Lemma getConsoleEventsFrom_read (allKeys : list string) (d : db) (sid : string) :
  getConsoleEventsFrom allKeys d sid =
  foldl (λ allEvents k,
           match d !! k ≫= consoleBatchOf with
           | Some batch => allEvents ++ batch
           | None => allEvents
           end) []
    (sortBy compareKeys (List.filter (startsWith (consoleBatchPrefix sid)) allKeys)).
Proof.
  unfold getConsoleEventsFrom. apply ReadBack.foldl_fun_ext.
  intros acc k. by destruct (d !! k) as [[]|].
Qed.

Lemma getDOMBatchesFrom_read (allKeys : list string) (d : db) (sid : string) :
  getDOMBatchesFrom allKeys d sid =
  foldl (λ allEvents k,
           match d !! k ≫= domBatchOf with
           | Some batch => allEvents ++ batch
           | None => allEvents
           end) []
    (sortBy compareKeys (List.filter (startsWith (domBatchPrefix sid)) allKeys)).
Proof.
  unfold getDOMBatchesFrom. apply ReadBack.foldl_fun_ext.
  intros acc k. by destruct (d !! k) as [[]|].
Qed.

Lemma getNetworkEventsFrom_read (allKeys : list string) (d : db) (sid : string) :
  getNetworkEventsFrom allKeys d sid =
  foldl (λ allEvents k,
           match d !! k ≫= networkBatchOf with
           | Some batch => allEvents ++ batch
           | None => allEvents
           end) []
    (sortBy compareKeys (List.filter (startsWith (networkBatchPrefix sid)) allKeys)).
Proof.
  unfold getNetworkEventsFrom. apply ReadBack.foldl_fun_ext.
  intros acc k. by destruct (d !! k) as [[]|].
Qed.

(** The legacy key of the DOM events is not the key of a batch. *)
Lemma legacyDomKey_not_batch (sid : string) (j : N) :
  createStorageKey sid KDom None ≠ domBatchKey sid j.
Proof.
  intros Heq. pose proof (batchIndexOf_domBatchKey sid j) as Hj. rewrite <- Heq in Hj.
  change (createStorageKey sid KDom None) with (sid +:+ String ":" "dom") in Hj.
  by rewrite (batchIndexOf_not_numeric sid "dom") in Hj.
Qed.

Lemma legacyDomKey_no_prefix (sid : string) :
  startsWith (domBatchPrefix sid) (createStorageKey sid KDom None) = false.
Proof.
  unfold domBatchPrefix, createStorageKey, typeName.
  induction sid as [|c sid IH]; [done|].
  rewrite !append_cons. simpl. by rewrite Ascii.eqb_refl.
Qed.

End ReadBackFacts.

(** Console batches stored under the indices [0 .. n-1], in a store that
    held no console batch of the session, are read back concatenated in
    increasing numeric index order. *)
Theorem getConsoleEvents_roundtrip (d : gmap string Storage.value) (sid : string)
    (bs : list (list ConsoleEvent)) :
  (∀ k, JS.startsWith (Storage.consoleBatchPrefix sid) k = true → d !! k = None) →
  StorageExt.getConsoleEvents
    (storeEach (λ d' i b, Storage.storeConsoleEventBatch d' sid i b) d 0 bs) sid
  = concat bs.
Proof.
  intros Hfresh. unfold StorageExt.getConsoleEvents.
  rewrite ReadBackFacts.getConsoleEventsFrom_read.
  exact (ReadBack.read_stored (Storage.consoleBatchKey sid)
           (Storage.consoleBatchPrefix sid) consoleBatchOf
           (λ d' i b, Storage.storeConsoleEventBatch d' sid i b) Storage.ConsoleBatch
           (StorageFacts.batchIndexOf_consoleBatchKey sid)
           (ReadBackFacts.consoleBatchKey_prefix sid)
           (λ _ _ _, eq_refl) (λ _, eq_refl) d bs Hfresh).
Qed.

Lemma getConsoleEvents_roundtrip_witness :
  let bs := (λ i, [sampleConsoleEvent (JS.numToString i)]) <$>
              [0; 1; 2; 3; 4; 5; 6; 7; 8; 9; 10; 11]%N in
  (∀ k, JS.startsWith (Storage.consoleBatchPrefix "7-1000") k = true →
        (∅ : gmap string Storage.value) !! k = None) ∧
  StorageExt.getConsoleEvents
    (storeEach (λ d' i b, Storage.storeConsoleEventBatch d' "7-1000" i b) ∅ 0 bs) "7-1000"
  = concat bs.
Proof.
  split; [done|]. apply (getConsoleEvents_roundtrip ∅ "7-1000"). done.
Defined.

(** DOM batches stored under the indices [0 .. n-1], in a store that held
    no DOM batch of the session, are read back concatenated in increasing
    numeric index order, and the events stored under the single legacy
    key are then ignored; when the batches hold no event at all the
    events under the legacy key are returned instead, if there are any. *)
Theorem getDOMEvents_batches_before_legacy (d : gmap string Storage.value) (sid : string)
    (bs : list (list DOMEvent)) :
  (∀ k, JS.startsWith (Storage.domBatchPrefix sid) k = true → d !! k = None) →
  StorageExt.getDOMEvents
    (storeEach (λ d' i b, Storage.storeDOMEventBatch d' sid i b) d 0 bs) sid
  = match concat bs with
    | [] => default [] (d !! Storage.createStorageKey sid Storage.KDom None ≫= domBatchOf)
    | _ :: _ => concat bs
    end.
Proof.
  intros Hfresh. unfold StorageExt.getDOMEvents, StorageExt.getDOMEventsFrom.
  rewrite ReadBackFacts.getDOMBatchesFrom_read.
  rewrite (ReadBack.read_stored (Storage.domBatchKey sid) (Storage.domBatchPrefix sid)
             domBatchOf (λ d' i b, Storage.storeDOMEventBatch d' sid i b) Storage.DOMBatch
             (StorageFacts.batchIndexOf_domBatchKey sid)
             (ReadBackFacts.domBatchKey_prefix sid)
             (λ _ _ _, eq_refl) (λ _, eq_refl) d bs Hfresh).
  destruct (concat bs) as [|ev evs]; [|done]. simpl.
  rewrite (ReadBack.storeEach_lookup_other (Storage.domBatchKey sid)
             (λ d' i b, Storage.storeDOMEventBatch d' sid i b) Storage.DOMBatch
             (λ _ _ _, eq_refl)).
  - by destruct (d !! _) as [[]|].
  - intros (j & _ & Heq)%ReadBack.elem_of_keysWith.
    by apply ReadBackFacts.legacyDomKey_not_batch in Heq.
Qed.

Lemma getDOMEvents_batches_before_legacy_witness :
  let legacy := StorageExt.storeDOMEvents ∅ "7-1000" [sampleDOMEvent "#old"] in
  let bs := (λ i, [sampleDOMEvent (JS.numToString i)]) <$>
              [0; 1; 2; 3; 4; 5; 6; 7; 8; 9; 10; 11]%N in
  StorageExt.getDOMEvents legacy "7-1000" = [sampleDOMEvent "#old"] ∧
  StorageExt.getDOMEvents
    (storeEach (λ d' i b, Storage.storeDOMEventBatch d' "7-1000" i b) legacy 0 bs)
    "7-1000" = concat bs.
Proof.
  intros legacy bs.
  assert (∀ k, JS.startsWith (Storage.domBatchPrefix "7-1000") k = true →
               legacy !! k = None) as Hfresh.
  { intros k Hk. unfold legacy, StorageExt.storeDOMEvents.
    destruct (decide (k = Storage.createStorageKey "7-1000" Storage.KDom None)) as [->|Hne].
    - vm_compute in Hk. discriminate.
    - by rewrite lookup_insert_ne. }
  split.
  - apply (getDOMEvents_batches_before_legacy legacy "7-1000" [] Hfresh).
  - apply (getDOMEvents_batches_before_legacy legacy "7-1000" bs Hfresh).
Defined.

(** ** Deleting the data of a session *)

Module DeleteFacts.
Import JS JSFacts Storage StorageFacts StorageExt.

Lemma foldl_delete_lookup (l : list string) (d : db) (k : string) :
  foldl (λ d' key, delete key d') d l !! k = if decide (k ∈ l) then None else d !! k.
Proof.
  revert d. induction l as [|x l IH]; intros d; cbn [foldl].
  - case_decide as Hin; [by apply elem_of_nil in Hin | done].
  - rewrite IH.
    destruct (decide (k ∈ l)) as [H1|H1], (decide (k ∈ x :: l)) as [H2|H2]; try done.
    + exfalso. apply H2. by right.
    + destruct (decide (k = x)) as [->|Hne]; [apply lookup_delete_eq|].
      by apply elem_of_cons in H2 as [?|?].
    + destruct (decide (k = x)) as [->|Hne]; [|by apply lookup_delete_ne].
      exfalso. apply H2. by left.
Qed.

Lemma deleteSessionData_lookup (d : db) (sid k : string) :
  deleteSessionData d sid !! k =
  if startsWith (sid +:+ ":") k then None else d !! k.
Proof.
  unfold deleteSessionData. rewrite foldl_delete_lookup.
  destruct (startsWith (sid +:+ ":") k) eqn:Hpre.
  - destruct (decide _) as [|Hout]; [done|].
    destruct (d !! k) eqn:Hk; [|done]. exfalso. apply Hout.
    rewrite list_elem_of_In, filter_In, <- list_elem_of_In.
    split; [|done]. apply RoundTrip.elem_of_keys. by eexists.
  - destruct (decide _) as [Hin|]; [|done].
    rewrite list_elem_of_In, filter_In in Hin. destruct Hin as [_ Hin]. congruence.
Qed.

Lemma startsWith_append_l (a b s : string) :
  startsWith (a +:+ b) s = true → startsWith a s = true.
Proof.
  revert s. induction a as [|c a IH]; intros s; [done|].
  rewrite append_cons. simpl. destruct s as [|c' s]; [done|].
  destruct (Ascii.eqb c c'); [apply IH | done].
Qed.

Lemma filter_none {A} (f : A → bool) (l : list A) :
  (∀ x, x ∈ l → f x = false) → List.filter f l = [].
Proof.
  induction l as [|x l IH]; intros H; simpl; [done|].
  rewrite (H x) by (by left). apply IH. intros y Hy. apply H. by right.
Qed.

(** No key of the session is left for a reader to filter. *)
Lemma deleted_no_keys (d : db) (sid rest : string) :
  List.filter (startsWith (sid +:+ ":" +:+ rest)) (keys (deleteSessionData d sid)) = [].
Proof.
  apply filter_none. intros k [v Hk]%RoundTrip.elem_of_keys.
  rewrite deleteSessionData_lookup in Hk.
  destruct (startsWith (sid +:+ ":" +:+ rest) k) eqn:Hpre; [|done].
  rewrite <- append_assoc in Hpre. apply startsWith_append_l in Hpre.
  by rewrite Hpre in Hk.
Qed.

(** Two colon-free session ids with the same keys are the same id. *)
Lemma colonFree_prefix (a b r : string) :
  colonFree a = true → colonFree b = true →
  startsWith (a +:+ ":") (b +:+ String ":" r) = true → a = b.
Proof.
  unfold colonFree. revert b. induction a as [|c a IH]; intros [|c' b] Ha Hb Hpre.
  - done.
  - rewrite append_nil_l, append_cons in Hpre. cbn [startsWith allChars] in *.
    destruct (Ascii.eqb_spec ":" c') as [<-|]; [|done].
    by rewrite Ascii.eqb_refl in Hb.
  - rewrite append_nil_l, append_cons in Hpre. cbn [startsWith allChars] in *.
    destruct (Ascii.eqb_spec c ":") as [->|]; done.
  - rewrite !append_cons in Hpre. cbn [startsWith allChars] in *.
    apply andb_prop in Ha as [_ Ha]. apply andb_prop in Hb as [_ Hb].
    destruct (Ascii.eqb_spec c c') as [->|]; [|done].
    f_equal. by apply IH.
Qed.

Lemma other_session_key_kept (d : db) (sid sid' rest : string) :
  colonFree sid = true → colonFree sid' = true → sid ≠ sid' →
  deleteSessionData d sid !! (sid' +:+ String ":" rest) = d !! (sid' +:+ String ":" rest).
Proof.
  intros Hs Hs' Hne. rewrite deleteSessionData_lookup.
  destruct (startsWith _ _) eqn:Hpre; [|done].
  by apply colonFree_prefix in Hpre.
Qed.

End DeleteFacts.

(** [deleteSessionData] removes exactly the keys that start with the
    session id followed by a colon and keeps every other key with its
    value; afterwards every reader of the session finds nothing. *)
Theorem deleteSessionData_removes_session (d : gmap string Storage.value) (sid : string) :
  let d' := StorageExt.deleteSessionData d sid in
  (∀ k, d' !! k = if JS.startsWith (sid +:+ ":") k then None else d !! k) ∧
  Storage.getNetworkEvents d' sid = [] ∧
  StorageExt.getConsoleEvents d' sid = [] ∧
  StorageExt.getDOMEvents d' sid = [] ∧
  StorageExt.getSessionMetadata d' sid = None.
Proof.
  intros d'. split; [apply DeleteFacts.deleteSessionData_lookup|].
  split; [|split; [|split]].
  - unfold Storage.getNetworkEvents, Storage.getNetworkEventsFrom.
    change (Storage.networkBatchPrefix sid) with (sid +:+ ":" +:+ "network:batch:").
    unfold d'. by rewrite DeleteFacts.deleted_no_keys.
  - unfold StorageExt.getConsoleEvents, StorageExt.getConsoleEventsFrom.
    change (Storage.consoleBatchPrefix sid) with (sid +:+ ":" +:+ "console:batch:").
    unfold d'. by rewrite DeleteFacts.deleted_no_keys.
  - unfold StorageExt.getDOMEvents, StorageExt.getDOMEventsFrom,
      StorageExt.getDOMBatchesFrom.
    change (Storage.domBatchPrefix sid) with (sid +:+ ":" +:+ "dom:batch:").
    unfold d'. rewrite DeleteFacts.deleted_no_keys.
    rewrite DeleteFacts.deleteSessionData_lookup.
    change (Storage.createStorageKey sid Storage.KDom None) with (sid +:+ ":" +:+ "dom").
    by rewrite <- JSFacts.append_assoc, JSFacts.startsWith_append.
  - unfold StorageExt.getSessionMetadata, d'.
    rewrite DeleteFacts.deleteSessionData_lookup.
    change (Storage.createStorageKey sid Storage.KMetadata None)
      with (sid +:+ ":" +:+ "metadata").
    by rewrite <- JSFacts.append_assoc, JSFacts.startsWith_append.
Qed.

(** Deleting the data of one session leaves the network batches of
    another session readable in full, when neither id contains a colon
    (no generated id does). *)
Theorem deleteSessionData_keeps_other_session (d : gmap string Storage.value)
    (sid sid' : string) (bs : list (list NetworkEvent)) :
  colonFree sid = true → colonFree sid' = true → sid ≠ sid' →
  (∀ k, JS.startsWith (Storage.networkBatchPrefix sid') k = true → d !! k = None) →
  Storage.getNetworkEvents (StorageExt.deleteSessionData (storeBatches d sid' 0 bs) sid) sid'
  = concat bs.
Proof.
  intros Hs Hs' Hne Hfresh. unfold Storage.getNetworkEvents.
  assert (∀ k, JS.startsWith (Storage.networkBatchPrefix sid') k = true →
               StorageExt.deleteSessionData (storeBatches d sid' 0 bs) sid !! k =
               storeBatches d sid' 0 bs !! k) as Hkept.
  { intros k (r & ->)%JSFacts.startsWith_inv.
    change (Storage.networkBatchPrefix sid') with (sid' +:+ String ":" "network:batch:").
    rewrite JSFacts.append_assoc, JSFacts.append_cons.
    by apply DeleteFacts.other_session_key_kept. }
  apply RoundTrip.getNetworkEventsFrom_batches.
  - apply RoundTrip.keys_NoDup.
  - intros k Hpre. rewrite RoundTrip.elem_of_keys, (Hkept k Hpre), RoundTrip.storeBatches_dom.
    rewrite (Hfresh k Hpre). split; [|by left].
    intros [?|[? ?]]; done.
  - intros m b Hm. rewrite Hkept by apply StorageFacts.networkBatchKey_prefix.
    by apply (RoundTrip.storeBatches_lookup sid' bs 0 d m b).
Qed.

Lemma deleteSessionData_keeps_other_session_witness :
  let d := Storage.storeNetworkEventBatch ∅ "7-1000" 0 [sampleEvent "old"] in
  let bs := (λ i, [sampleEvent (JS.numToString i)]) <$> [0; 1; 2]%N in
  Storage.getNetworkEvents
    (StorageExt.deleteSessionData (storeBatches d "8-2000" 0 bs) "7-1000") "8-2000"
  = concat bs.
Proof.
  intros d bs.
  apply (deleteSessionData_keeps_other_session d "7-1000" "8-2000" bs);
    [reflexivity | reflexivity | discriminate |].
  intros k Hk. unfold d, Storage.storeNetworkEventBatch.
  destruct (decide (k = Storage.networkBatchKey "7-1000" 0)) as [->|Hne].
  - vm_compute in Hk. discriminate.
  - by rewrite lookup_insert_ne.
Defined.

(** ** Keys and identifiers *)

Module KeyFacts.
Import JS JSFacts Storage StorageFacts.

Lemma consoleBatchKey_inj (sid sid' : string) (i j : N) :
  consoleBatchKey sid i = consoleBatchKey sid' j → sid = sid' ∧ i = j.
Proof.
  intros H.
  assert (i = j) as ->.
  { apply (f_equal batchIndexOf) in H. rewrite !batchIndexOf_consoleBatchKey in H.
    injection H. lia. }
  split; [|done]. unfold consoleBatchKey, consoleBatchPrefix in H.
  apply append_inv_tail in H. by apply append_inv_tail in H.
Qed.

Lemma domBatchKey_inj (sid sid' : string) (i j : N) :
  domBatchKey sid i = domBatchKey sid' j → sid = sid' ∧ i = j.
Proof.
  intros H.
  assert (i = j) as ->.
  { apply (f_equal batchIndexOf) in H. rewrite !batchIndexOf_domBatchKey in H.
    injection H. lia. }
  split; [|done]. unfold domBatchKey, domBatchPrefix in H.
  apply append_inv_tail in H. by apply append_inv_tail in H.
Qed.

Lemma consoleBatchKey_not_dom (sid sid' : string) (i j : N) :
  consoleBatchKey sid i ≠ domBatchKey sid' j.
Proof.
  intros H.
  assert (i = j) as ->.
  { apply (f_equal batchIndexOf) in H.
    rewrite batchIndexOf_consoleBatchKey, batchIndexOf_domBatchKey in H.
    injection H. lia. }
  unfold consoleBatchKey, domBatchKey, consoleBatchPrefix, domBatchPrefix in H.
  apply append_inv_tail in H.
  change ":console:batch:" with (":console" +:+ ":batch:") in H.
  change ":dom:batch:" with (":dom" +:+ ":batch:") in H.
  rewrite <- !append_assoc in H. apply append_inv_tail in H.
  change ":console" with (":con" +:+ "sole") in H.
  rewrite <- append_assoc in H.
  apply append_inj_suffix in H as [_ H]; [done | done].
Qed.

(** *** Session identifiers *)

Lemma allChars_append (P : ascii → bool) (a b : string) :
  allChars P (a +:+ b) = allChars P a && allChars P b.
Proof.
  induction a as [|c a IH]; [done|].
  rewrite append_cons. simpl. by rewrite IH, andb_assoc.
Qed.

Lemma digits_colonFree (s : string) : allChars isDigit s = true → colonFree s = true.
Proof. apply digits_no_colon. Qed.

Lemma intToString_colonFree (z : Z) : colonFree (intToString z) = true.
Proof.
  destruct z as [|p|p]; unfold intToString; try apply digits_colonFree, numToString_digits.
  unfold colonFree. cbn [allChars]. apply andb_true_intro. split; [done|].
  apply digits_colonFree, numToString_digits.
Qed.

Lemma mkSessionId_colonFree (tab t : Z) : colonFree (mkSessionId tab t) = true.
Proof.
  unfold mkSessionId, colonFree. rewrite !allChars_append.
  pose proof (intToString_colonFree tab) as H1.
  pose proof (intToString_colonFree t) as H2. unfold colonFree in *.
  by rewrite H1, H2.
Qed.

(** Digits up to the first dash *)
Lemma digits_then_dash (x x' r r' : string) :
  allChars isDigit x = true → allChars isDigit x' = true →
  x +:+ String "-" r = x' +:+ String "-" r' → x = x' ∧ r = r'.
Proof.
  revert x'. induction x as [|c x IH]; intros [|c' x'] Hx Hx' Heq.
  - rewrite !append_nil_l in Heq. by injection Heq.
  - rewrite append_nil_l, append_cons in Heq. injection Heq as <- _.
    cbn [allChars] in Hx'. by apply andb_prop in Hx' as [? _].
  - rewrite append_nil_l, append_cons in Heq. injection Heq as -> _.
    cbn [allChars] in Hx. by apply andb_prop in Hx as [? _].
  - rewrite !append_cons in Heq. injection Heq as -> Heq.
    cbn [allChars] in Hx, Hx'.
    apply andb_prop in Hx as [_ Hx]. apply andb_prop in Hx' as [_ Hx'].
    destruct (IH x' Hx Hx' Heq) as [-> ->]. done.
Qed.

Lemma numToString_head (n : N) :
  ∃ c s, numToString n = String c s ∧ isDigit c = true.
Proof.
  pose proof (numToString_digits n) as Hd. pose proof (numToString_nonempty n) as Hne.
  destruct (numToString n) as [|c s]; [done|]. exists c, s. split; [done|].
  cbn [allChars] in Hd. by apply andb_prop in Hd as [? _].
Qed.

Lemma numToString_not_dash (n : N) (s : string) : numToString n ≠ String "-" s.
Proof.
  destruct (numToString_head n) as (c & s' & -> & Hc). intros [= -> _]. done.
Qed.

Lemma Z_to_N_inj (a b : Z) : 0 ≤ a → 0 ≤ b → Z.to_N a = Z.to_N b → a = b.
Proof. lia. Qed.

Lemma intToString_nonneg (z : Z) : 0 ≤ z → intToString z = numToString (Z.to_N z).
Proof. by destruct z. Qed.

Lemma intToString_inj (a b : Z) : intToString a = intToString b → a = b.
Proof.
  destruct (Z.neg_nonneg_cases a) as [Ha|Ha], (Z.neg_nonneg_cases b) as [Hb|Hb].
  - destruct a as [| |p]; try lia. destruct b as [| |q]; try lia.
    cbn [intToString]. intros [= H]. apply numToString_inj in H. congruence.
  - destruct a as [| |p]; try lia. rewrite (intToString_nonneg b Hb).
    cbn [intToString]. intros H. symmetry in H. by apply numToString_not_dash in H.
  - destruct b as [| |q]; try lia. rewrite (intToString_nonneg a Ha).
    cbn [intToString]. intros H. by apply numToString_not_dash in H.
  - rewrite (intToString_nonneg a Ha), (intToString_nonneg b Hb).
    intros H%numToString_inj. by apply Z_to_N_inj.
Qed.

Lemma mkSessionId_inj (tab tab' t t' : Z) :
  mkSessionId tab t = mkSessionId tab' t' → tab = tab' ∧ t = t'.
Proof.
  unfold mkSessionId.
  change ("-" +:+ intToString t) with (String "-" (intToString t)).
  change ("-" +:+ intToString t') with (String "-" (intToString t')).
  assert (∀ n n' r r', numToString n +:+ String "-" r = numToString n' +:+ String "-" r' →
                       n = n' ∧ r = r') as Hnum.
  { intros n n' r r' H.
    apply digits_then_dash in H as [H ->]; try apply numToString_digits.
    by apply numToString_inj in H as ->. }
  destruct (Z.neg_nonneg_cases tab) as [Ha|Ha], (Z.neg_nonneg_cases tab') as [Hb|Hb].
  - destruct tab as [| |p]; try lia. destruct tab' as [| |q]; try lia.
    cbn [intToString]. rewrite !append_cons. intros [= H].
    apply Hnum in H as [[= ->] H]. split; [done|]. by apply intToString_inj.
  - destruct tab as [| |p]; try lia. rewrite (intToString_nonneg tab' Hb).
    cbn [intToString]. rewrite append_cons.
    destruct (numToString_head (Z.to_N tab')) as (c & s & -> & Hc).
    rewrite append_cons. intros [= <- _]. done.
  - destruct tab' as [| |q]; try lia. rewrite (intToString_nonneg tab Ha).
    cbn [intToString]. rewrite append_cons.
    destruct (numToString_head (Z.to_N tab)) as (c & s & -> & Hc).
    rewrite append_cons. intros [= -> _]. done.
  - rewrite (intToString_nonneg tab Ha), (intToString_nonneg tab' Hb).
    intros H. apply Hnum in H as [H1 H2]. split; [by apply Z_to_N_inj|].
    by apply intToString_inj.
Qed.

End KeyFacts.

(** The batches of different sessions, channels or indices are stored
    under different keys, whatever the session ids are: no batch write
    replaces another batch. *)
Theorem batch_keys_never_collide (sid sid' : string) (i j : N) :
  (Storage.networkBatchKey sid i = Storage.networkBatchKey sid' j ↔ sid = sid' ∧ i = j) ∧
  (Storage.consoleBatchKey sid i = Storage.consoleBatchKey sid' j ↔ sid = sid' ∧ i = j) ∧
  (Storage.domBatchKey sid i = Storage.domBatchKey sid' j ↔ sid = sid' ∧ i = j) ∧
  Storage.networkBatchKey sid i ≠ Storage.consoleBatchKey sid' j ∧
  Storage.networkBatchKey sid i ≠ Storage.domBatchKey sid' j ∧
  Storage.consoleBatchKey sid i ≠ Storage.domBatchKey sid' j.
Proof.
  split; [|split; [|split; [|split; [|split]]]].
  - split; [apply StorageFacts.networkBatchKey_inj | by intros [-> ->]].
  - split; [apply KeyFacts.consoleBatchKey_inj | by intros [-> ->]].
  - split; [apply KeyFacts.domBatchKey_inj | by intros [-> ->]].
  - apply StorageFacts.networkBatchKey_not_console.
  - apply StorageFacts.networkBatchKey_not_dom.
  - apply KeyFacts.consoleBatchKey_not_dom.
Qed.

(** Two start requests get the same session id only for the same tab at
    the same millisecond, and no session id contains a colon, the
    separator of the storage keys. *)
Theorem mkSessionId_injective (tab tab' t t' : Z) :
  (mkSessionId tab t = mkSessionId tab' t' ↔ tab = tab' ∧ t = t') ∧
  colonFree (mkSessionId tab t) = true.
Proof.
  split; [split|].
  - apply KeyFacts.mkSessionId_inj.
  - by intros [-> ->].
  - apply KeyFacts.mkSessionId_colonFree.
Qed.
(** ** Header redaction *)

Lemma smap_set_fresh {V} (m : list (string * V)) (k : string) (v : V) :
  k ∉ m.*1 → smap_set m k v = m ++ [(k, v)].
Proof.
  induction m as [|[k' v'] m IH]; [done|]. cbn [smap_set fmap list_fmap fst].
  intros Hk. apply not_elem_of_cons in Hk as [Hne Hk].
  rewrite decide_False by done. cbn [app]. by rewrite IH.
Qed.

Lemma elem_of_smap_set {V} (m : list (string * V)) (k : string) (v : V) kv :
  kv ∈ smap_set m k v → kv = (k, v) ∨ kv ∈ m.
Proof.
  induction m as [|[k' v'] m IH]; cbn [smap_set].
  - intros ->%list_elem_of_singleton. by left.
  - destruct (decide (k = k')).
    + intros [->|Hin]%elem_of_cons; [by left | right; by right].
    + intros [->|Hin]%elem_of_cons; [right; by left|].
      destruct (IH Hin) as [->|Hm]; [by left | right; by right].
Qed.

Lemma smap_set_keys {V} (m : list (string * V)) (k : string) (v : V) :
  (smap_set m k v).*1 = if decide (k ∈ m.*1) then m.*1 else m.*1 ++ [k].
Proof.
  induction m as [|[k' v'] m IH]; cbn [smap_set fmap list_fmap fst].
  - by rewrite decide_False by apply not_elem_of_nil.
  - destruct (decide (k = k')) as [->|Hne].
    + by rewrite decide_True by (by left).
    + cbn [fmap list_fmap fst]. rewrite IH.
      destruct (decide (k ∈ m.*1)) as [Hin|Hout].
      * by rewrite decide_True by (by right).
      * rewrite decide_False; [done|]. by intros [?|?]%elem_of_cons.
Qed.

(** One turn of the loop of [sanitizeHeaders] *)
Lemma sanitize_turn (sanitized : Headers) (k v : string) :
  (if bool_decide (JS.toLowerCase k ∈ SENSITIVE_HEADERS)
   then assignHeader sanitized k REDACTED else assignHeader sanitized k v) =
  assignHeader sanitized k (sanitizedValue k v).
Proof. unfold sanitizedValue, sensitive. by case_bool_decide. Qed.

Lemma sanitize_from (acc hs : Headers) :
  NoDup (hs.*1) → (∀ k, k ∈ hs.*1 → k ∉ acc.*1) →
  foldl (λ sanitized kv,
           if bool_decide (JS.toLowerCase kv.1 ∈ SENSITIVE_HEADERS)
           then assignHeader sanitized kv.1 REDACTED
           else assignHeader sanitized kv.1 kv.2) acc hs =
  acc ++ ((λ kv, (kv.1, sanitizedValue kv.1 kv.2)) <$>
            filter (λ kv, kv.1 ≠ "__proto__") hs).
Proof.
  revert acc. induction hs as [|[k v] hs IH]; intros acc Hnd Hacc.
  - cbn. by rewrite app_nil_r.
  - cbn [fmap list_fmap fst] in Hnd. apply NoDup_cons in Hnd as [Hk Hnd].
    cbn [foldl fst snd]. rewrite sanitize_turn. unfold assignHeader.
    rewrite filter_cons. cbn [fst].
    destruct (decide (k = "__proto__")) as [Hp|Hne].
    + rewrite decide_False by (by intros ?).
      apply IH; [done|]. intros k' Hk'. apply Hacc. by right.
    + rewrite decide_True by done. cbn [fmap list_fmap fst snd].
      rewrite smap_set_fresh by (apply Hacc; by left).
      rewrite IH; [by rewrite <- app_assoc | done |].
      intros k' Hk'. rewrite fmap_app. cbn [fmap list_fmap fst].
      intros [Hin | ->%list_elem_of_singleton]%elem_of_app; [|done].
      revert Hin. apply Hacc. by right.
Qed.

Lemma sanitizeHeaders_closed (hs : Headers) :
  NoDup (hs.*1) →
  sanitizeHeaders hs =
  (λ kv, (kv.1, sanitizedValue kv.1 kv.2)) <$> filter (λ kv, kv.1 ≠ "__proto__") hs.
Proof.
  intros Hnd. unfold sanitizeHeaders. rewrite sanitize_from; [done..|].
  intros k _. apply not_elem_of_nil.
Qed.

(** What the loop keeps true of the object it fills, whatever the headers *)
Lemma sanitize_invariant (acc hs : Headers) :
  NoDup (acc.*1) ∧ ("__proto__" ∉ (acc.*1)) ∧ redacted acc →
  let r := foldl (λ sanitized kv,
                    if bool_decide (JS.toLowerCase kv.1 ∈ SENSITIVE_HEADERS)
                    then assignHeader sanitized kv.1 REDACTED
                    else assignHeader sanitized kv.1 kv.2) acc hs in
  NoDup (r.*1) ∧ ("__proto__" ∉ (r.*1)) ∧ redacted r.
Proof.
  revert acc. induction hs as [|[k v] hs IH]; intros acc Hacc; [done|].
  cbn [foldl fst snd]. rewrite sanitize_turn. apply IH.
  destruct Hacc as (Hnd & Hproto & Hred). unfold assignHeader.
  destruct (decide (k = "__proto__")) as [->|Hne]; [done|].
  rewrite smap_set_keys. split; [|split].
  - case_decide; [done|]. apply NoDup_app. split; [done|]. split.
    + by intros k' Hk' ->%list_elem_of_singleton.
    + apply NoDup_singleton.
  - case_decide; [done|].
    intros [?|Heq%list_elem_of_singleton]%elem_of_app; [done | congruence].
  - intros k' v' Hin Hs. apply elem_of_smap_set in Hin as [[= -> ->]|Hin].
    + unfold sanitizedValue. by rewrite Hs.
    + by apply (Hred k').
Qed.

Lemma sanitizeHeaders_invariant (hs : Headers) :
  NoDup ((sanitizeHeaders hs).*1) ∧ ("__proto__" ∉ ((sanitizeHeaders hs).*1)) ∧
  redacted (sanitizeHeaders hs).
Proof.
  apply (sanitize_invariant [] hs). split; [apply NoDup_nil_2|].
  split; [apply not_elem_of_nil|]. by intros k v Hin%elem_of_nil.
Qed.

Lemma sanitizeHeaders_redacted (hs : Headers) : redacted (sanitizeHeaders hs).
Proof. apply sanitizeHeaders_invariant. Qed.

Lemma sanitizeHeaders_idemp (hs : Headers) :
  sanitizeHeaders (sanitizeHeaders hs) = sanitizeHeaders hs.
Proof.
  destruct (sanitizeHeaders_invariant hs) as (Hnd & Hproto & Hred).
  rewrite (sanitizeHeaders_closed _ Hnd).
  induction (sanitizeHeaders hs) as [|[k v] r IH]; [done|].
  cbn [fmap list_fmap fst] in Hnd, Hproto.
  apply NoDup_cons in Hnd as [_ Hnd]. apply not_elem_of_cons in Hproto as [Hne Hproto].
  rewrite filter_cons_True by (cbn; congruence). cbn [fmap list_fmap fst snd].
  rewrite IH; [|done..|].
  - f_equal. f_equal. unfold sanitizedValue. destruct (sensitive k) eqn:Hs; [|done].
    symmetry. apply (Hred k v); [by left | done].
  - intros k' v' Hin. apply (Hred k' v'). by right.
Qed.

Lemma filter_keys (P : string → Prop) `{!∀ k, Decision (P k)} (hs : Headers) :
  (filter (λ kv, P kv.1) hs).*1 = filter P hs.*1.
Proof.
  induction hs as [|[k v] hs IH]; [done|]. cbn [fmap list_fmap fst].
  destruct (decide (P k)).
  - rewrite !filter_cons_True by done. cbn [fmap list_fmap fst]. by rewrite IH.
  - by rewrite !filter_cons_False.
Qed.

(** For the entries of an object (no name twice), [sanitizeHeaders]
    keeps the header names in their order except [__proto__], which it
    drops; it replaces the value of every header it keeps whose
    lower-cased name is one of the six sensitive names by the
    placeholder and keeps every other value; no sensitive header of the
    result has another value; and sanitizing twice is sanitizing once. *)
Theorem sanitizeHeaders_redacts (hs : Headers) :
  NoDup (hs.*1) →
  (sanitizeHeaders hs).*1 = filter (λ k, k ≠ "__proto__") hs.*1 ∧
  (∀ k v, (k, v) ∈ sanitizeHeaders hs ↔
          k ≠ "__proto__" ∧ ∃ v0, (k, v0) ∈ hs ∧ v = sanitizedValue k v0) ∧
  redacted (sanitizeHeaders hs) ∧
  sanitizeHeaders (sanitizeHeaders hs) = sanitizeHeaders hs.
Proof.
  intros Hnd. split; [|split; [|split]].
  - rewrite (sanitizeHeaders_closed hs Hnd).
    rewrite <- list_fmap_compose, <- (filter_keys (λ k, k ≠ "__proto__") hs).
    by apply list_fmap_ext.
  - intros k v. rewrite (sanitizeHeaders_closed hs Hnd), list_elem_of_fmap. split.
    + intros ([k0 v0] & [= -> ->] & [Hne Hin]%list_elem_of_filter). eauto.
    + intros (Hne & v0 & Hin & ->). exists (k, v0). split; [done|].
      by apply list_elem_of_filter.
  - apply sanitizeHeaders_redacted.
  - apply sanitizeHeaders_idemp.
Qed.

Lemma sanitizeHeaders_redacts_witness :
  NoDup (oddHeaders.*1) ∧
  (sanitizeHeaders oddHeaders).*1 =
    ["Authorization"; "coo" +:+ kelvinSign +:+ "ie"; "accept"] ∧
  sanitizeHeaders oddHeaders =
    [("Authorization", "[REDACTED]"); ("coo" +:+ kelvinSign +:+ "ie", "[REDACTED]");
     ("accept", "*/*")].
Proof.
  assert (NoDup (oddHeaders.*1)) as Hnd by (apply (bool_decide_unpack _); vm_compute; exact I).
  split; [exact Hnd|]. split; [|vm_compute; reflexivity].
  rewrite (proj1 (sanitizeHeaders_redacts oddHeaders Hnd)). vm_compute. reflexivity.
Defined.

(** ** A flush from its call to its end *)

Lemma alter_nil_id {A} (m : gmap string (list A)) (sid : string) :
  default [] (m !! sid) = [] → alter (λ _, []) sid m = m.
Proof.
  intros H. apply alter_id. intros x Hx. rewrite Hx in H. by simpl in H.
Qed.

Lemma spliceBuffers_empty st sid :
  default [] (networkEventBuffers st !! sid) = [] →
  default [] (consoleEventBuffers st !! sid) = [] →
  default [] (domEventBuffers st !! sid) = [] →
  spliceBuffers st sid = st.
Proof.
  intros Hn Hc Hd. unfold spliceBuffers. destruct st. state_proj.
  unfold upd_domEventBuffers, upd_consoleEventBuffers, upd_networkEventBuffers.
  state_proj. by rewrite !alter_nil_id.
Qed.

Lemma flush_nothing st sid now :
  flushInProgress st !! sid = None →
  default [] (networkEventBuffers st !! sid) = [] →
  default [] (consoleEventBuffers st !! sid) = [] →
  default [] (domEventBuffers st !! sid) = [] →
  flushTelemetryBuffers st sid now = flushSweep st sid now.
Proof.
  intros Hidle Hn Hc Hd. unfold flushTelemetryBuffers. rewrite Hidle.
  rewrite doFlush_splice, Hn, Hc, Hd, spliceBuffers_empty by done. done.
Qed.

Lemma flushSweep_nothing st sid now :
  flushInProgress st !! sid = None → pendingNetworkRequests st !! sid = None →
  flushSweep st sid now = st.
Proof.
  intros Hidle Hp. unfold flushSweep. rewrite Hp. destruct st. state_proj.
  unfold upd_flushInProgress. state_proj. by rewrite delete_id.
Qed.

(** A flush that finds no event in any of the three buffers of the
    session stores nothing, advances no index and leaves no flush in
    flight: all it does is the TTL sweep of the session's pending table.
    For a session without telemetry (unknown, not yet recording or torn
    down) the state is left as it was. *)
Theorem flush_with_nothing_buffered (st : State) (sid : string) (now : Z) :
  flushInProgress st !! sid = None →
  default [] (networkEventBuffers st !! sid) = [] →
  default [] (consoleEventBuffers st !! sid) = [] →
  default [] (domEventBuffers st !! sid) = [] →
  let st' := flushTelemetryBuffers st sid now in
  idb st' = idb st ∧ sessions st' = sessions st ∧
  networkBatchIndices st' = networkBatchIndices st ∧
  consoleBatchIndices st' = consoleBatchIndices st ∧
  domBatchIndices st' = domBatchIndices st ∧
  networkEventBuffers st' = networkEventBuffers st ∧
  consoleEventBuffers st' = consoleEventBuffers st ∧
  domEventBuffers st' = domEventBuffers st ∧
  flushInProgress st' !! sid = None ∧
  (∀ sid' rid,
     pendingEntry st' sid' rid =
     if decide (sid' = sid)
     then pendingEntry st sid' rid ≫= (λ e, if pendingExpired now e then None else Some e)
     else pendingEntry st sid' rid) ∧
  (pendingNetworkRequests st !! sid = None → st' = st).
Proof.
  intros Hidle Hn Hc Hd st'. unfold st'. rewrite flush_nothing by done.
  repeat (split; [by unfold flushSweep; destruct (pendingNetworkRequests st !! sid)|]).
  split; [|split].
  - unfold flushSweep. destruct (pendingNetworkRequests st !! sid); state_proj;
      apply lookup_delete_eq.
  - intros sid' rid. apply pendingEntry_sweep.
  - intros Hp. by apply flushSweep_nothing.
Qed.

Lemma flush_with_nothing_buffered_witness :
  flushTelemetryBuffers completedState "7-1000" 9000 = completedState ∧
  flushTelemetryBuffers initialState "unknown" 9000 = initialState.
Proof.
  split.
  - apply (flush_with_nothing_buffered completedState "7-1000" 9000);
      vm_compute; reflexivity.
  - apply (flush_with_nothing_buffered initialState "unknown" 9000);
      vm_compute; reflexivity.
Defined.

Lemma lookup_alter_nil {A} (m : gmap string (list A)) (sid : string) :
  alter (λ _, []) sid m !! sid = (λ _, []) <$> m !! sid.
Proof. apply lookup_alter_eq. Qed.


(** *** The flush body from one store to the next *)

Lemma flushStoreSettled_idle st sid resolved now :
  flushInProgress st !! sid = None → flushStoreSettled st sid resolved now = st.
Proof. intros H. unfold flushStoreSettled. by rewrite H. Qed.

Lemma flushStoreSettled_resolved st sid now t :
  flushInProgress st !! sid = Some t →
  flushStoreSettled st sid true now =
  match stage t with
  | AwaitNetworkStore =>
      flushConsole (storedStage st sid t) sid (networkEventsToFlush t)
        (consoleEventsToFlush t) (domEventsToFlush t) now
  | AwaitConsoleStore =>
      flushDOM (storedStage st sid t) sid (networkEventsToFlush t)
        (consoleEventsToFlush t) (domEventsToFlush t) now
  | AwaitDOMStore => flushSweep (storedStage st sid t) sid now
  end.
Proof.
  intros Ht. unfold flushStoreSettled, storedStage. rewrite Ht.
  by destruct (stage t).
Qed.

Lemma suspendFlush_task st sid t : flushInProgress (suspendFlush st sid t) !! sid = Some t.
Proof. unfold suspendFlush. state_proj. apply lookup_insert_eq. Qed.

(** What a flush leaves of the store, the indices, the buffers and the
    guard of the session *)
Lemma flushSweep_ends st sid now :
  let st' := flushSweep st sid now in
  idb st' = idb st ∧ networkBatchIndices st' = networkBatchIndices st ∧
  consoleBatchIndices st' = consoleBatchIndices st ∧
  domBatchIndices st' = domBatchIndices st ∧
  networkEventBuffers st' = networkEventBuffers st ∧
  consoleEventBuffers st' = consoleEventBuffers st ∧
  domEventBuffers st' = domEventBuffers st ∧
  flushInProgress st' !! sid = None.
Proof.
  unfold flushSweep. destruct (pendingNetworkRequests st !! sid); state_proj;
    repeat (split; [done|]); apply lookup_delete_eq.
Qed.

Lemma flushDOM_ends st sid net con dom now now' :
  let st' := flushStoreSettled (flushDOM st sid net con dom now) sid true now' in
  idb st' = storeNonEmpty Storage.storeDOMEventBatch (idb st) sid
              (default 0%N (domBatchIndices st !! sid)) dom ∧
  networkBatchIndices st' = networkBatchIndices st ∧
  consoleBatchIndices st' = consoleBatchIndices st ∧
  default 0%N (domBatchIndices st' !! sid) =
    indexAfter (default 0%N (domBatchIndices st !! sid)) dom ∧
  networkEventBuffers st' = networkEventBuffers st ∧
  consoleEventBuffers st' = consoleEventBuffers st ∧
  domEventBuffers st' = domEventBuffers st ∧
  flushInProgress st' !! sid = None.
Proof.
  unfold flushDOM. destruct dom as [|d0 dom].
  - pose proof (flushSweep_ends st sid now) as (H1 & H2 & H3 & H4 & H5 & H6 & H7 & H8).
    cbv zeta. rewrite (flushStoreSettled_idle _ _ _ _ H8).
    cbn [storeNonEmpty indexAfter]. by rewrite H1, H2, H3, H4, H5, H6, H7, H8.
  - cbv zeta. rewrite (flushStoreSettled_resolved _ _ _ _ (suspendFlush_task _ _ _)).
    cbn [stage]. set (s2 := storedStage _ _ _).
    pose proof (flushSweep_ends s2 sid now') as (H1 & H2 & H3 & H4 & H5 & H6 & H7 & H8).
    cbv zeta in *. rewrite H1, H2, H3, H4, H5, H6, H7, H8.
    subst s2. unfold storedStage, suspendFlush.
    cbn [stage batchIndex domEventsToFlush storeNonEmpty indexAfter]. state_proj.
    rewrite lookup_insert_eq. done.
Qed.

Lemma flushConsole_ends st sid net con dom now now' now'' :
  let st' :=
    flushStoreSettled (flushStoreSettled (flushConsole st sid net con dom now) sid true now')
      sid true now'' in
  idb st' =
    storeNonEmpty Storage.storeDOMEventBatch
      (storeNonEmpty Storage.storeConsoleEventBatch (idb st) sid
         (default 0%N (consoleBatchIndices st !! sid)) con)
      sid (default 0%N (domBatchIndices st !! sid)) dom ∧
  networkBatchIndices st' = networkBatchIndices st ∧
  default 0%N (consoleBatchIndices st' !! sid) =
    indexAfter (default 0%N (consoleBatchIndices st !! sid)) con ∧
  default 0%N (domBatchIndices st' !! sid) =
    indexAfter (default 0%N (domBatchIndices st !! sid)) dom ∧
  networkEventBuffers st' = networkEventBuffers st ∧
  consoleEventBuffers st' = consoleEventBuffers st ∧
  domEventBuffers st' = domEventBuffers st ∧
  flushInProgress st' !! sid = None.
Proof.
  unfold flushConsole. destruct con as [|c0 con].
  - pose proof (flushDOM_ends st sid net [] dom now now')
      as (H1 & H2 & H3 & H4 & H5 & H6 & H7 & H8).
    cbv zeta in *. rewrite (flushStoreSettled_idle _ _ _ _ H8).
    cbn [storeNonEmpty indexAfter]. by rewrite H1, H2, H3, H4, H5, H6, H7, H8.
  - cbv zeta. rewrite (flushStoreSettled_resolved _ _ _ _ (suspendFlush_task _ _ _)).
    cbn [stage networkEventsToFlush consoleEventsToFlush domEventsToFlush].
    set (s2 := storedStage _ _ _).
    pose proof (flushDOM_ends s2 sid net (c0 :: con) dom now' now'')
      as (H1 & H2 & H3 & H4 & H5 & H6 & H7 & H8).
    cbv zeta in *. rewrite H1, H2, H3, H4, H5, H6, H7, H8.
    subst s2. unfold storedStage, suspendFlush.
    cbn [stage batchIndex consoleEventsToFlush storeNonEmpty indexAfter]. state_proj.
    rewrite lookup_insert_eq. done.
Qed.

Lemma flushNetwork_ends st sid net con dom now now1 now2 now3 :
  let st' :=
    flushStoreSettled
      (flushStoreSettled
         (flushStoreSettled (flushNetwork st sid net con dom now) sid true now1)
         sid true now2) sid true now3 in
  idb st' =
    storeNonEmpty Storage.storeDOMEventBatch
      (storeNonEmpty Storage.storeConsoleEventBatch
         (storeNonEmpty Storage.storeNetworkEventBatch (idb st) sid
            (default 0%N (networkBatchIndices st !! sid)) net)
         sid (default 0%N (consoleBatchIndices st !! sid)) con)
      sid (default 0%N (domBatchIndices st !! sid)) dom ∧
  default 0%N (networkBatchIndices st' !! sid) =
    indexAfter (default 0%N (networkBatchIndices st !! sid)) net ∧
  default 0%N (consoleBatchIndices st' !! sid) =
    indexAfter (default 0%N (consoleBatchIndices st !! sid)) con ∧
  default 0%N (domBatchIndices st' !! sid) =
    indexAfter (default 0%N (domBatchIndices st !! sid)) dom ∧
  networkEventBuffers st' = networkEventBuffers st ∧
  consoleEventBuffers st' = consoleEventBuffers st ∧
  domEventBuffers st' = domEventBuffers st ∧
  flushInProgress st' !! sid = None.
Proof.
  unfold flushNetwork. destruct net as [|n0 net].
  - pose proof (flushConsole_ends st sid [] con dom now now1 now2)
      as (H1 & H2 & H3 & H4 & H5 & H6 & H7 & H8).
    cbv zeta in *. rewrite (flushStoreSettled_idle _ _ _ _ H8).
    cbn [storeNonEmpty indexAfter]. by rewrite H1, H2, H3, H4, H5, H6, H7, H8.
  - cbv zeta. rewrite (flushStoreSettled_resolved _ _ _ _ (suspendFlush_task _ _ _)).
    cbn [stage networkEventsToFlush consoleEventsToFlush domEventsToFlush].
    set (s2 := storedStage _ _ _).
    pose proof (flushConsole_ends s2 sid (n0 :: net) con dom now1 now2 now3)
      as (H1 & H2 & H3 & H4 & H5 & H6 & H7 & H8).
    cbv zeta in *. rewrite H1, H2, H3, H4, H5, H6, H7, H8.
    subst s2. unfold storedStage, suspendFlush.
    cbn [stage batchIndex networkEventsToFlush storeNonEmpty indexAfter]. state_proj.
    rewrite lookup_insert_eq. done.
Qed.



(** A flush resolved to its end. The flush body stores the network
    batch, then the console batch, then the DOM batch, each only when it
    holds an event and each under the next index of its channel, which it
    then advances by one; the buffers that exist are left empty and no
    flush is in flight afterwards. A store settling when no flush is in
    flight changes nothing, so three settlings end every flush. *)
Theorem flush_stores_every_channel (st : State) (sid : string) (now0 now1 now2 now3 : Z) :
  flushInProgress st !! sid = None →
  let net := default [] (networkEventBuffers st !! sid) in
  let con := default [] (consoleEventBuffers st !! sid) in
  let dom := default [] (domEventBuffers st !! sid) in
  let i_net := default 0%N (networkBatchIndices st !! sid) in
  let i_con := default 0%N (consoleBatchIndices st !! sid) in
  let i_dom := default 0%N (domBatchIndices st !! sid) in
  let st' :=
    flushStoreSettled
      (flushStoreSettled
         (flushStoreSettled (flushTelemetryBuffers st sid now0) sid true now1)
         sid true now2) sid true now3 in
  idb st' =
    storeNonEmpty Storage.storeDOMEventBatch
      (storeNonEmpty Storage.storeConsoleEventBatch
         (storeNonEmpty Storage.storeNetworkEventBatch (idb st) sid i_net net)
         sid i_con con) sid i_dom dom ∧
  default 0%N (networkBatchIndices st' !! sid) = indexAfter i_net net ∧
  default 0%N (consoleBatchIndices st' !! sid) = indexAfter i_con con ∧
  default 0%N (domBatchIndices st' !! sid) = indexAfter i_dom dom ∧
  networkEventBuffers st' !! sid = (λ _, []) <$> networkEventBuffers st !! sid ∧
  consoleEventBuffers st' !! sid = (λ _, []) <$> consoleEventBuffers st !! sid ∧
  domEventBuffers st' !! sid = (λ _, []) <$> domEventBuffers st !! sid ∧
  flushInProgress st' !! sid = None.
Proof.
  intros Hidle. cbv zeta. unfold flushTelemetryBuffers. rewrite Hidle, doFlush_splice.
  pose proof (flushNetwork_ends (spliceBuffers st sid) sid
                (default [] (networkEventBuffers st !! sid))
                (default [] (consoleEventBuffers st !! sid))
                (default [] (domEventBuffers st !! sid)) now0 now1 now2 now3)
    as (H1 & H2 & H3 & H4 & H5 & H6 & H7 & H8).
  cbv zeta in *. rewrite H1, H2, H3, H4, H5, H6, H7, H8.
  unfold spliceBuffers. state_proj. by rewrite !lookup_alter_eq.
Qed.

Lemma flush_stores_every_channel_witness :
  let st' :=
    flushStoreSettled
      (flushStoreSettled
         (flushStoreSettled (flushTelemetryBuffers threeChannelState "7-1000" 11000)
            "7-1000" true 11010) "7-1000" true 11020) "7-1000" true 11030 in
  run recordingState threeChannelTrace = Some threeChannelState ∧
  (requestId <$> Storage.getNetworkEvents (idb st') "7-1000") = ["r1"] ∧
  (c_text <$> StorageExt.getConsoleEvents (idb st') "7-1000") = ["slow [object]"] ∧
  (d_selector <$> StorageExt.getDOMEvents (idb st') "7-1000") = ["#save"] ∧
  flushInProgress st' !! "7-1000" = None.
Proof.
  intros st'.
  pose proof (flush_stores_every_channel threeChannelState "7-1000" 11000 11010 11020
                11030 eq_refl) as (Hidb & _ & _ & _ & _ & _ & _ & Hidle).
  fold st' in Hidb, Hidle.
  split; [vm_compute; reflexivity|].
  rewrite Hidb. split; [vm_compute; reflexivity|].
  split; [vm_compute; reflexivity|]. split; [vm_compute; reflexivity|]. exact Hidle.
Defined.

(** The first store a flush awaits rejects. The error ends the flush
    body: nothing is written, no index advances, the TTL sweep is not
    run and the guard is cleared; the events the flush took out of the
    three buffers are in no buffer, no flush and no batch any more. *)
Theorem rejected_store_loses_batches (st : State) (sid : string) (now0 now1 : Z) :
  flushInProgress st !! sid = None →
  default [] (networkEventBuffers st !! sid) ≠ [] ∨
  default [] (consoleEventBuffers st !! sid) ≠ [] ∨
  default [] (domEventBuffers st !! sid) ≠ [] →
  let st' := flushStoreSettled (flushTelemetryBuffers st sid now0) sid false now1 in
  idb st' = idb st ∧
  networkBatchIndices st' = networkBatchIndices st ∧
  consoleBatchIndices st' = consoleBatchIndices st ∧
  domBatchIndices st' = domBatchIndices st ∧
  pendingNetworkRequests st' = pendingNetworkRequests st ∧
  networkEventBuffers st' !! sid = (λ _, []) <$> networkEventBuffers st !! sid ∧
  consoleEventBuffers st' !! sid = (λ _, []) <$> consoleEventBuffers st !! sid ∧
  domEventBuffers st' !! sid = (λ _, []) <$> domEventBuffers st !! sid ∧
  flushInProgress st' !! sid = None ∧
  unstoredNetwork st' sid = [].
Proof.
  intros Hidle Hsome. cbv zeta.
  assert (∃ t, flushTelemetryBuffers st sid now0 = suspendFlush (spliceBuffers st sid) sid t)
    as [t Hflush].
  { unfold flushTelemetryBuffers. rewrite Hidle, doFlush_splice.
    unfold flushNetwork, flushConsole, flushDOM.
    destruct (default [] (networkEventBuffers st !! sid)); [|by eexists].
    destruct (default [] (consoleEventBuffers st !! sid)); [|by eexists].
    destruct (default [] (domEventBuffers st !! sid)); [|by eexists].
    by destruct Hsome as [?|[?|?]]. }
  rewrite Hflush. unfold flushStoreSettled. rewrite suspendFlush_task.
  unfold unstoredNetwork, inFlightNetwork, suspendFlush, spliceBuffers. state_proj.
  rewrite !lookup_delete_eq, !lookup_alter_eq.
  repeat (split; [done|]). by destruct (networkEventBuffers st !! sid).
Qed.

Lemma rejected_store_loses_batches_witness :
  let st' := flushStoreSettled (flushTelemetryBuffers threeChannelState "7-1000" 11000)
               "7-1000" false 11010 in
  (length <$> networkEventBuffers threeChannelState !! "7-1000") = Some 1%nat ∧
  idb st' = idb threeChannelState ∧
  networkEventBuffers st' !! "7-1000" = Some [] ∧
  consoleEventBuffers st' !! "7-1000" = Some [] ∧
  domEventBuffers st' !! "7-1000" = Some [] ∧
  unstoredNetwork st' "7-1000" = [] ∧
  networkCount st' "7-1000" = Some 1%N.
Proof.
  intros st'.
  assert (default [] (networkEventBuffers threeChannelState !! "7-1000") ≠ [] ∨
          default [] (consoleEventBuffers threeChannelState !! "7-1000") ≠ [] ∨
          default [] (domEventBuffers threeChannelState !! "7-1000") ≠ []) as Hsome.
  { left. vm_compute. discriminate. }
  pose proof (rejected_store_loses_batches threeChannelState "7-1000" 11000 11010
                eq_refl Hsome) as (Hidb & _ & _ & _ & _ & Hn & Hc & Hd & _ & Hu).
  fold st' in Hidb, Hn, Hc, Hd, Hu.
  split; [vm_compute; reflexivity|]. split; [exact Hidb|].
  split; [rewrite Hn; vm_compute; reflexivity|].
  split; [rewrite Hc; vm_compute; reflexivity|].
  split; [rewrite Hd; vm_compute; reflexivity|].
  split; [exact Hu|]. vm_compute. reflexivity.
Defined.

(** ** A request and its completion *)

Lemma handleNetworkRequestWillBeSent_found st tab params sid session pend :
  activeSession st tab = Some (sid, session) →
  pendingNetworkRequests st !! sid = Some pend →
  handleNetworkRequestWillBeSent st tab params =
  upd_pendingNetworkRequests
    (<[sid := <[rq_requestId params := requestEntry session params]> pend]>) st.
Proof.
  intros Hact Hpend. unfold handleNetworkRequestWillBeSent. by rewrite Hact, Hpend.
Qed.

Lemma truthy_nonempty (s : string) : s ≠ EmptyString → JS.truthy (Some s) = Some s.
Proof. by destruct s. Qed.

Lemma requiredFields_requestEntry session params :
  rq_requestId params ≠ EmptyString → rq_url params ≠ EmptyString →
  rq_method params ≠ EmptyString →
  requiredFields (requestEntry session params) =
  Some (rq_requestId params, rq_url params, rq_method params).
Proof.
  intros H1 H2 H3. unfold requiredFields, requestEntry.
  cbn [p_requestId p_url p_method]. by rewrite !truthy_nonempty.
Qed.

Lemma requiredFields_blank session params :
  rq_requestId params = EmptyString ∨ rq_url params = EmptyString ∨
  rq_method params = EmptyString →
  requiredFields (requestEntry session params) = None.
Proof.
  unfold requiredFields, requestEntry. cbn [p_requestId p_url p_method].
  intros [-> | [-> | ->]]; simpl; repeat case_match; done.
Qed.

Lemma orZ_zero (x : Z) : JS.orZ (Some x) 0 = x.
Proof. by destruct x. Qed.

(** A failed load that is correlated with a complete pending entry of a
    session with a network buffer is always retained, whatever the kind
    of the resource: the event carries status 0, the error text as its
    status text and no response headers, it is counted, and the entry
    leaves the pending table. *)
Theorem failed_load_always_retained (st : State) (tab : Z) (params : LoadingFailedParams)
    (now : Z) (sid : string) (session : SessionState)
    (pend : gmap string PartialNetworkEvent) (pe : PartialNetworkEvent)
    (rid u m : string) (buf : list NetworkEvent) :
  activeSession st tab = Some (sid, session) →
  pendingNetworkRequests st !! sid = Some pend →
  pend !! lf_requestId params = Some pe →
  requiredFields pe = Some (rid, u, m) →
  networkEventBuffers st !! sid = Some buf →
  let st' := handleNetworkLoadingFailed st tab params now in
  let ev := failedEvent rid u m pe params in
  unstoredNetwork st' sid = unstoredNetwork st sid ++ [ev] ∧
  networkCount st' sid = Some (networkEventCount session + 1)%N ∧
  pendingEntry st' sid (lf_requestId params) = None ∧
  status ev = 0 ∧ statusText ev = lf_errorText params ∧ responseHeaders ev = None.
Proof.
  intros Hact Hpend Hpe Hreq Hbuf st' ev.
  apply activeSession_Some in Hact as Hact'. destruct Hact' as (_ & Hs & _).
  assert (st' = deletePending (pushNetworkEvent st sid ev now) sid (lf_requestId params))
    as ->.
  { subst st' ev. unfold handleNetworkLoadingFailed. by rewrite Hact, Hpend, Hpe, Hreq. }
  destruct (pushNetworkEvent_accepts st sid ev now buf session Hbuf Hs) as [Hun Hcount].
  split; [exact Hun|]. split; [exact Hcount|].
  split; [apply pendingEntry_deletePending|]. done.
Qed.

Lemma failed_load_always_retained_witness :
  let st' := handleNetworkLoadingFailed imagePendingState 7 (failedLoad "r1") 1100 in
  activeSession imagePendingState 7 = Some ("7-1000", imageSession) ∧
  imagePending !! "r1" = Some imageEntry ∧
  ((λ ev, (requestId ev, status ev, statusText ev)) <$> unstoredNetwork st' "7-1000") =
    [("r1", 0, "net::ERR_FAILED")] ∧
  networkCount st' "7-1000" = Some 1%N ∧
  pendingEntry st' "7-1000" "r1" = None.
Proof.
  intros st'.
  assert (activeSession imagePendingState 7 = Some ("7-1000", imageSession)) as Hact
    by (vm_compute; reflexivity).
  assert (pendingNetworkRequests imagePendingState !! "7-1000" = Some imagePending)
    as Hpend by (vm_compute; reflexivity).
  assert (imagePending !! "r1" = Some imageEntry) as Hpe by (vm_compute; reflexivity).
  destruct (failed_load_always_retained imagePendingState 7 (failedLoad "r1") 1100
              "7-1000" imageSession imagePending imageEntry
              "r1" "https://example.test/logo.png" "GET" [] Hact Hpend Hpe)
    as (Hun & Hcount & Hgone & _); [vm_compute; reflexivity .. |].
  fold st' in Hun, Hcount, Hgone.
  split; [exact Hact|]. split; [exact Hpe|].
  split; [rewrite Hun; vm_compute; reflexivity|].
  split; [rewrite Hcount; vm_compute; reflexivity | exact Hgone].
Defined.

(** A request and its response, end to end. For a recording session with
    its telemetry set up, a request whose id, URL and method are not
    empty, answered by a response of a retained kind, yields exactly one
    new event awaiting storage: it carries the request's id, URL, method
    and body, both header sets redacted, the video offset of the
    request's wall clock, and the response's status; the session's
    counter grows by one and the pending entry is gone. *)
Theorem request_then_response (st : State) (tab : Z) (rq : RequestWillBeSentParams)
    (rs : ResponseReceivedParams) (now : Z) (sid : string) (session : SessionState)
    (pend : gmap string PartialNetworkEvent) (buf : list NetworkEvent) :
  activeSession st tab = Some (sid, session) →
  pendingNetworkRequests st !! sid = Some pend →
  networkEventBuffers st !! sid = Some buf →
  rq_requestId rq ≠ EmptyString → rq_url rq ≠ EmptyString → rq_method rq ≠ EmptyString →
  rs_requestId rs = rq_requestId rq →
  retainedKind (rs_type rs) (rs_status rs) →
  let st' := handleNetworkResponse (handleNetworkRequestWillBeSent st tab rq) tab rs now in
  ∃ ev,
    unstoredNetwork st' sid = unstoredNetwork st sid ++ [ev] ∧
    networkCount st' sid = Some (networkEventCount session + 1)%N ∧
    pendingEntry st' sid (rq_requestId rq) = None ∧
    requestId ev = rq_requestId rq ∧ url ev = rq_url rq ∧ method ev = rq_method rq ∧
    postData ev = rq_postData rq ∧
    headers ev = sanitizeHeaders (rq_headers rq) ∧
    responseHeaders ev = Some (sanitizeHeaders (rs_headers rs)) ∧
    videoTimestamp ev =
      Sync.cdpWallTimeToVideoOffset (rq_wallTime rq) (sessionStartTime session) ∧
    (wallTime ev == rq_wallTime rq)%Q ∧
    status ev = rs_status rs ∧ statusText ev = rs_statusText rs ∧
    mimeType ev = Some (rs_mimeType rs).
Proof.
  intros Hact Hpend Hbuf H1 H2 H3 Hid Hkind st'.
  apply activeSession_Some in Hact as Hact'. destruct Hact' as (_ & Hs & _).
  set (pe := requestEntry session rq).
  set (ev := completeEvent (rq_requestId rq) (rq_url rq) (rq_method rq) pe rs).
  set (st1 := handleNetworkRequestWillBeSent st tab rq) in *.
  assert (st1 = upd_pendingNetworkRequests
                  (<[sid := <[rq_requestId rq := pe]> pend]>) st) as Hst1
    by by apply handleNetworkRequestWillBeSent_found.
  assert (st' = deletePending (pushNetworkEvent st1 sid ev now) sid (rq_requestId rq))
    as ->.
  { subst st'. unfold handleNetworkResponse.
    assert (activeSession st1 tab = Some (sid, session)) as -> by by rewrite Hst1.
    assert (pendingNetworkRequests st1 !! sid = Some (<[rq_requestId rq := pe]> pend))
      as -> by (rewrite Hst1; state_proj; apply lookup_insert_eq).
    rewrite Hid, lookup_insert_eq.
    unfold pe at 1. rewrite requiredFields_requestEntry by done.
    apply shouldInclude_retainedKind in Hkind.
    cbn [status completeEvent]. by rewrite Hkind. }
  assert (networkEventBuffers st1 !! sid = Some buf) as Hbuf1 by by rewrite Hst1.
  assert (smap_get (sessions st1) sid = Some session) as Hs1 by by rewrite Hst1.
  destruct (pushNetworkEvent_accepts st1 sid ev now buf session Hbuf1 Hs1) as [Hun Hcount].
  exists ev. split; [|split; [exact Hcount|]].
  { change (unstoredNetwork (deletePending (pushNetworkEvent st1 sid ev now) sid
                               (rq_requestId rq)) sid)
      with (unstoredNetwork (pushNetworkEvent st1 sid ev now) sid).
    rewrite Hun. by rewrite Hst1. }
  split; [apply pendingEntry_deletePending|].
  repeat (split; [reflexivity|]).
  split; [apply orZ_zero|]. split; [apply orQ_eq|]. done.
Qed.

Lemma request_then_response_witness :
  let st' := handleNetworkResponse
               (handleNetworkRequestWillBeSent recordingState 7 secretRequest) 7
               secretResponse 1300 in
  activeSession recordingState 7 = Some ("7-1000", imageSession) ∧
  ∃ ev, unstoredNetwork st' "7-1000" = [ev] ∧
        headers ev =
          [("Authorization", "[REDACTED]"); ("accept", "*/*"); ("COOKIE", "[REDACTED]");
           ("X-Api-Key", "[REDACTED]")] ∧
        responseHeaders ev = Some [("Set-Cookie", "[REDACTED]"); ("content-type", "a/b")] ∧
        videoTimestamp ev = 250.
Proof.
  intros st'.
  assert (activeSession recordingState 7 = Some ("7-1000", imageSession)) as Hact
    by (vm_compute; reflexivity).
  split; [exact Hact|].
  destruct (request_then_response recordingState 7 secretRequest secretResponse 1300
              "7-1000" imageSession ∅ [] Hact)
    as (ev & Hun & _ & _ & _ & _ & _ & _ & Hh & Hr & Hv & _);
    [vm_compute; reflexivity | vm_compute; reflexivity | discriminate | discriminate
    | discriminate | reflexivity | right; left; reflexivity |].
  exists ev. fold st' in Hun. split; [exact Hun|].
  split; [rewrite Hh; vm_compute; reflexivity|].
  split; [rewrite Hr; vm_compute; reflexivity|].
  rewrite Hv. vm_compute. reflexivity.
Defined.

(** A request whose id, URL or method is the empty string never yields
    an event: its response or failure only removes the pending entry. *)
Theorem incomplete_request_dropped (st : State) (tab : Z) (rq : RequestWillBeSentParams)
    (d : Delivery) (sid : string) (session : SessionState)
    (pend : gmap string PartialNetworkEvent) :
  activeSession st tab = Some (sid, session) →
  pendingNetworkRequests st !! sid = Some pend →
  rq_requestId rq = EmptyString ∨ rq_url rq = EmptyString ∨ rq_method rq = EmptyString →
  deliveryId d = rq_requestId rq →
  let st1 := handleNetworkRequestWillBeSent st tab rq in
  let st' := deliver st1 tab d in
  pendingEntry st1 sid (rq_requestId rq) = Some (requestEntry session rq) ∧
  pendingEntry st' sid (rq_requestId rq) = None ∧
  networkEventBuffers st' = networkEventBuffers st ∧
  sessions st' = sessions st ∧ flushInProgress st' = flushInProgress st ∧
  idb st' = idb st.
Proof.
  intros Hact Hpend Hblank Hid st1 st'.
  assert (st1 = upd_pendingNetworkRequests
                  (<[sid := <[rq_requestId rq := requestEntry session rq]> pend]>) st)
    as Hst1 by by apply handleNetworkRequestWillBeSent_found.
  assert (pendingNetworkRequests st1 !! sid =
          Some (<[rq_requestId rq := requestEntry session rq]> pend)) as Hp1
    by (rewrite Hst1; state_proj; apply lookup_insert_eq).
  assert (st' = deletePending st1 sid (rq_requestId rq)) as ->.
  { subst st'. assert (activeSession st1 tab = Some (sid, session)) as Ha1
      by by rewrite Hst1.
    destruct d as [params now|params now]; simpl in Hid; simpl;
      unfold handleNetworkResponse, handleNetworkLoadingFailed;
      rewrite Ha1, Hp1, Hid, lookup_insert_eq, requiredFields_blank by done; done. }
  split.
  { unfold pendingEntry. rewrite Hp1. simpl. apply lookup_insert_eq. }
  split; [apply pendingEntry_deletePending|]. by rewrite Hst1.
Qed.

Lemma incomplete_request_dropped_witness :
  let st1 := handleNetworkRequestWillBeSent recordingState 7 blankRequest in
  let st' := handleNetworkResponse st1 7 (xhrResponse "r3") 1300 in
  is_Some (pendingEntry st1 "7-1000" "r3") ∧
  pendingEntry st' "7-1000" "r3" = None ∧
  networkEventBuffers st' = networkEventBuffers recordingState.
Proof.
  intros st1 st'.
  destruct (incomplete_request_dropped recordingState 7 blankRequest
              (Responded (xhrResponse "r3") 1300) "7-1000" imageSession ∅)
    as (H1 & H2 & H3 & _);
    [vm_compute; reflexivity | vm_compute; reflexivity | right; left; reflexivity
    | reflexivity |].
  split; [eexists; exact H1|]. split; [exact H2 | exact H3].
Defined.

(** ** Every piece of a handler is a sequence of elementary changes *)

Section Moves.
Variable P : MoveKind → Prop.
Hypothesis plain : P Plain.

Lemma plain_move st st' : Move st Plain st' → MoveOf P st st'.
Proof. intros H. exists Plain. by split. Qed.

Lemma plain_moves st st' : Move st Plain st' → rtc (MoveOf P) st st'.
Proof. intros H. by apply rtc_once, plain_move. Qed.

Lemma moves_snoc st st1 st2 :
  rtc (MoveOf P) st st1 → Move st1 Plain st2 → rtc (MoveOf P) st st2.
Proof. intros H1 H2. eapply rtc_r; [exact H1 | by apply plain_move]. Qed.

Lemma moves_flush st sid now : rtc (MoveOf P) st (flushTelemetryBuffers st sid now).
Proof.
  unfold flushTelemetryBuffers.
  destruct (flushInProgress st !! sid) as [t|] eqn:Hidle; [done|].
  destruct (default [] (networkEventBuffers st !! sid)) as [|n0 net] eqn:Hn;
    [destruct (default [] (consoleEventBuffers st !! sid)) as [|c0 con] eqn:Hc;
     [destruct (default [] (domEventBuffers st !! sid)) as [|d0 dom] eqn:Hd|]|].
  - pose proof (flush_nothing st sid now Hidle Hn Hc Hd) as H.
    unfold flushTelemetryBuffers in H. rewrite Hidle in H. rewrite H.
    apply plain_moves. by apply mv_flush_empty.
  - rewrite doFlush_splice, Hn, Hc, Hd. apply plain_moves.
    unfold flushNetwork, flushConsole, flushDOM.
    apply mv_flush_start; [done|]. unfold startsFlush.
    cbn [stage batchIndex networkEventsToFlush consoleEventsToFlush domEventsToFlush].
    by rewrite Hn, Hc, Hd.
  - rewrite doFlush_splice, Hn, Hc. apply plain_moves.
    unfold flushNetwork, flushConsole.
    apply mv_flush_start; [done|]. unfold startsFlush.
    cbn [stage batchIndex networkEventsToFlush consoleEventsToFlush domEventsToFlush].
    by rewrite Hn, Hc.
  - rewrite doFlush_splice, Hn. apply plain_moves.
    unfold flushNetwork.
    apply mv_flush_start; [done|]. unfold startsFlush.
    cbn [stage batchIndex networkEventsToFlush consoleEventsToFlush domEventsToFlush].
    by rewrite Hn.
Qed.

Lemma move_settle st sid resolved now t :
  flushInProgress st !! sid = Some t →
  (resolved = true → P (Settles sid)) →
  (resolved = false → P (Rejects sid)) →
  MoveOf P st (flushStoreSettled st sid resolved now).
Proof.
  intros Ht Hres Hrej. unfold flushStoreSettled. rewrite Ht.
  destruct resolved.
  - exists (Settles sid). split; [by apply Hres|]. destruct t as [stg bi net con dom].
    cbn [stage batchIndex networkEventsToFlush consoleEventsToFlush domEventsToFlush].
    destruct stg; unfold flushConsole, flushDOM.
    + destruct con as [|c0 con]; [destruct dom as [|d0 dom]|].
      * by apply (mv_settle_end st sid _ now Ht).
      * by apply (mv_settle_next st sid _ _ Ht).
      * by apply (mv_settle_next st sid _ _ Ht).
    + destruct dom as [|d0 dom].
      * by apply (mv_settle_end st sid _ now Ht).
      * by apply (mv_settle_next st sid _ _ Ht).
    + by apply (mv_settle_end st sid _ now Ht).
  - exists (Rejects sid). split; [by apply Hrej|]. by apply (mv_settle_rejected st sid t).
Qed.

Lemma moves_pushNetworkEvent st tab sid session key pe ev now :
  activeSession st tab = Some (sid, session) →
  pendingEntry st sid key = Some pe → completes pe ev →
  rtc (MoveOf P) st (pushNetworkEvent st sid ev now).
Proof.
  intros Hact Hpe Hev. unfold pushNetworkEvent.
  destruct (networkEventBuffers st !! sid) as [buf|] eqn:Hbuf; [|done].
  assert (Move st Plain
            (upd_sessions
               (smap_alter (λ s, set_networkEventCount (networkEventCount s + 1)%N s) sid)
               (upd_networkEventBuffers (<[sid := buf ++ [ev]]>) st))) as Hmv
    by by apply (mv_push_network st tab sid session buf key pe ev).
  destruct (BUFFER_FLUSH_SIZE <=? length (buf ++ [ev]))%nat.
  - eapply rtc_l; [by apply plain_move|]. apply moves_flush.
  - by apply plain_moves.
Qed.

Lemma moves_pushConsoleEvent st tab sid session ev now :
  activeSession st tab = Some (sid, session) →
  rtc (MoveOf P) st (pushConsoleEvent st sid ev now).
Proof.
  intros Hact. unfold pushConsoleEvent.
  destruct (consoleEventBuffers st !! sid) as [buf|] eqn:Hbuf; [|done].
  assert (Move st Plain
            (upd_sessions
               (smap_alter (λ s, set_consoleEventCount (consoleEventCount s + 1)%N s) sid)
               (upd_consoleEventBuffers (<[sid := buf ++ [ev]]>) st))) as Hmv
    by by apply (mv_push_console st tab sid session buf ev).
  destruct (BUFFER_FLUSH_SIZE <=? length (buf ++ [ev]))%nat.
  - eapply rtc_l; [by apply plain_move|]. apply moves_flush.
  - by apply plain_moves.
Qed.

Lemma moves_handleNetworkResponse st tab params now :
  rtc (MoveOf P) st (handleNetworkResponse st tab params now).
Proof.
  unfold handleNetworkResponse.
  destruct (activeSession st tab) as [[sid session]|] eqn:Hact; [|done].
  destruct (pendingNetworkRequests st !! sid) as [pend|] eqn:Hpend; [|done].
  destruct (pend !! rs_requestId params) as [pe|] eqn:Hpe; [|done].
  destruct (requiredFields pe) as [[[rid u] m]|] eqn:Hreq;
    [|apply plain_moves, mv_delete_pending].
  destruct (shouldInclude _ _); [|apply plain_moves, mv_delete_pending].
  eapply moves_snoc; [|apply mv_delete_pending].
  apply (moves_pushNetworkEvent st tab sid session (rs_requestId params) pe); [done| |].
  - unfold pendingEntry. by rewrite Hpend.
  - exists rid, u, m. split; [done|]. left. by eexists.
Qed.

Lemma moves_handleNetworkLoadingFailed st tab params now :
  rtc (MoveOf P) st (handleNetworkLoadingFailed st tab params now).
Proof.
  unfold handleNetworkLoadingFailed.
  destruct (activeSession st tab) as [[sid session]|] eqn:Hact; [|done].
  destruct (pendingNetworkRequests st !! sid) as [pend|] eqn:Hpend; [|done].
  destruct (pend !! lf_requestId params) as [pe|] eqn:Hpe; [|done].
  destruct (requiredFields pe) as [[[rid u] m]|] eqn:Hreq;
    [|apply plain_moves, mv_delete_pending].
  eapply moves_snoc; [|apply mv_delete_pending].
  apply (moves_pushNetworkEvent st tab sid session (lf_requestId params) pe); [done| |].
  - unfold pendingEntry. by rewrite Hpend.
  - exists rid, u, m. split; [done|]. right. by eexists.
Qed.

Lemma moves_handleNetworkRequestWillBeSent st tab params :
  rtc (MoveOf P) st (handleNetworkRequestWillBeSent st tab params).
Proof.
  unfold handleNetworkRequestWillBeSent.
  destruct (activeSession st tab) as [[sid session]|] eqn:Hact; [|done].
  destruct (pendingNetworkRequests st !! sid) as [pend|] eqn:Hpend; [|done].
  apply plain_moves. by apply (mv_request st tab sid session pend params).
Qed.

Lemma moves_handleConsoleAPICalled st tab params now :
  rtc (MoveOf P) st (handleConsoleAPICalled st tab params now).
Proof.
  unfold handleConsoleAPICalled.
  destruct (activeSession st tab) as [[sid session]|] eqn:Hact; [|done].
  by apply (moves_pushConsoleEvent st tab sid session).
Qed.

Lemma moves_handleExceptionThrown st tab params now :
  rtc (MoveOf P) st (handleExceptionThrown st tab params now).
Proof.
  unfold handleExceptionThrown.
  destruct (activeSession st tab) as [[sid session]|] eqn:Hact; [|done].
  by apply (moves_pushConsoleEvent st tab sid session).
Qed.

Lemma moves_handleDOMEventCaptured st payload now :
  rtc (MoveOf P) st (handleDOMEventCaptured st payload now).1.
Proof.
  unfold handleDOMEventCaptured.
  destruct (smap_get (sessions st) (dp_sessionId payload)) as [session|] eqn:Hs; [|done].
  destruct (decide (sstatus session = Recording)) as [Hrec|]; [|done].
  destruct (domEventBuffers st !! dp_sessionId payload) as [buf|] eqn:Hbuf; [|done].
  match goal with
  | |- context [upd_domEventBuffers (<[_ := buf ++ [?ev]]>) st] =>
      assert (Move st Plain
                (upd_sessions
                   (smap_alter (λ s, set_domEventCount (domEventCount s + 1)%N s)
                      (dp_sessionId payload))
                   (upd_domEventBuffers (<[dp_sessionId payload := buf ++ [ev]]>) st)))
        as Hmv by by apply (mv_push_dom st _ session buf ev)
  end.
  destruct (BUFFER_FLUSH_SIZE <=? _)%nat; cbn [fst].
  - eapply rtc_l; [by apply plain_move|]. apply moves_flush.
  - by apply plain_moves.
Qed.

Lemma sameIdentity_setters :
  (∀ v, sameIdentity (set_sstatus v)) ∧ (∀ v, sameIdentity (set_sessionStopTime v)) ∧
  (∀ v, sameIdentity (set_debuggerAttached v)) ∧
  (∀ v, sameIdentity (set_offscreenDocumentActive v)) ∧
  (∀ v, sameIdentity (set_lastError v)) ∧ (∀ v, sameIdentity (set_errorRecoverable v)).
Proof. repeat split. Qed.

Lemma moves_handleCDPDetach st tab : rtc (MoveOf P) st (handleCDPDetach st tab).
Proof.
  unfold handleCDPDetach.
  destruct (activeSession st tab) as [[sid session]|] eqn:Hact; [|done].
  apply plain_moves. by apply mv_alter.
Qed.

Lemma moves_handleStopRecording st tab now stopSent :
  rtc (MoveOf P) st (handleStopRecording st tab now stopSent).1.
Proof.
  unfold handleStopRecording. destruct (smap_find _ _); [|done]. cbn [fst].
  apply plain_moves. by apply mv_mutate.
Qed.

Lemma moves_handleRecordingChunk st sid :
  rtc (MoveOf P) st (handleRecordingChunk st sid).1.
Proof. unfold handleRecordingChunk. cbn [fst]. apply plain_moves. by apply mv_alter. Qed.

Lemma moves_handleScreenshotCaptured st sid i stored :
  rtc (MoveOf P) st (handleScreenshotCaptured st sid i stored).1.
Proof.
  unfold handleScreenshotCaptured.
  destruct (smap_get (sessions st) sid) as [s|] eqn:Hs; [|done].
  destruct stored; [|done]. cbn [fst].
  eapply rtc_l.
  - apply plain_move.
    apply (mv_store_other st sid s
             (Storage.createStorageKey sid Storage.KScreenshot (Some i) +:+ ":metadata")
             Storage.Opaque Hs); [constructor | done].
  - apply plain_moves. by apply mv_alter.
Qed.

Lemma moves_handleStateSerialized st sid stored :
  rtc (MoveOf P) st (handleStateSerialized st sid stored).1.
Proof.
  unfold handleStateSerialized.
  destruct (smap_get (sessions st) sid) as [s|] eqn:Hs; [|done].
  destruct stored; [|done]. cbn [fst]. apply plain_moves.
  apply (mv_store_other st sid s (Storage.createStorageKey sid Storage.KState None)
           Storage.Opaque Hs); [constructor | done].
Qed.

Lemma moves_handleMediaStopped_stopTimer st sid :
  rtc (MoveOf P) st (handleMediaStopped_stopTimer st sid).
Proof.
  unfold handleMediaStopped_stopTimer. destruct (smap_get _ _); [|done].
  apply plain_moves, mv_stop_timer.
Qed.

Lemma moves_handleMediaStopped_finalFlush st sid now :
  rtc (MoveOf P) st (handleMediaStopped_finalFlush st sid now).
Proof.
  unfold handleMediaStopped_finalFlush. destruct (smap_get _ _); [|done].
  apply moves_flush.
Qed.

Lemma moves_handleStartRecording st tab audio mic env :
  P (Registers (mkSessionId tab (se_now env))) →
  rtc (MoveOf P) st (handleStartRecording st tab audio mic env).1.
Proof.
  intros HP. unfold handleStartRecording.
  destruct (se_streamId env); [|done]. destruct (se_offscreen env); [|done].
  cbn [negb]. apply rtc_once. exists (Registers (mkSessionId tab (se_now env))).
  split; [done|]. destruct (se_initSent env); cbn [fst]; apply mv_start.
Qed.

Lemma moves_handleMediaReady st sid :
  P (SetsUp sid) → rtc (MoveOf P) st (handleMediaReady st sid).1.
Proof.
  intros HP. unfold handleMediaReady.
  destruct (smap_get (sessions st) sid) as [s|] eqn:Hs; [|done].
  destruct (debuggerAttached s); cbn [fst]; [|apply plain_moves; by apply mv_alter].
  eapply rtc_l; [apply plain_move; by apply (mv_alter st (set_sstatus Recording) sid)|].
  apply rtc_once. exists (SetsUp sid). split; [done|].
  eapply (mv_ready _ sid (set_sstatus Recording s)).
  state_proj. rewrite smap_get_alter, decide_True by done. by rewrite Hs.
Qed.

Lemma moves_handleMediaStopped_teardown st sid detached tab :
  P (TearsDown sid) →
  rtc (MoveOf P) st (handleMediaStopped_teardown st sid detached tab).1.
Proof.
  intros HP. unfold handleMediaStopped_teardown.
  destruct (smap_get (sessions st) sid) as [s|] eqn:Hs; [|done]. cbn [fst].
  set (st1 := if debuggerAttached s && detached
              then upd_sessions (smap_alter (set_debuggerAttached false) sid) st
              else st).
  assert (rtc (MoveOf P) st st1) as H1.
  { subst st1. destruct (debuggerAttached s && detached); [|done].
    apply plain_moves. by apply mv_alter. }
  assert (∃ s1, smap_get (sessions st1) sid = Some s1 ∧ tabId s1 = tabId s) as (s1 & Hs1 & Ht).
  { subst st1. destruct (debuggerAttached s && detached); [|by exists s].
    exists (set_debuggerAttached false s). state_proj.
    rewrite smap_get_alter, decide_True by done. by rewrite Hs. }
  set (st2 := cleanupTelemetry st1 sid (tabId s)).
  assert (rtc (MoveOf P) st st2) as H2.
  { eapply rtc_r; [exact H1|]. exists (TearsDown sid). split; [done|].
    subst st2. rewrite <- Ht. by apply (mv_cleanup st1 sid s1). }
  set (st3 := upd_sessions _ st2).
  assert (rtc (MoveOf P) st st3) as H3.
  { eapply moves_snoc; [exact H2|]. subst st3. by apply mv_alter. }
  destruct tab as [[tabUrl tabTitle]|]; [|done].
  eapply moves_snoc; [exact H3|].
  assert (is_Some (smap_get (sessions st3) sid)) as [s3 Hs3].
  { subst st3 st2. state_proj. rewrite smap_get_alter, decide_True by done.
    change (sessions (cleanupTelemetry st1 sid (tabId s))) with (sessions st1).
    rewrite Hs1. by eexists. }
  apply (mv_store_other st3 sid s3 (Storage.createStorageKey sid Storage.KMetadata None)
           _ Hs3); [constructor | done].
Qed.

Lemma moves_handleMediaError_begin st sid error errStage now closed :
  rtc (MoveOf P) st (handleMediaError_begin st sid error errStage now closed).1.
Proof.
  unfold handleMediaError_begin.
  destruct (smap_get (sessions st) sid) as [s|] eqn:Hs; [|done].
  set (st1 := upd_sessions _ st).
  assert (rtc (MoveOf P) st st1) as H1.
  { apply plain_moves. subst st1. by apply mv_alter. }
  destruct (needsCdpCleanup s errStage); cbn [fst].
  - etrans; [exact H1|]. eapply rtc_l; [apply plain_move, mv_stop_timer|].
    apply moves_flush.
  - destruct errStage; [destruct closed|..]; cbn [fst]; try done.
    eapply moves_snoc; [exact H1|]. by apply mv_alter.
Qed.

Lemma moves_handleMediaError_cleanup st sid detached :
  P (TearsDown sid) →
  rtc (MoveOf P) st (handleMediaError_cleanup st sid detached).
Proof.
  intros HP. unfold handleMediaError_cleanup.
  destruct (smap_get (sessions st) sid) as [s|] eqn:Hs; [|done].
  destruct detached.
  - eapply rtc_l; [apply plain_move;
                   by apply (mv_alter st (set_debuggerAttached false) sid)|].
    apply rtc_once. exists (TearsDown sid). split; [done|].
    apply (mv_cleanup _ sid (set_debuggerAttached false s)).
    state_proj. rewrite smap_get_alter, decide_True by done. by rewrite Hs.
  - apply rtc_once. exists (TearsDown sid). split; [done|].
    by apply (mv_cleanup st sid s).
Qed.

End Moves.

Lemma step_moves st e st' : step st e = Some st' → rtc (MoveOf (mayMake e)) st st'.
Proof.
  intros Hstep.
  assert (mayMake e Plain) as HP by done.
  destruct e; cbn [step] in Hstep; repeat case_match; simplify_eq.
  - apply moves_handleStartRecording; try done. by exists tab, audio, mic, env.
  - by apply moves_handleStopRecording.
  - rewrite handleTakeScreenshot_state. done.
  - done.
  - by apply moves_handleMediaReady.
  - by apply moves_handleRecordingChunk.
  - by apply moves_handleScreenshotCaptured.
  - by apply moves_handleMediaStopped_stopTimer.
  - by apply moves_handleMediaStopped_finalFlush.
  - apply moves_handleMediaStopped_teardown; try done. left. by exists detached, tab.
  - by apply moves_handleMediaError_begin.
  - apply moves_handleMediaError_cleanup; try done. right. by exists detached.
  - by apply moves_handleDOMEventCaptured.
  - by apply moves_handleStateSerialized.
  - by apply moves_handleNetworkRequestWillBeSent.
  - by apply moves_handleNetworkResponse.
  - by apply moves_handleNetworkLoadingFailed.
  - by apply moves_handleConsoleAPICalled.
  - by apply moves_handleExceptionThrown.
  - by apply moves_handleCDPDetach.
  - by apply moves_flush.
  - match goal with H : flushIdle _ _ = false |- _ =>
      apply bool_decide_eq_false in H;
      destruct (flushInProgress st !! sid) as [t|] eqn:Ht; [|done] end.
    apply rtc_once. apply (move_settle _ st sid resolved now t Ht); intros ->;
      by exists now.
Qed.

(** ** Invariants of the event loop *)

Lemma run_app st es1 es2 :
  run st (es1 ++ es2) = run st es1 ≫= λ st1, run st1 es2.
Proof.
  revert st. induction es1 as [|e es1 IH]; intros st; [done|].
  cbn [app run]. destruct (step st e); [apply IH | done].
Qed.

(** A property kept by every elementary change is kept by every run. *)
Lemma moves_invariant (I : State → Prop) (ok : MoveKind → Prop) st st' :
  (∀ s k s', ok k → Move s k s' → I s → I s') →
  rtc (MoveOf ok) st st' → I st → I st'.
Proof.
  intros Hmove Hrtc. induction Hrtc as [|s1 s2 s3 (k & Hk & Hm) _ IH]; [done|].
  intros H1. apply IH. by apply (Hmove s1 k s2).
Qed.

Lemma run_invariant (I : State → Prop) es st st' :
  (∀ s k s', Move s k s' → I s → I s') →
  run st es = Some st' → I st → I st'.
Proof.
  intros Hmove. revert st. induction es as [|e es IH]; intros st Hrun Hst.
  - by injection Hrun as <-.
  - cbn [run] in Hrun. destruct (step st e) as [st1|] eqn:Hstep; [|done].
    apply (IH st1 Hrun). apply step_moves in Hstep.
    apply (moves_invariant I (mayMake e) st st1); [|done..].
    intros s k s' _. apply Hmove.
Qed.

(** ... and so is a property kept by the changes that the events of the
    run may make. *)
Lemma run_invariant_when (I : State → Prop) (ok : Event → Prop) es st st' :
  (∀ e s k s', ok e → mayMake e k → Move s k s' → I s → I s') →
  Forall ok es → run st es = Some st' → I st → I st'.
Proof.
  intros Hmove Hok. revert st. induction Hok as [|e es He Hes IH]; intros st Hrun Hst.
  - by injection Hrun as <-.
  - cbn [run] in Hrun. destruct (step st e) as [st1|] eqn:Hstep; [|done].
    apply (IH st1 Hrun). apply step_moves in Hstep.
    apply (moves_invariant I (mayMake e) st st1); [|done..].
    intros s k s' Hk. by apply (Hmove e).
Qed.

(** *** What each change does to the session map and the reverse index *)

Ltac unfold_moves :=
  unfold stopFlushTimer, flushSweep, storedStage, suspendFlush, spliceBuffers,
    cleanupTelemetry, initTelemetry, deletePending in *.

Lemma move_sessions st k st' :
  Move st k st' →
  sessions st' = sessions st ∨
  (∃ f sid, sameIdentity f ∧ sessions st' = smap_alter f sid (sessions st)) ∨
  (∃ p f, sameIdentity f ∧ sessions st' = smap_mutate_found p f (sessions st)) ∨
  (∃ tab now audio mic attached,
     k = Registers (mkSessionId tab now) ∧
     sessions st' =
       smap_set (sessions st) (mkSessionId tab now) (newSession tab now audio mic attached) ∧
     tabIdToSessionId st' = <[tab := mkSessionId tab now]> (tabIdToSessionId st)).
Proof.
  destruct 1; unfold_moves; repeat case_match; state_proj;
    first [ by left | right; left; by eauto
          | right; left; eexists _, _; split; [|reflexivity]; by intros ?
          | right; right; left; by eauto
          | right; right; right; by eauto 10 ].
Qed.

Lemma move_tabs st k st' :
  Move st k st' →
  tabIdToSessionId st' = tabIdToSessionId st ∨
  (∃ tab, tabIdToSessionId st' = delete tab (tabIdToSessionId st)) ∨
  (∃ tab now audio mic attached,
     tabIdToSessionId st' = <[tab := mkSessionId tab now]> (tabIdToSessionId st) ∧
     sessions st' =
       smap_set (sessions st) (mkSessionId tab now) (newSession tab now audio mic attached)).
Proof.
  destruct 1; unfold_moves; repeat case_match; state_proj;
    first [ by left | right; left; by eauto | right; right; by eauto 10 ].
Qed.

Lemma known_alter (f : SessionState → SessionState) m key sid :
  is_Some (smap_get (smap_alter f key m) sid) ↔ is_Some (smap_get m sid).
Proof.
  rewrite smap_get_alter. case_decide; [|done]. by rewrite fmap_is_Some.
Qed.

Lemma known_mutate (p : SessionState → bool) (f : SessionState → SessionState) m sid :
  is_Some (smap_get m sid) → is_Some (smap_get (smap_mutate_found p f m) sid).
Proof.
  intros [s Hs].
  destruct (smap_get_mutate_found p f m sid) as [->|(v & _ & _ & ->)]; by eexists.
Qed.

(** No change removes a session. *)
Lemma move_known st k st' sid :
  Move st k st' → is_Some (smap_get (sessions st) sid) →
  is_Some (smap_get (sessions st') sid).
Proof.
  intros Hm Hs.
  destruct (move_sessions st k st' Hm)
    as [-> | [(f & key & _ & ->) | [(p & f & _ & ->) | (tab & now & a & m & d & _ & -> & _)]]].
  - done.
  - by apply known_alter.
  - by apply known_mutate.
  - rewrite smap_get_set. case_decide; [by eexists | done].
Qed.

Lemma move_sessionsWellFormed st k st' :
  Move st k st' → sessionsWellFormed st → sessionsWellFormed st'.
Proof.
  intros Hm Hwf sid s.
  destruct (move_sessions st k st' Hm)
    as [-> | [(f & key & Hf & ->) | [(p & f & Hf & ->) | (tab & now & a & m & d & _ & -> & _)]]].
  - apply Hwf.
  - rewrite smap_get_alter. case_decide; [|apply Hwf].
    destruct (smap_get (sessions st) sid) as [s0|] eqn:Hs0; [|done].
    intros [= <-]. destruct (Hf s0) as (-> & -> & ->). by apply Hwf.
  - destruct (smap_get_mutate_found p f (sessions st) sid) as [->|(v & Hv & _ & ->)];
      [apply Hwf|].
    intros [= <-]. destruct (Hf v) as (-> & -> & ->). by apply Hwf.
  - rewrite smap_get_set. case_decide; [|apply Hwf]. subst. by intros [= <-].
Qed.

Lemma move_indexSound st k st' :
  Move st k st' → sessionsWellFormed st → indexSound st → indexSound st'.
Proof.
  intros Hm Hwf Hidx tab sid Htab.
  assert (∃ s, smap_get (sessions st) sid = Some s ∧ tabId s = tab ∨
               ∃ now a m d, sid = mkSessionId tab now ∧
                 sessions st' = smap_set (sessions st) sid (newSession tab now a m d))
    as Hold.
  { destruct (move_tabs st k st' Hm)
      as [E | [(tab0 & E) | (tab0 & now & a & m & d & E & E')]];
      rewrite E in Htab.
    - destruct (Hidx tab sid Htab) as (s & Hs & Ht). exists s. by left.
    - apply lookup_delete_Some in Htab as [_ Htab].
      destruct (Hidx tab sid Htab) as (s & Hs & Ht). exists s. by left.
    - destruct (decide (tab = tab0)) as [->|Hne].
      + rewrite lookup_insert_eq in Htab. injection Htab as <-.
        exists (newSession tab0 now a m d). right. by exists now, a, m, d.
      + rewrite lookup_insert_ne in Htab by done.
        destruct (Hidx tab sid Htab) as (s & Hs & Ht). exists s. by left. }
  destruct Hold as (s & [[Hs Ht] | (now & a & m & d & -> & E)]).
  - destruct (move_sessions st k st' Hm)
      as [-> | [(f & key & Hf & ->) | [(p & f & Hf & ->)
         | (tab1 & now1 & a & m & d & _ & -> & _)]]].
    + by exists s.
    + rewrite smap_get_alter. case_decide; [|by exists s].
      rewrite Hs. exists (f s). split; [done|]. by destruct (Hf s) as (_ & -> & _).
    + destruct (smap_get_mutate_found p f (sessions st) sid) as [->|(v & Hv & _ & ->)];
        [by exists s|].
      rewrite Hs in Hv. injection Hv as <-. exists (f s). split; [done|].
      by destruct (Hf s) as (_ & -> & _).
    + rewrite smap_get_set. case_decide as Heq; [|by exists s].
      eexists. split; [done|]. cbn [tabId newSession].
      destruct (Hwf sid s Hs) as [_ Hid]. rewrite Heq in Hid.
      apply KeyFacts.mkSessionId_inj in Hid as [-> _]. done.
  - rewrite E, smap_get_set, decide_True by done. by eexists.
Qed.

Lemma initial_wellFormed : sessionsWellFormed initialState ∧ indexSound initialState.
Proof. split; [by intros sid s | by intros tab sid]. Qed.

Lemma reachable_wellFormed es st :
  run initialState es = Some st → sessionsWellFormed st ∧ indexSound st.
Proof.
  intros Hrun.
  apply (run_invariant (λ s, sessionsWellFormed s ∧ indexSound s) es initialState st);
    [|done|apply initial_wellFormed].
  intros s k s' Hm [Hwf Hidx]. split.
  - by apply (move_sessionsWellFormed s k).
  - by apply (move_indexSound s k).
Qed.

Lemma run_known es st st' sid :
  run st es = Some st' → is_Some (smap_get (sessions st) sid) →
  is_Some (smap_get (sessions st') sid).
Proof.
  intros Hrun.
  apply (run_invariant (λ s, is_Some (smap_get (sessions s) sid)) es st st'); [|done].
  intros s k s'. apply move_known.
Qed.

(** In every state the worker reaches, each entry of the reverse index
    from tabs to session ids names a session that is registered, that
    belongs to that tab and whose id is the tab id, a dash and the
    session's start time. *)
Theorem reverse_index_sound (es : list Event) (st : State) (tab : Z) (sid : string) :
  run initialState es = Some st →
  tabIdToSessionId st !! tab = Some sid →
  ∃ s, smap_get (sessions st) sid = Some s ∧ tabId s = tab ∧ sessionId s = sid ∧
       sid = mkSessionId tab (sessionStartTime s).
Proof.
  intros Hrun Htab. destruct (reachable_wellFormed es st Hrun) as [Hwf Hidx].
  destruct (Hidx tab sid Htab) as (s & Hs & Ht). exists s.
  destruct (Hwf sid s Hs) as [Hid Hmk]. rewrite Ht in Hmk. done.
Qed.

Lemma reverse_index_sound_witness :
  ∃ s, smap_get (sessions recordingState) "7-1000" = Some s ∧ tabId s = 7 ∧
       sessionId s = "7-1000" ∧ "7-1000" = mkSessionId 7 (sessionStartTime s).
Proof.
  apply (reverse_index_sound
           [StartRecording 7 true false (startEnv 1000); MediaReady "7-1000"]
           recordingState 7 "7-1000"); vm_compute; reflexivity.
Defined.

(** Once registered, a session is never removed, and its id, tab and
    start time never change, whatever events follow, a second start
    request that builds the same id included. *)
Theorem session_never_removed (es0 es : list Event) (st st' : State) (sid : string)
    (s : SessionState) :
  run initialState es0 = Some st → run st es = Some st' →
  smap_get (sessions st) sid = Some s →
  ∃ s', smap_get (sessions st') sid = Some s' ∧ sessionId s' = sessionId s ∧
        tabId s' = tabId s ∧ sessionStartTime s' = sessionStartTime s.
Proof.
  intros Hrun0 Hrun Hs.
  destruct (run_known es st st' sid Hrun) as [s' Hs']; [by eexists|].
  exists s'. split; [done|].
  destruct (reachable_wellFormed es0 st Hrun0) as [Hwf _].
  assert (run initialState (es0 ++ es) = Some st') as Hrun'.
  { rewrite run_app, Hrun0. done. }
  destruct (reachable_wellFormed (es0 ++ es) st' Hrun') as [Hwf' _].
  destruct (Hwf sid s Hs) as [Hid Hmk]. destruct (Hwf' sid s' Hs') as [Hid' Hmk'].
  rewrite Hmk in Hmk' at 1. apply KeyFacts.mkSessionId_inj in Hmk' as [-> ->].
  by rewrite Hid, Hid'.
Qed.

Lemma session_never_removed_witness :
  ∃ s', smap_get (sessions completedState) "7-1000" = Some s' ∧
        sessionId s' = sessionId imageSession ∧ tabId s' = tabId imageSession ∧
        sessionStartTime s' = sessionStartTime imageSession.
Proof.
  apply (session_never_removed
           [StartRecording 7 true false (startEnv 1000); MediaReady "7-1000"]
           [StopRecording 7 5000 true; MediaStopped "7-1000";
            MediaStoppedFinalFlush "7-1000" 5100;
            MediaStoppedTeardown "7-1000" true (Some ("https://example.test/", "Example"))]
           recordingState completedState "7-1000" imageSession);
    vm_compute; reflexivity.
Defined.

(** *** The telemetry of a session exists as a whole *)

Lemma is_Some_Some_True {A} (x : A) : is_Some (Some x) ↔ True.
Proof. split; [done | by eexists]. Qed.

Lemma is_Some_None_False {A} : is_Some (@None A) ↔ False.
Proof. split; [by intros [? ?] | done]. Qed.

Ltac map_norm :=
  repeat first
    [ rewrite lookup_insert_eq | rewrite lookup_delete_eq | rewrite lookup_alter_eq
    | rewrite lookup_insert_ne by done | rewrite lookup_delete_ne by done
    | rewrite lookup_alter_ne by done | rewrite fmap_is_Some
    | rewrite is_Some_Some_True | rewrite is_Some_None_False ].

Ltac map_norm_in H :=
  repeat first
    [ rewrite lookup_insert_eq in H | rewrite lookup_delete_eq in H
    | rewrite lookup_alter_eq in H
    | rewrite lookup_insert_ne in H by done | rewrite lookup_delete_ne in H by done
    | rewrite lookup_alter_ne in H by done | rewrite fmap_is_Some in H
    | rewrite is_Some_Some_True in H | rewrite is_Some_None_False in H ].

Lemma default_nonempty_Some {A} (o : option (list A)) : default [] o ≠ [] → is_Some o.
Proof. destruct o; [by eexists | done]. Qed.

Lemma startsFlush_has st sid t :
  startsFlush st sid t →
  is_Some (networkEventBuffers st !! sid) ∨ is_Some (consoleEventBuffers st !! sid) ∨
  is_Some (domEventBuffers st !! sid).
Proof.
  intros (Hn & Hc & Hd & Hstage). destruct (stage t).
  - left. apply default_nonempty_Some. rewrite <- Hn. tauto.
  - right; left. apply default_nonempty_Some. rewrite <- Hc. tauto.
  - right; right. apply default_nonempty_Some. rewrite <- Hd. tauto.
Qed.

(** The maps of the telemetry, without the session map *)
Lemma move_known_maps st k st' sid' :
  Move st k st' → telemetryKnown st →
  (is_Some (consoleEventBuffers st' !! sid') ↔ is_Some (networkEventBuffers st' !! sid')) ∧
  (is_Some (domEventBuffers st' !! sid') ↔ is_Some (networkEventBuffers st' !! sid')) ∧
  (is_Some (pendingNetworkRequests st' !! sid') ↔
   is_Some (networkEventBuffers st' !! sid')) ∧
  (is_Some (networkEventBuffers st' !! sid') → is_Some (smap_get (sessions st) sid')) ∧
  (is_Some (networkBatchIndices st' !! sid') → is_Some (smap_get (sessions st) sid')) ∧
  (is_Some (consoleBatchIndices st' !! sid') → is_Some (smap_get (sessions st) sid')) ∧
  (is_Some (domBatchIndices st' !! sid') → is_Some (smap_get (sessions st) sid')) ∧
  (is_Some (flushInProgress st' !! sid') → is_Some (smap_get (sessions st) sid')).
Proof.
  intros Hm Hinv. pose proof (Hinv sid') as Hsid'.
  destruct Hm as [f sid|p f|tab now a m d|sid s Hs|sid s Hs|sid|sid s key v
                 |tab sid session pend params Hact Hpend|sid rid
                 |tab sid session buf key pe ev Hact Hbuf|tab sid session buf ev Hact Hbuf
                 |sid session buf ev Hs Hrec Hbuf|sid t Hidle Hstart|sid now Hidle
                 |sid t t' Ht Hnext|sid t now Ht Hlast|sid t Ht];
    try (pose proof (Hinv sid) as Hsid);
    try (apply startsFlush_has in Hstart);
    unfold_moves; repeat case_match; state_proj;
    (destruct (decide (sid' = sid)) as [->|Hne] || idtac);
    repeat match goal with
           | H : _ !! _ = Some _ |- _ => rewrite H in *
           | H : _ !! _ = None |- _ => rewrite H in *
           | H : smap_get _ _ = Some _ |- _ => rewrite H in *
           end;
    map_norm; try map_norm_in Hsid; try map_norm_in Hsid'; try map_norm_in Hstart;
    tauto.
Qed.

Lemma move_telemetryKnown st k st' :
  Move st k st' → telemetryKnown st → telemetryKnown st'.
Proof.
  intros Hm Hinv sid'.
  destruct (move_known_maps st k st' sid' Hm Hinv)
    as (H1 & H2 & H3 & H4 & H5 & H6 & H7 & H8).
  repeat (split; [done|]).
  repeat split; intros Hhas; apply (move_known st k st' sid' Hm); auto.
Qed.

Lemma reachable_telemetryKnown es st :
  run initialState es = Some st → telemetryKnown st.
Proof.
  intros Hrun. apply (run_invariant telemetryKnown es initialState st); [|done|].
  - apply move_telemetryKnown.
  - intros sid. cbn. rewrite !lookup_empty. repeat split; by intros [? ?].
Qed.

(** In every state the worker reaches, the three buffers and the
    pending table of a session exist together or not at all, and only a
    registered session has buffers, a batch index or a flush in flight. *)
Theorem telemetry_of_registered_sessions (es : list Event) (st : State) (sid : string) :
  run initialState es = Some st →
  (is_Some (consoleEventBuffers st !! sid) ↔ is_Some (networkEventBuffers st !! sid)) ∧
  (is_Some (domEventBuffers st !! sid) ↔ is_Some (networkEventBuffers st !! sid)) ∧
  (is_Some (pendingNetworkRequests st !! sid) ↔
   is_Some (networkEventBuffers st !! sid)) ∧
  (is_Some (networkEventBuffers st !! sid) ∨ is_Some (networkBatchIndices st !! sid) ∨
   is_Some (consoleBatchIndices st !! sid) ∨ is_Some (domBatchIndices st !! sid) ∨
   is_Some (flushInProgress st !! sid) → is_Some (smap_get (sessions st) sid)).
Proof.
  intros Hrun.
  destruct (reachable_telemetryKnown es st Hrun sid)
    as (H1 & H2 & H3 & H4 & H5 & H6 & H7 & H8).
  repeat (split; [done|]). intros [?|[?|[?|[?|?]]]]; auto.
Qed.

Lemma telemetry_of_registered_sessions_witness :
  is_Some (networkEventBuffers recordingState !! "7-1000") ∧
  is_Some (pendingNetworkRequests recordingState !! "7-1000") ∧
  is_Some (smap_get (sessions recordingState) "7-1000").
Proof.
  destruct (telemetry_of_registered_sessions
              [StartRecording 7 true false (startEnv 1000); MediaReady "7-1000"]
              recordingState "7-1000") as (_ & _ & Hpend & Hknown);
    [vm_compute; reflexivity|].
  assert (is_Some (networkEventBuffers recordingState !! "7-1000")) as Hbuf
    by (vm_compute; by eexists).
  split; [exact Hbuf|]. split; [by apply Hpend | apply Hknown; by left].
Defined.

(** *** What each change does to the buffers, the flushes, the pending
    tables and the store *)

Lemma move_networkEventBuffers st k st' :
  Move st k st' →
  networkEventBuffers st' = networkEventBuffers st ∨
  (∃ sid, k = SetsUp sid ∧
          networkEventBuffers st' = <[sid := []]> (networkEventBuffers st)) ∨
  (∃ sid, k = TearsDown sid ∧
          networkEventBuffers st' = delete sid (networkEventBuffers st)) ∨
  (∃ sid buf key pe ev,
     networkEventBuffers st !! sid = Some buf ∧ pendingEntry st sid key = Some pe ∧
     completes pe ev ∧
     networkEventBuffers st' = <[sid := buf ++ [ev]]> (networkEventBuffers st) ∧
     sessions st' =
       smap_alter (λ s, set_networkEventCount (networkEventCount s + 1)%N s) sid
         (sessions st) ∧
     flushInProgress st' = flushInProgress st ∧ idb st' = idb st ∧
     networkBatchIndices st' = networkBatchIndices st) ∨
  (∃ sid t, flushInProgress st !! sid = None ∧ startsFlush st sid t ∧
            networkEventBuffers st' = alter (λ _, []) sid (networkEventBuffers st) ∧
            flushInProgress st' = <[sid := t]> (flushInProgress st) ∧
            sessions st' = sessions st ∧ idb st' = idb st ∧
            networkBatchIndices st' = networkBatchIndices st).
Proof.
  destruct 1; unfold_moves; repeat case_match; state_proj;
    first [ by left | right; left; by eauto | right; right; left; by eauto
          | right; right; right; left; by eauto 15
          | right; right; right; right; by eauto 10 ].
Qed.

Lemma move_flushInProgress st k st' :
  Move st k st' →
  flushInProgress st' = flushInProgress st ∨
  (∃ sid t, flushInProgress st !! sid = None ∧ startsFlush st sid t ∧
            flushInProgress st' = <[sid := t]> (flushInProgress st)) ∨
  (∃ sid t t', flushInProgress st !! sid = Some t ∧ sameBatches t t' ∧
               stage t' ≠ AwaitNetworkStore ∧
               flushInProgress st' = <[sid := t']> (flushInProgress st)) ∨
  (∃ sid, flushInProgress st' = delete sid (flushInProgress st)).
Proof.
  destruct 1; unfold_moves; repeat case_match; state_proj;
    first [ by left | right; left; by eauto | right; right; right; by eauto | idtac ].
  all: right; right; left; eexists _, _, _; split; [eassumption|];
    match goal with H : nextTask _ _ _ _ |- _ => destruct H as [Hsame Hstage] end;
    split; [done|]; split; [|done];
    intros Hs'; rewrite Hs' in Hstage; by destruct (stage _).
Qed.

Lemma move_pending st k st' sid rid pe :
  Move st k st' → pendingEntry st' sid rid = Some pe →
  pendingEntry st sid rid = Some pe ∨
  ∃ session params, pe = requestEntry session params.
Proof.
  intros Hm. unfold pendingEntry.
  destruct Hm as [f sid0|p f|tab now a m d|sid0 s Hs|sid0 s Hs|sid0|sid0 s key v
                 |tab sid0 session pend params Hact Hpend|sid0 rid0
                 |tab sid0 session buf key pe0 ev Hact Hbuf
                 |tab sid0 session buf ev Hact Hbuf
                 |sid0 session buf ev Hs Hrec Hbuf|sid0 t Hidle Hstart|sid0 now Hidle
                 |sid0 t t' Ht Hnext|sid0 t now Ht Hlast|sid0 t Ht];
    unfold_moves; repeat case_match; state_proj; try (by left);
    (destruct (decide (sid = sid0)) as [->|Hne];
     [rewrite ?lookup_insert_eq, ?lookup_delete_eq, ?lookup_alter_eq
     |rewrite ?lookup_insert_ne, ?lookup_delete_ne, ?lookup_alter_ne by done;
      by left]).
  - simpl. by rewrite lookup_empty.
  - done.
  - simpl. destruct (decide (rid = rq_requestId params)) as [->|Hne].
    + rewrite lookup_insert_eq. intros [= <-]. right. by eexists _, _.
    + rewrite lookup_insert_ne by done. rewrite Hpend. by left.
  - destruct (pendingNetworkRequests st !! sid0) as [pend|]; [|done]. simpl.
    destruct (decide (rid = rid0)) as [->|Hne].
    + by rewrite lookup_delete_eq.
    + rewrite lookup_delete_ne by done. by left.
  - simpl. intros [Hpe _]%map_lookup_filter_Some. left.
    match goal with H : _ !! sid0 = Some _ |- _ => by rewrite H end.
  - simpl. intros [Hpe _]%map_lookup_filter_Some. left.
    match goal with H : _ !! sid0 = Some _ |- _ => by rewrite H end.
  - simpl. intros [Hpe _]%map_lookup_filter_Some. left.
    match goal with H : _ !! sid0 = Some _ |- _ => by rewrite H end.
  - simpl. intros [Hpe _]%map_lookup_filter_Some. left.
    match goal with H : _ !! sid0 = Some _ |- _ => by rewrite H end.
Qed.

Lemma move_idb st k st' key v :
  Move st k st' → idb st' !! key = Some v →
  idb st !! key = Some v ∨
  (∃ sid t, flushInProgress st !! sid = Some t ∧
     ((stage t = AwaitNetworkStore ∧ key = Storage.networkBatchKey sid (batchIndex t) ∧
       v = Storage.NetworkBatch (networkEventsToFlush t)) ∨
      (stage t = AwaitConsoleStore ∧ key = Storage.consoleBatchKey sid (batchIndex t) ∧
       v = Storage.ConsoleBatch (consoleEventsToFlush t)) ∨
      (stage t = AwaitDOMStore ∧ key = Storage.domBatchKey sid (batchIndex t) ∧
       v = Storage.DOMBatch (domEventsToFlush t)))) ∨
  (∃ sid s, smap_get (sessions st) sid = Some s ∧ otherKey sid key ∧ otherValue v).
Proof.
  intros Hm.
  destruct Hm as [f sid0|p f|tab now a m d|sid0 s Hs|sid0 s Hs|sid0|sid0 s key0 v0
                 |tab sid0 session pend params Hact Hpend|sid0 rid0
                 |tab sid0 session buf key0 pe0 ev Hact Hbuf
                 |tab sid0 session buf ev Hact Hbuf
                 |sid0 session buf ev Hs Hrec Hbuf|sid0 t Hidle Hstart|sid0 now Hidle
                 |sid0 t t' Ht Hnext|sid0 t now Ht Hlast|sid0 t Ht];
    unfold_moves; repeat case_match; state_proj; try (by left);
    unfold Storage.storeNetworkEventBatch, Storage.storeConsoleEventBatch,
      Storage.storeDOMEventBatch;
    (intros [[<- <-]|[Hne Hold]]%lookup_insert_Some; [|by left]).
  1: by (right; right; eexists _, _).
  all: right; left; eexists _, _; (split; [eassumption|]);
    first [ left; by repeat split | right; left; by repeat split
          | right; right; by repeat split ].
Qed.

(** *** No sensitive header value is kept *)

Lemma redacted_nil : redacted [].
Proof. by intros k v ?%elem_of_nil. Qed.

Lemma completes_redacted pe ev :
  partialRedacted pe → completes pe ev → eventRedacted ev.
Proof.
  intros Hpe (rid & u & m & _ & [[params ->] | [params ->]]); split; cbn.
  - destruct (p_headers pe) as [hs|] eqn:Hh; [by apply Hpe | apply redacted_nil].
  - intros hs [= <-]. apply sanitizeHeaders_redacted.
  - destruct (p_headers pe) as [hs|] eqn:Hh; [by apply Hpe | apply redacted_nil].
  - done.
Qed.

Lemma requestEntry_redacted session params : partialRedacted (requestEntry session params).
Proof. intros hs [= <-]. apply sanitizeHeaders_redacted. Qed.

Lemma move_noSecretKept st k st' : Move st k st' → noSecretKept st → noSecretKept st'.
Proof.
  intros Hm (Hbuf & Htask & Hpend & Hidb). split; [|split; [|split]].
  - intros sid buf.
    destruct (move_networkEventBuffers st k st' Hm)
      as [-> | [(s0 & _ & ->) | [(s0 & _ & ->)
         | [(s0 & b0 & key & pe & ev & Hb0 & Hpe & Hev & -> & _)
           | (s0 & t & _ & _ & -> & _)]]]].
    + apply Hbuf.
    + intros [[_ <-]|[_ H]]%lookup_insert_Some; [done | by apply (Hbuf sid)].
    + intros [_ H]%lookup_delete_Some. by apply (Hbuf sid).
    + intros [[_ <-]|[_ H]]%lookup_insert_Some; [|by apply (Hbuf sid)].
      apply Forall_app. split; [by apply (Hbuf s0)|].
      apply Forall_singleton. apply (completes_redacted pe); [|done].
      by apply (Hpend s0 key).
    + destruct (decide (sid = s0)) as [->|Hne].
      * rewrite lookup_alter_eq. destruct (networkEventBuffers st !! s0); [|done].
        by intros [= <-].
      * rewrite lookup_alter_ne by done. apply Hbuf.
  - intros sid t.
    destruct (move_flushInProgress st k st' Hm)
      as [-> | [(s0 & t0 & _ & Hstart & ->) | [(s0 & t0 & t1 & Ht0 & Hsame & _ & ->)
         | (s0 & ->)]]].
    + apply Htask.
    + intros [[_ <-]|[_ H]]%lookup_insert_Some; [|by apply (Htask sid)].
      destruct Hstart as (-> & _).
      destruct (networkEventBuffers st !! s0) as [b|] eqn:Hb; [by apply (Hbuf s0)|done].
    + intros [[_ <-]|[_ H]]%lookup_insert_Some; [|by apply (Htask sid)].
      destruct Hsame as (-> & _). by apply (Htask s0).
    + intros [_ H]%lookup_delete_Some. by apply (Htask sid).
  - intros sid rid pe Hpe.
    destruct (move_pending st k st' sid rid pe Hm Hpe) as [Hold | (session & params & ->)].
    + by apply (Hpend sid rid).
    + apply requestEntry_redacted.
  - intros key b Hb.
    destruct (move_idb st k st' key _ Hm Hb)
      as [Hold | [(s0 & t & Ht & [(_ & _ & Hv) | [(_ & _ & Hv) | (_ & _ & Hv)]])
         | (s0 & s & _ & _ & Hv & _)]]; try done.
    + by apply (Hidb key).
    + injection Hv as ->. by apply (Htask s0).
Qed.

Lemma reachable_noSecretKept es st : run initialState es = Some st → noSecretKept st.
Proof.
  intros Hrun. apply (run_invariant noSecretKept es initialState st); [|done|].
  - apply move_noSecretKept.
  - repeat split; by intros.
Qed.

Lemma getNetworkEventsFrom_Forall (P : NetworkEvent → Prop) allKeys
    (d : gmap string Storage.value) sid :
  (∀ k b, d !! k = Some (Storage.NetworkBatch b) → Forall P b) →
  Forall P (Storage.getNetworkEventsFrom allKeys d sid).
Proof.
  intros Hd. unfold Storage.getNetworkEventsFrom.
  generalize (JS.sortBy Storage.compareKeys
                (List.filter (JS.startsWith (Storage.networkBatchPrefix sid)) allKeys)).
  intros l. assert (Forall P (@nil NetworkEvent)) as Hacc by done.
  revert Hacc. generalize (@nil NetworkEvent) as acc.
  induction l as [|k l IH]; intros acc Hacc; [done|]. cbn [foldl]. apply IH.
  destruct (d !! k) as [[b| | | |]|] eqn:Hk; try done.
  apply Forall_app. split; [done|]. by apply (Hd k).
Qed.

(** In every state the worker reaches, no network event it holds for a
    session (read back from the store, in a flush in flight or in the
    buffer) and no pending request carries, in its request or response
    headers, a value other than the placeholder for a header whose
    lower-cased name is one of the six sensitive names. *)
Theorem no_sensitive_header_kept (es : list Event) (st : State) (sid : string) :
  run initialState es = Some st →
  Forall eventRedacted (Storage.getNetworkEvents (idb st) sid) ∧
  Forall eventRedacted (unstoredNetwork st sid) ∧
  ∀ rid pe, pendingEntry st sid rid = Some pe → partialRedacted pe.
Proof.
  intros Hrun. destruct (reachable_noSecretKept es st Hrun) as (Hbuf & Htask & Hpend & Hidb).
  split; [|split].
  - by apply getNetworkEventsFrom_Forall.
  - unfold unstoredNetwork, inFlightNetwork. apply Forall_app. split.
    + destruct (flushInProgress st !! sid) as [t|] eqn:Ht; [|done].
      destruct (stage t); [by apply (Htask sid) | done | done].
    + destruct (networkEventBuffers st !! sid) as [b|] eqn:Hb; [by apply (Hbuf sid)|done].
  - intros rid pe. apply Hpend.
Qed.

Lemma no_sensitive_header_kept_witness :
  Forall eventRedacted (Storage.getNetworkEvents (idb secretStored) "7-1000") ∧
  (headers <$> Storage.getNetworkEvents (idb secretStored) "7-1000") =
    [[("Authorization", "[REDACTED]"); ("accept", "*/*"); ("COOKIE", "[REDACTED]");
      ("X-Api-Key", "[REDACTED]")]].
Proof.
  split; [|vm_compute; reflexivity].
  apply (no_sensitive_header_kept secretTrace secretStored "7-1000").
  vm_compute. reflexivity.
Defined.

(** *** The accepted network events of a session *)

Lemma otherKey_not_network s k sid j : otherKey s k → k ≠ Storage.networkBatchKey sid j.
Proof.
  destruct 1.
  - apply networkBatchKey_not_metadata.
  - apply networkBatchKey_not_state.
  - apply networkBatchKey_not_screenshot.
Qed.

Lemma mayMake_keepsKind sid e k : keepsEvents sid e → mayMake e k → keepsKind sid k.
Proof.
  destruct k as [s|s|s|s|s|]; cbn.
  - intros He ->. done.
  - intros He [(d & t & ->) | (d & ->)]; done.
  - intros He (tab & a & m & env & -> & ->). done.
  - done.
  - intros He (now & ->) ->. cbn in He. by specialize (He eq_refl).
  - done.
Qed.

Lemma networkCount_alter (f : SessionState → SessionState) st st' key sid :
  sessions st' = smap_alter f key (sessions st) →
  (∀ s, networkEventCount (f s) = networkEventCount s) →
  networkCount st' sid = networkCount st sid.
Proof.
  intros E Hf. unfold networkCount. rewrite E, smap_get_alter.
  case_decide; [|done]. destruct (smap_get (sessions st) sid); [|done].
  simpl. by rewrite Hf.
Qed.

Lemma networkCount_mutate (p : SessionState → bool) (f : SessionState → SessionState)
    st st' sid :
  sessions st' = smap_mutate_found p f (sessions st) →
  (∀ s, networkEventCount (f s) = networkEventCount s) →
  networkCount st' sid = networkCount st sid.
Proof.
  intros E Hf. unfold networkCount. rewrite E.
  destruct (smap_get_mutate_found p f (sessions st) sid) as [->|(v & -> & _ & ->)];
    [done|]. simpl. by rewrite Hf.
Qed.

Lemma view_fields sid st st' :
  networkBatchIndices st' = networkBatchIndices st → idb st' = idb st →
  flushInProgress st' = flushInProgress st →
  networkEventBuffers st' = networkEventBuffers st →
  networkCount st' sid = networkCount st sid →
  ViewStep sid st st'.
Proof.
  intros Hi Hd Hf Hb Hc. apply view_same; [| | |done].
  - by apply sameIndexAndStore_fields.
  - unfold v_task. by rewrite Hf.
  - unfold v_buffer. by rewrite Hb.
Qed.

(** A change to the telemetry of another session *)
Lemma view_other sid s0 st st' :
  s0 ≠ sid →
  (∀ s, s ≠ s0 → networkBatchIndices st' !! s = networkBatchIndices st !! s) →
  (∀ j, idb st' !! Storage.networkBatchKey sid j = idb st !! Storage.networkBatchKey sid j) →
  (∀ s, s ≠ s0 → flushInProgress st' !! s = flushInProgress st !! s) →
  (∀ s, s ≠ s0 → networkEventBuffers st' !! s = networkEventBuffers st !! s) →
  networkCount st' sid = networkCount st sid →
  ViewStep sid st st'.
Proof.
  intros Hne Hi Hd Hf Hb Hc. apply view_same; [| | |done].
  - split; [by apply Hi | apply Hd].
  - by apply Hf.
  - by apply Hb.
Qed.

Lemma storedStage_store st s0 t sid j :
  idb (storedStage st s0 t) !! Storage.networkBatchKey sid j =
  if decide (stage t = AwaitNetworkStore ∧ s0 = sid ∧ j = batchIndex t)
  then Some (Storage.NetworkBatch (networkEventsToFlush t))
  else idb st !! Storage.networkBatchKey sid j.
Proof.
  unfold storedStage. destruct (stage t); state_proj.
  - unfold Storage.storeNetworkEventBatch.
    destruct (decide (Storage.networkBatchKey s0 (batchIndex t) =
                      Storage.networkBatchKey sid j)) as [Heq|Hne].
    + rewrite Heq, lookup_insert_eq.
      apply StorageFacts.networkBatchKey_inj in Heq as [-> ->].
      by rewrite decide_True.
    + rewrite lookup_insert_ne by done. rewrite decide_False; [done|].
      intros (_ & -> & ->). done.
  - unfold Storage.storeConsoleEventBatch. rewrite lookup_insert_ne.
    + rewrite decide_False; [done | by intros [? _]].
    + intros Heq. symmetry in Heq. by apply StorageFacts.networkBatchKey_not_console in Heq.
  - unfold Storage.storeDOMEventBatch. rewrite lookup_insert_ne.
    + rewrite decide_False; [done | by intros [? _]].
    + intros Heq. symmetry in Heq. by apply StorageFacts.networkBatchKey_not_dom in Heq.
Qed.

Lemma storedStage_index st s0 t s :
  networkBatchIndices (storedStage st s0 t) !! s =
  if decide (stage t = AwaitNetworkStore ∧ s = s0)
  then Some (batchIndex t + 1)%N
  else networkBatchIndices st !! s.
Proof.
  unfold storedStage. destruct (stage t); state_proj.
  - destruct (decide (s = s0)) as [->|Hne].
    + by rewrite lookup_insert_eq, decide_True.
    + rewrite lookup_insert_ne by done. rewrite decide_False; [done | by intros [_ ?]].
  - rewrite decide_False; [done | by intros [? _]].
  - rewrite decide_False; [done | by intros [? _]].
Qed.

Lemma storedStage_fields st s0 t :
  networkEventBuffers (storedStage st s0 t) = networkEventBuffers st ∧
  flushInProgress (storedStage st s0 t) = flushInProgress st ∧
  sessions (storedStage st s0 t) = sessions st ∧
  pendingNetworkRequests (storedStage st s0 t) = pendingNetworkRequests st.
Proof. unfold storedStage. by destruct (stage t). Qed.

Lemma flushSweep_fields st s0 now :
  networkEventBuffers (flushSweep st s0 now) = networkEventBuffers st ∧
  flushInProgress (flushSweep st s0 now) = delete s0 (flushInProgress st) ∧
  sessions (flushSweep st s0 now) = sessions st ∧
  idb (flushSweep st s0 now) = idb st ∧
  networkBatchIndices (flushSweep st s0 now) = networkBatchIndices st.
Proof. unfold flushSweep. by destruct (pendingNetworkRequests st !! s0). Qed.

(** After the network store of a flush, the flush waits for another
    store or is over. *)
Lemma settle_view sid st t st2 st' :
  flushInProgress st !! sid = Some t →
  st2 = storedStage st sid t →
  networkEventBuffers st' = networkEventBuffers st2 →
  sessions st' = sessions st2 → idb st' = idb st2 →
  networkBatchIndices st' = networkBatchIndices st2 →
  (∀ t', flushInProgress st' !! sid = Some t' → stage t' ≠ AwaitNetworkStore) →
  ViewStep sid st st'.
Proof.
  intros Ht -> Hb Hs Hd Hi Hnext.
  destruct (storedStage_fields st sid t) as (Hb2 & _ & Hs2 & _).
  assert (networkCount st' sid = networkCount st sid) as Hc.
  { unfold networkCount. by rewrite Hs, Hs2. }
  assert (v_buffer st' sid = v_buffer st sid) as Hbuf.
  { unfold v_buffer. by rewrite Hb, Hb2. }
  destruct (decide (stage t = AwaitNetworkStore)) as [Hstage|Hstage].
  - apply (view_stored sid st st' t); try done.
    + intros j. unfold v_store. rewrite Hd, storedStage_store.
      destruct (decide (j = batchIndex t)) as [->|Hne].
      * by rewrite decide_True.
      * rewrite decide_False; [done | by intros (_ & _ & ?)].
    + unfold v_index. rewrite Hi, storedStage_index. by rewrite decide_True.
  - apply (view_settled sid st st' t); try done. split.
    + unfold v_index. rewrite Hi, storedStage_index.
      rewrite decide_False; [done | by intros [? _]].
    + intros j. unfold v_store. rewrite Hd, storedStage_store.
      rewrite decide_False; [done | by intros [? _]].
Qed.

Lemma settle_view_other sid s0 st t st2 st' :
  s0 ≠ sid → st2 = storedStage st s0 t →
  networkEventBuffers st' = networkEventBuffers st2 →
  sessions st' = sessions st2 → idb st' = idb st2 →
  networkBatchIndices st' = networkBatchIndices st2 →
  (∀ s, s ≠ s0 → flushInProgress st' !! s = flushInProgress st !! s) →
  ViewStep sid st st'.
Proof.
  intros Hne -> Hb Hs Hd Hi Hf.
  destruct (storedStage_fields st s0 t) as (Hb2 & _ & Hs2 & _).
  apply (view_other sid s0); try done.
  - intros s Hs0. rewrite Hi, storedStage_index.
    rewrite decide_False; [done | by intros [_ ?]].
  - intros j. rewrite Hd, storedStage_store.
    rewrite decide_False; [done | by intros (_ & ? & _)].
  - intros s _. by rewrite Hb, Hb2.
  - unfold networkCount. by rewrite Hs, Hs2.
Qed.

Lemma move_view sid st k st' : Move st k st' → keepsKind sid k → ViewStep sid st st'.
Proof.
  intros Hm Hk.
  destruct Hm as [f s0 Hid Hcnt|p f Hid Hcnt|tab now a m d|s0 s Hs|s0 s Hs|s0
                 |s0 s key v Hs Hkey Hv
                 |tab s0 session pend params Hact Hpend|s0 rid0
                 |tab s0 session buf key pe0 ev Hact Hbuf
                 |tab s0 session buf ev Hact Hbuf
                 |s0 session buf ev Hs Hrec Hbuf|s0 t Hidle Hstart|s0 now Hidle
                 |s0 t t' Ht Hnext|s0 t now Ht Hlast|s0 t Ht]; cbn in Hk.
  - apply view_fields; try done.
    apply (networkCount_alter f _ _ s0); [done|]. intros s. by destruct (Hcnt s).
  - apply view_fields; try done.
    apply (networkCount_mutate p f); [done|]. intros s. by destruct (Hcnt s).
  - apply view_fields; try done. unfold networkCount. state_proj.
    by rewrite smap_get_set, decide_False.
  - apply (view_other sid s0); try done; unfold initTelemetry; state_proj;
      intros s1 Hne; by rewrite lookup_insert_ne.
  - apply (view_other sid s0); try done; unfold cleanupTelemetry; state_proj;
      intros s1 Hne; by rewrite lookup_delete_ne.
  - unfold stopFlushTimer. destruct (flushTimers st !! s0); by apply view_fields.
  - apply view_same; try done. split; [done|]. intros j. unfold v_store. state_proj.
    rewrite lookup_insert_ne; [done|]. by apply (otherKey_not_network s0).
  - by apply view_fields.
  - by apply view_fields.
  - apply activeSession_Some in Hact as (_ & Hs & _).
    destruct (decide (s0 = sid)) as [->|Hne].
    + apply (view_push sid _ _ ev buf (networkEventCount session)); try done.
      * unfold v_buffer. state_proj. apply lookup_insert_eq.
      * unfold networkCount. by rewrite Hs.
      * unfold networkCount. state_proj.
        rewrite smap_get_alter, decide_True by done. by rewrite Hs.
    + apply (view_other sid s0); try done.
      * intros s Hs0. state_proj. by rewrite lookup_insert_ne.
      * unfold networkCount. state_proj. by rewrite smap_get_alter, decide_False.
  - apply view_fields; try done.
    by apply (networkCount_alter
                (λ s, set_consoleEventCount (consoleEventCount s + 1)%N s) _ _ s0).
  - apply view_fields; try done.
    by apply (networkCount_alter (λ s, set_domEventCount (domEventCount s + 1)%N s) _ _ s0).
  - destruct (decide (s0 = sid)) as [->|Hne].
    + destruct Hstart as (Hn & Hc & Hd & Hstage).
      apply (view_start sid _ _ t); try done.
      * unfold v_task, suspendFlush. state_proj. apply lookup_insert_eq.
      * unfold v_buffer, suspendFlush, spliceBuffers. state_proj. apply lookup_alter_eq.
      * intros Hst. rewrite Hst in Hstage. by destruct Hstage.
      * intros Hst. unfold v_buffer. rewrite <- Hn. by destruct (stage t); destruct Hstage.
    + apply (view_other sid s0); try done; unfold suspendFlush, spliceBuffers;
        state_proj; intros s Hs0.
      * by rewrite lookup_insert_ne.
      * by rewrite lookup_alter_ne.
  - destruct (flushSweep_fields st s0 now) as (Hb & Hf & Hs & Hd & Hi).
    apply view_same; try done.
    + by apply sameIndexAndStore_fields.
    + unfold v_task. rewrite Hf. destruct (decide (s0 = sid)) as [->|Hne].
      * by rewrite lookup_delete_eq, Hidle.
      * by rewrite lookup_delete_ne.
    + unfold v_buffer. by rewrite Hb.
    + unfold networkCount. by rewrite Hs.
  - destruct (decide (s0 = sid)) as [->|Hne].
    + apply (settle_view sid st t (storedStage st sid t)); try done.
      unfold suspendFlush. state_proj. rewrite lookup_insert_eq. intros t0 [= <-].
      destruct Hnext as [_ Hstage]. intros Hs'. rewrite Hs' in Hstage.
      by destruct (stage t).
    + apply (settle_view_other sid s0 st t (storedStage st s0 t)); try done.
      intros s Hs0. unfold suspendFlush. state_proj. rewrite lookup_insert_ne by done.
      by destruct (storedStage_fields st s0 t) as (_ & -> & _).
  - destruct (flushSweep_fields (storedStage st s0 t) s0 now) as (Hb & Hf & Hs & Hd & Hi).
    destruct (decide (s0 = sid)) as [->|Hne].
    + apply (settle_view sid st t (storedStage st sid t)); try done.
      rewrite Hf, lookup_delete_eq. done.
    + apply (settle_view_other sid s0 st t (storedStage st s0 t)); try done.
      intros s Hs0. rewrite Hf, lookup_delete_ne by done.
      by destruct (storedStage_fields st s0 t) as (_ & -> & _).
  - apply (view_other sid s0); try done. intros s Hs0. state_proj.
    by rewrite lookup_delete_ne.
Qed.

Lemma unstoredNetwork_view st sid :
  unstoredNetwork st sid =
  match v_task st sid with
  | Some t => match stage t with
              | AwaitNetworkStore => networkEventsToFlush t
              | _ => []
              end
  | None => []
  end ++ default [] (v_buffer st sid).
Proof. done. Qed.

Lemma view_accounted sid log c0 st st' :
  ViewStep sid st st' → accounted sid log c0 st → accounted sid log c0 st'.
Proof.
  intros Hv (bs & more & (Hi & Hst & Hno & Htask) & Hlog & Hc).
  rewrite unstoredNetwork_view in Hlog.
  destruct Hv as [[Hi' Hs'] Ht' Hb' Hc'|ev buf c [Hi' Hs'] Ht' Hb Hb' Hc1 Hc'
                 |t [Hi' Hs'] Hc' Ht Ht' Hb' Hn Hidx Hemp
                 |t Hc' Hb' Ht Hstage Hs' Hi' Hnext
                 |t [Hi' Hs'] Hc' Hb' Ht Hstage Hnext].
  - exists bs, more. split; [|split].
    + split; [by rewrite Hi'|]. split; [|split].
      * intros j b Hj. rewrite Hs'. by apply Hst.
      * intros j Hj. rewrite Hs'. by apply Hno.
      * intros t. rewrite Ht'. apply Htask.
    + by rewrite unstoredNetwork_view, Ht', Hb'.
    + by rewrite Hc'.
  - exists bs, (more ++ [ev]). split; [|split].
    + split; [by rewrite Hi'|]. split; [|split].
      * intros j b Hj. rewrite Hs'. by apply Hst.
      * intros j Hj. rewrite Hs'. by apply Hno.
      * intros t. rewrite Ht'. apply Htask.
    + rewrite unstoredNetwork_view, Ht', Hb'. rewrite Hb in Hlog. simpl in *.
      by rewrite !app_assoc, <- (app_assoc (concat bs)), Hlog.
    + rewrite Hc'. rewrite Hc1 in Hc. injection Hc as ->. f_equal.
      rewrite length_app. simpl. lia.
  - exists bs, more. split; [|split].
    + split; [by rewrite Hi'|]. split; [|split].
      * intros j b Hj. rewrite Hs'. by apply Hst.
      * intros j Hj. rewrite Hs'. by apply Hno.
      * intros t0. rewrite Ht'. intros [= <-] Hstage. rewrite (Hidx Hstage), Hi. done.
    + rewrite unstoredNetwork_view, Ht', Hb'. rewrite Ht in Hlog. simpl in Hlog.
      rewrite <- Hlog. f_equal.
      destruct (decide (stage t = AwaitNetworkStore)) as [Hstage|Hstage].
      * rewrite Hstage, Hn. destruct (v_buffer st sid); simpl; by rewrite ?app_nil_r.
      * rewrite (Hemp Hstage). destruct (v_buffer st sid); simpl;
          by destruct (stage t).
    + by rewrite Hc'.
  - exists (bs ++ [networkEventsToFlush t]), more.
    pose proof (Htask t Ht Hstage) as Hbi.
    split; [|split].
    + split; [|split; [|split]].
      * rewrite Hi', Hbi, length_app. simpl. f_equal. lia.
      * intros j b Hj. rewrite Hs'. destruct (decide (N.of_nat j = batchIndex t)) as [Hj'|Hj'].
        -- rewrite Hbi in Hj'. apply Nat2N.inj in Hj'. subst j.
           rewrite lookup_app_r, Nat.sub_diag in Hj by done. by injection Hj as <-.
        -- apply Hst. apply lookup_app_Some in Hj as [Hj|[Hlen Hj]]; [done|].
           destruct (j - length bs)%nat as [|n] eqn:Hn; [|done].
           exfalso. apply Hj'. rewrite Hbi. f_equal. lia.
      * intros j Hj. rewrite Hs'. rewrite length_app in Hj. simpl in Hj.
        rewrite decide_False by lia. apply Hno. lia.
      * intros t' Ht' Hstage'. by apply Hnext in Ht'.
    + rewrite unstoredNetwork_view, Hb'. rewrite Ht, Hstage in Hlog.
      rewrite concat_app. simpl. rewrite app_nil_r, <- Hlog, <- !app_assoc. f_equal. f_equal.
      destruct (v_task st' sid) as [t'|] eqn:Ht'; [|done].
      pose proof (Hnext t' eq_refl) as Hn'. by destruct (stage t').
    + by rewrite Hc'.
  - exists bs, more. split; [|split].
    + split; [by rewrite Hi'|]. split; [|split].
      * intros j b Hj. rewrite Hs'. by apply Hst.
      * intros j Hj. rewrite Hs'. by apply Hno.
      * intros t' Ht' Hstage'. by apply Hnext in Ht'.
    + rewrite unstoredNetwork_view, Hb'. rewrite Ht in Hlog. rewrite <- Hlog.
      f_equal. f_equal.
      destruct (v_task st' sid) as [t'|] eqn:Ht'.
      * pose proof (Hnext t' eq_refl) as Hn'. by destruct (stage t'), (stage t).
      * by destruct (stage t).
    + by rewrite Hc'.
Qed.

Lemma run_accounted sid log c0 es st st' :
  Forall (keepsEvents sid) es → run st es = Some st' →
  accounted sid log c0 st → accounted sid log c0 st'.
Proof.
  apply (run_invariant_when (accounted sid log c0) (keepsEvents sid)).
  intros e s k s' He Hk Hm. apply view_accounted. apply (move_view sid s k); [done|].
  by apply (mayMake_keepsKind sid e).
Qed.

(** *** The keys of the store *)

Lemma move_storeKeysKnown st k st' :
  Move st k st' → telemetryKnown st → storeKeysKnown st → storeKeysKnown st'.
Proof.
  intros Hm Hpair Hkeys key [v Hv].
  destruct (move_idb st k st' key v Hm Hv)
    as [Hold | [(s0 & t & Ht & Hshape) | (s0 & s & Hs & Hkey & _)]].
  - destruct (Hkeys key) as (s & Hs & Hshape); [by eexists|].
    exists s. split; [by apply (move_known st k)|done].
  - exists s0. split.
    + apply (move_known st k); [done|].
      destruct (Hpair s0) as (_ & _ & _ & _ & _ & _ & _ & Hfl).
      apply Hfl. by eexists.
    + destruct Hshape as [(_ & -> & _) | [(_ & -> & _) | (_ & -> & _)]]; eauto.
  - exists s0. split; [|by repeat right].
    apply (move_known st k); [done|]. by eexists.
Qed.

Lemma reachable_storeKeysKnown es st : run initialState es = Some st → storeKeysKnown st.
Proof.
  intros Hrun.
  apply (run_invariant (λ s, telemetryKnown s ∧ storeKeysKnown s) es initialState st);
    [|done|].
  - intros s k s' Hm [Hp Hk]. split.
    + by apply (move_telemetryKnown s k).
    + by apply (move_storeKeysKnown s k).
  - split; [by apply (reachable_telemetryKnown [])|].
    intros k [v Hv]. cbn in Hv. by rewrite lookup_empty in Hv.
Qed.

Lemma startsWith_same_head (a b c : string) :
  JS.startsWith (a +:+ b) (a +:+ c) = JS.startsWith b c.
Proof.
  induction a as [|x a IH]; [done|].
  rewrite !JSFacts.append_cons. cbn [JS.startsWith]. by rewrite Ascii.eqb_refl.
Qed.

Lemma otherKey_no_prefix sid k :
  otherKey sid k → JS.startsWith (Storage.networkBatchPrefix sid) k = false.
Proof.
  unfold Storage.networkBatchPrefix.
  destruct 1; unfold Storage.createStorageKey, Storage.typeName;
    rewrite ?JSFacts.append_assoc, startsWith_same_head; by rewrite !JSFacts.append_cons.
Qed.

(** Among the keys written for registered sessions, those under the
    network prefix of a session are its network batch keys. *)
Lemma network_keys_of_session st sid k :
  storeKeysKnown st → sessionsWellFormed st → colonFree sid = true →
  is_Some (idb st !! k) → JS.startsWith (Storage.networkBatchPrefix sid) k = true →
  ∃ j, k = Storage.networkBatchKey sid j.
Proof.
  intros Hkeys Hwf Hsid Hk Hpre.
  destruct (Hkeys k Hk) as (s & [rec Hs] & Hshape).
  assert (colonFree s = true) as Hcf.
  { destruct (Hwf s rec Hs) as [_ ->]. apply KeyFacts.mkSessionId_colonFree. }
  assert (∀ rest, k = s +:+ String ":" rest → s = sid) as Hsame.
  { intros rest ->. symmetry. apply (DeleteFacts.colonFree_prefix sid s rest); [done..|].
    apply (DeleteFacts.startsWith_append_l _ "network:batch:").
    by rewrite JSFacts.append_assoc. }
  destruct Hshape as [[j ->] | [[j ->] | [[j ->] | Hother]]].
  - exists j. f_equal. apply (Hsame ("network:batch:" +:+ JS.numToString j)).
    unfold Storage.networkBatchKey, Storage.networkBatchPrefix.
    by rewrite JSFacts.append_assoc.
  - exfalso.
    assert (s = sid) as ->.
    { apply (Hsame ("console:batch:" +:+ JS.numToString j)).
      unfold Storage.consoleBatchKey, Storage.consoleBatchPrefix.
      by rewrite JSFacts.append_assoc. }
    unfold Storage.consoleBatchKey, Storage.consoleBatchPrefix,
      Storage.networkBatchPrefix in Hpre.
    rewrite JSFacts.append_assoc, startsWith_same_head in Hpre.
    by rewrite !JSFacts.append_cons in Hpre.
  - exfalso.
    assert (s = sid) as ->.
    { apply (Hsame ("dom:batch:" +:+ JS.numToString j)).
      unfold Storage.domBatchKey, Storage.domBatchPrefix.
      by rewrite JSFacts.append_assoc. }
    unfold Storage.domBatchKey, Storage.domBatchPrefix,
      Storage.networkBatchPrefix in Hpre.
    rewrite JSFacts.append_assoc, startsWith_same_head in Hpre.
    by rewrite !JSFacts.append_cons in Hpre.
  - exfalso.
    assert (s = sid) as ->.
    { destruct Hother.
      - by apply (Hsame "metadata").
      - by apply (Hsame "state").
      - apply (Hsame ("screenshot:" +:+ JS.numToString i +:+ ":metadata")).
        unfold Storage.createStorageKey, Storage.typeName.
        by rewrite !JSFacts.append_assoc. }
    by rewrite (otherKey_no_prefix sid k Hother) in Hpre.
Qed.

(** The stored batches of a session are what [getNetworkEvents] reads. *)
Lemma getNetworkEvents_batchesOf st sid bs :
  storeKeysKnown st → sessionsWellFormed st → colonFree sid = true →
  batchesOf st sid bs →
  Storage.getNetworkEvents (idb st) sid = concat bs.
Proof.
  intros Hkeys Hwf Hsid (Hi & Hst & Hno & _). unfold Storage.getNetworkEvents.
  apply RoundTrip.getNetworkEventsFrom_batches.
  - apply RoundTrip.keys_NoDup.
  - intros k Hpre. rewrite RoundTrip.elem_of_keys, RoundTrip.elem_of_keysFrom. split.
    + intros Hk. destruct (network_keys_of_session st sid k Hkeys Hwf Hsid Hk Hpre)
        as [j ->].
      exists j. split; [|done]. split; [lia|].
      destruct (decide (j < 0 + N.of_nat (length bs))%N) as [|Hge]; [done|].
      exfalso. assert (v_store st sid j = None) as H0 by (apply Hno; lia).
      unfold v_store in H0. rewrite H0 in Hk. by destruct Hk.
    + intros (j & Hj & ->).
      assert (is_Some (bs !! N.to_nat j)) as [b Hb] by (apply lookup_lt_is_Some_2; lia).
      pose proof (Hst (N.to_nat j) b Hb) as H. rewrite N2Nat.id in H.
      unfold v_store in H. by eexists.
  - intros m b Hm. by apply Hst.
Qed.

Lemma moves_invariant_any (I : State → Prop) (ok : MoveKind → Prop) st st' :
  (∀ s k s', Move s k s' → I s → I s') → rtc (MoveOf ok) st st' → I st → I st'.
Proof.
  intros Hmove. apply (moves_invariant I ok). intros s k s' _. apply Hmove.
Qed.

Lemma fresh_accounted st0 sid c0 :
  freshTelemetry st0 sid → networkCount st0 sid = Some c0 →
  accounted sid (unstoredNetwork st0 sid) c0 st0.
Proof.
  intros (Hi & Ht & Hs) Hc. exists [], []. split; [|split].
  - split; [done|]. split; [done|]. split; [by intros|]. intros t. by rewrite Ht.
  - by rewrite app_nil_r.
  - rewrite Hc. f_equal. simpl. lia.
Qed.

Lemma fresh_known st0 sid :
  telemetryKnown st0 → freshTelemetry st0 sid →
  is_Some (smap_get (sessions st0) sid).
Proof.
  intros Hpair (Hi & _). destruct (Hpair sid) as (_ & _ & _ & _ & Hidx & _).
  apply Hidx. unfold v_index in Hi. by rewrite Hi.
Qed.

Lemma known_colonFree st sid :
  sessionsWellFormed st → is_Some (smap_get (sessions st) sid) → colonFree sid = true.
Proof.
  intros Hwf [s Hs]. destruct (Hwf sid s Hs) as [_ ->]. apply KeyFacts.mkSessionId_colonFree.
Qed.

(** Every accepted network event is accounted for. From the moment the
    telemetry of a session is set up on a store without batches of it,
    and as long as the telemetry is neither set up again nor torn down,
    the id is not registered again and no store of its flushes rejects:
    the events read back from the store followed by those awaiting
    storage (in the flush in flight, then in the buffer) are exactly the
    events accepted, in the order they were accepted, none lost, none
    twice; and the session's counter has grown by their number. *)
Theorem accepted_events_accounted (es0 es : list Event) (st0 st : State) (sid : string) :
  run initialState es0 = Some st0 →
  freshTelemetry st0 sid →
  Forall (keepsEvents sid) es →
  run st0 es = Some st →
  ∃ c0 more,
    networkCount st0 sid = Some c0 ∧
    Storage.getNetworkEvents (idb st) sid ++ unstoredNetwork st sid =
      unstoredNetwork st0 sid ++ more ∧
    networkCount st sid = Some (c0 + N.of_nat (length more))%N.
Proof.
  intros Hrun0 Hfresh Hes Hrun.
  destruct (reachable_wellFormed es0 st0 Hrun0) as [Hwf0 _].
  pose proof (reachable_telemetryKnown es0 st0 Hrun0) as Hpair0.
  pose proof (fresh_known st0 sid Hpair0 Hfresh) as Hknown.
  destruct Hknown as [s0 Hs0].
  exists (networkEventCount s0).
  assert (networkCount st0 sid = Some (networkEventCount s0)) as Hc0.
  { unfold networkCount. by rewrite Hs0. }
  pose proof (run_accounted sid _ _ es st0 st Hes Hrun (fresh_accounted st0 sid _ Hfresh Hc0))
    as (bs & more & Hbs & Hlog & Hc).
  exists more. split; [done|]. split; [|done].
  assert (run initialState (es0 ++ es) = Some st) as Hrun'.
  { by rewrite run_app, Hrun0. }
  destruct (reachable_wellFormed (es0 ++ es) st Hrun') as [Hwf _].
  rewrite (getNetworkEvents_batchesOf st sid bs); try done.
  - by apply (reachable_storeKeysKnown (es0 ++ es)).
  - apply (known_colonFree st0); [done | by eexists].
Qed.

Lemma accepted_events_accounted_witness :
  freshTelemetry recordingState "7-1000" ∧
  run recordingState accountTrace = Some accountState ∧
  (requestId <$> Storage.getNetworkEvents (idb accountState) "7-1000") = ["r1"] ∧
  (requestId <$> unstoredNetwork accountState "7-1000") = ["r2"] ∧
  ∃ c0 more,
    networkCount recordingState "7-1000" = Some c0 ∧
    Storage.getNetworkEvents (idb accountState) "7-1000" ++
      unstoredNetwork accountState "7-1000" =
      unstoredNetwork recordingState "7-1000" ++ more ∧
    networkCount accountState "7-1000" = Some (c0 + N.of_nat (length more))%N.
Proof.
  assert (freshTelemetry recordingState "7-1000") as Hfresh.
  { split; [vm_compute; reflexivity|]. split; [vm_compute; reflexivity|].
    intros j. unfold v_store.
    replace (idb recordingState) with (∅ : gmap string Storage.value)
      by (vm_compute; reflexivity).
    apply lookup_empty. }
  split; [exact Hfresh|].
  split; [vm_compute; reflexivity|]. split; [vm_compute; reflexivity|].
  split; [vm_compute; reflexivity|].
  apply (accepted_events_accounted
           [StartRecording 7 true false (startEnv 1000); MediaReady "7-1000"]
           accountTrace recordingState accountState "7-1000");
    [vm_compute; reflexivity | exact Hfresh | | vm_compute; reflexivity].
  repeat constructor.
Defined.

(** *** A flush called when none is in flight *)

Lemma moves_of_flush_to_end (P : MoveKind → Prop) st sid now0 now1 now2 now3 :
  P Plain → P (Settles sid) →
  rtc (MoveOf P) st
    (flushStoreSettled
       (flushStoreSettled
          (flushStoreSettled (flushTelemetryBuffers st sid now0) sid true now1)
          sid true now2) sid true now3).
Proof.
  intros HP HS.
  assert (∀ s now, rtc (MoveOf P) s (flushStoreSettled s sid true now)) as Hsettle.
  { intros s now. destruct (flushInProgress s !! sid) as [t|] eqn:Ht.
    - apply rtc_once. by apply (move_settle P s sid true now t).
    - by rewrite flushStoreSettled_idle. }
  etrans; [apply (moves_flush P HP)|].
  etrans; [apply Hsettle|]. etrans; [apply Hsettle|]. apply Hsettle.
Qed.

Lemma moves_reachable st st' :
  rtc (MoveOf (λ _, True)) st st' →
  sessionsWellFormed st ∧ telemetryKnown st ∧ storeKeysKnown st →
  sessionsWellFormed st' ∧ telemetryKnown st' ∧ storeKeysKnown st'.
Proof.
  apply (moves_invariant_any
           (λ s, sessionsWellFormed s ∧ telemetryKnown s ∧ storeKeysKnown s)).
  intros s k s' Hm (Hwf & Hp & Hk). split; [|split].
  - by apply (move_sessionsWellFormed s k).
  - by apply (move_telemetryKnown s k).
  - by apply (move_storeKeysKnown s k).
Qed.

(** What a final flush relies on. Under the conditions of the accounting
    above, a flush that is called when no flush of the session is in
    flight, and whose stores resolve, leaves nothing awaiting storage:
    the store then holds every network event accepted so far, in the
    order of acceptance, and their number is the session's counter. *)
Theorem idle_flush_stores_everything (es0 es : list Event) (st0 st : State)
    (sid : string) (now0 now1 now2 now3 : Z) :
  run initialState es0 = Some st0 →
  freshTelemetry st0 sid →
  Forall (keepsEvents sid) es →
  run st0 es = Some st →
  flushInProgress st !! sid = None →
  let st' :=
    flushStoreSettled
      (flushStoreSettled
         (flushStoreSettled (flushTelemetryBuffers st sid now0) sid true now1)
         sid true now2) sid true now3 in
  ∃ c0 more,
    networkCount st0 sid = Some c0 ∧
    Storage.getNetworkEvents (idb st') sid = unstoredNetwork st0 sid ++ more ∧
    unstoredNetwork st' sid = [] ∧
    networkCount st' sid = Some (c0 + N.of_nat (length more))%N.
Proof.
  intros Hrun0 Hfresh Hes Hrun Hidle st'.
  destruct (reachable_wellFormed es0 st0 Hrun0) as [Hwf0 _].
  pose proof (reachable_telemetryKnown es0 st0 Hrun0) as Hpair0.
  destruct (fresh_known st0 sid Hpair0 Hfresh) as [s0 Hs0].
  assert (networkCount st0 sid = Some (networkEventCount s0)) as Hc0.
  { unfold networkCount. by rewrite Hs0. }
  pose proof (run_accounted sid _ _ es st0 st Hes Hrun (fresh_accounted st0 sid _ Hfresh Hc0))
    as Hacc.
  assert (accounted sid (unstoredNetwork st0 sid) (networkEventCount s0) st') as Hacc'.
  { revert Hacc. apply (moves_invariant _ (keepsKind sid)).
    - intros s k s' Hk Hm. apply view_accounted. by apply (move_view sid s k).
    - by apply moves_of_flush_to_end. }
  destruct Hacc' as (bs & more & Hbs & Hlog & Hc).
  assert (unstoredNetwork st' sid = []) as Hnone.
  { unfold st', flushTelemetryBuffers. rewrite Hidle, doFlush_splice.
    pose proof (flushNetwork_ends (spliceBuffers st sid) sid
                  (default [] (networkEventBuffers st !! sid))
                  (default [] (consoleEventBuffers st !! sid))
                  (default [] (domEventBuffers st !! sid)) now0 now1 now2 now3)
      as (_ & _ & _ & _ & H5 & _ & _ & H8).
    cbv zeta in *. unfold unstoredNetwork, inFlightNetwork. rewrite H5, H8.
    unfold spliceBuffers. state_proj. rewrite lookup_alter_eq.
    by destruct (networkEventBuffers st !! sid). }
  exists (networkEventCount s0), more. split; [done|].
  rewrite Hnone, app_nil_r in Hlog. split; [|done].
  assert (run initialState (es0 ++ es) = Some st) as Hrun' by by rewrite run_app, Hrun0.
  destruct (reachable_wellFormed (es0 ++ es) st Hrun') as [Hwf _].
  destruct (moves_reachable st st') as (Hwf' & _ & Hkeys').
  { by apply moves_of_flush_to_end. }
  { split; [done|]. split.
    - by apply (reachable_telemetryKnown (es0 ++ es)).
    - by apply (reachable_storeKeysKnown (es0 ++ es)). }
  rewrite <- Hlog. apply getNetworkEvents_batchesOf; try done.
  apply (known_colonFree st0); [done | by eexists].
Qed.

Lemma idle_flush_stores_everything_witness :
  let st' :=
    flushStoreSettled
      (flushStoreSettled
         (flushStoreSettled (flushTelemetryBuffers accountState "7-1000" 11200)
            "7-1000" true 11300) "7-1000" true 11310) "7-1000" true 11320 in
  (requestId <$> Storage.getNetworkEvents (idb st') "7-1000") = ["r1"; "r2"] ∧
  ∃ c0 more,
    networkCount recordingState "7-1000" = Some c0 ∧
    Storage.getNetworkEvents (idb st') "7-1000" =
      unstoredNetwork recordingState "7-1000" ++ more ∧
    unstoredNetwork st' "7-1000" = [] ∧
    networkCount st' "7-1000" = Some (c0 + N.of_nat (length more))%N.
Proof.
  intros st'.
  assert (freshTelemetry recordingState "7-1000") as Hfresh.
  { split; [vm_compute; reflexivity|]. split; [vm_compute; reflexivity|].
    intros j. unfold v_store.
    replace (idb recordingState) with (∅ : gmap string Storage.value)
      by (vm_compute; reflexivity).
    apply lookup_empty. }
  split; [vm_compute; reflexivity|].
  apply (idle_flush_stores_everything
           [StartRecording 7 true false (startEnv 1000); MediaReady "7-1000"]
           accountTrace recordingState accountState "7-1000" 11200 11300 11310 11320);
    [vm_compute; reflexivity | exact Hfresh | | vm_compute; reflexivity
    | vm_compute; reflexivity].
  repeat constructor.
Defined.

(** ** The teardown of a stopped session *)

Lemma activeSession_no_index st tab :
  tabIdToSessionId st !! tab = None → activeSession st tab = None.
Proof. intros H. unfold activeSession. by rewrite H. Qed.

Lemma cdp_event_ignored st tab e :
  activeSession st tab = None → cdpEventOn tab e → step st e = Some st.
Proof.
  intros Hact. destruct e; cbn; try done; intros ->;
    unfold handleNetworkRequestWillBeSent, handleNetworkResponse,
      handleNetworkLoadingFailed, handleConsoleAPICalled, handleExceptionThrown,
      handleCDPDetach; by rewrite Hact.
Qed.

Lemma teardown_session st sid detached tab s :
  smap_get (sessions st) sid = Some s →
  smap_get (sessions (handleMediaStopped_teardown st sid detached tab).1) sid =
  Some (set_offscreenDocumentActive false
          (set_sstatus Completed
             (if debuggerAttached s && detached then set_debuggerAttached false s else s))).
Proof.
  intros Hs. unfold handleMediaStopped_teardown. rewrite Hs.
  destruct tab as [[u t]|], (debuggerAttached s && detached); cbn [fst];
    unfold cleanupTelemetry; state_proj;
    rewrite !smap_get_alter, ?decide_True by done; by rewrite Hs.
Qed.

Lemma teardown_idb st sid detached tab s :
  smap_get (sessions st) sid = Some s →
  idb (handleMediaStopped_teardown st sid detached tab).1 =
  match tab with
  | Some (u, t) => Storage.storeSessionMetadata (idb st) sid (completedMetadata s u t)
  | None => idb st
  end.
Proof.
  intros Hs. unfold handleMediaStopped_teardown. rewrite Hs.
  by destruct tab as [[u t]|], (debuggerAttached s && detached).
Qed.

Lemma teardown_maps st sid detached tab s :
  smap_get (sessions st) sid = Some s →
  let st' := (handleMediaStopped_teardown st sid detached tab).1 in
  networkEventBuffers st' = delete sid (networkEventBuffers st) ∧
  consoleEventBuffers st' = delete sid (consoleEventBuffers st) ∧
  domEventBuffers st' = delete sid (domEventBuffers st) ∧
  pendingNetworkRequests st' = delete sid (pendingNetworkRequests st) ∧
  networkBatchIndices st' = delete sid (networkBatchIndices st) ∧
  consoleBatchIndices st' = delete sid (consoleBatchIndices st) ∧
  domBatchIndices st' = delete sid (domBatchIndices st) ∧
  tabIdToSessionId st' = delete (tabId s) (tabIdToSessionId st).
Proof.
  intros Hs. cbv zeta. unfold handleMediaStopped_teardown. rewrite Hs.
  by destruct tab as [[u t]|], (debuggerAttached s && detached).
Qed.

(** The last piece of media-stopped, for a registered session. The
    session is completed and keeps its counters; its three buffers, its
    pending table, its three batch indices and the reverse-index entry
    of its tab are deleted, so every later CDP event of that tab is
    ignored; and when the tab can still be read and the session is
    registered under its own id, the metadata read back for the session
    carries its stop time and the duration from start to stop, or no
    duration if no stop request was ever handled (or the stop time is 0,
    which JavaScript reads as absent). *)
Theorem teardown_completes_session (st : State) (sid : string) (detached : bool)
    (tab : option (string * string)) (s : SessionState) :
  smap_get (sessions st) sid = Some s →
  let r := handleMediaStopped_teardown st sid detached tab in
  success r.2 = true ∧
  (∃ s', smap_get (sessions r.1) sid = Some s' ∧
         sstatus s' = Completed ∧ offscreenDocumentActive s' = false ∧
         debuggerAttached s' = debuggerAttached s && negb detached ∧
         networkEventCount s' = networkEventCount s ∧
         consoleEventCount s' = consoleEventCount s ∧
         domEventCount s' = domEventCount s) ∧
  (networkEventBuffers r.1 !! sid = None ∧ consoleEventBuffers r.1 !! sid = None ∧
   domEventBuffers r.1 !! sid = None ∧ pendingNetworkRequests r.1 !! sid = None ∧
   networkBatchIndices r.1 !! sid = None ∧ consoleBatchIndices r.1 !! sid = None ∧
   domBatchIndices r.1 !! sid = None) ∧
  tabIdToSessionId r.1 !! tabId s = None ∧
  (∀ e, cdpEventOn (tabId s) e → step r.1 e = Some r.1) ∧
  (∀ u t, tab = Some (u, t) → sessionId s = sid →
          StorageExt.getSessionMetadata (idb r.1) sid = Some (completedMetadata s u t)) ∧
  (tab = None → idb r.1 = idb st).
Proof.
  intros Hs r.
  destruct (teardown_maps st sid detached tab s Hs)
    as (H1 & H2 & H3 & H4 & H5 & H6 & H7 & H8).
  cbv zeta in *. fold r in H1, H2, H3, H4, H5, H6, H7, H8.
  assert (tabIdToSessionId r.1 !! tabId s = None) as Htab
    by (rewrite H8; apply lookup_delete_eq).
  split.
  { unfold r, handleMediaStopped_teardown. by rewrite Hs. }
  split.
  { eexists. split; [by apply teardown_session|].
    destruct (debuggerAttached s) eqn:Ha, detached; by rewrite ?Ha. }
  split.
  { rewrite H1, H2, H3, H4, H5, H6, H7. by rewrite !lookup_delete_eq. }
  split; [done|]. split.
  { intros e He. apply (cdp_event_ignored _ (tabId s)); [|done].
    by apply activeSession_no_index. }
  split.
  - intros u t -> _. unfold r. rewrite (teardown_idb st sid detached _ s Hs).
    unfold StorageExt.getSessionMetadata, Storage.storeSessionMetadata.
    by rewrite lookup_insert_eq.
  - intros ->. unfold r, handleMediaStopped_teardown. rewrite Hs.
    by destruct (debuggerAttached s && detached).
Qed.

Lemma teardown_completes_session_witness :
  let r := handleMediaStopped_teardown stoppedState "7-1000" true
             (Some ("https://example.test/", "Example")) in
  smap_get (sessions stoppedState) "7-1000" = Some stoppedSession ∧
  statusOf r.1 "7-1000" = Some Completed ∧
  (m_duration <$> StorageExt.getSessionMetadata (idb r.1) "7-1000") = Some (Some 4000) ∧
  step r.1 (NetworkRequestWillBeSent 7 (xhrRequest "r5" 6)) = Some r.1.
Proof.
  intros r.
  assert (smap_get (sessions stoppedState) "7-1000" = Some stoppedSession) as Hs
    by (vm_compute; reflexivity).
  destruct (teardown_completes_session stoppedState "7-1000" true
              (Some ("https://example.test/", "Example")) stoppedSession Hs)
    as (_ & _ & _ & _ & Hcdp & Hmeta & _).
  fold r in Hcdp, Hmeta.
  split; [exact Hs|]. split; [vm_compute; reflexivity|]. split.
  - rewrite (Hmeta _ _ eq_refl); vm_compute; reflexivity.
  - apply Hcdp. vm_compute. reflexivity.
Defined.

(** ** The size trigger of the flush *)

(** When a retained response is buffered: below 50 buffered events no
    flush is started; when the buffer reaches 50 and no flush is in
    flight, a flush starts at once and takes the whole buffer, the new
    event included, as its network batch under the next index; and
    while a flush is in flight the event only joins the buffer, however
    long the buffer is. *)
Theorem full_buffer_starts_flush (st : State) (tab : Z) (params : ResponseReceivedParams)
    (now : Z) (sid : string) (session : SessionState)
    (pend : gmap string PartialNetworkEvent) (pe : PartialNetworkEvent)
    (rid u m : string) (buf : list NetworkEvent) :
  activeSession st tab = Some (sid, session) →
  pendingNetworkRequests st !! sid = Some pend →
  pend !! rs_requestId params = Some pe →
  requiredFields pe = Some (rid, u, m) →
  networkEventBuffers st !! sid = Some buf →
  retainedKind (rs_type params) (rs_status params) →
  let st' := handleNetworkResponse st tab params now in
  let ev := completeEvent rid u m pe params in
  ((length buf + 1 < 50)%nat →
   flushInProgress st' = flushInProgress st ∧
   networkEventBuffers st' !! sid = Some (buf ++ [ev])) ∧
  ((50 ≤ length buf + 1)%nat → flushInProgress st !! sid = None →
   ∃ t, flushInProgress st' !! sid = Some t ∧ stage t = AwaitNetworkStore ∧
        networkEventsToFlush t = buf ++ [ev] ∧
        batchIndex t = default 0%N (networkBatchIndices st !! sid) ∧
        networkEventBuffers st' !! sid = Some []) ∧
  (∀ t, flushInProgress st !! sid = Some t →
        flushInProgress st' = flushInProgress st ∧
        networkEventBuffers st' !! sid = Some (buf ++ [ev])).
Proof.
  intros Hact Hpend Hpe Hreq Hbuf Hkind st' ev.
  apply shouldInclude_retainedKind in Hkind.
  assert (st' = deletePending (pushNetworkEvent st sid ev now) sid (rs_requestId params))
    as ->.
  { subst st' ev. unfold handleNetworkResponse. rewrite Hact, Hpend, Hpe, Hreq.
    cbn [status completeEvent]. by rewrite Hkind. }
  unfold deletePending. state_proj. unfold pushNetworkEvent. rewrite Hbuf.
  set (st2 := upd_sessions _ (upd_networkEventBuffers _ st)).
  assert (networkEventBuffers st2 !! sid = Some (buf ++ [ev])) as Hb2
    by (subst st2; state_proj; apply lookup_insert_eq).
  assert (flushInProgress st2 = flushInProgress st) as Hf2 by done.
  rewrite length_app. cbn [length]. unfold BUFFER_FLUSH_SIZE.
  destruct (Nat.leb_spec 50 (length buf + 1)) as [Hfull|Hroom].
  - split; [lia|]. split.
    + intros _ Hidle. rewrite <- Hf2 in Hidle.
      rewrite (flush_suspends_on_network st2 sid now (buf ++ [ev]) Hidle Hb2)
        by (by destruct buf).
      eexists. unfold suspendFlush. state_proj.
      split; [apply lookup_insert_eq|]. split; [done|]. split; [done|].
      split; [done|].
      rewrite spliceBuffers_network, lookup_alter_eq, Hb2. done.
    + intros t Ht. rewrite <- Hf2 in Ht. rewrite (flush_joins st2 sid now t Ht). done.
  - split; [done|]. split; [lia|]. done.
Qed.

Lemma full_buffer_starts_flush_witness :
  let st' := handleNetworkResponse lastRequestState 7 (xhrResponse "last") 3100 in
  length almostFullBuffer = 49%nat ∧
  flushInProgress lastRequestState !! "7-1000" = None ∧
  ∃ t, flushInProgress st' !! "7-1000" = Some t ∧ stage t = AwaitNetworkStore ∧
       length (networkEventsToFlush t) = 50%nat ∧
       networkEventBuffers st' !! "7-1000" = Some [].
Proof.
  intros st'.
  split; [vm_compute; reflexivity|]. split; [vm_compute; reflexivity|].
  assert (activeSession lastRequestState 7 =
          Some ("7-1000", default sampleSession
                            (smap_get (sessions lastRequestState) "7-1000"))) as Hact
    by (vm_compute; reflexivity).
  assert (pendingNetworkRequests lastRequestState !! "7-1000" =
          Some (default ∅ (pendingNetworkRequests lastRequestState !! "7-1000")))
    as Hpend by (vm_compute; reflexivity).
  assert (default ∅ (pendingNetworkRequests lastRequestState !! "7-1000") !! "last" =
          Some (default samplePartial
                  (pendingEntry lastRequestState "7-1000" "last"))) as Hpe
    by (vm_compute; reflexivity).
  assert (networkEventBuffers lastRequestState !! "7-1000" = Some almostFullBuffer)
    as Hbuf by (vm_compute; reflexivity).
  destruct (full_buffer_starts_flush lastRequestState 7 (xhrResponse "last") 3100
              "7-1000" _ _ _ "last" "https://example.test/api" "GET" almostFullBuffer
              Hact Hpend Hpe)
    as (_ & Hfull & _); [vm_compute; reflexivity | exact Hbuf | by left |].
  destruct Hfull as (t & Ht & Hstage & Hnet & _ & Hempty);
    [vm_compute; lia | vm_compute; reflexivity |].
  exists t. fold st' in Ht, Hempty. split; [exact Ht|]. split; [exact Hstage|].
  split; [|exact Hempty]. rewrite Hnet, length_app. vm_compute. reflexivity.
Defined.

(** ** The status query *)

Lemma keyTabs_alter (f : SessionState → SessionState) key m :
  sameIdentity f → keyTabs (smap_alter f key m) = keyTabs m.
Proof.
  intros Hf. induction m as [|[k v] m IH]; [done|]. cbn [smap_alter].
  destruct (decide (key = k)); unfold keyTabs in *; cbn [fmap list_fmap fst snd].
  - f_equal. f_equal. apply Hf.
  - f_equal. apply IH.
Qed.

Lemma keyTabs_mutate (p : SessionState → bool) (f : SessionState → SessionState) m :
  sameIdentity f → keyTabs (smap_mutate_found p f m) = keyTabs m.
Proof.
  intros Hf. induction m as [|[k v] m IH]; [done|]. cbn [smap_mutate_found].
  destruct (p v); unfold keyTabs in *; cbn [fmap list_fmap fst snd].
  - f_equal. f_equal. apply Hf.
  - f_equal. apply IH.
Qed.

Lemma entries_alter (f : SessionState → SessionState) key m :
  sameIdentity f → entriesWellFormed m → entriesWellFormed (smap_alter f key m).
Proof.
  intros Hf. induction m as [|[k v] m IH]; [done|]. intros Hwf. cbn [smap_alter].
  assert (entriesWellFormed m) as Hm by (intros ???; apply Hwf; by right).
  destruct (decide (key = k)); intros k1 s1 [[= -> ->]|Hin]%elem_of_cons.
  - destruct (Hf v) as (-> & -> & ->). apply Hwf. by left.
  - apply Hwf. by right.
  - apply Hwf. by left.
  - by apply IH.
Qed.

Lemma entries_mutate (p : SessionState → bool) (f : SessionState → SessionState) m :
  sameIdentity f → entriesWellFormed m → entriesWellFormed (smap_mutate_found p f m).
Proof.
  intros Hf. induction m as [|[k v] m IH]; [done|]. intros Hwf. cbn [smap_mutate_found].
  assert (entriesWellFormed m) as Hm by (intros ???; apply Hwf; by right).
  destruct (p v); intros k1 s1 [[= -> ->]|Hin]%elem_of_cons.
  - destruct (Hf v) as (-> & -> & ->). apply Hwf. by left.
  - apply Hwf. by right.
  - apply Hwf. by left.
  - by apply IH.
Qed.

Lemma entries_set m tab now audio mic attached :
  entriesWellFormed m →
  entriesWellFormed (smap_set m (mkSessionId tab now) (newSession tab now audio mic attached)).
Proof.
  induction m as [|[k v] m IH]; intros Hwf; cbn [smap_set].
  - by intros k1 s1 [[= -> ->]|Hin%elem_of_nil]%elem_of_cons.
  - assert (entriesWellFormed m) as Hm by (intros ???; apply Hwf; by right).
    destruct (decide (mkSessionId tab now = k)); intros k1 s1 [[= -> ->]|Hin]%elem_of_cons.
    + done.
    + apply Hwf. by right.
    + apply Hwf. by left.
    + by apply IH.
Qed.

Lemma keyTabs_set m tab now audio mic attached :
  entriesWellFormed m →
  keyTabs m `prefix_of`
    keyTabs (smap_set m (mkSessionId tab now) (newSession tab now audio mic attached)).
Proof.
  induction m as [|[k v] m IH]; intros Hwf; cbn [smap_set].
  - apply prefix_nil.
  - assert (entriesWellFormed m) as Hm by (intros ???; apply Hwf; by right).
    destruct (decide (mkSessionId tab now = k)) as [<-|E];
      unfold keyTabs in *; cbn [fmap list_fmap fst snd].
    + destruct (Hwf (mkSessionId tab now) v) as [_ Hk]; [by left|].
      apply KeyFacts.mkSessionId_inj in Hk as [<- _]. done.
    + apply prefix_cons. by apply IH.
Qed.

Lemma move_entries st k st' :
  Move st k st' → entriesWellFormed (sessions st) →
  entriesWellFormed (sessions st') ∧
  keyTabs (sessions st) `prefix_of` keyTabs (sessions st').
Proof.
  intros Hm Hwf.
  destruct (move_sessions st k st' Hm)
    as [-> | [(f & key & Hf & ->) | [(p & f & Hf & ->)
       | (tab & now & a & m & d & _ & -> & _)]]].
  - done.
  - split; [by apply entries_alter|]. by rewrite keyTabs_alter.
  - split; [by apply entries_mutate|]. by rewrite keyTabs_mutate.
  - split; [by apply entries_set|]. by apply keyTabs_set.
Qed.

Lemma reachable_entries es st :
  run initialState es = Some st → entriesWellFormed (sessions st).
Proof.
  intros Hrun.
  apply (run_invariant (λ s, entriesWellFormed (sessions s)) es initialState st);
    [|done|].
  - intros s k s' Hm Hs. by apply (move_entries s k s').
  - by intros k s Hin%elem_of_nil.
Qed.

Lemma run_entries es st st' :
  run st es = Some st' → entriesWellFormed (sessions st) →
  entriesWellFormed (sessions st') ∧
  keyTabs (sessions st) `prefix_of` keyTabs (sessions st').
Proof.
  intros Hrun Hwf.
  apply (run_invariant
           (λ s, entriesWellFormed (sessions s) ∧
                 keyTabs (sessions st) `prefix_of` keyTabs (sessions s)) es st st');
    [|done|done].
  intros s k s' Hm [Hs Hp]. destruct (move_entries s k s' Hm Hs) as [Hs' Hp'].
  split; [done|]. by etrans.
Qed.

(** The first session of a tab stays the first session of the tab when
    sessions are only appended and keep their tabs. *)
Lemma find_prefix (tab : Z) (m m' : list (string * SessionState)) (s : SessionState) :
  keyTabs m `prefix_of` keyTabs m' →
  smap_find (isOnTab tab) m = Some s →
  ∃ s' k, smap_find (isOnTab tab) m' = Some s' ∧ (k, s) ∈ m ∧ (k, s') ∈ m'.
Proof.
  revert m'. induction m as [|[k v] m IH]; intros m' Hp Hf; [done|].
  destruct m' as [|[k' v'] m']; unfold keyTabs in Hp; cbn [fmap list_fmap fst snd] in Hp.
  { by apply prefix_nil_not in Hp. }
  destruct Hp as [rest Hp]. cbn [app] in Hp. injection Hp as -> Ht Hrest.
  unfold smap_find in *. cbn [List.find snd] in *. unfold isOnTab at 1 in Hf.
  unfold isOnTab at 1. rewrite Ht.
  destruct (bool_decide (tabId v = tab)) eqn:E.
  - injection Hf as <-. exists v', k. split; [done|]. split; by left.
  - destruct (IH m') as (s' & k1 & Hf' & Hin & Hin'); [by exists rest | done |].
    exists s', k1. split; [done|]. split; by right.
Qed.

(** Once a tab has a session, every later status query for the tab
    answers with that session: its id, its tab and its start time,
    whatever was left in [chrome.storage.local] and however many
    sessions the tab started since. *)
Theorem status_reports_first_session (es0 es : list Event) (st st' : State) (tab : Z)
    (s : SessionState) (stored : option (option LastSession)) :
  run initialState es0 = Some st → run st es = Some st' →
  smap_find (isOnTab tab) (sessions st) = Some s →
  let reply := handleGetSessionStatus st' tab stored in
  si_sessionId reply = Some (sessionId s) ∧ si_tabId reply = tab ∧
  si_sessionStartTime reply = Some (sessionStartTime s).
Proof.
  intros Hrun0 Hrun Hfind reply.
  pose proof (reachable_entries es0 st Hrun0) as Hwf.
  destruct (run_entries es st st' Hrun Hwf) as [Hwf' Hp].
  destruct (find_prefix tab _ _ s Hp Hfind) as (s' & k & Hf' & Hin & Hin').
  destruct (Hwf k s Hin) as [Hid Hk]. destruct (Hwf' k s' Hin') as [Hid' Hk'].
  rewrite Hk in Hk'. apply KeyFacts.mkSessionId_inj in Hk' as [Htab Hstart].
  assert (tabId s = tab) as Hs.
  { unfold smap_find in Hfind. destruct (List.find _ _) as [[k0 v0]|] eqn:E; [|done].
    injection Hfind as ->. apply find_some in E as [_ E]. by apply bool_decide_eq_true in E. }
  subst reply. unfold handleGetSessionStatus. rewrite Hf'.
  cbn [si_sessionId si_tabId si_sessionStartTime].
  by rewrite Hid', Hid, <- Htab, <- Hstart.
Qed.

Lemma status_reports_first_session_witness :
  let reply := handleGetSessionStatus secondSessionState 7 None in
  si_sessionId reply = Some "7-1000" ∧ si_tabId reply = 7 ∧
  si_sessionStartTime reply = Some 1000 ∧ si_status reply = Completed ∧
  statusOf secondSessionState "7-9000" = Some Recording.
Proof.
  intros reply.
  assert (run completedState
            [StartRecording 7 true false (startEnv 9000); MediaReady "7-9000"] =
          Some secondSessionState) as Hrun by (vm_compute; reflexivity).
  assert (run initialState completedTrace = Some completedState) as Hrun0
    by (vm_compute; reflexivity).
  destruct (status_reports_first_session completedTrace _ completedState
              secondSessionState 7
              (default sampleSession (smap_get (sessions completedState) "7-1000")) None
              Hrun0 Hrun) as (Hid & Htab & Hstart); [vm_compute; reflexivity|].
  fold reply in Hid, Htab, Hstart.
  split; [rewrite Hid; vm_compute; reflexivity|]. split; [exact Htab|].
  split; [rewrite Hstart; vm_compute; reflexivity|].
  split; vm_compute; reflexivity.
Defined.

(** ** The keys of the store *)

Lemma known_key_prefix (sid k : string) :
  (∃ j, k = Storage.networkBatchKey sid j) ∨ (∃ j, k = Storage.consoleBatchKey sid j) ∨
  (∃ j, k = Storage.domBatchKey sid j) ∨ otherKey sid k →
  JS.startsWith (sid +:+ ":") k = true.
Proof.
  intros [[j ->] | [[j ->] | [[j ->] | Hk]]].
  - unfold Storage.networkBatchKey, Storage.networkBatchPrefix.
    change ":network:batch:" with (":" +:+ "network:batch:").
    rewrite <- (JSFacts.append_assoc sid ":"), JSFacts.append_assoc.
    apply JSFacts.startsWith_append.
  - unfold Storage.consoleBatchKey, Storage.consoleBatchPrefix.
    change ":console:batch:" with (":" +:+ "console:batch:").
    rewrite <- (JSFacts.append_assoc sid ":"), JSFacts.append_assoc.
    apply JSFacts.startsWith_append.
  - unfold Storage.domBatchKey, Storage.domBatchPrefix.
    change ":dom:batch:" with (":" +:+ "dom:batch:").
    rewrite <- (JSFacts.append_assoc sid ":"), JSFacts.append_assoc.
    apply JSFacts.startsWith_append.
  - destruct Hk; unfold Storage.createStorageKey;
      rewrite <- (JSFacts.append_assoc sid ":");
      first [ apply JSFacts.startsWith_append
            | rewrite JSFacts.append_assoc; apply JSFacts.startsWith_append ].
Qed.

(** Whatever the worker has put in the store is filed under the id of
    a session it registered: every key of the store starts with the id
    of a session of the session map, followed by a colon. *)
Theorem store_keys_belong_to_sessions (es : list Event) (st : State) (k : string) :
  run initialState es = Some st → is_Some (idb st !! k) →
  ∃ sid, is_Some (smap_get (sessions st) sid) ∧ JS.startsWith (sid +:+ ":") k = true.
Proof.
  intros Hrun Hk. destruct (reachable_storeKeysKnown es st Hrun k Hk) as (sid & Hs & Hkey).
  exists sid. split; [done|]. by apply known_key_prefix.
Qed.

Lemma store_keys_belong_to_sessions_witness :
  is_Some (idb completedState !! "7-1000:metadata") ∧
  ∃ sid, is_Some (smap_get (sessions completedState) sid) ∧
         JS.startsWith (sid +:+ ":") "7-1000:metadata" = true.
Proof.
  assert (is_Some (idb completedState !! "7-1000:metadata")) as Hk
    by (vm_compute; eexists; reflexivity).
  split; [exact Hk|].
  apply (store_keys_belong_to_sessions completedTrace completedState "7-1000:metadata");
    [vm_compute; reflexivity | exact Hk].
Defined.

(** ** The three channels under the elementary changes *)

Lemma otherKey_not_numeric s k : otherKey s k → Storage.batchIndexOf k = None.
Proof.
  destruct 1.
  - by apply (batchIndexOf_not_numeric s "metadata").
  - by apply (batchIndexOf_not_numeric s "state").
  - by apply (batchIndexOf_not_numeric
                (Storage.createStorageKey s Storage.KScreenshot (Some i)) "metadata").
Qed.

Lemma otherKey_not_console s k sid j : otherKey s k → k ≠ Storage.consoleBatchKey sid j.
Proof.
  intros Hk%otherKey_not_numeric ->.
  by rewrite StorageFacts.batchIndexOf_consoleBatchKey in Hk.
Qed.

Lemma otherKey_not_dom s k sid j : otherKey s k → k ≠ Storage.domBatchKey sid j.
Proof.
  intros Hk%otherKey_not_numeric ->.
  by rewrite StorageFacts.batchIndexOf_domBatchKey in Hk.
Qed.

Section ChannelFacts.
Context {E : Type} (C : Channel E) (sid : string).

Lemma counted_sessions st st' :
  sessions st' = sessions st → counted C sid st' = counted C sid st.
Proof. intros H. unfold counted. by rewrite H. Qed.

Lemma counted_alter (f : SessionState → SessionState) st st' key :
  sessions st' = smap_alter f key (sessions st) →
  (∀ s, ch_count C (f s) = ch_count C s) →
  counted C sid st' = counted C sid st.
Proof.
  intros Hs Hf. unfold counted. rewrite Hs, smap_get_alter.
  case_decide; [|done]. destruct (smap_get (sessions st) sid); [|done].
  simpl. by rewrite Hf.
Qed.

Lemma counted_alter_ne (f : SessionState → SessionState) st st' key :
  sessions st' = smap_alter f key (sessions st) → key ≠ sid →
  counted C sid st' = counted C sid st.
Proof.
  intros Hs Hne. unfold counted. by rewrite Hs, smap_get_alter, decide_False.
Qed.

Lemma counted_mutate (p : SessionState → bool) (f : SessionState → SessionState)
    st st' :
  sessions st' = smap_mutate_found p f (sessions st) →
  (∀ s, ch_count C (f s) = ch_count C s) →
  counted C sid st' = counted C sid st.
Proof.
  intros Hs Hf. unfold counted. rewrite Hs.
  destruct (smap_get_mutate_found p f (sessions st) sid) as [->|(v & -> & _ & ->)];
    [done|]. simpl. by rewrite Hf.
Qed.

Lemma counted_pushed (f : SessionState → SessionState) st st' s :
  sessions st' = smap_alter f sid (sessions st) →
  smap_get (sessions st) sid = Some s →
  (∀ s, ch_count C (f s) = (ch_count C s + 1)%N) →
  counted C sid st = Some (ch_count C s) ∧
  counted C sid st' = Some (ch_count C s + 1)%N.
Proof.
  intros Hs' Hs Hf. unfold counted. rewrite Hs', smap_get_alter, decide_True by done.
  rewrite Hs. simpl. by rewrite Hf.
Qed.

Lemma frame_fields st st' :
  ch_indices C st' !! sid = ch_indices C st !! sid →
  (∀ j, idb st' !! ch_key C sid j = idb st !! ch_key C sid j) →
  flushInProgress st' !! sid = flushInProgress st !! sid →
  ch_buffers C st' !! sid = ch_buffers C st !! sid →
  counted C sid st' = counted C sid st →
  ChanFrame C sid st st'.
Proof. by repeat split. Qed.

End ChannelFacts.

(** The store and the indices after a batch is stored *)
Lemma storedStage_console st s0 t sid j :
  idb (storedStage st s0 t) !! Storage.consoleBatchKey sid j =
  if decide (stage t = AwaitConsoleStore ∧ s0 = sid ∧ j = batchIndex t)
  then Some (Storage.ConsoleBatch (consoleEventsToFlush t))
  else idb st !! Storage.consoleBatchKey sid j.
Proof.
  unfold storedStage. destruct (stage t); state_proj.
  - unfold Storage.storeNetworkEventBatch. rewrite lookup_insert_ne.
    + rewrite decide_False; [done | by intros [? _]].
    + apply StorageFacts.networkBatchKey_not_console.
  - unfold Storage.storeConsoleEventBatch.
    destruct (decide (Storage.consoleBatchKey s0 (batchIndex t) =
                      Storage.consoleBatchKey sid j)) as [Heq|Hne].
    + rewrite Heq, lookup_insert_eq.
      apply KeyFacts.consoleBatchKey_inj in Heq as [-> ->]. by rewrite decide_True.
    + rewrite lookup_insert_ne by done. rewrite decide_False; [done|].
      intros (_ & -> & ->). done.
  - unfold Storage.storeDOMEventBatch. rewrite lookup_insert_ne.
    + rewrite decide_False; [done | by intros [? _]].
    + intros Heq. symmetry in Heq. by apply KeyFacts.consoleBatchKey_not_dom in Heq.
Qed.

Lemma storedStage_dom st s0 t sid j :
  idb (storedStage st s0 t) !! Storage.domBatchKey sid j =
  if decide (stage t = AwaitDOMStore ∧ s0 = sid ∧ j = batchIndex t)
  then Some (Storage.DOMBatch (domEventsToFlush t))
  else idb st !! Storage.domBatchKey sid j.
Proof.
  unfold storedStage. destruct (stage t); state_proj.
  - unfold Storage.storeNetworkEventBatch. rewrite lookup_insert_ne.
    + rewrite decide_False; [done | by intros [? _]].
    + apply StorageFacts.networkBatchKey_not_dom.
  - unfold Storage.storeConsoleEventBatch. rewrite lookup_insert_ne.
    + rewrite decide_False; [done | by intros [? _]].
    + apply KeyFacts.consoleBatchKey_not_dom.
  - unfold Storage.storeDOMEventBatch.
    destruct (decide (Storage.domBatchKey s0 (batchIndex t) =
                      Storage.domBatchKey sid j)) as [Heq|Hne].
    + rewrite Heq, lookup_insert_eq.
      apply KeyFacts.domBatchKey_inj in Heq as [-> ->]. by rewrite decide_True.
    + rewrite lookup_insert_ne by done. rewrite decide_False; [done|].
      intros (_ & -> & ->). done.
Qed.

Lemma storedStage_consoleIndex st s0 t s :
  consoleBatchIndices (storedStage st s0 t) !! s =
  if decide (stage t = AwaitConsoleStore ∧ s = s0)
  then Some (batchIndex t + 1)%N
  else consoleBatchIndices st !! s.
Proof.
  unfold storedStage. destruct (stage t); state_proj.
  - rewrite decide_False; [done | by intros [? _]].
  - destruct (decide (s = s0)) as [->|Hne].
    + by rewrite lookup_insert_eq, decide_True.
    + rewrite lookup_insert_ne by done. rewrite decide_False; [done | by intros [_ ?]].
  - rewrite decide_False; [done | by intros [? _]].
Qed.

Lemma storedStage_domIndex st s0 t s :
  domBatchIndices (storedStage st s0 t) !! s =
  if decide (stage t = AwaitDOMStore ∧ s = s0)
  then Some (batchIndex t + 1)%N
  else domBatchIndices st !! s.
Proof.
  unfold storedStage. destruct (stage t); state_proj.
  - rewrite decide_False; [done | by intros [? _]].
  - rewrite decide_False; [done | by intros [? _]].
  - destruct (decide (s = s0)) as [->|Hne].
    + by rewrite lookup_insert_eq, decide_True.
    + rewrite lookup_insert_ne by done. rewrite decide_False; [done | by intros [_ ?]].
Qed.

Lemma storedStage_untouched st s0 t :
  networkEventBuffers (storedStage st s0 t) = networkEventBuffers st ∧
  consoleEventBuffers (storedStage st s0 t) = consoleEventBuffers st ∧
  domEventBuffers (storedStage st s0 t) = domEventBuffers st ∧
  flushInProgress (storedStage st s0 t) = flushInProgress st ∧
  sessions (storedStage st s0 t) = sessions st.
Proof. unfold storedStage. by destruct (stage t). Qed.

Lemma flushSweep_untouched st s0 now :
  networkEventBuffers (flushSweep st s0 now) = networkEventBuffers st ∧
  consoleEventBuffers (flushSweep st s0 now) = consoleEventBuffers st ∧
  domEventBuffers (flushSweep st s0 now) = domEventBuffers st ∧
  networkBatchIndices (flushSweep st s0 now) = networkBatchIndices st ∧
  consoleBatchIndices (flushSweep st s0 now) = consoleBatchIndices st ∧
  domBatchIndices (flushSweep st s0 now) = domBatchIndices st ∧
  flushInProgress (flushSweep st s0 now) = delete s0 (flushInProgress st) ∧
  sessions (flushSweep st s0 now) = sessions st ∧
  idb (flushSweep st s0 now) = idb st.
Proof. unfold flushSweep. by destruct (pendingNetworkRequests st !! s0). Qed.

(** The stage a flush goes on to is a later one. *)
Lemma nextTask_later st sid t t' :
  nextTask st sid t t' → (stageRank (stage t) < stageRank (stage t'))%nat.
Proof. intros [_ H]. destruct (stage t), (stage t'); cbn; try done; lia. Qed.

Ltac chan_unfold :=
  unfold ChanFrame, ChanReset, ChanReject, batchAt, buffered, nextIndex in *;
  cbn [ch_buffers ch_indices ch_key ch_value ch_stage ch_taken ch_count
       networkChannel consoleChannel domChannel] in *.

(** *** The network channel *)

Lemma settle_network sid st t st' :
  flushInProgress st !! sid = Some t →
  networkEventBuffers st' = networkEventBuffers (storedStage st sid t) →
  sessions st' = sessions (storedStage st sid t) →
  idb st' = idb (storedStage st sid t) →
  networkBatchIndices st' = networkBatchIndices (storedStage st sid t) →
  (∀ t', flushInProgress st' !! sid = Some t' →
         (stageRank (stage t) < stageRank (stage t'))%nat ∧
         (stage t' = AwaitNetworkStore →
          batchIndex t' = default 0%N (networkBatchIndices st' !! sid))) →
  ChanSettle networkChannel sid st st'.
Proof.
  intros Ht Hb Hs Hd Hi Hnext.
  destruct (storedStage_untouched st sid t) as (Hb2 & _ & _ & _ & Hs2).
  assert (counted networkChannel sid st' = counted networkChannel sid st) as Hc.
  { apply counted_sessions. by rewrite Hs, Hs2. }
  destruct (decide (stage t = AwaitNetworkStore)) as [Hstage|Hstage].
  - apply (chan_stored _ _ _ _ t); chan_unfold; try done.
    + intros j. rewrite Hd, storedStage_store.
      destruct (decide (j = batchIndex t)) as [->|Hne].
      * by rewrite decide_True.
      * rewrite decide_False; [done | by intros (_ & _ & ?)].
    + rewrite Hi, storedStage_index. by rewrite decide_True.
    + by rewrite Hb, Hb2.
    + intros t' Ht'. by apply Hnext.
  - apply (chan_settled _ _ _ _ t); chan_unfold; try done.
    + rewrite Hi, storedStage_index. rewrite decide_False; [done | by intros [? _]].
    + intros j. rewrite Hd, storedStage_store.
      rewrite decide_False; [done | by intros [? _]].
    + by rewrite Hb, Hb2.
Qed.

Lemma settle_network_other sid s0 st t st' :
  s0 ≠ sid →
  networkEventBuffers st' = networkEventBuffers (storedStage st s0 t) →
  sessions st' = sessions (storedStage st s0 t) →
  idb st' = idb (storedStage st s0 t) →
  networkBatchIndices st' = networkBatchIndices (storedStage st s0 t) →
  flushInProgress st' !! sid = flushInProgress st !! sid →
  ChanFrame networkChannel sid st st'.
Proof.
  intros Hne Hb Hs Hd Hi Hf.
  destruct (storedStage_untouched st s0 t) as (Hb2 & _ & _ & _ & Hs2).
  apply frame_fields; chan_unfold; try done.
  - rewrite Hi, storedStage_index. rewrite decide_False; [done | by intros [_ ?]].
  - intros j. rewrite Hd, storedStage_store.
    rewrite decide_False; [done | by intros (_ & ? & _)].
  - by rewrite Hb, Hb2.
  - apply counted_sessions. by rewrite Hs, Hs2.
Qed.

Lemma move_networkChannel sid st k st' :
  Move st k st' → ChanStep networkChannel sid k st st'.
Proof.
  intros Hm.
  destruct Hm as [f s0 Hid Hcnt|p f Hid Hcnt|tab now a m d|s0 s Hs|s0 s Hs|s0
                 |s0 s key v Hs Hkey Hv
                 |tab s0 session pend params Hact Hpend|s0 rid0
                 |tab s0 session buf key pe0 ev Hact Hbuf
                 |tab s0 session buf ev Hact Hbuf
                 |s0 session buf ev Hs Hrec Hbuf|s0 t Hidle Hstart|s0 now Hidle
                 |s0 t t' Ht Hnext|s0 t now Ht Hlast|s0 t Ht]; cbn [ChanStep].
  - apply chan_frame, frame_fields; try done.
    apply (counted_alter _ _ f _ _ s0); [done|]. intros s. by destruct (Hcnt s) as (? & ? & ?).
  - apply chan_frame, frame_fields; try done.
    apply (counted_mutate _ _ p f); [done|]. intros s. by destruct (Hcnt s) as (? & ? & ?).
  - case_decide as Hsid.
    + by repeat split.
    + apply frame_fields; try done. unfold counted. state_proj.
      rewrite smap_get_set, decide_False; [done | congruence].
  - intros Hne. apply frame_fields; try done; chan_unfold; unfold initTelemetry;
      state_proj; by rewrite lookup_insert_ne.
  - intros Hne. apply frame_fields; try done; chan_unfold; unfold cleanupTelemetry;
      state_proj; by rewrite lookup_delete_ne.
  - unfold stopFlushTimer. destruct (flushTimers st !! s0); by apply chan_frame, frame_fields.
  - apply chan_frame, frame_fields; chan_unfold; state_proj; try done.
    intros j. rewrite lookup_insert_ne; [done|]. by apply (otherKey_not_network s0).
  - by apply chan_frame, frame_fields.
  - by apply chan_frame, frame_fields.
  - apply activeSession_Some in Hact as (_ & Hs & _).
    destruct (decide (s0 = sid)) as [->|Hne].
    + destruct (counted_pushed networkChannel sid
                  (λ s, set_networkEventCount (networkEventCount s + 1)%N s) st
                  (upd_sessions
                     (smap_alter (λ s, set_networkEventCount (networkEventCount s + 1)%N s)
                        sid) (upd_networkEventBuffers (<[sid := buf ++ [ev]]>) st))
                  session eq_refl Hs (λ _, eq_refl)) as [Hc Hc'].
      apply (chan_push _ _ _ _ ev buf (networkEventCount session)); chan_unfold;
        state_proj; try done. apply lookup_insert_eq.
    + apply chan_frame, frame_fields; chan_unfold; state_proj; try done.
      * by rewrite lookup_insert_ne.
      * by apply (counted_alter_ne _ _
                    (λ s, set_networkEventCount (networkEventCount s + 1)%N s) _ _ s0).
  - apply chan_frame, frame_fields; try done.
    by apply (counted_alter _ _
                (λ s, set_consoleEventCount (consoleEventCount s + 1)%N s) _ _ s0).
  - apply chan_frame, frame_fields; try done.
    by apply (counted_alter _ _ (λ s, set_domEventCount (domEventCount s + 1)%N s) _ _ s0).
  - destruct (decide (s0 = sid)) as [->|Hne].
    + destruct Hstart as (Hn & Hc & Hd & Hstage).
      apply (chan_start _ _ _ _ t); chan_unfold; unfold suspendFlush, spliceBuffers;
        state_proj; try done.
      * apply lookup_insert_eq.
      * apply lookup_alter_eq.
      * intros Hst. rewrite Hst in Hstage. by destruct Hstage.
      * intros Hst. rewrite <- Hn. destruct (stage t); cbn in Hst; try lia;
          by destruct Hstage.
    + apply chan_frame, frame_fields; chan_unfold; unfold suspendFlush, spliceBuffers;
        state_proj; try done.
      * by rewrite lookup_insert_ne.
      * by rewrite lookup_alter_ne.
  - destruct (flushSweep_untouched st s0 now)
      as (Hb1 & Hb2 & Hb3 & Hi1 & Hi2 & Hi3 & Hf & Hs & Hd).
    apply chan_frame, frame_fields; chan_unfold; try done.
    + by rewrite Hi1.
    + intros j. by rewrite Hd.
    + rewrite Hf. destruct (decide (s0 = sid)) as [->|Hne].
      * by rewrite lookup_delete_eq, Hidle.
      * by rewrite lookup_delete_ne.
    + by rewrite Hb1.
    + by apply counted_sessions.
  - case_decide as Hsid.
    + subst s0. apply (settle_network sid st t); try done.
      unfold suspendFlush. state_proj. rewrite lookup_insert_eq. intros t0 [= <-].
      split; [exact (nextTask_later _ _ _ _ Hnext)|].
      destruct Hnext as [_ Hstage]. intros Hs'. rewrite Hs' in Hstage.
      by destruct (stage t).
    + apply (settle_network_other sid s0 st t); try done.
      unfold suspendFlush. state_proj. rewrite lookup_insert_ne by done.
      by destruct (storedStage_untouched st s0 t) as (_ & _ & _ & -> & _).
  - destruct (flushSweep_untouched (storedStage st s0 t) s0 now)
      as (Hb1 & Hb2 & Hb3 & Hi1 & Hi2 & Hi3 & Hf & Hs & Hd).
    case_decide as Hsid.
    + subst s0. apply (settle_network sid st t); try done.
      intros t'. rewrite Hf, lookup_delete_eq. done.
    + apply (settle_network_other sid s0 st t); try done.
      rewrite Hf, lookup_delete_ne by done.
      by destruct (storedStage_untouched st s0 t) as (_ & _ & _ & -> & _).
  - case_decide as Hsid.
    + subst s0. chan_unfold. state_proj. rewrite lookup_delete_eq. by repeat split.
    + apply frame_fields; chan_unfold; state_proj; try done.
      by rewrite lookup_delete_ne.
Qed.

(** *** The console channel *)

Lemma settle_console sid st t st' :
  flushInProgress st !! sid = Some t →
  consoleEventBuffers st' = consoleEventBuffers (storedStage st sid t) →
  sessions st' = sessions (storedStage st sid t) →
  idb st' = idb (storedStage st sid t) →
  consoleBatchIndices st' = consoleBatchIndices (storedStage st sid t) →
  (∀ t', flushInProgress st' !! sid = Some t' →
         (stageRank (stage t) < stageRank (stage t'))%nat ∧
         (stage t' = AwaitConsoleStore →
          batchIndex t' = default 0%N (consoleBatchIndices st' !! sid))) →
  ChanSettle consoleChannel sid st st'.
Proof.
  intros Ht Hb Hs Hd Hi Hnext.
  destruct (storedStage_untouched st sid t) as (_ & Hb2 & _ & _ & Hs2).
  assert (counted consoleChannel sid st' = counted consoleChannel sid st) as Hc.
  { apply counted_sessions. by rewrite Hs, Hs2. }
  destruct (decide (stage t = AwaitConsoleStore)) as [Hstage|Hstage].
  - apply (chan_stored _ _ _ _ t); chan_unfold; try done.
    + intros j. rewrite Hd, storedStage_console.
      destruct (decide (j = batchIndex t)) as [->|Hne].
      * by rewrite decide_True.
      * rewrite decide_False; [done | by intros (_ & _ & ?)].
    + rewrite Hi, storedStage_consoleIndex. by rewrite decide_True.
    + by rewrite Hb, Hb2.
    + intros t' Ht'. by apply Hnext.
  - apply (chan_settled _ _ _ _ t); chan_unfold; try done.
    + rewrite Hi, storedStage_consoleIndex. rewrite decide_False; [done | by intros [? _]].
    + intros j. rewrite Hd, storedStage_console.
      rewrite decide_False; [done | by intros [? _]].
    + by rewrite Hb, Hb2.
Qed.

Lemma settle_console_other sid s0 st t st' :
  s0 ≠ sid →
  consoleEventBuffers st' = consoleEventBuffers (storedStage st s0 t) →
  sessions st' = sessions (storedStage st s0 t) →
  idb st' = idb (storedStage st s0 t) →
  consoleBatchIndices st' = consoleBatchIndices (storedStage st s0 t) →
  flushInProgress st' !! sid = flushInProgress st !! sid →
  ChanFrame consoleChannel sid st st'.
Proof.
  intros Hne Hb Hs Hd Hi Hf.
  destruct (storedStage_untouched st s0 t) as (_ & Hb2 & _ & _ & Hs2).
  apply frame_fields; chan_unfold; try done.
  - rewrite Hi, storedStage_consoleIndex. rewrite decide_False; [done | by intros [_ ?]].
  - intros j. rewrite Hd, storedStage_console.
    rewrite decide_False; [done | by intros (_ & ? & _)].
  - by rewrite Hb, Hb2.
  - apply counted_sessions. by rewrite Hs, Hs2.
Qed.

Lemma move_consoleChannel sid st k st' :
  Move st k st' → ChanStep consoleChannel sid k st st'.
Proof.
  intros Hm.
  destruct Hm as [f s0 Hid Hcnt|p f Hid Hcnt|tab now a m d|s0 s Hs|s0 s Hs|s0
                 |s0 s key v Hs Hkey Hv
                 |tab s0 session pend params Hact Hpend|s0 rid0
                 |tab s0 session buf key pe0 ev Hact Hbuf
                 |tab s0 session buf ev Hact Hbuf
                 |s0 session buf ev Hs Hrec Hbuf|s0 t Hidle Hstart|s0 now Hidle
                 |s0 t t' Ht Hnext|s0 t now Ht Hlast|s0 t Ht]; cbn [ChanStep].
  - apply chan_frame, frame_fields; try done.
    apply (counted_alter _ _ f _ _ s0); [done|]. intros s. by destruct (Hcnt s) as (? & ? & ?).
  - apply chan_frame, frame_fields; try done.
    apply (counted_mutate _ _ p f); [done|]. intros s. by destruct (Hcnt s) as (? & ? & ?).
  - case_decide as Hsid.
    + by repeat split.
    + apply frame_fields; try done. unfold counted. state_proj.
      rewrite smap_get_set, decide_False; [done | congruence].
  - intros Hne. apply frame_fields; try done; chan_unfold; unfold initTelemetry;
      state_proj; by rewrite lookup_insert_ne.
  - intros Hne. apply frame_fields; try done; chan_unfold; unfold cleanupTelemetry;
      state_proj; by rewrite lookup_delete_ne.
  - unfold stopFlushTimer. destruct (flushTimers st !! s0); by apply chan_frame, frame_fields.
  - apply chan_frame, frame_fields; chan_unfold; state_proj; try done.
    intros j. rewrite lookup_insert_ne; [done|]. by apply (otherKey_not_console s0).
  - by apply chan_frame, frame_fields.
  - by apply chan_frame, frame_fields.
  - apply chan_frame, frame_fields; try done.
    by apply (counted_alter _ _
                (λ s, set_networkEventCount (networkEventCount s + 1)%N s) _ _ s0).
  - apply activeSession_Some in Hact as (_ & Hs & _).
    destruct (decide (s0 = sid)) as [->|Hne].
    + destruct (counted_pushed consoleChannel sid
                  (λ s, set_consoleEventCount (consoleEventCount s + 1)%N s) st
                  (upd_sessions
                     (smap_alter (λ s, set_consoleEventCount (consoleEventCount s + 1)%N s)
                        sid) (upd_consoleEventBuffers (<[sid := buf ++ [ev]]>) st))
                  session eq_refl Hs (λ _, eq_refl)) as [Hc Hc'].
      apply (chan_push _ _ _ _ ev buf (consoleEventCount session)); chan_unfold;
        state_proj; try done. apply lookup_insert_eq.
    + apply chan_frame, frame_fields; chan_unfold; state_proj; try done.
      * by rewrite lookup_insert_ne.
      * by apply (counted_alter_ne _ _
                    (λ s, set_consoleEventCount (consoleEventCount s + 1)%N s) _ _ s0).
  - apply chan_frame, frame_fields; try done.
    by apply (counted_alter _ _ (λ s, set_domEventCount (domEventCount s + 1)%N s) _ _ s0).
  - destruct (decide (s0 = sid)) as [->|Hne].
    + destruct Hstart as (Hn & Hc & Hd & Hstage).
      apply (chan_start _ _ _ _ t); chan_unfold; unfold suspendFlush, spliceBuffers;
        state_proj; try done.
      * apply lookup_insert_eq.
      * apply lookup_alter_eq.
      * intros Hst. rewrite Hst in Hstage. tauto.
      * intros Hst. rewrite <- Hc. destruct (stage t); cbn in Hst; try lia; tauto.
    + apply chan_frame, frame_fields; chan_unfold; unfold suspendFlush, spliceBuffers;
        state_proj; try done.
      * by rewrite lookup_insert_ne.
      * by rewrite lookup_alter_ne.
  - destruct (flushSweep_untouched st s0 now)
      as (Hb1 & Hb2 & Hb3 & Hi1 & Hi2 & Hi3 & Hf & Hs & Hd).
    apply chan_frame, frame_fields; chan_unfold; try done.
    + by rewrite Hi2.
    + intros j. by rewrite Hd.
    + rewrite Hf. destruct (decide (s0 = sid)) as [->|Hne].
      * by rewrite lookup_delete_eq, Hidle.
      * by rewrite lookup_delete_ne.
    + by rewrite Hb2.
    + by apply counted_sessions.
  - case_decide as Hsid.
    + subst s0. apply (settle_console sid st t); try done.
      unfold suspendFlush. state_proj. rewrite lookup_insert_eq. intros t0 [= <-].
      split; [exact (nextTask_later _ _ _ _ Hnext)|].
      destruct Hnext as [_ Hstage]. intros Hs'. rewrite Hs' in Hstage.
      chan_unfold. destruct (stage t); tauto.
    + apply (settle_console_other sid s0 st t); try done.
      unfold suspendFlush. state_proj. rewrite lookup_insert_ne by done.
      by destruct (storedStage_untouched st s0 t) as (_ & _ & _ & -> & _).
  - destruct (flushSweep_untouched (storedStage st s0 t) s0 now)
      as (Hb1 & Hb2 & Hb3 & Hi1 & Hi2 & Hi3 & Hf & Hs & Hd).
    case_decide as Hsid.
    + subst s0. apply (settle_console sid st t); try done.
      intros t'. rewrite Hf, lookup_delete_eq. done.
    + apply (settle_console_other sid s0 st t); try done.
      rewrite Hf, lookup_delete_ne by done.
      by destruct (storedStage_untouched st s0 t) as (_ & _ & _ & -> & _).
  - case_decide as Hsid.
    + subst s0. chan_unfold. state_proj. rewrite lookup_delete_eq. by repeat split.
    + apply frame_fields; chan_unfold; state_proj; try done.
      by rewrite lookup_delete_ne.
Qed.

(** *** The dom channel *)

Lemma settle_dom sid st t st' :
  flushInProgress st !! sid = Some t →
  domEventBuffers st' = domEventBuffers (storedStage st sid t) →
  sessions st' = sessions (storedStage st sid t) →
  idb st' = idb (storedStage st sid t) →
  domBatchIndices st' = domBatchIndices (storedStage st sid t) →
  (∀ t', flushInProgress st' !! sid = Some t' →
         (stageRank (stage t) < stageRank (stage t'))%nat ∧
         (stage t' = AwaitDOMStore →
          batchIndex t' = default 0%N (domBatchIndices st' !! sid))) →
  ChanSettle domChannel sid st st'.
Proof.
  intros Ht Hb Hs Hd Hi Hnext.
  destruct (storedStage_untouched st sid t) as (_ & _ & Hb2 & _ & Hs2).
  assert (counted domChannel sid st' = counted domChannel sid st) as Hc.
  { apply counted_sessions. by rewrite Hs, Hs2. }
  destruct (decide (stage t = AwaitDOMStore)) as [Hstage|Hstage].
  - apply (chan_stored _ _ _ _ t); chan_unfold; try done.
    + intros j. rewrite Hd, storedStage_dom.
      destruct (decide (j = batchIndex t)) as [->|Hne].
      * by rewrite decide_True.
      * rewrite decide_False; [done | by intros (_ & _ & ?)].
    + rewrite Hi, storedStage_domIndex. by rewrite decide_True.
    + by rewrite Hb, Hb2.
    + intros t' Ht'. by apply Hnext.
  - apply (chan_settled _ _ _ _ t); chan_unfold; try done.
    + rewrite Hi, storedStage_domIndex. rewrite decide_False; [done | by intros [? _]].
    + intros j. rewrite Hd, storedStage_dom.
      rewrite decide_False; [done | by intros [? _]].
    + by rewrite Hb, Hb2.
Qed.

Lemma settle_dom_other sid s0 st t st' :
  s0 ≠ sid →
  domEventBuffers st' = domEventBuffers (storedStage st s0 t) →
  sessions st' = sessions (storedStage st s0 t) →
  idb st' = idb (storedStage st s0 t) →
  domBatchIndices st' = domBatchIndices (storedStage st s0 t) →
  flushInProgress st' !! sid = flushInProgress st !! sid →
  ChanFrame domChannel sid st st'.
Proof.
  intros Hne Hb Hs Hd Hi Hf.
  destruct (storedStage_untouched st s0 t) as (_ & _ & Hb2 & _ & Hs2).
  apply frame_fields; chan_unfold; try done.
  - rewrite Hi, storedStage_domIndex. rewrite decide_False; [done | by intros [_ ?]].
  - intros j. rewrite Hd, storedStage_dom.
    rewrite decide_False; [done | by intros (_ & ? & _)].
  - by rewrite Hb, Hb2.
  - apply counted_sessions. by rewrite Hs, Hs2.
Qed.

Lemma move_domChannel sid st k st' :
  Move st k st' → ChanStep domChannel sid k st st'.
Proof.
  intros Hm.
  destruct Hm as [f s0 Hid Hcnt|p f Hid Hcnt|tab now a m d|s0 s Hs|s0 s Hs|s0
                 |s0 s key v Hs Hkey Hv
                 |tab s0 session pend params Hact Hpend|s0 rid0
                 |tab s0 session buf key pe0 ev Hact Hbuf
                 |tab s0 session buf ev Hact Hbuf
                 |s0 session buf ev Hs Hrec Hbuf|s0 t Hidle Hstart|s0 now Hidle
                 |s0 t t' Ht Hnext|s0 t now Ht Hlast|s0 t Ht]; cbn [ChanStep].
  - apply chan_frame, frame_fields; try done.
    apply (counted_alter _ _ f _ _ s0); [done|]. intros s. by destruct (Hcnt s) as (? & ? & ?).
  - apply chan_frame, frame_fields; try done.
    apply (counted_mutate _ _ p f); [done|]. intros s. by destruct (Hcnt s) as (? & ? & ?).
  - case_decide as Hsid.
    + by repeat split.
    + apply frame_fields; try done. unfold counted. state_proj.
      rewrite smap_get_set, decide_False; [done | congruence].
  - intros Hne. apply frame_fields; try done; chan_unfold; unfold initTelemetry;
      state_proj; by rewrite lookup_insert_ne.
  - intros Hne. apply frame_fields; try done; chan_unfold; unfold cleanupTelemetry;
      state_proj; by rewrite lookup_delete_ne.
  - unfold stopFlushTimer. destruct (flushTimers st !! s0); by apply chan_frame, frame_fields.
  - apply chan_frame, frame_fields; chan_unfold; state_proj; try done.
    intros j. rewrite lookup_insert_ne; [done|]. by apply (otherKey_not_dom s0).
  - by apply chan_frame, frame_fields.
  - by apply chan_frame, frame_fields.
  - apply chan_frame, frame_fields; try done.
    by apply (counted_alter _ _
                (λ s, set_networkEventCount (networkEventCount s + 1)%N s) _ _ s0).
  - apply chan_frame, frame_fields; try done.
    by apply (counted_alter _ _
                (λ s, set_consoleEventCount (consoleEventCount s + 1)%N s) _ _ s0).
  - pose proof Hs as Hs0.
    destruct (decide (s0 = sid)) as [->|Hne].
    + destruct (counted_pushed domChannel sid
                  (λ s, set_domEventCount (domEventCount s + 1)%N s) st
                  (upd_sessions
                     (smap_alter (λ s, set_domEventCount (domEventCount s + 1)%N s)
                        sid) (upd_domEventBuffers (<[sid := buf ++ [ev]]>) st))
                  session eq_refl Hs (λ _, eq_refl)) as [Hc Hc'].
      apply (chan_push _ _ _ _ ev buf (domEventCount session)); chan_unfold;
        state_proj; try done. apply lookup_insert_eq.
    + apply chan_frame, frame_fields; chan_unfold; state_proj; try done.
      * by rewrite lookup_insert_ne.
      * by apply (counted_alter_ne _ _
                    (λ s, set_domEventCount (domEventCount s + 1)%N s) _ _ s0).
  - destruct (decide (s0 = sid)) as [->|Hne].
    + destruct Hstart as (Hn & Hc & Hd & Hstage).
      apply (chan_start _ _ _ _ t); chan_unfold; unfold suspendFlush, spliceBuffers;
        state_proj; try done.
      * apply lookup_insert_eq.
      * apply lookup_alter_eq.
      * intros Hst. rewrite Hst in Hstage. tauto.
      * intros Hst. destruct (stage t); cbn in Hst; lia.
    + apply chan_frame, frame_fields; chan_unfold; unfold suspendFlush, spliceBuffers;
        state_proj; try done.
      * by rewrite lookup_insert_ne.
      * by rewrite lookup_alter_ne.
  - destruct (flushSweep_untouched st s0 now)
      as (Hb1 & Hb2 & Hb3 & Hi1 & Hi2 & Hi3 & Hf & Hs & Hd).
    apply chan_frame, frame_fields; chan_unfold; try done.
    + by rewrite Hi3.
    + intros j. by rewrite Hd.
    + rewrite Hf. destruct (decide (s0 = sid)) as [->|Hne].
      * by rewrite lookup_delete_eq, Hidle.
      * by rewrite lookup_delete_ne.
    + by rewrite Hb3.
    + by apply counted_sessions.
  - case_decide as Hsid.
    + subst s0. apply (settle_dom sid st t); try done.
      unfold suspendFlush. state_proj. rewrite lookup_insert_eq. intros t0 [= <-].
      split; [exact (nextTask_later _ _ _ _ Hnext)|].
      destruct Hnext as [_ Hstage]. intros Hs'. rewrite Hs' in Hstage.
      chan_unfold. destruct (stage t); tauto.
    + apply (settle_dom_other sid s0 st t); try done.
      unfold suspendFlush. state_proj. rewrite lookup_insert_ne by done.
      by destruct (storedStage_untouched st s0 t) as (_ & _ & _ & -> & _).
  - destruct (flushSweep_untouched (storedStage st s0 t) s0 now)
      as (Hb1 & Hb2 & Hb3 & Hi1 & Hi2 & Hi3 & Hf & Hs & Hd).
    case_decide as Hsid.
    + subst s0. apply (settle_dom sid st t); try done.
      intros t'. rewrite Hf, lookup_delete_eq. done.
    + apply (settle_dom_other sid s0 st t); try done.
      rewrite Hf, lookup_delete_ne by done.
      by destruct (storedStage_untouched st s0 t) as (_ & _ & _ & -> & _).
  - case_decide as Hsid.
    + subst s0. chan_unfold. state_proj. rewrite lookup_delete_eq. by repeat split.
    + apply frame_fields; chan_unfold; state_proj; try done.
      by rewrite lookup_delete_ne.
Qed.

(** ** Batch indices form a run from 0, channel by channel *)


Section Contiguous.
Context {E : Type} (C : Channel E) (sid : string).




Hypothesis move_channel : ∀ st k st', Move st k st' → ChanStep C sid k st st'.




End Contiguous.






(** ** Session status *)

Section SessionKeys.
Context {V : Type}.
Implicit Types (m : list (string * V)) (k : string).

Lemma smap_alter_keys (f : V → V) k m : (smap_alter f k m).*1 = m.*1.
Proof.
  induction m as [|[k0 v0] m IH]; [done|]. cbn [smap_alter].
  destruct (decide (k = k0)); cbn [fmap list_fmap fst]; [done|]. f_equal. apply IH.
Qed.

Lemma smap_mutate_found_keys (p : V → bool) (f : V → V) m :
  (smap_mutate_found p f m).*1 = m.*1.
Proof.
  induction m as [|[k0 v0] m IH]; [done|]. cbn [smap_mutate_found].
  destruct (p v0); cbn [fmap list_fmap fst]; [done|]. f_equal. apply IH.
Qed.

Lemma smap_set_keys_NoDup m k (v : V) : NoDup (m.*1) → NoDup ((smap_set m k v).*1).
Proof.
  intros Hnd. destruct (decide (k ∈ m.*1)) as [Hin|Hout].
  - rewrite smap_set_keys, decide_True by done. done.
  - rewrite smap_set_keys, decide_False by done.
    apply NoDup_app. split; [done|]. split; [|apply NoDup_singleton].
    intros x Hx ->%list_elem_of_singleton. done.
Qed.

(** What [get] returns once the object that [find] returns has been
    mutated *)
Lemma smap_get_found (p : V → bool) (f : V → V) m k :
  NoDup (m.*1) →
  smap_get (smap_mutate_found p f m) k =
  match List.find (λ kv, p kv.2) m with
  | Some (k0, v0) => if decide (k = k0) then Some (f v0) else smap_get m k
  | None => smap_get m k
  end.
Proof.
  induction m as [|[k0 v0] m IH]; [done|]. intros [Hk0 Hnd]%NoDup_cons.
  cbn [smap_mutate_found List.find snd]. destruct (p v0) eqn:Hp; cbn [smap_get].
  - by destruct (decide (k = k0)).
  - rewrite (IH Hnd). destruct (decide (k = k0)) as [->|Hne]; [|done].
    destruct (List.find _ m) as [[k1 v1]|] eqn:Hfind; [|done].
    rewrite decide_False; [done|]. intros <-. apply Hk0.
    apply find_some in Hfind as [Hin _]. apply list_elem_of_In in Hin.
    by apply (list_elem_of_fmap_2 fst) in Hin.
Qed.

End SessionKeys.

Lemma move_keys_NoDup st k st' :
  Move st k st' → NoDup ((sessions st).*1) → NoDup ((sessions st').*1).
Proof.
  intros Hm Hnd.
  destruct (move_sessions st k st' Hm)
    as [-> | [(f & key & _ & ->) | [(p & f & _ & ->)
       | (tab & now & a & m & d & _ & -> & _)]]].
  - done.
  - by rewrite smap_alter_keys.
  - by rewrite smap_mutate_found_keys.
  - by apply smap_set_keys_NoDup.
Qed.

Lemma reachable_keys_NoDup es st :
  run initialState es = Some st → NoDup ((sessions st).*1).
Proof.
  intros Hrun.
  apply (run_invariant (λ s, NoDup ((sessions s).*1)) es initialState st); [|done|].
  - intros s k s'. apply move_keys_NoDup.
  - apply NoDup_nil_2.
Qed.

Lemma found_entry (p : SessionState → bool) (m : list (string * SessionState))
    (k : string) (s : SessionState) :
  entriesWellFormed m → List.find (λ kv, p kv.2) m = Some (k, s) →
  sessionId s = k ∧ smap_find p m = Some s ∧ p s = true.
Proof.
  intros Hwf Hfind. unfold smap_find. rewrite Hfind.
  apply find_some in Hfind as [Hin Hp]. apply list_elem_of_In in Hin.
  by destruct (Hwf k s Hin).
Qed.

Lemma handleStopRecording_statusAfter st tab now stopSent sid :
  entriesWellFormed (sessions st) → NoDup ((sessions st).*1) →
  statusOf (handleStopRecording st tab now stopSent).1 sid =
    statusAfter st (StopRecording tab now stopSent) sid.
Proof.
  intros Hwf Hnd. unfold handleStopRecording, statusAfter, smap_find.
  destruct (List.find _ (sessions st)) as [[k s]|] eqn:Hfind; cbn [fmap option_fmap
    option_map snd fst]; [|done].
  destruct (found_entry _ _ _ _ Hwf Hfind) as (Hid & _ & _).
  unfold statusOf. state_proj. rewrite (smap_get_found _ _ _ _ Hnd), Hfind, Hid.
  destruct (decide (k = sid)) as [->|Hne].
  - by rewrite decide_True.
  - by rewrite decide_False by done.
Qed.

Lemma handleStartRecording_statusAfter st tab audio mic env sid :
  statusOf (handleStartRecording st tab audio mic env).1 sid =
    statusAfter st (StartRecording tab audio mic env) sid.
Proof.
  unfold handleStartRecording, statusAfter.
  destruct (se_streamId env); [|done]. destruct (se_offscreen env); [|done].
  cbn [negb andb].
  assert (∀ st2 r, sessions st2 =
            smap_set (sessions st) (mkSessionId tab (se_now env))
              {| sessionId := mkSessionId tab (se_now env); tabId := tab; sstatus := Idle;
                 sessionStartTime := se_now env; sessionStopTime := None;
                 includeAudio := audio; includeMicrophone := mic;
                 recordingChunkCount := 0; screenshotCount := 0; networkEventCount := 0;
                 consoleEventCount := 0; domEventCount := 0;
                 debuggerAttached := se_cdpAttach env; offscreenDocumentActive := true;
                 lastError := None; errorRecoverable := None |} →
            statusOf (st2, r : Response).1 sid =
            if bool_decide (sid = mkSessionId tab (se_now env)) then Some Idle
            else statusOf st sid) as Hset.
  { intros st2 r Hs. unfold statusOf. cbn [fst]. rewrite Hs, smap_get_set.
    by destruct (decide (sid = _)) as [->|Hne];
      [rewrite bool_decide_eq_true_2 | rewrite bool_decide_eq_false_2]. }
  destruct (se_initSent env); by apply Hset.
Qed.

Lemma step_statusAfter st e st' sid :
  entriesWellFormed (sessions st) → NoDup ((sessions st).*1) →
  step st e = Some st' → statusOf st' sid = statusAfter st e sid.
Proof.
  intros Hwf Hnd Hstep.
  destruct e; cbn [step] in Hstep; repeat case_match; simplify_eq;
    cbn [statusAfter].
  - apply handleStartRecording_statusAfter.
  - by apply handleStopRecording_statusAfter.
  - by rewrite handleTakeScreenshot_state.
  - done.
  - rewrite handleMediaReady_status. by repeat case_decide; subst.
  - apply handleRecordingChunk_status.
  - apply handleScreenshotCaptured_status.
  - apply handleMediaStopped_stopTimer_status.
  - apply handleMediaStopped_finalFlush_status.
  - rewrite handleMediaStopped_teardown_status. by repeat case_decide; subst.
  - rewrite handleMediaError_begin_status. by repeat case_decide; subst.
  - apply handleMediaError_cleanup_status.
  - apply handleDOMEventCaptured_status.
  - apply handleStateSerialized_status.
  - apply handleNetworkRequestWillBeSent_status.
  - apply handleNetworkResponse_status.
  - apply handleNetworkLoadingFailed_status.
  - apply handleConsoleAPICalled_status.
  - apply handleExceptionThrown_status.
  - apply handleCDPDetach_status.
  - apply (statusOf_sessions _ _ sid (flushTelemetryBuffers_sessions st _ now)).
  - apply (statusOf_sessions _ _ sid (flushStoreSettled_sessions st _ resolved now)).
Qed.

(** C2, as the code has it. In every state the worker reaches, every
    event gives every session exactly the status that the assignments of
    the handlers give it, whatever status it replaces: a start request
    whose stream id and offscreen document are obtained registers the
    session of its tab and clock as idle; media-ready for a registered
    session sets recording; a stop request sets stopping for the session
    it finds recording on its tab, and that session was recording; the
    last piece of media-stopped sets completed and media-error sets
    error for the registered session they name. Every other session and
    every other event leaves the status as it was; no handler compares
    the status it replaces with the one it assigns. *)
Theorem status_changes_by_assignment (es : list Event) (st st' : State) (e : Event)
    (sid : string) :
  run initialState es = Some st → step st e = Some st' →
  statusOf st' sid = statusAfter st e sid ∧
  (∀ tab now stopSent session,
     e = StopRecording tab now stopSent →
     smap_find (isRecordingOn tab) (sessions st) = Some session →
     tabId session = tab ∧ statusOf st (sessionId session) = Some Recording ∧
     statusOf st' (sessionId session) = Some Stopping) ∧
  (∀ s, e = MediaReady s → is_Some (statusOf st s) → statusOf st' s = Some Recording) ∧
  (∀ s detached tab, e = MediaStoppedTeardown s detached tab → is_Some (statusOf st s) →
     statusOf st' s = Some Completed) ∧
  (∀ s error errStage now closed, e = MediaError s error errStage now closed →
     is_Some (statusOf st s) → statusOf st' s = Some Error).
Proof.
  intros Hrun Hstep.
  pose proof (reachable_entries es st Hrun) as Hwf.
  pose proof (reachable_keys_NoDup es st Hrun) as Hnd.
  pose proof (λ x, step_statusAfter st e st' x Hwf Hnd Hstep) as Hafter.
  split; [apply Hafter|]. split; [|split; [|split]].
  - intros tab now stopSent session -> Hfind.
    assert (∃ k, List.find (λ kv, isRecordingOn tab kv.2) (sessions st) = Some (k, session))
      as [k Hk].
    { unfold smap_find in Hfind. destruct (List.find _ _) as [[k s]|]; [|done].
      injection Hfind as ->. by exists k. }
    destruct (found_entry _ _ _ _ Hwf Hk) as (Hid & _ & Hp).
    apply andb_prop in Hp as [Htab Hrec].
    apply bool_decide_eq_true in Htab, Hrec. split; [done|]. split.
    + unfold statusOf. rewrite Hid.
      assert (smap_get (sessions st) k = Some session) as ->; [|by rewrite <- Hrec].
      apply find_some in Hk as [Hin _]. apply list_elem_of_In in Hin.
      clear -Hin Hnd. induction (sessions st) as [|[k0 v0] m IH]; [by apply elem_of_nil in Hin|].
      apply NoDup_cons in Hnd as [Hk0 Hnd]. cbn [smap_get].
      apply elem_of_cons in Hin as [[= -> ->]|Hin]; [by rewrite decide_True|].
      rewrite decide_False; [by apply IH|]. intros ->. apply Hk0.
      by apply (list_elem_of_fmap_2 fst) in Hin.
    + rewrite Hafter. cbn [statusAfter]. rewrite Hfind. by rewrite decide_True.
  - intros s -> [x Hx]. rewrite Hafter. cbn [statusAfter].
    by rewrite decide_True, Hx by done.
  - intros s detached tab -> [x Hx]. rewrite Hafter. cbn [statusAfter].
    by rewrite decide_True, Hx by done.
  - intros s error errStage now closed -> [x Hx]. rewrite Hafter. cbn [statusAfter].
    by rewrite decide_True, Hx by done.
Qed.

Lemma status_changes_by_assignment_witness :
  run initialState completedTrace = Some completedState ∧
  statusOf completedState "7-1000" = Some Completed ∧
  statusOf (handleMediaReady completedState "7-1000").1 "7-1000" = Some Recording.
Proof.
  assert (run initialState completedTrace = Some completedState) as Hrun
    by (vm_compute; reflexivity).
  assert (statusOf completedState "7-1000" = Some Completed) as Hdone
    by (vm_compute; reflexivity).
  split; [exact Hrun|]. split; [exact Hdone|].
  destruct (status_changes_by_assignment completedTrace completedState
              (handleMediaReady completedState "7-1000").1 (MediaReady "7-1000")
              "7-1000" Hrun eq_refl) as (_ & _ & Hready & _).
  apply Hready; [reflexivity|]. rewrite Hdone. by eexists.
Defined.

(** C2 as stated fails: a completed session that receives media-ready is
    recording again, and the handler answers success. *)
Lemma completed_session_recording_again :
  statusOf completedState "7-1000" = Some Completed ∧
  statusOf (handleMediaReady completedState "7-1000").1 "7-1000" = Some Recording ∧
  success (handleMediaReady completedState "7-1000").2 = true ∧
  legalEdge Completed Recording = false.
Proof. vm_compute. done. Qed.

(** ** A flush and the calls that join it *)

Lemma flushIdle_Some st sid t : flushInProgress st !! sid = Some t → flushIdle st sid = false.
Proof. intros H. unfold flushIdle. rewrite H. by apply bool_decide_eq_false_2. Qed.

Lemma flushIdle_None st sid : flushInProgress st !! sid = None → flushIdle st sid = true.
Proof. intros H. unfold flushIdle. by apply bool_decide_eq_true_2. Qed.

Lemma stageRank_inj a b : stageRank a = stageRank b → a = b.
Proof. by destruct a, b. Qed.

(** A call under the guard changes nothing and is handed the flush in
    flight. *)
Lemma flush_call_joins st sid t now :
  flushInProgress st !! sid = Some t →
  flushTelemetryBuffers st sid now = st ∧ awaitedFlush st sid now = Some t.
Proof.
  intros Ht. unfold awaitedFlush, flushTelemetryBuffers. by rewrite Ht.
Qed.

(** A store that rejects ends the flush and writes nothing. *)
Lemma rejected_store_ends st sid t now :
  flushInProgress st !! sid = Some t →
  let rejected := flushStoreSettled st sid false now in
  flushInProgress rejected !! sid = None ∧ idb rejected = idb st ∧
  networkEventBuffers rejected = networkEventBuffers st ∧
  consoleEventBuffers rejected = consoleEventBuffers st ∧
  domEventBuffers rejected = domEventBuffers st.
Proof.
  intros Ht. cbv zeta. unfold flushStoreSettled. rewrite Ht. state_proj.
  by rewrite lookup_delete_eq.
Qed.

(** A call that finds no flush in flight *)
Lemma flush_call_fields st sid now :
  flushInProgress st !! sid = None →
  let st1 := flushTelemetryBuffers st sid now in
  idb st1 = idb st ∧ sessions st1 = sessions st ∧
  networkBatchIndices st1 = networkBatchIndices st ∧
  consoleBatchIndices st1 = consoleBatchIndices st ∧
  domBatchIndices st1 = domBatchIndices st ∧
  networkEventBuffers st1 = alter (λ _, []) sid (networkEventBuffers st) ∧
  consoleEventBuffers st1 = alter (λ _, []) sid (consoleEventBuffers st) ∧
  domEventBuffers st1 = alter (λ _, []) sid (domEventBuffers st) ∧
  match flushInProgress st1 !! sid with
  | Some t => startsFlush st sid t
  | None =>
      default [] (networkEventBuffers st !! sid) = [] ∧
      default [] (consoleEventBuffers st !! sid) = [] ∧
      default [] (domEventBuffers st !! sid) = []
  end.
Proof.
  intros Hidle. cbv zeta. unfold flushTelemetryBuffers. rewrite Hidle, doFlush_splice.
  unfold flushNetwork, flushConsole, flushDOM.
  destruct (default [] (networkEventBuffers st !! sid)) as [|n0 net] eqn:Hn;
    [destruct (default [] (consoleEventBuffers st !! sid)) as [|c0 con] eqn:Hc;
     [destruct (default [] (domEventBuffers st !! sid)) as [|d0 dom] eqn:Hd|]|].
  - destruct (flushSweep_untouched (spliceBuffers st sid) sid now)
      as (-> & -> & -> & -> & -> & -> & Hf & -> & ->).
    rewrite Hf, lookup_delete_eq. by repeat split.
  - rewrite suspendFlush_task. unfold startsFlush, suspendFlush, spliceBuffers.
    state_proj. cbn [stage batchIndex networkEventsToFlush consoleEventsToFlush
                     domEventsToFlush]. by rewrite Hn, Hc, Hd.
  - rewrite suspendFlush_task. unfold startsFlush, suspendFlush, spliceBuffers.
    state_proj. cbn [stage batchIndex networkEventsToFlush consoleEventsToFlush
                     domEventsToFlush]. by rewrite Hn, Hc.
  - rewrite suspendFlush_task. unfold startsFlush, suspendFlush, spliceBuffers.
    state_proj. cbn [stage batchIndex networkEventsToFlush consoleEventsToFlush
                     domEventsToFlush]. by rewrite Hn.
Qed.

(** A store that resolves hands the flush on to a later store or ends it. *)
Lemma settle_task sid st st' :
  Move st (Settles sid) st' →
  ∃ t, flushInProgress st !! sid = Some t ∧
       ((∃ t', nextTask (storedStage st sid t) sid t t' ∧
               flushInProgress st' !! sid = Some t') ∨
        (lastTask t ∧ flushInProgress st' !! sid = None)).
Proof.
  intros Hm. inversion Hm; subst.
  - eexists. split; [eassumption|]. left. eexists. split; [eassumption|].
    apply suspendFlush_task.
  - eexists. split; [eassumption|]. right. split; [assumption|].
    apply flushSweep_ends.
Qed.

Lemma mayMake_quiet sid e k :
  duringFlush sid e → (∀ resolved now, e ≠ FlushStoreSettled sid resolved now) →
  mayMake e k → quietKind sid k.
Proof.
  intros He Hne. destruct k as [s|s|s|s|s|]; cbn [mayMake quietKind]; try done.
  - by intros ->.
  - by intros [(d & t & ->) | (d & ->)].
  - intros (tab & a & m & env & -> & ->). exact He.
  - intros [now ->] ->. by apply (Hne true now).
  - intros [now ->] ->. by apply (Hne false now).
Qed.

Section Ledger.
Context {E : Type} (C : Channel E) (sid : string) (st0 : State).
Hypothesis laws : flushChannel C sid.

Lemma storedOn_same st st' :
  ch_indices C st' !! sid = ch_indices C st !! sid →
  (∀ j, batchAt C sid st' j = batchAt C sid st j) →
  storedOn C sid st0 st → storedOn C sid st0 st'.
Proof.
  intros Hi Hd [Hn Hb]. split.
  - unfold nextIndex in *. by rewrite Hi.
  - intros j. by rewrite Hd.
Qed.

Lemma unwrittenOn_same st st' :
  ch_indices C st' !! sid = ch_indices C st !! sid →
  (∀ j, batchAt C sid st' j = batchAt C sid st j) →
  unwrittenOn C sid st0 st → unwrittenOn C sid st0 st'.
Proof.
  intros Hi Hd [Hn Hb]. split; [by rewrite Hi|]. intros j. by rewrite Hd.
Qed.

Lemma unwritten_stored st :
  unwrittenOn C sid st0 st → buffered C sid st0 = [] → storedOn C sid st0 st.
Proof.
  intros [Hi Hb] Hnil. split.
  - rewrite Hnil. unfold nextIndex. by rewrite Hi.
  - intros j. rewrite Hb, decide_False; [done|]. by intros [_ ?].
Qed.

Lemma keptOn_same st st' :
  ch_buffers C st' !! sid = ch_buffers C st !! sid →
  counted C sid st' = counted C sid st →
  keptOn C sid st0 st → keptOn C sid st0 st'.
Proof. unfold keptOn, buffered. by intros -> ->. Qed.

Lemma ledger_same st st' :
  ChanFrame C sid st st' → ledger C sid st0 st → ledger C sid st0 st'.
Proof.
  intros (Hi & Hd & Hf & Hb & Hc) [Hkept Hprog]. split.
  - by apply (keptOn_same st).
  - rewrite Hf. destruct (flushInProgress st !! sid) as [t|].
    + destruct Hprog as [Ht Hprog]. split; [done|]. case_decide.
      * by apply (storedOn_same st).
      * destruct Hprog as [Hu Hs]. split; [|done]. by apply (unwrittenOn_same st).
    + by apply (storedOn_same st).
Qed.

(** While the flush is in flight, the changes other than its stores keep
    the ledger and the flush. *)
Lemma quiet_ledger st k st' t :
  Move st k st' → quietKind sid k →
  flushInProgress st !! sid = Some t ∧ ledger C sid st0 st →
  flushInProgress st' !! sid = Some t ∧ ledger C sid st0 st'.
Proof.
  intros Hm Hk [Ht Hl]. destruct laws as (Hmove & _). apply Hmove in Hm.
  assert (ChanFrame C sid st st' →
          flushInProgress st' !! sid = Some t ∧ ledger C sid st0 st') as Hframe.
  { intros Hfr. split; [|by apply (ledger_same st)].
    destruct Hfr as (_ & _ & -> & _). done. }
  destruct k as [s|s|s|s|s|]; cbn [ChanStep quietKind] in *.
  - by apply Hframe, Hm.
  - by apply Hframe, Hm.
  - rewrite decide_False in Hm by done. by apply Hframe.
  - rewrite decide_False in Hm by done. by apply Hframe.
  - rewrite decide_False in Hm by done. by apply Hframe.
  - destruct Hm as [Hfr|ev buf c Hi Hd Hf Hb Hb' Hc Hc'|t1 _ _ _ Hidle _ _ _ _ _].
    + by apply Hframe.
    + split; [by rewrite Hf|]. destruct Hl as [Hkept Hprog]. split.
      * unfold keptOn, buffered in *. rewrite Hb', Hc'. rewrite Hb, Hc in Hkept.
        destruct (counted C sid st0) as [c0|]; [|done]. cbn in *.
        injection Hkept as ->. f_equal. rewrite length_app. cbn. lia.
      * rewrite Hf, Ht. rewrite Ht in Hprog. destruct Hprog as [Htk Hprog].
        split; [done|]. case_decide.
        -- by apply (storedOn_same st).
        -- destruct Hprog as [Hu Hs]. split; [|done]. by apply (unwrittenOn_same st).
    + by rewrite Ht in Hidle.
Qed.

(** A store of the flush resolving keeps the ledger. *)
Lemma settle_ledger st st' :
  Move st (Settles sid) st' → ledger C sid st0 st → ledger C sid st0 st'.
Proof.
  intros Hm [Hkept Hprog]. destruct laws as (Hmove & Hnext & Hlast & _).
  destruct (settle_task sid st st' Hm) as (t & Ht & Hto).
  pose proof (Hmove st _ st' Hm) as Hstep. cbn [ChanStep] in Hstep.
  rewrite decide_True in Hstep by done.
  rewrite Ht in Hprog. destruct Hprog as [Htk Hprog].
  assert (∀ t', flushInProgress st' !! sid = Some t' →
                ch_taken C t' = buffered C sid st0 ∧
                (stage t' = ch_stage C → buffered C sid st0 ≠ []) ∧
                ((stageRank (stage t) < stageRank (ch_stage C))%nat →
                 (stageRank (ch_stage C) < stageRank (stage t'))%nat →
                 buffered C sid st0 = [])) as Hto'.
  { intros t' Ht'. destruct Hto as [(t1 & Hn & Ht1)|[_ Hnone]]; [|congruence].
    rewrite Ht1 in Ht'. injection Ht' as ->.
    destruct (Hnext _ _ _ Hn) as (H1 & H2 & H3). rewrite <- Htk. by rewrite H1. }
  assert (flushInProgress st' !! sid = None →
          (stageRank (stage t) < stageRank (ch_stage C))%nat →
          buffered C sid st0 = []) as Hend.
  { intros Hnone Hlt. destruct Hto as [(t1 & _ & Ht1)|[Hl _]]; [congruence|].
    rewrite <- Htk. by apply Hlast. }
  destruct Hstep as [t1 Ht1 Hst Hd Hi Hb Hc Hlater | t1 Ht1 Hst Hi Hd Hb Hc Hlater];
    rewrite Ht in Ht1; injection Ht1 as <-.
  - rewrite Hst in Hprog. rewrite decide_False in Hprog by lia.
    destruct Hprog as [[Hu1 Hu2] Hidx]. destruct (Hidx eq_refl) as [Hbi Hne].
    assert (storedOn C sid st0 st') as Hstored.
    { split.
      - unfold nextIndex at 1. rewrite Hi, Hbi. cbn.
        by destruct (buffered C sid st0).
      - intros j. rewrite Hd, Hbi, Htk, Hu2.
        destruct (decide (j = nextIndex C sid st0)) as [->|Hj].
        + by rewrite decide_True.
        + rewrite decide_False; [done | by intros [? _]]. }
    split; [by apply (keptOn_same st)|].
    destruct (flushInProgress st' !! sid) as [t'|] eqn:Ht'; [|done].
    destruct (Hto' t' eq_refl) as (Htk' & _). split; [done|].
    pose proof (Hlater t' eq_refl) as Hlt. rewrite Hst in Hlt.
    by rewrite decide_True.
  - split; [by apply (keptOn_same st)|].
    destruct (decide (stageRank (ch_stage C) < stageRank (stage t))%nat) as [Hgt|Hle].
    + assert (storedOn C sid st0 st') as Hstored by by apply (storedOn_same st).
      destruct (flushInProgress st' !! sid) as [t'|] eqn:Ht'; [|done].
      destruct (Hto' t' eq_refl) as (Htk' & _). split; [done|].
      destruct (Hlater t' eq_refl) as [Hlt _]. rewrite decide_True by lia. done.
    + assert (stageRank (stage t) < stageRank (ch_stage C))%nat as Hlt.
      { destruct (decide (stageRank (stage t) = stageRank (ch_stage C))) as [Heq|Hne].
        - by apply stageRank_inj in Heq.
        - lia. }
      destruct Hprog as [Hu _].
      assert (unwrittenOn C sid st0 st') as Hu' by by apply (unwrittenOn_same st).
      destruct (flushInProgress st' !! sid) as [t'|] eqn:Ht'.
      * destruct (Hto' t' eq_refl) as (Htk' & Hne & Hskip). split; [done|].
        destruct (Hlater t' eq_refl) as [_ Hidx]. case_decide.
        -- apply unwritten_stored; [done|]. by apply Hskip.
        -- split; [done|]. intros Hst'. split; [|by apply Hne].
           rewrite (Hidx Hst'). unfold nextIndex. by destruct Hu' as [-> _].
      * apply unwritten_stored; [done|]. by apply Hend.
Qed.

(** An event that finds the flush in flight keeps the ledger. *)
Lemma step_ledger st e st' t :
  flushInProgress st !! sid = Some t → duringFlush sid e → step st e = Some st' →
  ledger C sid st0 st → ledger C sid st0 st'.
Proof.
  intros Ht He Hstep Hl.
  assert ((∀ resolved now, e ≠ FlushStoreSettled sid resolved now) →
          ledger C sid st0 st') as Hquiet.
  { intros Hne. apply step_moves in Hstep.
    apply (moves_invariant
             (λ s, flushInProgress s !! sid = Some t ∧ ledger C sid st0 s)
             (mayMake e) st st'); [|done|done].
    intros s k s' Hk Hm. apply (quiet_ledger s k s' t Hm).
    by apply (mayMake_quiet sid e). }
  destruct e; try (apply Hquiet; intros ??; discriminate).
  destruct (decide (sid0 = sid)) as [->|Hne]; [|apply Hquiet; intros ?? [= ? _ _]; done].
  cbn [duringFlush] in He. rewrite (He eq_refl) in Hstep. cbn [step] in Hstep.
  rewrite (flushIdle_Some _ _ _ Ht) in Hstep. injection Hstep as <-.
  destruct (move_settle (λ k, k = Settles sid) st sid true now t Ht (λ _, eq_refl))
    as (k & -> & Hm); [done|]. by apply (settle_ledger st).
Qed.

Lemma runFlush_ledger es st st' :
  Forall (duringFlush sid) es → runFlush sid st es = Some st' →
  ledger C sid st0 st →
  run st es = Some st' ∧ flushInProgress st' !! sid = None ∧ ledger C sid st0 st'.
Proof.
  intros Hall. revert st. induction Hall as [|e es He Hes IH]; intros st Hrun Hl;
    cbn [runFlush run] in *.
  - unfold flushIdle in Hrun. case_bool_decide; [|done]. by injection Hrun as <-.
  - destruct (flushInProgress st !! sid) as [t|] eqn:Ht.
    + rewrite (flushIdle_Some _ _ _ Ht) in Hrun.
      destruct (step st e) as [st1|] eqn:Hstep; [|done].
      apply (IH st1 Hrun). by apply (step_ledger st e st1 t).
    + by rewrite (flushIdle_None _ _ Ht) in Hrun.
Qed.

(** Every event of the run finds the flush in flight, holding the events
    it took. *)
Lemma runFlush_in_flight es1 e es2 st st' :
  Forall (duringFlush sid) (es1 ++ e :: es2) →
  runFlush sid st (es1 ++ e :: es2) = Some st' → ledger C sid st0 st →
  ∃ s t, run st es1 = Some s ∧ flushInProgress s !! sid = Some t ∧
         ch_taken C t = buffered C sid st0.
Proof.
  revert st. induction es1 as [|e1 es1 IH]; intros st Hall Hrun Hl;
    cbn [app runFlush run] in *.
  - destruct (flushInProgress st !! sid) as [t|] eqn:Ht.
    + exists st, t. split; [done|]. split; [done|]. destruct Hl as [_ Hp].
      rewrite Ht in Hp. by destruct Hp.
    + by rewrite (flushIdle_None _ _ Ht) in Hrun.
  - apply Forall_cons in Hall as [He1 Hall].
    destruct (flushInProgress st !! sid) as [t|] eqn:Ht.
    + rewrite (flushIdle_Some _ _ _ Ht) in Hrun.
      destruct (step st e1) as [st1|] eqn:Hstep; [|done].
      apply (IH st1 Hall Hrun). by apply (step_ledger st e1 st1 t).
    + by rewrite (flushIdle_None _ _ Ht) in Hrun.
Qed.

(** What a call that finds no flush in flight leaves of the channel *)
Lemma start_ledger st1 :
  ch_indices C st1 !! sid = ch_indices C st0 !! sid →
  (∀ j, batchAt C sid st1 j = batchAt C sid st0 j) →
  counted C sid st1 = counted C sid st0 →
  ch_buffers C st1 !! sid = (λ _, []) <$> ch_buffers C st0 !! sid →
  match flushInProgress st1 !! sid with
  | Some t =>
      ch_taken C t = buffered C sid st0 ∧
      (stage t = ch_stage C →
       batchIndex t = nextIndex C sid st0 ∧ buffered C sid st0 ≠ []) ∧
      ((stageRank (ch_stage C) < stageRank (stage t))%nat → buffered C sid st0 = [])
  | None => buffered C sid st0 = []
  end →
  ledger C sid st0 st1.
Proof.
  intros Hi Hd Hc Hb Ht.
  assert (unwrittenOn C sid st0 st1) as Hu by done.
  split.
  - unfold keptOn, buffered. rewrite Hc, Hb.
    destruct (ch_buffers C st0 !! sid); destruct (counted C sid st0); cbn; try done;
      f_equal; lia.
  - destruct (flushInProgress st1 !! sid) as [t|].
    + destruct Ht as (Htk & Hst & Hskip). split; [done|]. case_decide.
      * apply unwritten_stored; [done|]. by apply Hskip.
      * by split.
    + by apply unwritten_stored.
Qed.

End Ledger.

(** *** The three channels of the flush *)

Ltac task_cases :=
  repeat match goal with
         | H : sameBatches _ _ |- _ => destruct H as (? & ? & ?)
         | H : _ ∧ _ |- _ => destruct H
         end;
  repeat split; intros; try done; try lia; try congruence.

Lemma startsFlush_taken st sid t :
  startsFlush st sid t →
  (networkEventsToFlush t = buffered networkChannel sid st ∧
   consoleEventsToFlush t = buffered consoleChannel sid st ∧
   domEventsToFlush t = buffered domChannel sid st) ∧
  match stage t with
  | AwaitNetworkStore =>
      batchIndex t = nextIndex networkChannel sid st ∧
      buffered networkChannel sid st ≠ []
  | AwaitConsoleStore =>
      batchIndex t = nextIndex consoleChannel sid st ∧
      buffered networkChannel sid st = [] ∧ buffered consoleChannel sid st ≠ []
  | AwaitDOMStore =>
      batchIndex t = nextIndex domChannel sid st ∧
      buffered networkChannel sid st = [] ∧ buffered consoleChannel sid st = [] ∧
      buffered domChannel sid st ≠ []
  end.
Proof.
  intros (Hn & Hc & Hd & Hst). chan_unfold. rewrite <- Hn, <- Hc, <- Hd.
  split; [done|]. destruct (stage t); tauto.
Qed.

Lemma networkChannel_flush sid : flushChannel networkChannel sid.
Proof.
  split; [apply move_networkChannel|]. split; [|split].
  - intros st t t' [Hsame Hst]. cbn [ch_taken ch_stage networkChannel].
    destruct (stage t), (stage t'); cbn [stageRank]; task_cases.
  - intros t Hl. cbn [ch_taken ch_stage networkChannel stageRank]. lia.
  - intros st now Hidle.
    destruct (flush_call_fields st sid now Hidle)
      as (Hd & Hs & Hi1 & Hi2 & Hi3 & Hb1 & Hb2 & Hb3 & Ht).
    apply start_ledger.
    + cbn [ch_indices networkChannel]. by rewrite Hi1.
    + intros j. unfold batchAt. by rewrite Hd.
    + by apply counted_sessions.
    + cbn [ch_buffers networkChannel]. rewrite Hb1. apply lookup_alter_eq.
    + revert Ht. cbv zeta.
      destruct (flushInProgress (flushTelemetryBuffers st sid now) !! sid) as [t|];
        intros Ht; [|by destruct Ht].
      apply startsFlush_taken in Ht as ((Hn & Hc & Hdm) & Hst).
      cbn [ch_taken ch_stage networkChannel].
      destruct (stage t); cbn [stageRank]; task_cases.
Qed.

Lemma consoleChannel_flush sid : flushChannel consoleChannel sid.
Proof.
  split; [apply move_consoleChannel|]. split; [|split].
  - intros st t t' [Hsame Hst]. cbn [ch_taken ch_stage consoleChannel].
    destruct (stage t), (stage t'); cbn [stageRank]; task_cases.
  - intros t Hl. cbn [ch_taken ch_stage consoleChannel]. unfold lastTask in Hl.
    destruct (stage t); cbn [stageRank]; task_cases.
  - intros st now Hidle.
    destruct (flush_call_fields st sid now Hidle)
      as (Hd & Hs & Hi1 & Hi2 & Hi3 & Hb1 & Hb2 & Hb3 & Ht).
    apply start_ledger.
    + cbn [ch_indices consoleChannel]. by rewrite Hi2.
    + intros j. unfold batchAt. by rewrite Hd.
    + by apply counted_sessions.
    + cbn [ch_buffers consoleChannel]. rewrite Hb2. apply lookup_alter_eq.
    + revert Ht. cbv zeta.
      destruct (flushInProgress (flushTelemetryBuffers st sid now) !! sid) as [t|];
        intros Ht; [|by destruct Ht as (_ & ? & _)].
      apply startsFlush_taken in Ht as ((Hn & Hc & Hdm) & Hst).
      cbn [ch_taken ch_stage consoleChannel].
      destruct (stage t); cbn [stageRank]; task_cases.
Qed.

Lemma domChannel_flush sid : flushChannel domChannel sid.
Proof.
  split; [apply move_domChannel|]. split; [|split].
  - intros st t t' [Hsame Hst]. cbn [ch_taken ch_stage domChannel].
    destruct (stage t), (stage t'); cbn [stageRank]; task_cases.
  - intros t Hl. cbn [ch_taken ch_stage domChannel]. unfold lastTask in Hl.
    destruct (stage t); cbn [stageRank]; task_cases.
  - intros st now Hidle.
    destruct (flush_call_fields st sid now Hidle)
      as (Hd & Hs & Hi1 & Hi2 & Hi3 & Hb1 & Hb2 & Hb3 & Ht).
    apply start_ledger.
    + cbn [ch_indices domChannel]. by rewrite Hi3.
    + intros j. unfold batchAt. by rewrite Hd.
    + by apply counted_sessions.
    + cbn [ch_buffers domChannel]. rewrite Hb3. apply lookup_alter_eq.
    + revert Ht. cbv zeta.
      destruct (flushInProgress (flushTelemetryBuffers st sid now) !! sid) as [t|];
        intros Ht; [|by destruct Ht as (_ & _ & ?)].
      apply startsFlush_taken in Ht as ((Hn & Hc & Hdm) & Hst).
      cbn [ch_taken ch_stage domChannel].
      destruct (stage t); cbn [stageRank]; task_cases.
Qed.

(** *** The flush ends *)

Lemma runFlush_settle sid st t now es :
  flushInProgress st !! sid = Some t →
  runFlush sid st (FlushStoreSettled sid true now :: es) =
  runFlush sid (flushStoreSettled st sid true now) es.
Proof.
  intros Ht. cbn [runFlush step]. by rewrite !(flushIdle_Some _ _ _ Ht).
Qed.

Lemma runFlush_over sid st : flushInProgress st !! sid = None → runFlush sid st [] = Some st.
Proof. intros H. cbn [runFlush]. by rewrite (flushIdle_None _ _ H). Qed.

Lemma ends_from_dom sid st t now :
  flushInProgress st !! sid = Some t → stage t = AwaitDOMStore →
  ∃ st', runFlush sid st (replicate 1 (FlushStoreSettled sid true now)) = Some st'.
Proof.
  intros Ht Hst. cbn [replicate]. rewrite (runFlush_settle _ _ _ _ _ Ht).
  rewrite (flushStoreSettled_resolved _ _ _ _ Ht), Hst.
  eexists. apply runFlush_over, flushSweep_ends.
Qed.

Lemma ends_from_console sid st t now :
  flushInProgress st !! sid = Some t → stage t = AwaitConsoleStore →
  ∃ k st', (k ≤ 2)%nat ∧
           runFlush sid st (replicate k (FlushStoreSettled sid true now)) = Some st'.
Proof.
  intros Ht Hst.
  destruct (domEventsToFlush t) as [|d0 dom] eqn:Hdom.
  - exists 1%nat. cbn [replicate]. rewrite (runFlush_settle _ _ _ _ _ Ht).
    rewrite (flushStoreSettled_resolved _ _ _ _ Ht), Hst, Hdom. unfold flushDOM.
    eexists. split; [lia|]. apply runFlush_over, flushSweep_ends.
  - exists 2%nat. cbn [replicate]. rewrite (runFlush_settle _ _ _ _ _ Ht).
    rewrite (flushStoreSettled_resolved _ _ _ _ Ht), Hst, Hdom. unfold flushDOM.
    match goal with
    | |- context [suspendFlush ?a sid ?t0] =>
        destruct (ends_from_dom sid _ t0 now (suspendFlush_task a sid t0) eq_refl)
          as [st' H]
    end.
    exists st'. split; [lia | exact H].
Qed.

Lemma ends_from_network sid st t now :
  flushInProgress st !! sid = Some t → stage t = AwaitNetworkStore →
  ∃ k st', (k ≤ 3)%nat ∧
           runFlush sid st (replicate k (FlushStoreSettled sid true now)) = Some st'.
Proof.
  intros Ht Hst.
  destruct (consoleEventsToFlush t) as [|c0 con] eqn:Hcon;
    [destruct (domEventsToFlush t) as [|d0 dom] eqn:Hdom|].
  - exists 1%nat. cbn [replicate]. rewrite (runFlush_settle _ _ _ _ _ Ht).
    rewrite (flushStoreSettled_resolved _ _ _ _ Ht), Hst, Hcon, Hdom.
    unfold flushConsole, flushDOM.
    eexists. split; [lia|]. apply runFlush_over, flushSweep_ends.
  - exists 2%nat. cbn [replicate]. rewrite (runFlush_settle _ _ _ _ _ Ht).
    rewrite (flushStoreSettled_resolved _ _ _ _ Ht), Hst, Hcon, Hdom.
    unfold flushConsole, flushDOM.
    match goal with
    | |- context [suspendFlush ?a sid ?t0] =>
        destruct (ends_from_dom sid _ t0 now (suspendFlush_task a sid t0) eq_refl)
          as [st' H]
    end.
    exists st'. split; [lia | exact H].
  - destruct (ends_from_console sid
                (flushStoreSettled st sid true now)
                {| stage := AwaitConsoleStore;
                   batchIndex :=
                     default 0%N (consoleBatchIndices (storedStage st sid t) !! sid);
                   networkEventsToFlush := networkEventsToFlush t;
                   consoleEventsToFlush := c0 :: con;
                   domEventsToFlush := domEventsToFlush t |} now)
      as (k & st' & Hk & H); [|done|].
    { rewrite (flushStoreSettled_resolved _ _ _ _ Ht), Hst, Hcon. unfold flushConsole.
      apply suspendFlush_task. }
    exists (S k), st'. split; [lia|]. cbn [replicate].
    by rewrite (runFlush_settle _ _ _ _ _ Ht).
Qed.

(** Whatever a state holds of a flush, at most three stores resolving
    end it. *)
Lemma flush_ends sid st now :
  ∃ k st', (k ≤ 3)%nat ∧
           runFlush sid st (replicate k (FlushStoreSettled sid true now)) = Some st'.
Proof.
  destruct (flushInProgress st !! sid) as [t|] eqn:Ht.
  - destruct (stage t) eqn:Hst.
    + by apply (ends_from_network sid st t).
    + destruct (ends_from_console sid st t now Ht Hst) as (k & st' & Hk & H).
      exists k, st'. split; [lia | done].
    + destruct (ends_from_dom sid st t now Ht Hst) as (st' & H).
      exists 1%nat, st'. split; [lia | done].
  - exists 0%nat, st. split; [lia|]. by apply runFlush_over.
Qed.

(** C1, as the code has it. A call finds no flush of the session in
    flight and starts one; from then until that flush is over the worker
    handles any events that neither set up nor tear down the telemetry
    of the session nor register its id again, among them further flush
    calls, and every store of the flush resolves. Then every event of
    that time found the flush in flight, holding the events the first
    call took out of the three buffers: a flush call made there returns
    with the state unchanged and is handed that flush, and a store
    rejecting there would end the flush with nothing written and the
    buffers as they are. When the flush is over, each channel has
    exactly one new batch, stored under the index the channel had at the
    first call and holding exactly the events then buffered, in their
    order, and its index is one more - nothing new when its buffer was
    empty - and no other batch of the session was written or changed;
    the guard is clear; and the buffer of each channel holds as many
    events as its counter has grown by since the first call. Such a run
    exists whatever the buffers hold: at most three stores resolving
    end the flush. *)
Theorem concurrent_flush_joins (st st' : State) (sid : string) (now0 : Z)
    (es : list Event) :
  flushInProgress st !! sid = None →
  Forall (duringFlush sid) es →
  runFlush sid (flushTelemetryBuffers st sid now0) es = Some st' →
  let st1 := flushTelemetryBuffers st sid now0 in
  (∀ es1 e es2, es = es1 ++ e :: es2 →
     ∃ s t, run st1 es1 = Some s ∧ flushInProgress s !! sid = Some t ∧
            networkEventsToFlush t = buffered networkChannel sid st ∧
            consoleEventsToFlush t = buffered consoleChannel sid st ∧
            domEventsToFlush t = buffered domChannel sid st ∧
            ∀ now,
              flushTelemetryBuffers s sid now = s ∧ awaitedFlush s sid now = Some t ∧
              let rejected := flushStoreSettled s sid false now in
              flushInProgress rejected !! sid = None ∧ idb rejected = idb s ∧
              networkEventBuffers rejected = networkEventBuffers s ∧
              consoleEventBuffers rejected = consoleEventBuffers s ∧
              domEventBuffers rejected = domEventBuffers s) ∧
  (storedOn networkChannel sid st st' ∧ storedOn consoleChannel sid st st' ∧
   storedOn domChannel sid st st') ∧
  (keptOn networkChannel sid st st' ∧ keptOn consoleChannel sid st st' ∧
   keptOn domChannel sid st st') ∧
  run st1 es = Some st' ∧
  flushInProgress st' !! sid = None ∧
  ∃ k st'', (k ≤ 3)%nat ∧
            runFlush sid st1 (replicate k (FlushStoreSettled sid true now0)) = Some st''.
Proof.
  intros Hidle Hall Hrun st1.
  pose proof (networkChannel_flush sid) as Ln.
  pose proof (consoleChannel_flush sid) as Lc.
  pose proof (domChannel_flush sid) as Ld.
  assert (ledger networkChannel sid st st1) as Hn by by apply Ln.
  assert (ledger consoleChannel sid st st1) as Hc by by apply Lc.
  assert (ledger domChannel sid st st1) as Hd by by apply Ld.
  destruct (runFlush_ledger networkChannel sid st Ln es st1 st' Hall Hrun Hn)
    as (Hrun' & Hover & [Hkn Hsn]).
  destruct (runFlush_ledger consoleChannel sid st Lc es st1 st' Hall Hrun Hc)
    as (_ & _ & [Hkc Hsc]).
  destruct (runFlush_ledger domChannel sid st Ld es st1 st' Hall Hrun Hd)
    as (_ & _ & [Hkd Hsd]).
  rewrite Hover in Hsn, Hsc, Hsd.
  split; [|split; [done|]; split; [done|]; split; [done|]; split; [done|];
           apply flush_ends].
  intros es1 e es2 ->.
  destruct (runFlush_in_flight networkChannel sid st Ln es1 e es2 st1 st' Hall Hrun Hn)
    as (s & t & Hs & Ht & Htn).
  destruct (runFlush_in_flight consoleChannel sid st Lc es1 e es2 st1 st' Hall Hrun Hc)
    as (s2 & t2 & Hs2 & Ht2 & Htc).
  destruct (runFlush_in_flight domChannel sid st Ld es1 e es2 st1 st' Hall Hrun Hd)
    as (s3 & t3 & Hs3 & Ht3 & Htd).
  rewrite Hs in Hs2, Hs3. injection Hs2 as <-. injection Hs3 as <-.
  rewrite Ht in Ht2, Ht3. injection Ht2 as <-. injection Ht3 as <-.
  exists s, t. repeat (split; [done|]). intros now.
  destruct (flush_call_joins s sid t now Ht) as [Hsame Hjoin].
  split; [done|]. split; [done|]. by apply (rejected_store_ends s sid t).
Qed.

Lemma concurrent_flush_joins_witness :
  runFlush "7-1000" (flushTelemetryBuffers threeChannelState "7-1000" 11000)
    joinedFlushTrace = Some joinedFlushState ∧
  (length (buffered networkChannel "7-1000" threeChannelState),
   length (buffered consoleChannel "7-1000" threeChannelState),
   length (buffered domChannel "7-1000" threeChannelState)) = (1, 1, 1)%nat ∧
  batchAt networkChannel "7-1000" joinedFlushState 0 =
    Some (Storage.NetworkBatch (buffered networkChannel "7-1000" threeChannelState)) ∧
  batchAt consoleChannel "7-1000" joinedFlushState 0 =
    Some (Storage.ConsoleBatch (buffered consoleChannel "7-1000" threeChannelState)) ∧
  batchAt domChannel "7-1000" joinedFlushState 0 =
    Some (Storage.DOMBatch (buffered domChannel "7-1000" threeChannelState)) ∧
  batchAt consoleChannel "7-1000" joinedFlushState 1 = None ∧
  length (buffered consoleChannel "7-1000" joinedFlushState) = 1%nat ∧
  flushInProgress joinedFlushState !! "7-1000" = None.
Proof.
  assert (runFlush "7-1000" (flushTelemetryBuffers threeChannelState "7-1000" 11000)
            joinedFlushTrace = Some joinedFlushState) as Hrun
    by (vm_compute; reflexivity).
  assert (Forall (duringFlush "7-1000") joinedFlushTrace) as Hall.
  { repeat constructor; by intros _. }
  destruct (concurrent_flush_joins threeChannelState joinedFlushState "7-1000" 11000
              joinedFlushTrace eq_refl Hall Hrun)
    as (_ & ([_ Hn] & [_ Hc] & [_ Hd]) & _ & _ & Hover & _).
  assert (nextIndex networkChannel "7-1000" threeChannelState = 0%N) as Hin
    by (vm_compute; reflexivity).
  assert (nextIndex consoleChannel "7-1000" threeChannelState = 0%N) as Hic
    by (vm_compute; reflexivity).
  assert (nextIndex domChannel "7-1000" threeChannelState = 0%N) as Hid
    by (vm_compute; reflexivity).
  assert (batchAt consoleChannel "7-1000" threeChannelState 1 = None) as Hnone
    by (vm_compute; reflexivity).
  rewrite Hin in Hn. rewrite Hic in Hc. rewrite Hid in Hd.
  split; [exact Hrun|]. split; [vm_compute; reflexivity|].
  split; [rewrite (Hn 0%N); apply decide_True; split; [done | by vm_compute]|].
  split; [rewrite (Hc 0%N); apply decide_True; split; [done | by vm_compute]|].
  split; [rewrite (Hd 0%N); apply decide_True; split; [done | by vm_compute]|].
  split; [rewrite (Hc 1%N), decide_False; [exact Hnone | by intros [? _]]|].
  split; [vm_compute; reflexivity | exact Hover].
Defined.

(** C1 as stated fails when a store rejects: the session has an event in
    each buffer, a flush starts, the flush timer fires and its call
    joins the flush, and the first store rejects. The flush is over, the
    three buffers are empty and the store holds no event of the
    session: the three events are dropped, though their counters tell
    of them. *)
Lemma joined_flush_rejected_drops_events :
  let st1 := flushTelemetryBuffers threeChannelState "7-1000" 11000 in
  (length (buffered networkChannel "7-1000" threeChannelState),
   length (buffered consoleChannel "7-1000" threeChannelState),
   length (buffered domChannel "7-1000" threeChannelState)) = (1, 1, 1)%nat ∧
  step st1 (FlushTimerFired 1 11001) = Some st1 ∧
  runFlush "7-1000" st1 rejectedFlushTrace = Some rejectedFlushState ∧
  flushInProgress rejectedFlushState !! "7-1000" = None ∧
  (buffered networkChannel "7-1000" rejectedFlushState,
   buffered consoleChannel "7-1000" rejectedFlushState,
   buffered domChannel "7-1000" rejectedFlushState) = ([], [], []) ∧
  Storage.getNetworkEvents (idb rejectedFlushState) "7-1000" = [] ∧
  StorageExt.getConsoleEvents (idb rejectedFlushState) "7-1000" = [] ∧
  StorageExt.getDOMEvents (idb rejectedFlushState) "7-1000" = [] ∧
  (counted networkChannel "7-1000" rejectedFlushState,
   counted consoleChannel "7-1000" rejectedFlushState,
   counted domChannel "7-1000" rejectedFlushState) = (Some 1%N, Some 1%N, Some 1%N).
Proof. vm_compute. by repeat split. Qed.
